(* ===== verification/_CoqProject ===== *)
-Q . S2P
Prelude.v
CString.v
TlsfBits.v
TlsfModel.v
TlsfInv.v
TlsfLists.v
TlsfPhys.v
TlsfExtent.v
TlsfOps.v
TlsfTrim.v
TlsfHeap.v
TlsfPool.v
TlsfProps.v
TlsfRoom.v
Bitmap.v
Pmm.v
Heap.v
HeapBytes.v
Hashmap.v
HashmapProps.v
HashmapPut.v
Queue.v
Vmm.v
Frames.v
Io.v
Acpi.v
Interrupts.v
Pci.v
Mutex.v
Cpu.v
Process.v
Rtl8139.v
Sched.v
Vfs.v
Console.v
Exceptions.v
Threads.v
Gdt.v
Smp.v
Boot.v
Ready.v
Start.v
