(* ===== verification/Prelude.v ===== *)
(** * The Qnixx kernel: a verification library

    Qnixx is a small x86-64 kernel started by the Limine boot loader.  This
    library models its C code (the files under src/sys) as executable
    definitions and proves what its components promise.

    ** How the code is modelled

    A C function is a computation [ST S A] on the state [S] of its component
    (this file).  It is [Done] with a value and a new state, [Halt]s in a
    failed assertion or an explicit stop, is [Undef]ined where C gives it no
    meaning (null or misaligned access, an index or shift count out of range),
    or ran out of [fuel].  [wp c s Q] says that [c] completes on [s] with [Q]:
    every theorem stated with it is a statement of total correctness and of
    the absence of undefined behaviour.  [wp_or P] allows undefined behaviour
    in the situation [P] only, [wlp] is partial correctness, used for frame
    conditions ([preserves]) and invariants ([maintains]; [completes] when the
    code also comes to its end).
    Much of the code uses what [kmalloc] returns without a check.  Where the
    heap is the kernel's, theorems about such code assume that it has [room] for
    the requests made (HeapBytes.v), which is decidable from what it has handed
    out (TlsfRoom.v).  Where it is any [Allocator], [unless_exhausted] (Heap.v)
    compares the code with its run over an allocator that stops instead of
    returning null, by [wp_unless]: until a request fails it behaves as
    specified.
    Integers are [Z] with the wrap-around of their width written out ([w8],
    [w16], [w32], [w64]); shifts by too much go through the class [ShiftSem],
    so that no theorem depends on what a compiler makes of them.

    Components with state of their own have a record for it.  A component that
    calls another holds the other's record, and runs the other's operations
    through [zoom].  Devices are an instance of [Device] (Io.v): what a read or
    write does is a parameter, and the theorems that need more name the
    documented behaviour of the chip as a record of laws, with a concrete model
    of the chip in their witnesses.  Clients of the heap other than the
    processes are proved against the class [Allocator] (Heap.v); byte-addressed
    memory is the class [ByteMem] (CString.v), with words and bytes as
    instances.

    ** The parts

    - Prelude.v: outcomes, the monad, its logic, machine integers.
    - CString.v: libkern/string.c.
    - TlsfBits.v, TlsfModel.v: mm/tlsf.c, size classes and operations;
      TlsfInv.v (invariant), TlsfLists.v (free lists), TlsfPhys.v (physical
      layout), TlsfExtent.v (what the pools hold in all), TlsfOps.v, TlsfTrim.v,
      TlsfHeap.v, TlsfPool.v (operations as transitions between well-formed
      heaps), TlsfProps.v (the contract), TlsfRoom.v (what is sure to be
      served).
    - Bitmap.v: libkern/bitmap.c, lib/math.h.  Pmm.v: mm/pmm.c.
      Heap.v: mm/heap.c.  HeapBytes.v: structures in heap memory.
      Vmm.v: mm/vmm.c.  Frames.v: how pmm.c, vmm.c and heap.c share frames.
    - Hashmap.v, HashmapProps.v, HashmapPut.v: lib/hashmap.h.
      Queue.v: sys/queue.h.
    - Io.v: amd64/io.c.  Acpi.v: acpi/acpi.c.  Interrupts.v: amd64/idt.c,
      interrupts.c, ioapic.c.  Pci.v: dev/pci/pci.c.  Rtl8139.v:
      dev/net/rtl8139.c.
    - Mutex.v: sync/mutex.c.  Cpu.v: amd64/lapic.c, cpu.c, this_core of smp.c,
      dev/timer/hpet.c.  Exceptions.v: amd64/exceptions.c.  Gdt.v: amd64/gdt.c,
      tss.c.  Smp.v: amd64/smp.c.
    - Process.v: sched/process.c.  Sched.v: sched/sched.c, amd64/trap.c.
      Threads.v: the two threads of sched.c and the console they share.
    - Vfs.v: fs/vfs.c.  Console.v: tty/console.c, font.c, dev/video/fb.c.
    - Boot.v: kern_init.c, over the state of all components.  Ready.v: the
      invariants of the components through it.  Start.v: the machines on which it
      comes to its end.

    ** What is proved

    - The allocator (TlsfProps.v): from creation on, every sequence of valid
      requests completes without undefined behaviour and refines a finite map
      of live allocations; malloc, free, realloc and memalign each have their
      functional specification, a request is served whenever a block of its
      class is free (good fit), and the consistency checker accepts exactly
      well-formed heaps.  No memory is lost: which requests are served can be
      told from the size of the pool and the live allocations alone, and when
      none is live the pool is one free block again (TlsfRoom.v).  Heap.v makes
      it an [Allocator].
    - Data structures: the hash map refines a finite map through growth and
      failure; the queues refine lists.
    - Memory: the frame allocator and its initialisation on the memory map, and
      where they go wrong; mapping and unmapping change the translation of one
      page and no other; a new address space shares the kernel's half, and
      what it leaves uncleared.  Put together, every address space made after the
      first few frames are taken is the same page table, and it lies inside the
      heap (Frames.v).
    - Interrupts: gates read back as written, interrupt lines reach the vector
      of their handler through overrides and the I/O APIC, and the thirteen
      exceptions report and stop.
    - Scheduling: ids, processes and threads; the timer interrupt is one step
      of round robin; every process gets its turn; the lock excludes, and the
      messages of the two threads appear on the screen whole and in sequence
      however the timer interleaves them.
    - The network card: reception keeps the ring in order and the interrupt
      handler drains the card; what a bad packet and a transmission do; the
      driver's statics keep their types.
    - The file system keeps a tree and resolves paths in it; the console shows
      exactly what a format stands for and draws the glyphs of its font.
    - Start-up of the cores: each has tables and segments of its own; which
      ones the application processors load.
    - Start-up of the kernel: what the interrupt table holds at the end of
      [_start], whatever the devices answer; that it hands the invariant of the
      scheduler to the first timer interrupt; and, for devices that behave as
      documented, intact firmware tables and enough memory, that it comes to
      that end at all (Start.v), with a machine for which all of this is so and
      on which the whole of it is run.

    ** Fuel

    A loop whose end depends on memory or a device takes fuel, a [nat].  The
    theorems ask for enough: more than the length of the string or list walked,
    the entries of a table, the causes pending in the card, the ticks of the
    longest wait ([10] ms of HPET ticks plus one).  All other loops are
    structural or run over [seqZ].

    ** Not modelled

    - Messages: [printk] itself is modelled (Console.v) and the exception
      handlers, the two threads and kern_init.c use it; other calls of it are left
      out, for they change only the screen.  The room they need on it is not
      counted in Start.v: a long run of messages ends in the overrun of
      [newline_overruns] (Console.v).
    - The assembly stubs (amd64 *.s): interrupt entry and exit, context
      restore, CPUID and control registers.  Instructions that load tables
      (lidt, lgdt, ltr, CR3) have no further effect in the model, apart from
      the CR3 read by the page tables and the recorded TLB flushes.
    - include/limine.h, the boot protocol's declarations; what the boot loader
      answers is an argument of the code that reads it.
    - Declarations without code: include/types.h, cdefs.h, stdarg.h, limits.h,
      credentials.h, sys/errno.h, stat.h, types.h, net/ethernet.h, and the
      tables of acpi/def.h that no code reads.
    - Pages shared by accident: heap memory and page tables are separate maps,
      so a theorem about a client of the heap holds as long as no page table is
      written inside the heap.  Frames.v shows that the frame allocator does not
      guarantee it.
    - Concurrency between cores beyond the lock: each operation runs alone on
      the state; DMA of the card is memory that changes between calls. *)

From stdpp Require Export base tactics numbers list gmap.
From Stdlib Require Export ZArith Lia.

#[global] Open Scope Z_scope.

(** ** Outcomes and the state monad *)

(** What running a piece of C code can do.  [Done] is normal completion;
    [Halt] is a failed [assert] (include/lib/assert.h prints and then halts
    every core forever); [Undef] is undefined behaviour the model detects
    (null or misaligned access, array index or shift count out of range);
    [NoFuel] marks a loop whose fuel bound was too small. *)
Inductive outcome (A : Type) : Type :=
| Done (a : A)
| Halt
| Undef
| NoFuel.
Arguments Done {A} a.
Arguments Halt {A}.
Arguments Undef {A}.
Arguments NoFuel {A}.

(** Code running on a state [S]. *)
Definition ST (S A : Type) : Type := S → outcome (A * S).

#[export] Instance ST_ret S : MRet (ST S) := λ A a s, Done (a, s).
#[export] Instance ST_bind S : MBind (ST S) := λ A B f m s,
  match m s with
  | Done (a, s') => f a s'
  | Halt => Halt
  | Undef => Undef
  | NoFuel => NoFuel
  end.

Definition get {S} : ST S S := λ s, Done (s, s).
Definition gets {S A} (f : S → A) : ST S A := λ s, Done (f s, s).
Definition modify {S} (f : S → S) : ST S unit := λ s, Done (tt, f s).
Definition halt {S A} : ST S A := λ _, Halt.
Definition undef {S A} : ST S A := λ _, Undef.
Definition no_fuel {S A} : ST S A := λ _, NoFuel.

(** [assert(c)] of include/lib/assert.h. *)
Definition assert_ {S} (c : bool) : ST S unit := if c then mret tt else halt.

(** An access that is only defined when the guard [c] holds. *)
Definition guard_ {S} (c : bool) : ST S unit := if c then mret tt else undef.

(** [for (x in l) f(x)]. *)
Fixpoint for_each {S A} (l : list A) (f : A → ST S unit) : ST S unit :=
  match l with
  | [] => mret tt
  | x :: l => f x ;; for_each l f
  end.

(** The same with a local variable [acc] carried through the loop. *)
Fixpoint fold_each {S A B} (l : list A) (f : B → A → ST S B) (acc : B) : ST S B :=
  match l with
  | [] => mret acc
  | x :: l => acc' ← f acc x; fold_each l f acc'
  end.

(** Total-correctness weakest precondition: the code completes normally,
    and its result and final state satisfy [Q]. *)
Definition wp {S A} (m : ST S A) (s : S) (Q : A → S → Prop) : Prop :=
  match m s with
  | Done (a, s') => Q a s'
  | _ => False
  end.

(** ** Machine words *)

Definition w8 (x : Z) : Z := x mod 2 ^ 8.
Definition w16 (x : Z) : Z := x mod 2 ^ 16.
Definition w32 (x : Z) : Z := x mod 2 ^ 32.
Definition w64 (x : Z) : Z := x mod 2 ^ 64.

(** Conversion to [int]: two's complement wrap-around, as GCC documents it. *)
Definition i32 (x : Z) : Z := (x + 2 ^ 31) mod 2 ^ 32 - 2 ^ 31.

(** [~x] on unsigned words. *)
Definition not32 (x : Z) : Z := w32 (Z.lnot x).
Definition not64 (x : Z) : Z := w64 (Z.lnot x).

(** [x << n] on [unsigned int]; undefined when the count is out of range. *)
Definition shl_u32 {S} (x n : Z) : ST S Z :=
  if (0 <=? n) && (n <? 32) then mret (w32 (Z.shiftl x n)) else undef.

(** [x << n] on [int]: undefined when the count is out of range or the
    result does not fit. *)
Definition shl_int {S} (x n : Z) : ST S Z :=
  if (0 <=? n) && (n <? 32) && (0 <=? x) && (Z.shiftl x n <? 2 ^ 31)
  then mret (Z.shiftl x n) else undef.

(** Function update: one cell of an array or of memory is assigned. *)
Definition upd {A} (f : Z → A) (i : Z) (v : A) : Z → A :=
  λ j, if j =? i then v else f j.

(** The same for a two-dimensional array. *)
Definition upd2 {A} (f : Z → Z → A) (i j : Z) (v : A) : Z → Z → A :=
  upd f i (upd (f i) j v).

(** Code of a part [T] of the state, run inside the whole. *)
Definition zoom {S T A} (view : S → T) (put : T → S → S) (c : ST T A) : ST S A := λ s,
  match c (view s) with
  | Done (a, t) => Done (a, put t s)
  | Halt => Halt
  | Undef => Undef
  | NoFuel => NoFuel
  end.

(** Length of a list as an integer. *)
Notation zlen l := (Z.of_nat (length l)) (only parsing).

(** ** Lemmas on the monad *)

Lemma wp_intro {S A} (m : ST S A) s a s' (Q : A → S → Prop) :
  m s = Done (a, s') → Q a s' → wp m s Q.
Proof. unfold wp. by intros ->. Qed.

Lemma wp_ret {S A} (a : A) (s : S) (Q : A → S → Prop) :
  Q a s → wp (mret a) s Q.
Proof. done. Qed.

Lemma wp_bind {S A B} (m : ST S A) (f : A → ST S B) s (Q : B → S → Prop) :
  wp m s (λ a s', wp (f a) s' Q) → wp (m ≫= f) s Q.
Proof.
  unfold wp, mbind, ST_bind. by destruct (m s) as [[a s']| | |].
Qed.

Lemma wp_mono {S A} (m : ST S A) s (P Q : A → S → Prop) :
  wp m s P → (∀ a s', P a s' → Q a s') → wp m s Q.
Proof. unfold wp. destruct (m s) as [[a s']| | |]; auto. Qed.

Lemma wp_done {S A} (m : ST S A) s (Q : A → S → Prop) :
  wp m s Q → ∃ a s', m s = Done (a, s') ∧ Q a s'.
Proof. unfold wp. destruct (m s) as [[a s']| | |]; naive_solver. Qed.

Lemma wp_get {S} (s : S) (Q : S → S → Prop) : Q s s → wp get s Q.
Proof. done. Qed.

Lemma wp_gets {S A} (f : S → A) s (Q : A → S → Prop) : Q (f s) s → wp (gets f) s Q.
Proof. done. Qed.

Lemma wp_modify {S} (f : S → S) s (Q : unit → S → Prop) :
  Q tt (f s) → wp (modify f) s Q.
Proof. done. Qed.

Lemma wp_assert {S} (c : bool) (s : S) (Q : unit → S → Prop) :
  c = true → Q tt s → wp (assert_ c) s Q.
Proof. by intros ->. Qed.

Lemma wp_guard {S} (c : bool) (s : S) (Q : unit → S → Prop) :
  c = true → Q tt s → wp (guard_ c) s Q.
Proof. by intros ->. Qed.

(** Dereferencing a pointer. *)
Lemma wp_nonnull {S} (p : Z) (s : S) (Q : unit → S → Prop) :
  p ≠ 0 → Q tt s → wp (guard_ (negb (p =? 0))) s Q.
Proof. intros Hp HQ. apply wp_guard; [|done]. by destruct (Z.eqb_spec p 0). Qed.

Lemma wp_zoom {S T A} (view : S → T) (put : T → S → S) (c : ST T A) s (Q : A → S → Prop) :
  wp c (view s) (λ a t, Q a (put t s)) → wp (zoom view put c) s Q.
Proof. unfold wp, zoom. by destruct (c (view s)) as [[a t]| | |]. Qed.

Lemma wp_shl_u32 {S} x n (s : S) (Q : Z → S → Prop) :
  0 ≤ n < 32 → Q (w32 (Z.shiftl x n)) s → wp (shl_u32 x n) s Q.
Proof.
  intros Hn HQ. unfold shl_u32.
  destruct (Z.leb_spec 0 n), (Z.ltb_spec n 32); [done|lia..].
Qed.

Lemma wp_shl_int {S} x n (s : S) (Q : Z → S → Prop) :
  0 ≤ n < 32 → 0 ≤ x → Z.shiftl x n < 2 ^ 31 → Q (Z.shiftl x n) s →
  wp (shl_int x n) s Q.
Proof.
  intros Hn Hx Hlt HQ. unfold shl_int.
  destruct (Z.leb_spec 0 n), (Z.ltb_spec n 32), (Z.leb_spec 0 x),
    (Z.ltb_spec (Z.shiftl x n) (2 ^ 31)); [done|lia..].
Qed.

(** A loop keeps an invariant indexed by the elements already visited. *)
Lemma wp_for_each {S A} (I : list A → S → Prop) (l : list A) (f : A → ST S unit) s :
  I [] s →
  (∀ done x s, I done s → done ++ [x] `prefix_of` l →
     wp (f x) s (λ _ s', I (done ++ [x]) s')) →
  wp (for_each l f) s (λ _ s', I l s').
Proof.
  intros HI Hstep.
  assert (∀ rest done s, done ++ rest = l → I done s →
    wp (for_each rest f) s (λ _ s', I l s')) as H.
  { induction rest as [|x rest IH]; intros done s0 Heq HI0; simpl.
    - rewrite app_nil_r in Heq. by subst.
    - apply wp_bind. eapply wp_mono.
      + apply Hstep; [done|]. exists rest. by rewrite <- app_assoc.
      + intros [] s1 HI1. apply (IH (done ++ [x])); [|done].
        by rewrite <- app_assoc. }
  by apply (H l [] s).
Qed.

(** Completes normally; undefined behaviour is possible only under [P]. *)
Definition wp_or {S A} (P : Prop) (c : ST S A) (s : S) (Q : A → S → Prop) : Prop :=
  match c s with
  | Done (a, s') => Q a s'
  | Undef => P
  | _ => False
  end.

Lemma wp_or_wp {S A} P (c : ST S A) s Q : wp c s Q → wp_or P c s Q.
Proof. unfold wp, wp_or. by destruct (c s) as [[a s']| | |]. Qed.

Lemma wp_or_never {S A} (c : ST S A) s Q : wp_or False c s Q → wp c s Q.
Proof. unfold wp, wp_or. by destruct (c s) as [[a s']| | |]. Qed.

Lemma wp_or_bind {S A B} P (c : ST S A) (f : A → ST S B) s Q :
  wp_or P c s (λ a s', wp_or P (f a) s' Q) → wp_or P (c ≫= f) s Q.
Proof. unfold wp_or, mbind, ST_bind. by destruct (c s) as [[a s']| | |]. Qed.

Lemma wp_or_mono {S A} P (c : ST S A) s (Q Q' : A → S → Prop) :
  wp_or P c s Q → (∀ a s', Q a s' → Q' a s') → wp_or P c s Q'.
Proof. unfold wp_or. destruct (c s) as [[a s']| | |]; auto. Qed.

Lemma wp_or_step {S A B} P (c : ST S A) (f : A → ST S B) s Q :
  wp c s (λ a s', wp_or P (f a) s' Q) → wp_or P (c ≫= f) s Q.
Proof. intros Hc. by apply wp_or_bind, wp_or_wp. Qed.

Lemma wp_or_ret {S A} P (a : A) (s : S) (Q : A → S → Prop) : Q a s → wp_or P (mret a) s Q.
Proof. done. Qed.

Lemma wp_or_zoom {S T A} P (view : S → T) (put : T → S → S) (c : ST T A) s (Q : A → S → Prop) :
  wp_or P c (view s) (λ a t, Q a (put t s)) → wp_or P (zoom view put c) s Q.
Proof. unfold wp_or, zoom. by destruct (c (view s)) as [[a t]| | |]. Qed.

(** Two runs side by side: [c] completes normally, and [c'], the same code over
    a more careful environment, does the same or halts; where [c] is undefined
    [c'] halts. *)
Definition wp_unless {S A} (c' c : ST S A) (s : S) (Q : A → S → Prop) : Prop :=
  match c s with
  | Done (a, s') => Q a s' ∧ (c' s = Done (a, s') ∨ c' s = Halt)
  | Undef => c' s = Halt
  | _ => False
  end.

Lemma wp_unless_wp {S A} (c : ST S A) s Q : wp c s Q → wp_unless c c s Q.
Proof. unfold wp, wp_unless. destruct (c s) as [[a s']| | |]; naive_solver. Qed.

Lemma wp_unless_ret {S A} (a : A) (s : S) (Q : A → S → Prop) : Q a s → wp_unless (mret a) (mret a) s Q.
Proof. intros HQ. by apply wp_unless_wp, wp_ret. Qed.

Lemma wp_unless_bind {S A B} (c' c : ST S A) (f' f : A → ST S B) s Q :
  wp_unless c' c s (λ a s', wp_unless (f' a) (f a) s' Q) → wp_unless (c' ≫= f') (c ≫= f) s Q.
Proof.
  unfold wp_unless, mbind, ST_bind. destruct (c s) as [[a s']| | |]; [|done|by intros ->|done].
  intros [Hk [->| ->]]; [done|]. unfold wp_unless in Hk. destruct (f a s') as [[b s'']| | |]; naive_solver.
Qed.

Lemma wp_unless_step {S A B} (c : ST S A) (f' f : A → ST S B) s Q :
  wp c s (λ a s', wp_unless (f' a) (f a) s' Q) → wp_unless (c ≫= f') (c ≫= f) s Q.
Proof. intros Hc. by apply wp_unless_bind, wp_unless_wp. Qed.

Lemma wp_unless_mono {S A} (c' c : ST S A) s (Q Q' : A → S → Prop) :
  wp_unless c' c s Q → (∀ a s', Q a s' → Q' a s') → wp_unless c' c s Q'.
Proof. unfold wp_unless. destruct (c s) as [[a s']| | |]; naive_solver. Qed.

Lemma wp_unless_zoom {S T A} (view : S → T) (put : T → S → S) (c' c : ST T A) s (Q : A → S → Prop) :
  wp_unless c' c (view s) (λ a t, Q a (put t s)) → wp_unless (zoom view put c') (zoom view put c) s Q.
Proof. unfold wp_unless, zoom. destruct (c (view s)) as [[a t]| | |]; [|done|by intros ->|done]. by intros [? [->| ->]]; auto. Qed.

(** Where the careful run completes, so does the other. *)
Lemma wp_unless_done {S A} (c' c : ST S A) s Q a s' :
  wp_unless c' c s Q → c' s = Done (a, s') → c s = Done (a, s') ∧ Q a s'.
Proof. unfold wp_unless. intros Hc E. rewrite E in Hc. destruct (c s) as [[b t]| | |]; naive_solver. Qed.

(** A counting loop keeps an invariant indexed by its counter. *)
Lemma wp_unless_for_seqZ {S} (I : Z → S → Prop) (n : Z) (f' f : Z → ST S unit) s :
  0 ≤ n → I 0 s → (∀ i s, 0 ≤ i < n → I i s → wp_unless (f' i) (f i) s (λ _ s', I (i + 1) s')) →
  wp_unless (for_each (seqZ 0 n) f') (for_each (seqZ 0 n) f) s (λ _ s', I n s').
Proof.
  intros Hn HI Hstep.
  assert (∀ k i s, i + Z.of_nat k = n → 0 ≤ i → I i s →
    wp_unless (for_each (seqZ i (Z.of_nat k)) f') (for_each (seqZ i (Z.of_nat k)) f) s (λ _ s', I n s')) as Hl.
  { induction k as [|k IH]; intros i s0 Hik Hi HIi.
    - apply wp_unless_ret. by replace n with i by lia.
    - rewrite seqZ_cons by lia. replace (Z.pred (Z.of_nat (Datatypes.S k))) with (Z.of_nat k) by lia. simpl.
      apply wp_unless_bind. eapply wp_unless_mono; [apply Hstep; [lia|done]|]. intros [] s1 HI1.
      rewrite <- Z.add_1_r. apply IH; [lia..|done]. }
  specialize (Hl (Z.to_nat n) 0 s). rewrite Z2Nat.id in Hl by lia. by apply Hl.
Qed.

(** A counting loop keeps an invariant indexed by its counter. *)
Lemma wp_or_for_seqZ {S} P (I : Z → S → Prop) (n : Z) (f : Z → ST S unit) s :
  0 ≤ n → I 0 s → (∀ i s, 0 ≤ i < n → I i s → wp_or P (f i) s (λ _ s', I (i + 1) s')) →
  wp_or P (for_each (seqZ 0 n) f) s (λ _ s', I n s').
Proof.
  intros Hn HI Hstep.
  assert (∀ k i s, i + Z.of_nat k = n → 0 ≤ i → I i s →
    wp_or P (for_each (seqZ i (Z.of_nat k)) f) s (λ _ s', I n s')) as Hl.
  { induction k as [|k IH]; intros i s0 Hik Hi HIi.
    - apply wp_or_ret. by replace n with i by lia.
    - rewrite seqZ_cons by lia. replace (Z.pred (Z.of_nat (Datatypes.S k))) with (Z.of_nat k) by lia. simpl.
      apply wp_or_bind. eapply wp_or_mono; [apply Hstep; [lia|done]|]. intros [] s1 HI1.
      rewrite <- Z.add_1_r. apply IH; [lia..|done]. }
  specialize (Hl (Z.to_nat n) 0 s). rewrite Z2Nat.id in Hl by lia. by apply Hl.
Qed.

Lemma wp_for_seqZ {S} (I : Z → S → Prop) (n : Z) (f : Z → ST S unit) s :
  0 ≤ n → I 0 s → (∀ i s, 0 ≤ i < n → I i s → wp (f i) s (λ _ s', I (i + 1) s')) →
  wp (for_each (seqZ 0 n) f) s (λ _ s', I n s').
Proof.
  intros Hn HI Hstep. apply wp_or_never, wp_or_for_seqZ; [done..|].
  intros i s' Hi HIi. by apply wp_or_wp, Hstep.
Qed.

(** Partial correctness: if the code completes, then with [Q]. *)
Definition wlp {S A} (c : ST S A) (s : S) (Q : A → S → Prop) : Prop :=
  match c s with Done (a, s') => Q a s' | _ => True end.

Lemma wlp_ret {S A} (a : A) (s : S) (Q : A → S → Prop) : Q a s → wlp (mret a) s Q.
Proof. done. Qed.

Lemma wlp_bind {S A B} (c : ST S A) (f : A → ST S B) s Q :
  wlp c s (λ a s', wlp (f a) s' Q) → wlp (c ≫= f) s Q.
Proof. unfold wlp, mbind, ST_bind. by destruct (c s) as [[a s']| | |]. Qed.

Lemma wlp_mono {S A} (c : ST S A) s (Q Q' : A → S → Prop) :
  wlp c s Q → (∀ a s', Q a s' → Q' a s') → wlp c s Q'.
Proof. unfold wlp. destruct (c s) as [[a s']| | |]; auto. Qed.

Lemma wlp_any {S A} (c : ST S A) s (Q : A → S → Prop) : (∀ a s', Q a s') → wlp c s Q.
Proof. unfold wlp. by destruct (c s) as [[a s']| | |]. Qed.

Lemma wlp_gets {S A} (f : S → A) s (Q : A → S → Prop) : Q (f s) s → wlp (gets f) s Q.
Proof. done. Qed.

Lemma wlp_modify {S} (f : S → S) s (Q : unit → S → Prop) : Q tt (f s) → wlp (modify f) s Q.
Proof. done. Qed.

Lemma wlp_assert {S} (b : bool) (s : S) (Q : unit → S → Prop) : (b = true → Q tt s) → wlp (assert_ b) s Q.
Proof. destruct b; [|done]. intros HQ. by apply HQ. Qed.

Lemma wlp_nonnull {S} (p : Z) (s : S) (Q : unit → S → Prop) : (p ≠ 0 → Q tt s) → wlp (guard_ (negb (p =? 0))) s Q.
Proof. destruct (Z.eqb_spec p 0); [done|]. intros HQ. by apply HQ. Qed.

Lemma wlp_assert_nonnull {S} (p : Z) (s : S) (Q : unit → S → Prop) :
  (p ≠ 0 → Q tt s) → wlp (assert_ (negb (p =? 0))) s Q.
Proof. destruct (Z.eqb_spec p 0); [done|]. intros HQ. by apply HQ. Qed.

Lemma wlp_zoom {S T A} (view : S → T) (put : T → S → S) (c : ST T A) s (Q : A → S → Prop) :
  wlp c (view s) (λ a t, Q a (put t s)) → wlp (zoom view put c) s Q.
Proof. unfold wlp, zoom. by destruct (c (view s)) as [[a t]| | |]. Qed.

(** A partial statement adds to what a run promises. *)
Lemma wp_unless_wlp {S A} (c' c : ST S A) s (Q Q' : A → S → Prop) :
  wp_unless c' c s Q → wlp c s Q' → wp_unless c' c s (λ a s', Q a s' ∧ Q' a s').
Proof. unfold wp_unless, wlp. destruct (c s) as [[a s']| | |]; naive_solver. Qed.

(** A total statement is a partial one. *)
Lemma wlp_wp_or {S A} P (c : ST S A) s (Q : A → S → Prop) : wp_or P c s Q → wlp c s Q.
Proof. unfold wp_or, wlp. by destruct (c s) as [[a s']| | |]. Qed.

Lemma wlp_wp {S A} (c : ST S A) s (Q : A → S → Prop) : wp c s Q → wlp c s Q.
Proof. unfold wp, wlp. by destruct (c s) as [[a s']| | |]. Qed.

(** For a concrete run, whose completion is evaluated. *)
Definition is_done {A} (o : outcome A) : bool := match o with Done _ => true | _ => false end.

Lemma wlp_done {S A} (c : ST S A) s (Q : A → S → Prop) :
  wlp c s Q → is_done (c s) = true → ∃ a s', c s = Done (a, s') ∧ Q a s'.
Proof. unfold wlp. destruct (c s) as [[a s']| | |]; [|done..]. intros HQ _. by exists a, s'. Qed.

Lemma wlp_guard {S} (b : bool) (s : S) (Q : unit → S → Prop) : (b = true → Q tt s) → wlp (guard_ b) s Q.
Proof. destruct b; [|done]. intros HQ. by apply HQ. Qed.

Lemma wp_or_wlp {S A} P (c : ST S A) s (Q R : A → S → Prop) :
  wp_or P c s Q → wlp c s R → wp_or P c s (λ a s', Q a s' ∧ R a s').
Proof. unfold wp_or, wlp. by destruct (c s) as [[a s']| | |]. Qed.

(** Code that leaves a part [f] of the state as it was. *)
Definition preserves {S A B} (f : S → B) (c : ST S A) : Prop := ∀ s, wlp c s (λ _ s', f s' = f s).

Create HintDb preserves.

Lemma preserves_bind {S A A' B} (f : S → B) (c : ST S A) (k : A → ST S A') :
  preserves f c → (∀ a, preserves f (k a)) → preserves f (c ≫= k).
Proof.
  intros Hc Hk s. apply wlp_bind. eapply wlp_mono; [apply Hc|]. intros a s1 E.
  eapply wlp_mono; [apply Hk|]. intros a2 s2 E2. simpl in *. congruence.
Qed.

Lemma preserves_ret {S A B} (f : S → B) (a : A) : preserves f (mret (M := ST S) a).
Proof. intros s. exact (eq_refl (f s)). Qed.

Lemma preserves_gets {S A B} (f : S → B) (g : S → A) : preserves f (gets g).
Proof. intros s. exact (eq_refl (f s)). Qed.

Lemma preserves_undef {S A B} (f : S → B) : preserves f (@undef S A).
Proof. intros s. exact I. Qed.

Lemma preserves_no_fuel {S A B} (f : S → B) : preserves f (@no_fuel S A).
Proof. intros s. exact I. Qed.

Lemma preserves_halt {S A B} (f : S → B) : preserves f (@halt S A).
Proof. intros s. exact I. Qed.

Lemma preserves_guard {S B} (f : S → B) (b : bool) : preserves f (guard_ b).
Proof. intros s. destruct b; [exact (eq_refl (f s))|exact I]. Qed.

Lemma preserves_if {S A B} (f : S → B) (b : bool) (c c' : ST S A) :
  preserves f c → preserves f c' → preserves f (if b then c else c').
Proof. by destruct b. Qed.

Lemma preserves_zoom {S T A B} (f : S → B) (view : S → T) (put : T → S → S) (c : ST T A) :
  (∀ t s, f (put t s) = f s) → preserves f (zoom view put c).
Proof. intros Hf s. unfold wlp, zoom. destruct (c (view s)) as [[a t]| | |]; [apply Hf|done..]. Qed.

Lemma preserves_modify {S B} (f : S → B) (g : S → S) : (∀ s, f (g s) = f s) → preserves f (modify g).
Proof. intros Hf s. apply Hf. Qed.

Lemma preserves_for_each {S A B} (f : S → B) (l : list A) (k : A → ST S unit) :
  (∀ a, preserves f (k a)) → preserves f (for_each l k).
Proof. intros Hk. induction l as [|a l IH]; [apply preserves_ret|]. by apply preserves_bind; [apply Hk|intros _]. Qed.

Lemma preserves_option {S A B} (f : S → B) (o : option A) (c : ST S A) :
  preserves f c → preserves f (from_option mret c o).
Proof. intros Hc. destruct o; [apply preserves_ret|exact Hc]. Qed.

(** A part of the zoomed state that [c] leaves alone. *)
Lemma preserves_zoomed {S T A B} (f : S → B) (g : T → B) (view : S → T) (put : T → S → S) (c : ST T A) :
  (∀ t s, f (put t s) = g t) → (∀ s, g (view s) = f s) → preserves g c → preserves f (zoom view put c).
Proof.
  intros Hput Hview Hc s. unfold wlp, zoom. specialize (Hc (view s)). unfold wlp in Hc.
  destruct (c (view s)) as [[a t]| | |]; [|done..]. by rewrite Hput, Hc, Hview.
Qed.

(** What is left alone is known after the first part of a sequence. *)
Lemma wlp_after {S A A' B} (f : S → B) (c : ST S A) (k : A → ST S A') s (Q : A' → S → Prop) :
  preserves f c → (∀ a s', f s' = f s → wlp (k a) s' Q) → wlp (c ≫= k) s Q.
Proof. intros Hc Hk. apply wlp_bind. eapply wlp_mono; [apply Hc|exact Hk]. Qed.

#[export] Hint Resolve preserves_bind preserves_ret preserves_gets preserves_undef preserves_no_fuel preserves_halt
  preserves_guard preserves_if preserves_for_each preserves_option : preserves.
#[export] Hint Extern 1 (preserves _ (zoom _ _ _)) => apply preserves_zoom; reflexivity : preserves.
#[export] Hint Extern 1 (preserves _ (modify _)) => apply preserves_modify; reflexivity : preserves.

(** Code that keeps an invariant [I]. *)
Definition maintains {S A} (I : S → Prop) (c : ST S A) : Prop := ∀ s, I s → wlp c s (λ _ s', I s').

Lemma maintains_bind {S A B} (I : S → Prop) (c : ST S A) (k : A → ST S B) :
  maintains I c → (∀ a, maintains I (k a)) → maintains I (c ≫= k).
Proof.
  intros Hc Hk s Hs. apply wlp_bind. eapply wlp_mono; [by apply Hc|]. intros a s1 Hs1. by apply Hk.
Qed.

(** The value read may matter. *)
Lemma maintains_bind_value {S A B} (I : S → Prop) (R : A → Prop) (c : ST S A) (k : A → ST S B) :
  (∀ s, I s → wlp c s (λ a s', R a ∧ I s')) → (∀ a, R a → maintains I (k a)) → maintains I (c ≫= k).
Proof.
  intros Hc Hk s Hs. apply wlp_bind. eapply wlp_mono; [by apply Hc|]. intros a s1 [Ha Hs1]. by apply Hk.
Qed.

Lemma maintains_quiet {S A} (I : S → Prop) (c : ST S A) : preserves id c → maintains I c.
Proof. intros Hc s Hs. eapply wlp_mono; [apply Hc|]. intros a s' E. simpl in E. by rewrite E. Qed.

Lemma maintains_ret {S A} (I : S → Prop) (a : A) : maintains I (mret (M := ST S) a).
Proof. apply maintains_quiet, preserves_ret. Qed.

Lemma maintains_gets {S A} (I : S → Prop) (g : S → A) : maintains I (gets g).
Proof. apply maintains_quiet, preserves_gets. Qed.

Lemma maintains_undef {S A} (I : S → Prop) : maintains I (@undef S A).
Proof. apply maintains_quiet, preserves_undef. Qed.

Lemma maintains_no_fuel {S A} (I : S → Prop) : maintains I (@no_fuel S A).
Proof. apply maintains_quiet, preserves_no_fuel. Qed.

Lemma maintains_guard {S} (I : S → Prop) (b : bool) : maintains I (guard_ b).
Proof. apply maintains_quiet, preserves_guard. Qed.

Lemma maintains_if {S A} (I : S → Prop) (b : bool) (c c' : ST S A) :
  maintains I c → maintains I c' → maintains I (if b then c else c').
Proof. by destruct b. Qed.

Lemma maintains_modify {S} (I : S → Prop) (g : S → S) : (∀ s, I s → I (g s)) → maintains I (modify g).
Proof. intros Hg s Hs. by apply Hg. Qed.

Lemma maintains_zoom {S T A} (I : S → Prop) (view : S → T) (put : T → S → S) (c : ST T A) :
  (∀ t s, I s → I (put t s)) → maintains I (zoom view put c).
Proof. intros Hp s Hs. unfold wlp, zoom. destruct (c (view s)) as [[a t]| | |]; [by apply Hp|done..]. Qed.

(** The invariant of the whole follows from one of the part [c] runs on. *)
Lemma maintains_zoomed {S T A} (I : S → Prop) (J : T → Prop) (view : S → T) (put : T → S → S) (c : ST T A) :
  (∀ s, I s → J (view s)) → (∀ t s, I s → J t → I (put t s)) → maintains J c → maintains I (zoom view put c).
Proof.
  intros Hview Hput Hc s Hs. apply wlp_zoom. eapply wlp_mono; [by apply Hc, Hview|]. intros a t Ht. by apply Hput.
Qed.

(** An invariant of a part of the state that is left alone. *)
Lemma maintains_preserves {S A B} (f : S → B) (P : B → Prop) (c : ST S A) : preserves f c → maintains (λ s, P (f s)) c.
Proof. intros Hc s Hs. eapply wlp_mono; [apply Hc|]. intros a s' E. simpl in E. by rewrite E. Qed.

Lemma maintains_for_each {S A} (I : S → Prop) (l : list A) (f : A → ST S unit) :
  (∀ a, a ∈ l → maintains I (f a)) → maintains I (for_each l f).
Proof.
  induction l as [|a l IH]; intros Hf; [apply maintains_ret|]. apply maintains_bind; [apply Hf; left|].
  intros _. apply IH. intros b Hb. apply Hf. by right.
Qed.

#[export] Hint Resolve maintains_bind maintains_ret maintains_gets maintains_undef maintains_no_fuel maintains_guard
  maintains_if : preserves.

(** Code that completes and keeps an invariant [I]. *)
Definition completes {S A} (I : S → Prop) (c : ST S A) : Prop := ∀ s, I s → wp c s (λ _ s', I s').

Create HintDb completes.

Lemma completes_bind {S A B} (I : S → Prop) (c : ST S A) (k : A → ST S B) :
  completes I c → (∀ a, completes I (k a)) → completes I (c ≫= k).
Proof. intros Hc Hk s Hs. apply wp_bind. eapply wp_mono; [by apply Hc|]. intros a s1 Hs1. by apply Hk. Qed.

(** The value read may matter. *)
Lemma completes_bind_value {S A B} (I : S → Prop) (R : A → Prop) (c : ST S A) (k : A → ST S B) :
  (∀ s, I s → wp c s (λ a s', R a ∧ I s')) → (∀ a, R a → completes I (k a)) → completes I (c ≫= k).
Proof. intros Hc Hk s Hs. apply wp_bind. eapply wp_mono; [by apply Hc|]. intros a s1 [Ha Hs1]. by apply Hk. Qed.

Lemma completes_ret {S A} (I : S → Prop) (a : A) : completes I (mret (M := ST S) a).
Proof. by intros s Hs. Qed.

Lemma completes_gets {S A} (I : S → Prop) (g : S → A) : completes I (gets g).
Proof. by intros s Hs. Qed.

Lemma completes_modify {S} (I : S → Prop) (g : S → S) : (∀ s, I s → I (g s)) → completes I (modify g).
Proof. intros Hg s Hs. by apply Hg. Qed.

Lemma completes_if {S A} (I : S → Prop) (b : bool) (c c' : ST S A) :
  completes I c → completes I c' → completes I (if b then c else c').
Proof. by destruct b. Qed.

Lemma completes_zoomed {S T A} (I : S → Prop) (J : T → Prop) (view : S → T) (put : T → S → S) (c : ST T A) :
  (∀ s, I s → J (view s)) → (∀ t s, I s → J t → I (put t s)) → completes J c → completes I (zoom view put c).
Proof.
  intros Hview Hput Hc s Hs. apply wp_zoom. eapply wp_mono; [by apply Hc, Hview|]. intros a t Ht. by apply Hput.
Qed.

Lemma completes_for_each {S A} (I : S → Prop) (l : list A) (f : A → ST S unit) :
  (∀ a, a ∈ l → completes I (f a)) → completes I (for_each l f).
Proof.
  induction l as [|a l IH]; intros Hf; [apply completes_ret|]. apply completes_bind; [apply Hf; left|].
  intros _. apply IH. intros b Hb. apply Hf. by right.
Qed.

#[export] Hint Resolve completes_bind completes_ret completes_gets completes_if : completes.
#[export] Hint Extern 1 (completes _ (modify _)) => apply completes_modify; done : completes.

(** Total and partial statements about one run. *)
Lemma wp_wlp {S A} (c : ST S A) s (Q R : A → S → Prop) :
  wp c s Q → wlp c s R → wp c s (λ a s', Q a s' ∧ R a s').
Proof. unfold wp, wlp. by destruct (c s) as [[a s']| | |]. Qed.

(** The next part of a sequence, when only a part [f] of the state matters
    after it. *)
Lemma wp_after {S A A' B} (f : S → B) (c : ST S A) (k : A → ST S A') s (Q : A' → S → Prop) :
  wp c s (λ _ _, True) → preserves f c → (∀ a s', f s' = f s → wp (k a) s' Q) → wp (c ≫= k) s Q.
Proof.
  intros Hc Hp Hk. apply wp_bind. eapply wp_mono; [exact (wp_wlp _ _ _ _ Hc (Hp s))|]. intros a s' [_ E]. by apply Hk.
Qed.

(** A postcondition may also use the run itself. *)
Lemma wp_run {S A} (c : ST S A) s Q : wp c s Q → wp c s (λ a s', c s = Done (a, s') ∧ Q a s').
Proof. unfold wp. by destruct (c s) as [[a s']| | |]. Qed.

(** ** Lemmas on lists *)

Lemma head_filter_ext {A} (P R : A → Prop) `{∀ x, Decision (P x)} `{∀ x, Decision (R x)} (l : list A) :
  (∀ x, x ∈ l → (P x ↔ R x)) → head (filter P l) = head (filter R l).
Proof.
  induction l as [|x l IH]; intros HPR; [done|]. rewrite !filter_cons. pose proof (HPR x ltac:(left)) as Hx.
  destruct (decide (P x)), (decide (R x)); [done|tauto|tauto|]. apply IH. intros y Hy. apply HPR. by right.
Qed.

Lemma head_filter_in {A} (P : A → Prop) `{∀ x, Decision (P x)} (l : list A) x : head (filter P l) = Some x → x ∈ l ∧ P x.
Proof. intros Hx%head_Some_elem_of. apply list_elem_of_filter in Hx. tauto. Qed.

(** ** Lemmas on function update *)

Lemma upd_eq {A} (f : Z → A) i v : upd f i v i = v.
Proof. unfold upd. by rewrite Z.eqb_refl. Qed.

Lemma upd_ne {A} (f : Z → A) i j v : j ≠ i → upd f i v j = f j.
Proof. unfold upd. intros H. destruct (Z.eqb_spec j i); [lia|done]. Qed.

Lemma upd2_eq {A} (f : Z → Z → A) i j v : upd2 f i j v i j = v.
Proof. unfold upd2. by rewrite !upd_eq. Qed.

Lemma upd2_ne {A} (f : Z → Z → A) i j v i' j' :
  (i', j') ≠ (i, j) → upd2 f i j v i' j' = f i' j'.
Proof.
  intros Hne. unfold upd2. destruct (decide (i' = i)) as [->|].
  - rewrite upd_eq, upd_ne; [done|]. congruence.
  - by rewrite upd_ne.
Qed.

(** Decide every cell comparison left in the goal by arithmetic. *)
Ltac upd_cases :=
  unfold upd;
  repeat match goal with
  | |- context [?a =? ?b] =>
      first [ replace (a =? b) with true by (symmetry; apply Z.eqb_eq; lia)
            | replace (a =? b) with false by (symmetry; apply Z.eqb_neq; lia)
            | destruct (Z.eqb_spec a b) ]
  end.

(** One step of symbolic execution over the primitive statements. *)
Ltac wp_step :=
  lazymatch goal with
  | |- wp (_ ≫= _) _ _ => apply wp_bind
  | |- wp (mret _) _ _ => apply wp_ret
  | |- wp get _ _ => apply wp_get
  | |- wp (gets _) _ _ => apply wp_gets
  | |- wp (modify _) _ _ => apply wp_modify
  end; simpl.

(** ** Lemmas on words and bits *)

Lemma w64_small x : 0 ≤ x < 2 ^ 64 → w64 x = x.
Proof. apply Z.mod_small. Qed.

Lemma w32_small x : 0 ≤ x < 2 ^ 32 → w32 x = x.
Proof. apply Z.mod_small. Qed.

Lemma i32_small x : - 2 ^ 31 ≤ x < 2 ^ 31 → i32 x = x.
Proof. intros. unfold i32. rewrite Z.mod_small; lia. Qed.

Lemma w64_range x : 0 ≤ w64 x < 2 ^ 64.
Proof. by apply Z.mod_pos_bound. Qed.

Lemma w32_range x : 0 ≤ w32 x < 2 ^ 32.
Proof. by apply Z.mod_pos_bound. Qed.

Lemma testbit_high x n i : 0 ≤ x < 2 ^ n → 0 ≤ n ≤ i → Z.testbit x i = false.
Proof.
  intros Hx Hi. rewrite <- (Z.mod_small x (2 ^ n)) by done.
  apply Z.mod_pow2_bits_high. lia.
Qed.

Lemma w32_testbit x i : 0 ≤ i → Z.testbit (w32 x) i = (i <? 32) && Z.testbit x i.
Proof.
  intros. unfold w32. destruct (Z.ltb_spec i 32).
  - by rewrite Z.mod_pow2_bits_low.
  - by rewrite Z.mod_pow2_bits_high by lia.
Qed.

Lemma w64_testbit x i : 0 ≤ i → Z.testbit (w64 x) i = (i <? 64) && Z.testbit x i.
Proof.
  intros. unfold w64. destruct (Z.ltb_spec i 64).
  - by rewrite Z.mod_pow2_bits_low.
  - by rewrite Z.mod_pow2_bits_high by lia.
Qed.

(** Splitting a word at bit 3: the flag bits never reach the size bits. *)
Lemma testbit_split8 k c i :
  0 ≤ c < 8 → 0 ≤ i →
  Z.testbit (8 * k + c) i = if i <? 3 then Z.testbit c i else Z.testbit k (i - 3).
Proof.
  intros Hc Hi. destruct (Z.ltb_spec i 3).
  - rewrite <- (Z.mod_pow2_bits_low (8 * k + c) 3), <- (Z.mod_pow2_bits_low c 3) by lia.
    f_equal. change (2 ^ 3) with 8. rewrite Z.add_comm, (Z.mul_comm 8 k).
    by rewrite Z.mod_add.
  - replace i with ((i - 3) + 3) at 1 by lia.
    rewrite <- Z.shiftr_spec by lia. f_equal.
    rewrite Z.shiftr_div_pow2 by lia. change (2 ^ 3) with 8.
    rewrite Z.add_comm, (Z.mul_comm 8 k), Z.div_add by lia.
    rewrite Z.div_small by lia. lia.
Qed.

(** Case analysis on a three-bit value. *)
Ltac enum8 c :=
  let H := fresh in
  assert (c = 0 ∨ c = 1 ∨ c = 2 ∨ c = 3 ∨ c = 4 ∨ c = 5 ∨ c = 6 ∨ c = 7) as H by lia;
  destruct H as [->|[->|[->|[->|[->|[->|[->| ->]]]]]]].

Lemma lor_lnot a b : Z.land a b = 0 → Z.land (Z.lor a b) (Z.lnot b) = a.
Proof.
  intros Hab. apply Z.bits_inj'. intros i Hi. rewrite Z.land_spec, Z.lor_spec, Z.lnot_spec by done.
  assert (Z.testbit a i && Z.testbit b i = false) by (by rewrite <- Z.land_spec, Hab, Z.bits_0).
  by destruct (Z.testbit a i), (Z.testbit b i).
Qed.

Lemma lor_bound k a b : 0 ≤ a < 2 ^ k → 0 ≤ b < 2 ^ k → 0 ≤ Z.lor a b < 2 ^ k.
Proof.
  intros Ha Hb. assert (0 ≤ Z.lor a b) as Hn by (apply Z.lor_nonneg; lia). split; [done|].
  destruct (decide (k < 0)) as [Hk|Hk]; [rewrite Z.pow_neg_r in Ha by lia; lia|].
  assert (∀ x, 0 ≤ x < 2 ^ k → x ≠ 0 → Z.log2 x < k) as Hlog by (intros x Hx Hx0; apply Z.log2_lt_pow2; lia).
  destruct (decide (Z.lor a b = 0)) as [->|Hne]; [lia|]. apply Z.log2_lt_pow2; [lia|].
  rewrite Z.log2_lor by lia.
  destruct (decide (a = 0)) as [->|], (decide (b = 0)) as [->|]; [done|..].
  - pose proof (Hlog b Hb). change (Z.log2 0) with 0. pose proof (Z.log2_nonneg b). lia.
  - pose proof (Hlog a Ha). change (Z.log2 0) with 0. pose proof (Z.log2_nonneg a). lia.
  - pose proof (Hlog a Ha). pose proof (Hlog b Hb). lia.
Qed.

Lemma land_range v x k : 0 ≤ v < 2 ^ k → 0 ≤ k → 0 ≤ Z.land v x < 2 ^ k.
Proof.
  intros Hv Hk. assert (0 ≤ Z.land v x) by (apply Z.land_nonneg; lia).
  split; [done|]. rewrite <- (Z.mod_small v (2 ^ k)) by done.
  rewrite <- Z.land_ones, <- Z.land_assoc, (Z.land_comm _ x), Z.land_assoc, Z.land_ones by done.
  apply Z.mod_pos_bound. apply Z.pow_pos_nonneg; lia.
Qed.

Lemma lor_low8 k c d :
  0 ≤ c < 8 → 0 ≤ d < 8 → Z.lor (8 * k + c) d = 8 * k + Z.lor c d.
Proof.
  intros Hc Hd. apply Z.bits_inj'. intros i Hi.
  assert (0 ≤ Z.lor c d < 8) by (clear i Hi; enum8 c; enum8 d; by vm_compute).
  rewrite Z.lor_spec, !testbit_split8, Z.lor_spec by done.
  destruct (Z.ltb_spec i 3); [done|].
  rewrite (testbit_high d 3) by lia. apply orb_false_r.
Qed.

Lemma land_not64_low8 k c d :
  0 ≤ 8 * k + c < 2 ^ 64 → 0 ≤ c < 8 → 0 ≤ d < 8 →
  Z.land (8 * k + c) (not64 d) = 8 * k + Z.land c (7 - d).
Proof.
  intros Hk Hc Hd. apply Z.bits_inj'. intros i Hi.
  assert (0 ≤ Z.land c (7 - d) < 8 ∧
    ∀ j, 0 ≤ j < 3 → Z.testbit (7 - d) j = negb (Z.testbit d j)) as [Hr Hn].
  { clear i Hi Hk. split; [enum8 c; enum8 d; by vm_compute|].
    intros j Hj. assert (j = 0 ∨ j = 1 ∨ j = 2) as [->|[->| ->]] by lia; by enum8 d. }
  rewrite Z.land_spec. unfold not64. rewrite w64_testbit, Z.lnot_spec by done.
  destruct (Z.ltb_spec i 3).
  - rewrite !testbit_split8 by done.
    destruct (Z.ltb_spec i 3), (Z.ltb_spec i 64); try lia.
    rewrite Z.land_spec, Hn by lia. by destruct (Z.testbit c i), (Z.testbit d i).
  - rewrite (testbit_high d 3) by lia. destruct (Z.ltb_spec i 64).
    + rewrite !testbit_split8 by done.
      destruct (Z.ltb_spec i 3); [lia|]. by rewrite andb_true_r.
    + simpl. rewrite andb_false_r.
      rewrite !testbit_split8 by done. destruct (Z.ltb_spec i 3); [lia|].
      symmetry. apply (testbit_high _ 61); [|lia].
      assert (2 ^ 64 = 8 * 2 ^ 61) by done. lia.
Qed.

Lemma land_pow2_ne0 x n : 0 ≤ n → Z.land x (2 ^ n) ≠ 0 ↔ Z.testbit x n = true.
Proof.
  intros Hn. assert (Z.land x (2 ^ n) = if Z.testbit x n then 2 ^ n else 0) as ->.
  { apply Z.bits_inj'. intros i Hi. rewrite Z.land_spec, Z.pow2_bits_eqb by done.
    destruct (Z.eqb_spec n i) as [->|Hne].
    - destruct (Z.testbit x i); [by rewrite Z.pow2_bits_true|by rewrite Z.bits_0].
    - rewrite andb_false_r. destruct (Z.testbit x n); [|by rewrite Z.bits_0].
      by rewrite Z.pow2_bits_false. }
  destruct (Z.testbit x n); [|done]. split; [done|]. intros _.
  assert (0 < 2 ^ n) by (apply Z.pow_pos_nonneg; lia). lia.
Qed.
