(* ===== verification/CString.v ===== *)
(** sys/libkern/string.c: the byte-memory interface its routines run on, the
    memory and string routines, and the number printers. *)

From S2P Require Import Prelude.

(** ** Byte-addressed memory *)

(** What the byte routines need from a memory: reading a byte, writing a
    byte, and that a write changes exactly the byte it names. *)
Class ByteMem (M : Type) := {
  ld8 : M → Z → Z;
  st8 : M → Z → Z → M;
  ld8_range : ∀ m a, 0 ≤ ld8 m a < 256;
  ld8_st8 : ∀ m a v b, 0 ≤ v < 256 → ld8 (st8 m a v) b = if b =? a then v else ld8 m b;
}.

(** A memory stored byte by byte. *)
Record bmem := BMem { bytes : Z → Z }.

(** A memory stored as aligned 64-bit little-endian words; the word at
    address [a] covers the bytes [a .. a+7]. *)
Definition word_base (a : Z) : Z := a - a mod 8.
Definition byte_shift (a : Z) : Z := 2 ^ (8 * (a mod 8)).
Definition word_ld8 (m : Z → Z) (a : Z) : Z := (m (word_base a) / byte_shift a) mod 256.
Definition word_st8 (m : Z → Z) (a v : Z) : Z → Z :=
  upd m (word_base a) (m (word_base a) + (v - word_ld8 m a) * byte_shift a).

(** ** Memory routines *)

Section memory.
Context {M : Type} `{ByteMem M}.

Definition memset (m : M) (ptr byte n : Z) : M :=
  foldl (λ m i, st8 m (ptr + i) byte) m (seqZ 0 n).

Definition memzero (m : M) (ptr n : Z) : M :=
  foldl (λ m i, st8 m (ptr + i) 0) m (seqZ 0 n).

Definition memcpy (m : M) (dst src n : Z) : M :=
  foldl (λ m i, st8 m (dst + i) (ld8 m (src + i))) m (seqZ 0 n).

(** [while (str[slen++]);], run for at most [fuel] characters. *)
Fixpoint strlen_loop (fuel : nat) (m : M) (str slen : Z) : option Z :=
  match fuel with
  | O => None
  | S fuel => if ld8 m (str + slen) =? 0 then Some (slen + 1 - 1)
              else strlen_loop fuel m str (slen + 1)
  end.

Definition strlen (fuel : nat) (m : M) (str : Z) : option Z := strlen_loop fuel m str 0.

Fixpoint memcmp_loop (m : M) (str1 str2 : Z) (l : list Z) : Z :=
  match l with
  | [] => 0
  | i :: l => if ld8 m (str1 + i) =? ld8 m (str2 + i) then memcmp_loop m str1 str2 l else 1
  end.

Definition memcmp (m : M) (str1 str2 n : Z) : Z := memcmp_loop m str1 str2 (seqZ 0 n).

Definition strcmp (fuel : nat) (m : M) (str1 str2 : Z) : option Z :=
  len1 ← strlen fuel m str1;
  len2 ← strlen fuel m str2;
  let str1_len := w32 len1 in
  let str2_len := w32 len2 in
  if negb (str1_len =? str2_len) then Some 1
  else Some (memcmp_loop m str1 str2 (seqZ 0 str1_len)).

(** The [n] bytes starting at [p], and a NUL-terminated string at [p]. *)
Definition bytes_at (m : M) (p n : Z) : list Z := (λ i, ld8 m (p + i)) <$> seqZ 0 n.
Definition is_cstr (m : M) (p : Z) (s : list Z) : Prop :=
  bytes_at m p (zlen s) = s ∧ 0 ∉ s ∧ ld8 m (p + zlen s) = 0.

End memory.

(** ** Number printers *)

(** The static 80-byte buffers of [hex2str] and [dec2str]. *)
Definition put (i c : Z) : ST (Z → Z) unit :=
  guard_ ((0 <=? i) && (i <? 80)) ;; modify (λ b, upd b i c).

(** [for (j = 0; j < i; j++, i--) swap buf[j] buf[i]] *)
Fixpoint swap_ends (fuel : nat) (j i : Z) : ST (Z → Z) unit :=
  match fuel with
  | O => no_fuel
  | S fuel =>
      if j <? i then
        temp ← gets (λ b, b j);
        bi ← gets (λ b, b i);
        put j bi ;; put i temp ;; swap_ends fuel (w8 (j + 1)) (w8 (i - 1))
      else mret tt
  end.

(** ["0123456789ABCDEF"[nibble]] *)
Definition ascii_number (nibble : Z) : Z := if nibble <? 10 then 48 + nibble else 55 + nibble.

Fixpoint hex_loop (fuel : nat) (hex_num i : Z) : ST (Z → Z) Z :=
  match fuel with
  | O => no_fuel
  | S fuel =>
      if 0 <? hex_num then
        let nibble := Z.land (w8 hex_num) 0x0F in
        put i (ascii_number nibble) ;; hex_loop fuel (Z.shiftr hex_num 4) (w8 (i + 1))
      else mret i
  end.

Definition hex2str (hex_num : Z) : ST (Z → Z) unit :=
  i ← (if hex_num =? 0 then put 0 48 ;; put 1 0 ;; mret 1 else mret 0);
  let pad := hex_num <? 0x10 in
  i ← hex_loop 17 hex_num i;
  i ← (if pad then put i 48 ;; mret (w8 (i + 1)) else mret i);
  put i 120 ;;
  let i := w8 (i + 1) in
  put i 48 ;;
  let i := w8 (i + 1) in
  put i 0 ;;
  let i := w8 (i - 1) in
  swap_ends 80 0 i.

Fixpoint dec_loop (fuel : nat) (number i : Z) : ST (Z → Z) Z :=
  match fuel with
  | O => no_fuel
  | S fuel =>
      if 0 <? number then
        put i (number mod 10 + 48) ;; dec_loop fuel (number / 10) (w8 (i + 1))
      else mret i
  end.

(** [number] is unsigned, so the [number < 0] branch of the source is dead
    and [negative] stays 0. *)
Definition dec2str (number : Z) : ST (Z → Z) unit :=
  i ← (if number =? 0 then put 0 48 ;; mret 1 else mret 0);
  i ← dec_loop 21 number i;
  put i 0 ;;
  let i := w8 (i - 1) in
  swap_ends 80 0 i.

(** The C string a buffer holds. *)
Definition buf_str (b : Z → Z) (s : list Z) : Prop :=
  (∀ k, 0 ≤ k < zlen s → s !! Z.to_nat k = Some (b k)) ∧ b (zlen s) = 0.

(** Reference value of a digit string, most significant digit first. *)
Definition digit_val (c : Z) : Z := if c <? 58 then c - 48 else c - 55.
Definition digits_val (base : Z) (ds : list Z) : Z :=
  foldl (λ acc c, acc * base + digit_val c) 0 ds.

(** ** The two memories implement the interface *)

#[export] Program Instance bmem_ByteMem : ByteMem bmem := {|
  ld8 m a := w8 (bytes m a);
  st8 m a v := BMem (upd (bytes m) a v);
|}.
Next Obligation. intros. by apply Z.mod_pos_bound. Qed.
Next Obligation.
  intros m a v b Hv. simpl. unfold upd. destruct (b =? a); [|done].
  by apply Z.mod_small.
Qed.

Lemma word_st8_same m a v b :
  0 ≤ v < 256 → word_base b = word_base a →
  word_ld8 (word_st8 m a v) b = if b =? a then v else word_ld8 m b.
Proof.
  intros Hv Hb. unfold word_ld8 at 1, word_st8. rewrite Hb, upd_eq.
  set (w := m (word_base a)). unfold word_ld8. rewrite Hb. fold w.
  unfold word_base in Hb. pose proof (Z.mod_pos_bound a 8). pose proof (Z.mod_pos_bound b 8).
  unfold byte_shift. set (i := a mod 8) in *. set (j := b mod 8) in *.
  assert (0 < 2 ^ (8 * i)) by (apply Z.pow_pos_nonneg; lia).
  assert (0 < 2 ^ (8 * j)) by (apply Z.pow_pos_nonneg; lia).
  destruct (Z.eqb_spec b a) as [->|Hne].
  - subst i j. rewrite Z.div_add by lia. set (q := w / _).
    pose proof (Z.div_mod q 256).
    replace (q + (v - q mod 256)) with (v + q / 256 * 256) by lia.
    rewrite Z.mod_add by lia. apply Z.mod_small. lia.
  - set (x := v - _). destruct (Z.lt_ge_cases i j).
    + (* the changed byte is below: the quotient at [j] is unchanged *)
      set (W := w / 2 ^ (8 * i)) in x.
      assert (w = W mod 256 * 2 ^ (8 * i) + W / 256 * (256 * 2 ^ (8 * i)) + w mod 2 ^ (8 * i))
        as Hw.
      { pose proof (Z.div_mod w (2 ^ (8 * i)) ltac:(lia)). fold W in H3.
        pose proof (Z.div_mod W 256 ltac:(lia)). nia. }
      pose proof (Z.mod_pos_bound w (2 ^ (8 * i)) ltac:(lia)) as Hlow.
      pose proof (Z.mod_pos_bound W 256 ltac:(lia)) as Hmid.
      replace (8 * j) with (8 * (i + 1) + 8 * (j - i - 1)) by lia.
      rewrite Z.pow_add_r, <- !Z.div_div by (try apply Z.pow_nonzero; try apply Z.pow_pos_nonneg; lia).
      f_equal. f_equal.
      replace (2 ^ (8 * (i + 1))) with (256 * 2 ^ (8 * i)).
      2:{ replace (8 * (i + 1)) with (8 + 8 * i) by lia. by rewrite Z.pow_add_r by lia. }
      trans (W / 256); [|symmetry].
      * symmetry. apply (Z.div_unique _ _ _ (w mod 2 ^ (8 * i) + v * 2 ^ (8 * i))).
        { left. nia. } subst x. nia.
      * symmetry. apply (Z.div_unique _ _ _ (w mod 2 ^ (8 * i) + W mod 256 * 2 ^ (8 * i))).
        { left. nia. } nia.
    + replace (8 * i) with (8 + 8 * (i - j - 1) + 8 * j) by lia.
      rewrite !Z.pow_add_r by lia. rewrite !Z.mul_assoc, Z.div_add by lia.
      change (2 ^ 8) with 256.
      replace (x * 256 * 2 ^ (8 * (i - j - 1))) with (x * 2 ^ (8 * (i - j - 1)) * 256) by lia.
      by rewrite Z.mod_add by lia.
Qed.

#[export] Program Instance word_ByteMem : ByteMem (Z → Z) := {|
  ld8 := word_ld8; st8 := word_st8;
|}.
Next Obligation. intros. by apply Z.mod_pos_bound. Qed.
Next Obligation.
  intros m a v b Hv. destruct (decide (word_base b = word_base a)) as [Hb|Hb].
  - by apply word_st8_same.
  - unfold word_st8, word_ld8 at 1. rewrite upd_ne by done.
    destruct (Z.eqb_spec b a) as [->|]; [done|reflexivity].
Qed.

(** ** The memory routines meet their specifications *)

Lemma seqZ_succ n : 0 ≤ n → seqZ 0 (n + 1) = seqZ 0 n ++ [n].
Proof.
  intros. replace (n + 1) with (Z.of_nat (S (Z.to_nat n))) by lia.
  rewrite seqZ_S. by rewrite Z2Nat.id by done.
Qed.

Section memory_facts.
Context {M : Type} `{ByteMem M}.

Lemma memset_fill (m : M) ptr f n a :
  (∀ i, 0 ≤ f i < 256) → 0 ≤ n →
  ld8 (foldl (λ m i, st8 m (ptr + i) (f i)) m (seqZ 0 n)) a =
  if (ptr <=? a) && (a <? ptr + n) then f (a - ptr) else ld8 m a.
Proof.
  intros Hf Hn. pattern n. apply natlike_ind; [| |done].
  - simpl. destruct (Z.leb_spec ptr a), (Z.ltb_spec a (ptr + 0)); try done; lia.
  - clear n Hn. intros n Hn IH. rewrite <- Z.add_1_r, seqZ_succ, foldl_app by done. simpl.
    rewrite ld8_st8, IH by done.
    destruct (Z.eqb_spec a (ptr + n)) as [->|].
    + destruct (Z.leb_spec ptr (ptr + n)), (Z.ltb_spec (ptr + n) (ptr + (n + 1))); try lia.
      simpl. f_equal. lia.
    + destruct (Z.leb_spec ptr a), (Z.ltb_spec a (ptr + n)),
        (Z.ltb_spec a (ptr + (n + 1))); done || lia.
Qed.

Lemma memzero_ld8 (m : M) ptr n a :
  0 ≤ n →
  ld8 (memzero m ptr n) a = if (ptr <=? a) && (a <? ptr + n) then 0 else ld8 m a.
Proof. intros. by apply (memset_fill m ptr (λ _, 0)). Qed.

(** A forward copy is right for disjoint ranges and for downward overlap. *)
Lemma memcpy_ld8 (m : M) dst src n a :
  0 ≤ n → dst ≤ src ∨ src + n ≤ dst →
  ld8 (memcpy m dst src n) a =
  if (dst <=? a) && (a <? dst + n) then ld8 m (src + (a - dst)) else ld8 m a.
Proof.
  intros Hn. revert a. pattern n. apply natlike_ind; [| |done].
  - intros a _. simpl. destruct (Z.leb_spec dst a), (Z.ltb_spec a (dst + 0)); done || lia.
  - clear n Hn. intros n Hn IH a Hov. unfold memcpy in *.
    rewrite <- Z.add_1_r, seqZ_succ, foldl_app by done. simpl.
    rewrite ld8_st8, !IH by (lia || apply ld8_range).
    destruct (Z.eqb_spec a (dst + n)) as [->|].
    + destruct (Z.leb_spec dst (dst + n)), (Z.ltb_spec (dst + n) (dst + (n + 1))); try lia.
      destruct (Z.leb_spec dst (src + n)), (Z.ltb_spec (src + n) (dst + n)); try lia;
        simpl; f_equal; lia.
    + destruct (Z.leb_spec dst a), (Z.ltb_spec a (dst + n)),
        (Z.ltb_spec a (dst + (n + 1))); done || lia.
Qed.

Lemma bytes_at_lookup (m : M) p n i :
  0 ≤ i < n → bytes_at m p n !! Z.to_nat i = Some (ld8 m (p + i)).
Proof.
  intros. unfold bytes_at. rewrite list_lookup_fmap.
  rewrite (lookup_seqZ_lt 0 n (Z.to_nat i)) by lia. simpl. do 2 f_equal. lia.
Qed.

Lemma length_bytes_at (m : M) p n : length (bytes_at m p n) = Z.to_nat n.
Proof. unfold bytes_at. by rewrite length_fmap, length_seqZ. Qed.

Lemma bytes_at_eq (m : M) p1 p2 n :
  bytes_at m p1 n = bytes_at m p2 n ↔ ∀ i, 0 ≤ i < n → ld8 m (p1 + i) = ld8 m (p2 + i).
Proof.
  split.
  - intros Heq i Hi. apply (f_equal (lookup (Z.to_nat i))) in Heq.
    rewrite !bytes_at_lookup in Heq by done. by injection Heq.
  - intros Heq. apply list_fmap_ext. intros i x Hx. apply Heq.
    apply lookup_seqZ in Hx. lia.
Qed.

Lemma memcmp_loop_0 (m : M) p1 p2 l :
  memcmp_loop m p1 p2 l = 0 ↔ Forall (λ i, ld8 m (p1 + i) = ld8 m (p2 + i)) l.
Proof.
  induction l as [|i l IH]; simpl; [by split; [constructor|]|].
  rewrite Forall_cons. destruct (Z.eqb_spec (ld8 m (p1 + i)) (ld8 m (p2 + i))); intuition lia.
Qed.

Lemma memcmp_loop_01 (m : M) p1 p2 l :
  memcmp_loop m p1 p2 l = 0 ∨ memcmp_loop m p1 p2 l = 1.
Proof. induction l; simpl; [auto|]. case_match; auto. Qed.

Lemma memcmp_0 (m : M) p1 p2 n :
  memcmp m p1 p2 n = 0 ↔ bytes_at m p1 n = bytes_at m p2 n.
Proof.
  unfold memcmp. rewrite memcmp_loop_0, bytes_at_eq, Forall_forall.
  split; intros Heq i Hi; apply Heq; [apply elem_of_seqZ|apply elem_of_seqZ in Hi]; lia.
Qed.

Lemma is_cstr_ne0 (m : M) p s i : is_cstr m p s → 0 ≤ i < zlen s → ld8 m (p + i) ≠ 0.
Proof.
  intros (Hs & Hn & _) Hi Heq. apply Hn. rewrite <- Hs.
  apply list_elem_of_lookup. exists (Z.to_nat i). rewrite bytes_at_lookup by done.
  by rewrite Heq.
Qed.

Lemma strlen_cstr fuel (m : M) p s :
  is_cstr m p s → (length s < fuel)%nat → strlen fuel m p = Some (zlen s).
Proof.
  intros Hs Hf. unfold strlen.
  assert (∀ k fuel, (k ≤ length s)%nat → (k < fuel)%nat →
    strlen_loop fuel m p (zlen s - Z.of_nat k) = Some (zlen s)) as HL.
  { induction k as [|k IH]; intros fuel' Hk Hf'; destruct fuel' as [|fuel']; try lia; simpl.
    - destruct Hs as (_ & _ & H0). replace (p + (zlen s - Z.of_nat 0)) with (p + zlen s) by lia.
      rewrite H0. simpl. f_equal. lia.
    - pose proof (is_cstr_ne0 m p s (zlen s - Z.of_nat (S k)) Hs ltac:(lia)) as Hne.
      destruct (Z.eqb_spec (ld8 m (p + (zlen s - Z.of_nat (S k)))) 0); [done|].
      replace (zlen s - Z.of_nat (S k) + 1) with (zlen s - Z.of_nat k) by lia. apply IH; lia. }
  specialize (HL (length s) fuel). rewrite Z.sub_diag in HL. apply HL; lia.
Qed.

Lemma is_cstr_eq (m : M) p1 p2 s1 s2 :
  is_cstr m p1 s1 → is_cstr m p2 s2 → length s1 = length s2 →
  s1 = s2 ↔ ∀ i, 0 ≤ i < zlen s1 → ld8 m (p1 + i) = ld8 m (p2 + i).
Proof.
  intros (H1 & _) (H2 & _) Hl. rewrite <- bytes_at_eq, H1, Hl, H2. done.
Qed.

Lemma bytes_at_cons (m : M) p n : 0 ≤ n → bytes_at m p (n + 1) = ld8 m p :: bytes_at m (p + 1) n.
Proof.
  intros Hn. unfold bytes_at. rewrite seqZ_cons by lia. simpl. rewrite Z.add_0_r. f_equal.
  replace (Z.pred (n + 1)) with n by lia. change (Z.succ 0) with (1 + 0). rewrite <- (fmap_add_seqZ 1 0 n), <- list_fmap_compose.
  apply list_fmap_ext. intros k i _. simpl. f_equal. lia.
Qed.

Lemma bytes_at_snoc (m : M) p n : 0 ≤ n → bytes_at m p (n + 1) = bytes_at m p n ++ [ld8 m (p + n)].
Proof.
  intros Hn. unfold bytes_at. rewrite seqZ_app by lia. rewrite fmap_app. done.
Qed.

Lemma bytes_at_st8 (m : M) p n c : 0 ≤ n → 0 ≤ c < 256 → bytes_at (st8 m (p + n) c) p n = bytes_at m p n.
Proof.
  intros Hn Hc. apply list_fmap_ext. intros k i Hi%list_elem_of_lookup_2%elem_of_seqZ.
  rewrite ld8_st8 by done. destruct (Z.eqb_spec (p + i) (p + n)); [lia|done].
Qed.

Lemma is_cstr_nil (m : M) p : is_cstr m p [] ↔ ld8 m p = 0.
Proof.
  unfold is_cstr. simpl. rewrite Z.add_0_r. split; [by intros (_ & _ & ?)|].
  intros Hz. split; [done|]. split; [apply not_elem_of_nil|done].
Qed.

Lemma is_cstr_cons (m : M) p c l : is_cstr m p (c :: l) → ld8 m p = c ∧ c ≠ 0 ∧ is_cstr m (p + 1) l.
Proof.
  intros (Hb & Hn & He). apply not_elem_of_cons in Hn as [Hc Hl].
  replace (zlen (c :: l)) with (zlen l + 1) in * by (simpl; lia).
  rewrite bytes_at_cons in Hb by lia. injection Hb as Hh Ht. split; [done|]. split; [done|].
  split; [done|]. split; [done|]. by replace (p + 1 + zlen l) with (p + (zlen l + 1)) by lia.
Qed.

End memory_facts.

(** On word memory, the words outside an aligned range keep their values. *)
Lemma foldl_outside (m : Z → Z) ptr n x (v : (Z → Z) → Z → Z) :
  ptr mod 8 = 0 → 0 ≤ n → x < ptr ∨ ptr + n ≤ x →
  foldl (λ m i, word_st8 m (ptr + i) (v m i)) m (seqZ 0 n) x = m x.
Proof.
  intros Hd Hn Hx. revert Hx. pattern n. apply natlike_ind; [done| |done].
  clear n Hn. intros n Hn IH Hx. rewrite <- Z.add_1_r, seqZ_succ, foldl_app by done. simpl.
  unfold word_st8 at 1. rewrite upd_ne; [apply IH; lia|]. unfold word_base.
  pose proof (Z.div_mod ptr 8). pose proof (Z.div_mod (ptr + n) 8).
  pose proof (Z.mod_pos_bound (ptr + n) 8). lia.
Qed.

Lemma memcpy_outside (m : Z → Z) dst src n x :
  dst mod 8 = 0 → 0 ≤ n → x < dst ∨ dst + n ≤ x → memcpy m dst src n x = m x.
Proof. apply (foldl_outside m dst n x (λ m i, word_ld8 m (src + i))). Qed.

Lemma memzero_outside (m : Z → Z) ptr n x :
  ptr mod 8 = 0 → 0 ≤ n → x < ptr ∨ ptr + n ≤ x → memzero m ptr n x = m x.
Proof. apply (foldl_outside m ptr n x (λ _ _, 0)). Qed.

(** ** The number printers *)

Lemma wp_put i c b (Q : unit → (Z → Z) → Prop) :
  0 ≤ i < 80 → Q tt (upd b i c) → wp (put i c) b Q.
Proof.
  intros Hi HQ. unfold put. apply wp_bind, wp_guard; [lia|]. by apply wp_modify.
Qed.

(** The in-place swap loop reverses the buffer between [j] and [i]. *)
Lemma swap_ends_spec fuel j i b :
  0 ≤ j → j ≤ i + 1 → i < 80 → i - j < 2 * Z.of_nat fuel - 1 →
  wp (swap_ends fuel j i) b (λ _ b',
    ∀ k, b' k = if (j <=? k) && (k <=? i) then b (i + j - k) else b k).
Proof.
  revert j i b. induction fuel as [|fuel IH]; intros j i b Hj Hji Hi Hf; [lia|]. simpl.
  destruct (Z.ltb_spec j i).
  - do 2 wp_step. do 2 wp_step.
    apply wp_bind, wp_put; [lia|]. apply wp_bind, wp_put; [lia|].
    unfold w8. rewrite !Z.mod_small by lia.
    eapply wp_mono; [apply IH; lia|]. intros [] b' Hb' k. rewrite Hb'.
    destruct (Z.leb_spec j k), (Z.leb_spec k i), (Z.leb_spec (j + 1) k),
      (Z.leb_spec k (i - 1)); try lia; simpl; upd_cases; try lia; f_equal; lia.
  - apply wp_ret. intros k.
    destruct (Z.leb_spec j k), (Z.leb_spec k i); try done. simpl. f_equal. lia.
Qed.

(** The buffer starts with the characters [l]. *)
Definition holds (b : Z → Z) (l : list Z) : Prop :=
  ∀ k, 0 ≤ k < zlen l → l !! Z.to_nat k = Some (b k).

Lemma holds_snoc b l c : holds b l → holds (upd b (zlen l) c) (l ++ [c]).
Proof.
  intros Hb k Hk. rewrite length_app in Hk. simpl in Hk.
  destruct (decide (k = zlen l)) as [->|].
  - rewrite upd_eq, Nat2Z.id. by rewrite list_lookup_middle.
  - rewrite upd_ne by done. rewrite lookup_app_l by lia. apply Hb. lia.
Qed.

Lemma wp_put_snoc b l c i (Q : unit → (Z → Z) → Prop) :
  holds b l → i = zlen l → zlen l < 80 → (∀ b', holds b' (l ++ [c]) → Q tt b') →
  wp (put i c) b Q.
Proof. intros Hb -> Hl HQ. apply wp_put; [lia|]. by apply HQ, holds_snoc. Qed.

Lemma wp_reverse b l i (Q : unit → (Z → Z) → Prop) :
  holds b l → b (zlen l) = 0 → i = zlen l - 1 → zlen l < 80 →
  (∀ b', buf_str b' (reverse l) → Q tt b') → wp (swap_ends 80 0 i) b Q.
Proof.
  intros Hb H0 -> Hl HQ.
  eapply wp_mono; [apply swap_ends_spec; lia|]. intros [] b' Hb'. apply HQ. split.
  - intros k Hk. rewrite length_reverse in Hk. rewrite Hb'.
    destruct (Z.leb_spec 0 k), (Z.leb_spec k (zlen l - 1)); try lia. simpl.
    rewrite reverse_lookup by lia. rewrite <- Hb by lia. f_equal. lia.
  - rewrite length_reverse, Hb'.
    destruct (Z.leb_spec 0 (zlen l)), (Z.leb_spec (zlen l) (zlen l - 1)); try lia. done.
Qed.

(** Digits of a number, least significant first, printed by [dig]. *)
Fixpoint le_digits (base : Z) (dig : Z → Z) (fuel : nat) (n : Z) : list Z :=
  match fuel with
  | O => []
  | S fuel => if 0 <? n then dig (n mod base) :: le_digits base dig fuel (n / base) else []
  end.

Section digits.
Context (base : Z) (dig : Z → Z).
Context (Hbase : 2 ≤ base) (Hdig : ∀ d, 0 ≤ d < base → digit_val (dig d) = d).

Lemma le_digits_val fuel n :
  0 ≤ n < base ^ Z.of_nat fuel → digits_val base (reverse (le_digits base dig fuel n)) = n.
Proof.
  revert n. induction fuel as [|fuel IH]; intros n Hn; simpl.
  { unfold digits_val. simpl. simpl in Hn. lia. }
  destruct (Z.ltb_spec 0 n); [|unfold digits_val; simpl; lia].
  rewrite reverse_cons. unfold digits_val in *. rewrite foldl_app. simpl. rewrite IH.
  - rewrite Hdig by (apply Z.mod_pos_bound; lia). pose proof (Z.div_mod n base). lia.
  - split; [apply Z.div_pos; lia|]. apply Z.div_lt_upper_bound; [lia|].
    rewrite Nat2Z.inj_succ, Z.pow_succ_r in Hn by lia. lia.
Qed.

Lemma le_digits_length fuel n : (length (le_digits base dig fuel n) ≤ fuel)%nat.
Proof. revert n. induction fuel; intros n; simpl; [lia|]. case_match; simpl; [|lia].
  specialize (IHfuel (n / base)). lia. Qed.

Lemma le_digits_Forall fuel n (P : Z → Prop) :
  (∀ d, 0 ≤ d < base → P (dig d)) → Forall P (le_digits base dig fuel n).
Proof.
  intros HP. revert n. induction fuel as [|fuel IH]; intros n; simpl; [done|].
  case_match; [|done]. constructor; [|done]. apply HP, Z.mod_pos_bound. lia.
Qed.

(** The most significant digit of a positive number is not zero. *)
Lemma le_digits_last fuel n :
  0 < n < base ^ Z.of_nat fuel →
  ∃ d ds, le_digits base dig fuel n = ds ++ [dig d] ∧ 0 < d < base.
Proof.
  revert n. induction fuel as [|fuel IH]; intros n Hn; simpl; [simpl in Hn; lia|].
  destruct (Z.ltb_spec 0 n); [|lia].
  rewrite Nat2Z.inj_succ, Z.pow_succ_r in Hn by lia.
  destruct (Z.lt_ge_cases n base).
  - exists n, []. rewrite Z.div_small, Z.mod_small by lia. by destruct fuel.
  - destruct (IH (n / base)) as (d & ds & -> & Hd).
    { split; [apply Z.div_str_pos; lia|]. apply Z.div_lt_upper_bound; lia. }
    by exists d, (dig (n mod base) :: ds).
Qed.

End digits.

(** Both printers' digit loops write the digits at the end of the buffer. *)
Section digit_loop.
Context (base : Z) (loop : nat → Z → Z → ST (Z → Z) Z).
Context (Hbase : 2 ≤ base).
Context (Hloop : ∀ fuel n i, 0 ≤ n → loop (S fuel) n i =
  if 0 <? n then
    put i (ascii_number (n mod base)) ;; loop fuel (n / base) (w8 (i + 1))
  else mret i).

Lemma digit_loop_spec fuel fuel' n b l :
  holds b l → 0 ≤ n < base ^ Z.of_nat fuel → zlen l + Z.of_nat fuel < 80 →
  (fuel < fuel')%nat →
  wp (loop fuel' n (zlen l)) b (λ i b',
    i = zlen (l ++ le_digits base ascii_number fuel n) ∧
    holds b' (l ++ le_digits base ascii_number fuel n)).
Proof.
  revert fuel' n b l. induction fuel as [|fuel IH]; intros fuel' n b l Hb Hn Hl Hf;
    (destruct fuel' as [|fuel']; [lia|]); rewrite Hloop by lia; simpl.
  - simpl in Hn. destruct (Z.ltb_spec 0 n); [lia|]. apply wp_ret. by rewrite app_nil_r.
  - destruct (Z.ltb_spec 0 n); [|apply wp_ret; by rewrite app_nil_r].
    apply wp_bind. eapply wp_put_snoc; [done|done|lia|]. intros b' Hb'.
    unfold w8. rewrite (Z.mod_small (zlen l + 1)) by lia.
    replace (zlen l + 1) with (zlen (l ++ [ascii_number (n mod base)]))
      by (rewrite length_app; simpl; lia).
    rewrite Nat2Z.inj_succ, Z.pow_succ_r in Hn by lia.
    eapply wp_mono; [apply IH; [done| |rewrite length_app; simpl; lia|lia]|].
    { split; [apply Z.div_pos; lia|]. apply Z.div_lt_upper_bound; lia. }
    intros i b2. by rewrite <- app_assoc.
Qed.

End digit_loop.

Lemma hex_loop_step fuel n i :
  0 ≤ n → hex_loop (S fuel) n i =
  if 0 <? n then
    put i (ascii_number (n mod 16)) ;; hex_loop fuel (n / 16) (w8 (i + 1))
  else mret i.
Proof.
  intros Hn. simpl. rewrite Z.shiftr_div_pow2 by lia.
  replace (Z.land (w8 n) 0x0F) with (n mod 16); [done|].
  change 0x0F with (Z.ones 4). rewrite Z.land_ones by lia. unfold w8.
  change (2 ^ 8) with (2 ^ 4 * 16). rewrite Z.rem_mul_r by lia.
  rewrite (Z.mul_comm _ ((n / 2 ^ 4) mod 16)), Z.mod_add, Z.mod_mod by lia. done.
Qed.

Lemma dec_loop_step fuel n i :
  0 ≤ n → dec_loop (S fuel) n i =
  if 0 <? n then
    put i (ascii_number (n mod 10)) ;; dec_loop fuel (n / 10) (w8 (i + 1))
  else mret i.
Proof.
  intros Hn. simpl. replace (ascii_number (n mod 10)) with (n mod 10 + 48); [done|].
  unfold ascii_number. pose proof (Z.mod_pos_bound n 10).
  destruct (Z.ltb_spec (n mod 10) 10); lia.
Qed.

Lemma digit_val_ascii d : 0 ≤ d < 16 → digit_val (ascii_number d) = d.
Proof.
  intros. unfold digit_val, ascii_number. destruct (Z.ltb_spec d 10).
  - destruct (Z.ltb_spec (48 + d) 58); lia.
  - destruct (Z.ltb_spec (55 + d) 58); lia.
Qed.

(** [digits_ok base ds n]: [ds] is the canonical base-[base] notation of [n],
    padded to at least [width] digits. *)
Definition digits_ok (base width : Z) (ds : list Z) (n : Z) : Prop :=
  digits_val base ds = n ∧
  Forall (λ c, ∃ d, 0 ≤ d < base ∧ c = ascii_number d) ds ∧
  width ≤ zlen ds ∧
  (width < zlen ds → head ds ≠ Some 48).

Lemma le_digits_canonical base fuel n :
  2 ≤ base ≤ 16 → 0 < n < base ^ Z.of_nat fuel →
  digits_ok base 1 (reverse (le_digits base ascii_number fuel n)) n.
Proof.
  intros Hb Hn.
  destruct (le_digits_last base ascii_number ltac:(lia) fuel n Hn) as (d & ds & Hds & Hd).
  split_and!.
  - apply le_digits_val; [lia| |lia]. intros. apply digit_val_ascii. lia.
  - apply Forall_reverse. apply le_digits_Forall; [lia|]. eauto.
  - rewrite Hds, length_reverse, length_app. simpl. lia.
  - intros _. rewrite Hds, reverse_snoc. simpl. unfold ascii_number.
    destruct (Z.ltb_spec d 10); intros [=]; lia.
Qed.

(** The printers' last step: terminate the string and reverse it. *)
Lemma terminate_reverse b l i (Q : unit → (Z → Z) → Prop) :
  holds b l → i = zlen l → 1 ≤ zlen l < 79 →
  (∀ b', buf_str b' (reverse l) → Q tt b') →
  wp (put i 0 ;; swap_ends 80 0 (w8 (i - 1))) b Q.
Proof.
  intros Hb -> Hl HQ. unfold w8. rewrite Z.mod_small by lia.
  apply wp_bind, wp_put; [lia|]. eapply (wp_reverse _ l); [|apply upd_eq|lia..|done].
  intros k Hk. rewrite upd_ne by lia. by apply Hb.
Qed.

Lemma hex_tail (pad : bool) l b (Q : unit → (Z → Z) → Prop) :
  holds b l → 1 ≤ zlen l ≤ 17 →
  (∀ b', buf_str b' (48 :: 120 :: reverse (l ++ if pad then [48] else [])) → Q tt b') →
  wp (i ← (if pad then put (zlen l) 48 ;; mret (w8 (zlen l + 1)) else mret (zlen l));
      put i 120 ;;
      put (w8 (i + 1)) 48 ;;
      put (w8 (w8 (i + 1) + 1)) 0 ;;
      swap_ends 80 0 (w8 (w8 (w8 (i + 1) + 1) - 1))) b Q.
Proof.
  intros Hb Hl HQ.
  assert (∀ b l, holds b l → 1 ≤ zlen l ≤ 18 → (∀ b', buf_str b' (48 :: 120 :: reverse l) → Q tt b') →
    wp (put (zlen l) 120 ;; put (w8 (zlen l + 1)) 48 ;;
        put (w8 (w8 (zlen l + 1) + 1)) 0 ;;
        swap_ends 80 0 (w8 (w8 (w8 (zlen l + 1) + 1) - 1))) b Q) as Htail.
  { clear b l Hb Hl HQ. intros b l Hb Hl HQ.
    assert (w8 (zlen l + 1) = zlen (l ++ [120])) as ->
      by (unfold w8; rewrite Z.mod_small, length_app by lia; simpl; lia).
    apply wp_bind. eapply wp_put_snoc; [done|done|lia|]. intros b1 Hb1.
    apply wp_bind. eapply wp_put_snoc;
      [done|done|rewrite length_app; simpl; lia|]. intros b2 Hb2.
    assert (w8 (zlen (l ++ [120]) + 1) = zlen ((l ++ [120]) ++ [48])) as ->
      by (unfold w8; rewrite Z.mod_small; rewrite !length_app; simpl; lia).
    eapply terminate_reverse; [done|done|rewrite !length_app; simpl; lia|].
    intros b' Hb'. apply HQ. by rewrite !reverse_snoc in Hb'. }
  destruct pad.
  - apply wp_bind, wp_bind. eapply wp_put_snoc; [done|done|lia|]. intros b1 Hb1.
    apply wp_ret. replace (w8 (zlen l + 1)) with (zlen (l ++ [48]))
      by (unfold w8; rewrite Z.mod_small; rewrite ?length_app; simpl; lia).
    apply Htail; [done|rewrite length_app; simpl; lia|done].
  - apply wp_bind, wp_ret. rewrite app_nil_r in HQ. apply Htail; [done|lia|done].
Qed.

Lemma hex_digits_padded n :
  0 < n < 16 ^ 16 →
  digits_ok 16 2 (reverse (le_digits 16 ascii_number 16 n ++
                           (if n <? 0x10 then [48] else []))) n.
Proof.
  intros Hn. destruct (le_digits_canonical 16 16 n) as (Hv & Hf & Hw & Hh); [lia..|].
  destruct (Z.ltb_spec n 16).
  - rewrite reverse_snoc.
    assert (length (le_digits 16 ascii_number 16 n) = 1%nat) as Hl.
    { simpl. destruct (Z.ltb_spec 0 n); [|lia]. by rewrite Z.div_small by lia. }
    split_and!.
    + unfold digits_val in *. simpl. done.
    + constructor; [by exists 0|done].
    + rewrite length_cons, length_reverse, Hl. lia.
    + rewrite length_cons, length_reverse, Hl. lia.
  - rewrite app_nil_r. split_and!; [done..| |].
    + rewrite length_reverse. cbn [le_digits]. destruct (Z.ltb_spec 0 n); [|lia].
      destruct (Z.ltb_spec 0 (n / 16)); [simpl; lia|].
      pose proof (Z.div_str_pos n 16). lia.
    + intros. apply Hh. lia.
Qed.

(** The notations the printers leave in their buffers. *)
Definition hex_digits (n : Z) : list Z :=
  if n =? 0 then [48; 48]
  else reverse (le_digits 16 ascii_number 16 n ++ (if n <? 0x10 then [48] else [])).
Definition dec_digits (n : Z) : list Z :=
  if n =? 0 then [48] else reverse (le_digits 10 ascii_number 20 n).

Lemma hex_digits_ok n : 0 ≤ n < 2 ^ 64 → digits_ok 16 2 (hex_digits n) n.
Proof.
  intros Hn. unfold hex_digits. destruct (Z.eqb_spec n 0) as [->|]; [|apply hex_digits_padded; lia].
  split_and!; [done| |simpl; lia|simpl; lia]. repeat constructor; by exists 0.
Qed.

Lemma dec_digits_ok n : 0 ≤ n < 2 ^ 64 → digits_ok 10 1 (dec_digits n) n.
Proof.
  intros Hn. unfold dec_digits. destruct (Z.eqb_spec n 0) as [->|]; [|apply le_digits_canonical; lia].
  split_and!; [done| |simpl; lia|simpl; lia]. repeat constructor; by exists 0.
Qed.

Lemma wp_hex2str (n : Z) (b : Z → Z) (Q : unit → (Z → Z) → Prop) :
  0 ≤ n < 2 ^ 64 → (∀ b', buf_str b' (48 :: 120 :: hex_digits n) → Q tt b') → wp (hex2str n) b Q.
Proof.
  intros Hn HQ. pose proof (hex_digits_ok n Hn) as Hok. revert Hok HQ. unfold hex2str, hex_digits.
  destruct (Z.eqb_spec n 0) as [->|Hne]; intros Hok HQ.
  - apply wp_bind, wp_bind, wp_put; [lia|]. apply wp_bind, wp_put; [lia|].
    apply wp_ret, wp_bind, wp_ret. apply (hex_tail true [48]); [|simpl; lia|exact HQ].
    intros k Hk. simpl in Hk. assert (k = 0) as -> by lia. done.
  - apply wp_bind, wp_ret, wp_bind. eapply wp_mono.
    { apply (digit_loop_spec 16 hex_loop ltac:(lia) hex_loop_step 16 17 n b []);
        [intros k Hk; simpl in Hk; lia|lia|simpl; lia|lia]. }
    intros i b1 [-> Hb1]. rewrite app_nil_l in *.
    destruct (le_digits_canonical 16 16 n) as (_ & _ & Hw & _); [lia..|].
    pose proof (le_digits_length 16 ascii_number 16 n). rewrite length_reverse in Hw.
    eapply (hex_tail (n <? 0x10)); [done|lia|exact HQ].
Qed.

Lemma wp_dec2str (n : Z) (b : Z → Z) (Q : unit → (Z → Z) → Prop) :
  0 ≤ n < 2 ^ 64 → (∀ b', buf_str b' (dec_digits n) → Q tt b') → wp (dec2str n) b Q.
Proof.
  intros Hn. unfold dec2str, dec_digits. destruct (Z.eqb_spec n 0) as [->|Hne]; intros HQ.
  - apply wp_bind, wp_bind, wp_put; [lia|]. apply wp_ret, wp_bind, wp_ret.
    eapply (terminate_reverse _ [48]); [|done|simpl; lia|exact HQ].
    intros k Hk. simpl in Hk. assert (k = 0) as -> by lia. done.
  - apply wp_bind, wp_ret, wp_bind. eapply wp_mono.
    { apply (digit_loop_spec 10 dec_loop ltac:(lia) dec_loop_step 20 21 n b []);
        [intros k Hk; simpl in Hk; lia|lia|simpl; lia|lia]. }
    intros i b1 [-> Hb1]. rewrite app_nil_l in *.
    destruct (le_digits_canonical 10 20 n) as (? & ? & Hw & ?); [lia..|].
    pose proof (le_digits_length 10 ascii_number 20 n). rewrite length_reverse in Hw.
    eapply terminate_reverse; [done|done|lia|exact HQ].
Qed.

(** ** Properties *)

(** Cn: [hex2str] completes for every 64-bit number, whatever its static
    buffer held before, and leaves "0x" followed by the canonical upper-case
    hexadecimal notation of the number, padded to two digits; reading the
    digits back gives the number. *)
Theorem hex2str_correct (n : Z) (b : Z → Z) :
  0 ≤ n < 2 ^ 64 →
  wp (hex2str n) b (λ _ b', ∃ ds, buf_str b' (48 :: 120 :: ds) ∧ digits_ok 16 2 ds n).
Proof. intros Hn. apply wp_hex2str; [done|]. intros b' Hb. exists (hex_digits n). split; [done|by apply hex_digits_ok]. Qed.

Example hex2str_correct_witness :
  0 ≤ 0xBEEF < 2 ^ 64 ∧
  wp (hex2str 0xBEEF) (λ _, 7)
    (λ _ b', ∃ ds, buf_str b' (48 :: 120 :: ds) ∧ digits_ok 16 2 ds 0xBEEF).
Proof. split; [lia|]. apply (hex2str_correct 0xBEEF (λ _, 7)). lia. Defined.

(** Cn: [dec2str] completes for every [size_t] and leaves the canonical
    decimal notation of the number in its buffer: no leading zero, and
    reading the digits back gives the number. *)
Theorem dec2str_correct (n : Z) (b : Z → Z) :
  0 ≤ n < 2 ^ 64 →
  wp (dec2str n) b (λ _ b', ∃ ds, buf_str b' ds ∧ digits_ok 10 1 ds n).
Proof. intros Hn. apply wp_dec2str; [done|]. intros b' Hb. exists (dec_digits n). split; [done|by apply dec_digits_ok]. Qed.

Example dec2str_correct_witness :
  0 ≤ 4096 < 2 ^ 64 ∧
  wp (dec2str 4096) (λ _, 7) (λ _ b', ∃ ds, buf_str b' ds ∧ digits_ok 10 1 ds 4096).
Proof. split; [lia|]. apply (dec2str_correct 4096 (λ _, 7)). lia. Defined.

Section string_properties.
Context {M : Type} `{ByteMem M}.

(** Cn: [strcmp] on two NUL-terminated strings returns 0 exactly when they
    are equal and 1 otherwise, and it terminates: enough fuel for the longer
    string is enough. *)
Theorem strcmp_correct (m : M) fuel p1 p2 s1 s2 :
  is_cstr m p1 s1 → is_cstr m p2 s2 →
  zlen s1 < 2 ^ 32 → zlen s2 < 2 ^ 32 →
  (length s1 < fuel)%nat → (length s2 < fuel)%nat →
  strcmp fuel m p1 p2 = Some (if decide (s1 = s2) then 0 else 1).
Proof.
  intros H1 H2 L1 L2 F1 F2. unfold strcmp.
  rewrite (strlen_cstr fuel m p1 s1), (strlen_cstr fuel m p2 s2) by done. simpl.
  rewrite !w32_small by lia. destruct (Z.eqb_spec (zlen s1) (zlen s2)) as [Hl|Hl]; simpl.
  - f_equal. assert (s1 = s2 ↔ memcmp_loop m p1 p2 (seqZ 0 (zlen s1)) = 0) as Heq.
    { rewrite memcmp_loop_0, Forall_forall, (is_cstr_eq m p1 p2 s1 s2) by (done || lia).
      split; intros Hi i Hin; apply Hi; apply elem_of_seqZ || apply elem_of_seqZ in Hin; lia. }
    destruct (memcmp_loop_01 m p1 p2 (seqZ 0 (zlen s1))) as [Hc|Hc];
      case_decide; intuition congruence.
  - f_equal. case_decide; [|done]. subst. lia.
Qed.

End string_properties.

(** "ab" at 16 and "ab" at 32 of a byte memory. *)
Definition strcmp_sample : bmem :=
  BMem (λ a, if (a =? 16) || (a =? 32) then 97
             else if (a =? 17) || (a =? 33) then 98 else 0).

Example strcmp_correct_witness :
  is_cstr strcmp_sample 16 [97; 98] ∧
  strcmp 5 strcmp_sample 16 32 = Some (if decide ([97; 98] = [97; 98] :> list Z) then 0 else 1).
Proof.
  assert (∀ p, p = 16 ∨ p = 32 → is_cstr strcmp_sample p [97; 98]) as Hs.
  { intros p [-> | ->]; (split; [reflexivity|split; [|reflexivity]]);
      rewrite !not_elem_of_cons; split_and!; try done; apply not_elem_of_nil. }
  split; [apply Hs; by left|].
  apply (strcmp_correct strcmp_sample 5 16 32 [97; 98] [97; 98]);
    [apply Hs; by left|apply Hs; by right|simpl; lia..].
Defined.
