(* ===== verification/TlsfBits.v ===== *)
(** Bit scanning and size-class arithmetic of sys/mm/tlsf.c: the ffs/fls
    routines, the tuning constants, request-size adjustment and the two-level
    size-class mapping. *)

From S2P Require Import Prelude.

(** ** Compiler builtins *)

(** GCC documents [__builtin_clz(x)] as the number of leading 0-bits of a
    nonzero [unsigned int], starting at the most significant bit. *)
Definition builtin_clz (word : Z) : Z := 31 - Z.log2 word.

Fixpoint pos_ctz (p : positive) : Z :=
  match p with
  | xO p => 1 + pos_ctz p
  | _ => 0
  end.

(** GCC documents [__builtin_ffs(x)] as one plus the index of the least
    significant 1-bit, or zero when [x] is zero. *)
Definition builtin_ffs (word : Z) : Z :=
  match word with
  | Zpos p => 1 + pos_ctz p
  | _ => 0
  end.

(** ** ffs and fls (the branch GCC takes) *)

Definition tlsf_ffs (word : Z) : Z := builtin_ffs word - 1.

Definition tlsf_fls (word : Z) : Z :=
  let bit := if word =? 0 then 0 else 32 - builtin_clz word in
  bit - 1.

Definition tlsf_fls_sizet (size : Z) : Z :=
  let high := i32 (Z.shiftr size 32) in
  if negb (high =? 0) then 32 + tlsf_fls (w32 high)
  else tlsf_fls (Z.land (w32 (i32 size)) 0xffffffff).

(** ** The portable fallback implementation *)

Module Generic.

(** One halving step: shift up when the masked bits are all zero. *)
Definition step (mask shift : Z) (wb : Z * Z) : Z * Z :=
  let '(word, bit) := wb in
  if Z.land word mask =? 0 then (w32 (Z.shiftl word shift), bit - shift)
  else (word, bit).

Definition tlsf_fls_generic (word : Z) : Z :=
  let bit := if word =? 0 then 32 - 1 else 32 in
  snd (step 0x80000000 1 (step 0xc0000000 2 (step 0xf0000000 4
        (step 0xff000000 8 (step 0xffff0000 16 (word, bit)))))).

Definition ffs_fallback (word : Z) : Z :=
  tlsf_fls_generic (Z.land word (w32 (not32 word + 1))) - 1.

Definition fls_fallback (word : Z) : Z := tlsf_fls_generic word - 1.

End Generic.

(** ** Constants *)

Definition SL_INDEX_COUNT_LOG2 : Z := 5.
Definition ALIGN_SIZE_LOG2 : Z := 3.
Definition ALIGN_SIZE : Z := Z.shiftl 1 ALIGN_SIZE_LOG2.
Definition FL_INDEX_MAX : Z := 32.
Definition SL_INDEX_COUNT : Z := Z.shiftl 1 SL_INDEX_COUNT_LOG2.
Definition FL_INDEX_SHIFT : Z := SL_INDEX_COUNT_LOG2 + ALIGN_SIZE_LOG2.
Definition FL_INDEX_COUNT : Z := FL_INDEX_MAX - FL_INDEX_SHIFT + 1.
Definition SMALL_BLOCK_SIZE : Z := Z.shiftl 1 FL_INDEX_SHIFT.

(** [sizeof(block_header_t)]: three pointers and a [size_t]. *)
Definition sizeof_block_header : Z := 32.
Definition block_header_overhead : Z := 8.
Definition block_start_offset : Z := 8 + 8.
Definition block_size_min : Z := sizeof_block_header - 8.
Definition block_size_max : Z := Z.shiftl 1 FL_INDEX_MAX.

(** ** Alignment and request sizes *)

Definition align_up {S} (x align : Z) : ST S Z :=
  assert_ (Z.land align (w64 (align - 1)) =? 0) ;;
  mret (Z.land (w64 (x + w64 (align - 1))) (not64 (w64 (align - 1)))).

Definition align_down {S} (x align : Z) : ST S Z :=
  assert_ (Z.land align (w64 (align - 1)) =? 0) ;;
  mret (w64 (x - Z.land x (w64 (align - 1)))).

Definition align_ptr {S} (ptr align : Z) : ST S Z :=
  let aligned := Z.land (w64 (ptr + w64 (align - 1))) (not64 (w64 (align - 1))) in
  assert_ (Z.land align (w64 (align - 1)) =? 0) ;;
  mret aligned.

Definition adjust_request_size {S} (size align : Z) : ST S Z :=
  if negb (size =? 0) then
    aligned ← align_up size align;
    mret (if aligned <? block_size_max then Z.max aligned block_size_min else 0)
  else mret 0.

(** ** Size classes *)

Definition mapping_insert (size : Z) : Z * Z :=
  if size <? SMALL_BLOCK_SIZE then
    (0, Z.quot (i32 size) (SMALL_BLOCK_SIZE / SL_INDEX_COUNT))
  else
    let fl := tlsf_fls_sizet size in
    let sl := Z.lxor (i32 (Z.shiftr size (fl - SL_INDEX_COUNT_LOG2)))
                     (Z.shiftl 1 SL_INDEX_COUNT_LOG2) in
    (fl - (FL_INDEX_SHIFT - 1), sl).

Definition mapping_search {S} (size : Z) : ST S (Z * Z) :=
  if SMALL_BLOCK_SIZE <=? size then
    r ← shl_int 1 (tlsf_fls_sizet size - SL_INDEX_COUNT_LOG2);
    mret (mapping_insert (w64 (size + w64 (r - 1))))
  else mret (mapping_insert size).

(** The classes in closed form: class [(fl, sl)] holds the sizes from
    [class_lo fl sl] up to [class_lo fl sl + class_width fl]. *)
Definition class_width (fl : Z) : Z := if fl =? 0 then 8 else 2 ^ (fl + 2).
Definition class_lo (fl sl : Z) : Z :=
  if fl =? 0 then 8 * sl else (32 + sl) * 2 ^ (fl + 2).

Definition class_ok (fl sl : Z) : Prop :=
  0 ≤ fl < FL_INDEX_COUNT ∧ 0 ≤ sl < SL_INDEX_COUNT.

(** Class [(fl1, sl1)] is at or below [(fl2, sl2)] in search order. *)
Definition class_le (fl1 sl1 fl2 sl2 : Z) : Prop :=
  fl1 < fl2 ∨ fl1 = fl2 ∧ sl1 ≤ sl2.

(** The self-test of a debug build: each failed comparison sets a bit. *)
Definition test_ffs_fls : Z :=
  (if tlsf_ffs 0 =? -1 then 0 else 0x1) +
  (if tlsf_fls 0 =? -1 then 0 else 0x2) +
  (if tlsf_ffs 1 =? 0 then 0 else 0x4) +
  (if tlsf_fls 1 =? 0 then 0 else 0x8) +
  (if tlsf_ffs 0x80000000 =? 31 then 0 else 0x10) +
  (if tlsf_ffs 0x80008000 =? 15 then 0 else 0x20) +
  (if tlsf_fls 0x80000008 =? 31 then 0 else 0x40) +
  (if tlsf_fls 0x7FFFFFFF =? 30 then 0 else 0x80) +
  (if tlsf_fls_sizet 0x80000000 =? 31 then 0 else 0x100) +
  (if tlsf_fls_sizet 0x100000000 =? 32 then 0 else 0x200) +
  (if tlsf_fls_sizet 0xffffffffffffffff =? 63 then 0 else 0x400).

Example test_ffs_fls_passes : test_ffs_fls = 0.
Proof. reflexivity. Qed.

(** ** Facts about ffs and fls *)

Lemma pos_ctz_spec p :
  0 ≤ pos_ctz p ∧ Z.testbit (Zpos p) (pos_ctz p) = true ∧
  ∀ i, 0 ≤ i < pos_ctz p → Z.testbit (Zpos p) i = false.
Proof.
  induction p as [p IH|p IH|]; simpl pos_ctz.
  - split_and!; [lia|done|intros; lia].
  - destruct IH as (H1 & H2 & H3). rewrite (Pos2Z.pos_xO p). split_and!; [lia| |].
    + rewrite Z.add_1_l, Z.double_bits_succ. done.
    + intros i Hi. destruct (decide (i = 0)) as [->|].
      { by rewrite Z.testbit_even_0. }
      replace i with (Z.succ (i - 1)) by lia. rewrite Z.double_bits_succ.
      apply H3. lia.
  - split_and!; [lia|done|intros; lia].
Qed.

Lemma tlsf_ffs_spec word :
  0 < word →
  0 ≤ tlsf_ffs word ∧ Z.testbit word (tlsf_ffs word) = true ∧
  ∀ i, 0 ≤ i < tlsf_ffs word → Z.testbit word i = false.
Proof.
  intros H. destruct word as [|p|p]; [lia| |lia].
  unfold tlsf_ffs, builtin_ffs. replace (1 + pos_ctz p - 1) with (pos_ctz p) by lia.
  apply pos_ctz_spec.
Qed.

Lemma tlsf_ffs_lt word n : 0 < word < 2 ^ n → 0 ≤ n → 0 ≤ tlsf_ffs word < n.
Proof.
  intros H Hn. destruct (tlsf_ffs_spec word) as (H1 & H2 & _); [lia|].
  split; [done|]. destruct (Z.lt_ge_cases (tlsf_ffs word) n); [done|].
  rewrite (testbit_high _ n) in H2 by lia. done.
Qed.

Lemma tlsf_fls_log2 word : 0 < word < 2 ^ 32 → tlsf_fls word = Z.log2 word.
Proof.
  intros H. unfold tlsf_fls, builtin_clz. destruct (Z.eqb_spec word 0); lia.
Qed.

Lemma tlsf_fls_sizet_log2 size :
  0 < size < 2 ^ 63 → tlsf_fls_sizet size = Z.log2 size.
Proof.
  intros H. unfold tlsf_fls_sizet.
  assert (0 ≤ Z.shiftr size 32 < 2 ^ 31).
  { rewrite Z.shiftr_div_pow2 by lia. split; [apply Z.div_pos; lia|].
    apply Z.div_lt_upper_bound; lia. }
  rewrite i32_small by lia.
  destruct (Z.eqb_spec (Z.shiftr size 32) 0) as [Hz|Hz]; simpl.
  - rewrite Z.shiftr_div_pow2 in Hz by lia.
    assert (0 ≤ size < 2 ^ 32) by (split; [lia|]; apply Z.div_small_iff in Hz; lia).
    rewrite <- (tlsf_fls_log2 size) by lia. f_equal.
    change 0xffffffff with (Z.ones 32). rewrite Z.land_ones by lia.
    unfold w32, i32. rewrite Z.mod_mod by lia.
    rewrite Zminus_mod_idemp_l, Z.add_simpl_r. apply Z.mod_small. lia.
  - rewrite w32_small by lia. rewrite tlsf_fls_log2 by lia.
    rewrite Z.log2_shiftr by lia.
    assert (32 ≤ Z.log2 size); [|lia].
    apply Z.log2_le_pow2; [lia|].
    rewrite Z.shiftr_div_pow2 in Hz by lia.
    assert (1 ≤ size / 2 ^ 32) by (pose proof (Z.div_pos size (2 ^ 32)); lia).
    pose proof (Z.mul_div_le size (2 ^ 32)). lia.
Qed.

(** ** Facts about the mapping *)

Lemma log2_class size k :
  Z.log2 size = k → 5 ≤ k → 0 < size →
  32 ≤ size / 2 ^ (k - 5) < 64.
Proof.
  intros Hk Hk5 Hs. pose proof (Z.log2_spec size Hs) as [Hl Hh].
  rewrite Hk in Hl, Hh.
  assert (0 < 2 ^ (k - 5)) by (apply Z.pow_pos_nonneg; lia).
  replace k with (5 + (k - 5)) in Hl by lia.
  replace (Z.succ k) with (6 + (k - 5)) in Hh by lia.
  rewrite Z.pow_add_r in Hl, Hh by lia.
  split; [apply Z.div_le_lower_bound; lia|apply Z.div_lt_upper_bound; lia].
Qed.

Lemma lxor_32 x : 32 ≤ x < 64 → Z.lxor x 32 = x - 32.
Proof.
  intros H. assert (Z.lxor (x - 32) 32 = x) as Hx.
  { rewrite <- Z.add_nocarry_lxor; [lia|].
    apply Z.bits_inj'. intros i Hi. rewrite Z.land_spec, Z.bits_0.
    change 32 with (2 ^ 5). rewrite Z.pow2_bits_eqb by lia.
    destruct (Z.eqb_spec 5 i) as [<-|]; [|apply andb_false_r].
    rewrite (testbit_high _ 5) by lia. done. }
  rewrite <- Hx at 1. rewrite Z.lxor_assoc, Z.lxor_nilpotent. apply Z.lxor_0_r.
Qed.

Lemma mapping_insert_small size :
  0 ≤ size < 256 → mapping_insert size = (0, size / 8).
Proof.
  intros H. unfold mapping_insert. change SMALL_BLOCK_SIZE with 256.
  destruct (Z.ltb_spec size 256); [|lia].
  rewrite i32_small by lia. f_equal. change (256 / SL_INDEX_COUNT) with 8.
  apply Z.quot_div_nonneg; lia.
Qed.

Lemma mapping_insert_large size k :
  256 ≤ size < 2 ^ 63 → Z.log2 size = k →
  mapping_insert size = (k - 7, size / 2 ^ (k - 5) - 32).
Proof.
  intros H Hk. unfold mapping_insert. change SMALL_BLOCK_SIZE with 256.
  destruct (Z.ltb_spec size 256); [lia|].
  rewrite tlsf_fls_sizet_log2, Hk by lia.
  change (FL_INDEX_SHIFT - 1) with 7. f_equal.
  change SL_INDEX_COUNT_LOG2 with 5. change (Z.shiftl 1 5) with 32.
  assert (8 ≤ k) by (rewrite <- Hk; apply Z.log2_le_pow2; lia).
  pose proof (log2_class size k Hk ltac:(lia) ltac:(lia)).
  rewrite Z.shiftr_div_pow2 by lia. rewrite i32_small by lia.
  by apply lxor_32.
Qed.

(** The mapping puts a size exactly in the class whose interval contains it. *)
Lemma mapping_insert_class size fl sl :
  0 ≤ size < 2 ^ 63 → mapping_insert size = (fl, sl) →
  0 ≤ fl ∧ 0 ≤ sl < 32 ∧ class_lo fl sl ≤ size < class_lo fl sl + class_width fl.
Proof.
  intros H Heq. unfold class_lo, class_width.
  destruct (Z.lt_ge_cases size 256).
  - rewrite mapping_insert_small in Heq by lia. injection Heq as <- <-.
    rewrite Z.eqb_refl. pose proof (Z.div_mod size 8). pose proof (Z.mod_pos_bound size 8).
    assert (size / 8 < 32) by (apply Z.div_lt_upper_bound; lia).
    pose proof (Z.div_pos size 8). lia.
  - remember (Z.log2 size) as k eqn:Hk. symmetry in Hk.
    rewrite (mapping_insert_large size k) in Heq by (done || lia).
    injection Heq as <- <-.
    assert (8 ≤ k) by (rewrite <- Hk; apply Z.log2_le_pow2; lia).
    pose proof (log2_class size k Hk ltac:(lia) ltac:(lia)).
    destruct (Z.eqb_spec (k - 7) 0); [lia|].
    replace (k - 7 + 2) with (k - 5) by lia.
    assert (0 < 2 ^ (k - 5)) by (apply Z.pow_pos_nonneg; lia).
    pose proof (Z.div_mod size (2 ^ (k - 5)) ltac:(lia)).
    pose proof (Z.mod_pos_bound size (2 ^ (k - 5)) ltac:(lia)).
    split_and!; nia.
Qed.

(** Below [block_size_max] the class exists. *)
Lemma mapping_insert_ok size fl sl :
  0 ≤ size < block_size_max → mapping_insert size = (fl, sl) → class_ok fl sl.
Proof.
  change block_size_max with (2 ^ 32). intros H Heq.
  destruct (mapping_insert_class size fl sl) as (Hfl & Hsl & _); [lia|done|].
  split; [|done]. split; [done|]. change FL_INDEX_COUNT with 25.
  destruct (Z.lt_ge_cases size 256).
  - rewrite mapping_insert_small in Heq by lia. injection Heq as <- <-. lia.
  - rewrite (mapping_insert_large size _) in Heq by (done || lia).
    injection Heq as <- <-.
    assert (Z.log2 size < 32) by (apply Z.log2_lt_pow2; lia). lia.
Qed.

Lemma class_lo_mono fl1 sl1 fl2 sl2 :
  0 ≤ fl1 → 0 ≤ sl1 < 32 → 0 ≤ fl2 → 0 ≤ sl2 < 32 → class_le fl1 sl1 fl2 sl2 →
  class_lo fl1 sl1 ≤ class_lo fl2 sl2.
Proof.
  intros H1 H2 H3 H4 [Hlt|[-> Hle]]; unfold class_lo.
  - destruct (Z.eqb_spec fl2 0); [lia|].
    assert (2 ^ 3 ≤ 2 ^ (fl2 + 2)) by (apply Z.pow_le_mono_r; lia).
    destruct (Z.eqb_spec fl1 0); [nia|].
    assert (2 ^ (fl1 + 3) ≤ 2 ^ (fl2 + 2)) as Hp by (apply Z.pow_le_mono_r; lia).
    replace (fl1 + 3) with (1 + (fl1 + 2)) in Hp by lia.
    rewrite Z.pow_add_r in Hp by lia. nia.
  - destruct (Z.eqb_spec fl2 0); [nia|].
    assert (0 < 2 ^ (fl2 + 2)) by (apply Z.pow_pos_nonneg; lia). nia.
Qed.

(** A block filed in a class at or above [(fl, sl)] has at least the
    class's lower bound. *)
Lemma mapping_insert_ge size fl sl fl' sl' :
  0 ≤ size < 2 ^ 63 → mapping_insert size = (fl', sl') →
  0 ≤ fl → 0 ≤ sl < 32 → class_le fl sl fl' sl' → class_lo fl sl ≤ size.
Proof.
  intros H Heq Hfl Hsl Hle.
  destruct (mapping_insert_class size fl' sl') as (H1 & H2 & H3); [done..|].
  assert (class_lo fl sl ≤ class_lo fl' sl') by by apply class_lo_mono. lia.
Qed.

(** The classes are consecutive intervals, so a larger size is never filed in
    an earlier class. *)
Lemma class_lo_next fl1 sl1 fl2 sl2 :
  0 ≤ fl1 → 0 ≤ sl1 < 32 → 0 ≤ fl2 → 0 ≤ sl2 < 32 → ¬ class_le fl2 sl2 fl1 sl1 →
  class_lo fl1 sl1 + class_width fl1 ≤ class_lo fl2 sl2.
Proof.
  intros H1 H2 H3 H4 Hn. unfold class_lo, class_width, class_le in *.
  destruct (decide (fl1 = fl2)) as [<-|].
  - destruct (Z.eqb_spec fl1 0); [lia|].
    assert (0 < 2 ^ (fl1 + 2)) by (apply Z.pow_pos_nonneg; lia). nia.
  - destruct (Z.eqb_spec fl2 0); [lia|].
    assert (2 ^ 3 ≤ 2 ^ (fl2 + 2)) by (apply Z.pow_le_mono_r; lia).
    destruct (Z.eqb_spec fl1 0); [nia|].
    assert (2 ^ (fl1 + 3) ≤ 2 ^ (fl2 + 2)) as Hp by (apply Z.pow_le_mono_r; lia).
    replace (fl1 + 3) with (1 + (fl1 + 2)) in Hp by lia.
    rewrite Z.pow_add_r in Hp by lia. nia.
Qed.

Lemma mapping_insert_mono size size' fl sl fl' sl' :
  0 ≤ size → size ≤ size' → size' < 2 ^ 63 → mapping_insert size = (fl, sl) →
  mapping_insert size' = (fl', sl') → class_le fl sl fl' sl'.
Proof.
  intros H1 H2 H3 Heq Heq'.
  destruct (mapping_insert_class size fl sl) as (? & ? & ?); [lia|done|].
  destruct (mapping_insert_class size' fl' sl') as (? & ? & ?); [lia|done|].
  destruct (decide (fl < fl' ∨ fl = fl' ∧ sl ≤ sl')) as [|Hn]; [done|].
  pose proof (class_lo_next fl' sl' fl sl ltac:(done) ltac:(done) ltac:(done) ltac:(done) Hn). lia.
Qed.

(** The size whose class [mapping_search] starts from: small requests are
    exact, larger ones are rounded up by less than a 32nd. *)
Definition search_size (size : Z) : Z :=
  if size <? 256 then size else size + (2 ^ (Z.log2 size - 5) - 1).

Lemma search_size_bound size : 0 ≤ size → size ≤ search_size size < size + size / 32 + 1.
Proof.
  intros H. unfold search_size. pose proof (Z.div_pos size 32).
  destruct (Z.ltb_spec size 256); [lia|].
  pose proof (Z.log2_spec size ltac:(lia)) as [Hlo _].
  assert (8 ≤ Z.log2 size) by (apply Z.log2_le_pow2; lia).
  assert (0 < 2 ^ (Z.log2 size - 5)) by (apply Z.pow_pos_nonneg; lia).
  assert (2 ^ (Z.log2 size - 5) ≤ size / 32); [|lia].
  apply Z.div_le_lower_bound; [lia|]. change 32 with (2 ^ 5).
  rewrite <- Z.pow_add_r by lia. by replace (5 + (Z.log2 size - 5)) with (Z.log2 size) by lia.
Qed.

(** [mapping_search] rounds the request up so that every block of the class
    it returns, or of a later class, is large enough. *)
Lemma mapping_search_spec {S} size (s : S) (Q : Z * Z → S → Prop) :
  0 ≤ size < block_size_max → size mod 8 = 0 →
  (∀ fl sl, 0 ≤ fl → 0 ≤ sl < 32 → size ≤ class_lo fl sl →
     mapping_insert (search_size size) = (fl, sl) → Q (fl, sl) s) →
  wp (mapping_search size) s Q.
Proof.
  change block_size_max with (2 ^ 32). intros H H8 HQ. unfold mapping_search, search_size in *.
  change SMALL_BLOCK_SIZE with 256. destruct (Z.leb_spec 256 size).
  - remember (Z.log2 size) as k eqn:Hk. symmetry in Hk.
    rewrite tlsf_fls_sizet_log2, Hk by lia. change SL_INDEX_COUNT_LOG2 with 5.
    assert (8 ≤ k) by (rewrite <- Hk; apply Z.log2_le_pow2; lia).
    assert (k < 32) by (rewrite <- Hk; apply Z.log2_lt_pow2; lia).
    assert (2 ^ (k - 5) ≤ 2 ^ 26) by (apply Z.pow_le_mono_r; lia).
    assert (0 < 2 ^ (k - 5)) by (apply Z.pow_pos_nonneg; lia).
    apply wp_bind, wp_shl_int; rewrite ?Z.shiftl_1_l; [lia..|].
    rewrite !w64_small by (rewrite ?w64_small by lia; lia). apply wp_ret.
    set (sz := size + (2 ^ (k - 5) - 1)).
    destruct (Z.ltb_spec size 256) as [|_]; [lia|]. fold sz in HQ.
    destruct (mapping_insert sz) as [fl sl] eqn:Heq.
    destruct (mapping_insert_class sz fl sl) as (Hfl & Hsl & Hc); [lia|done|].
    apply HQ; [done..| |done].
    pose proof (Z.log2_spec size ltac:(lia)) as [_ Hhi]. rewrite Hk in Hhi.
    rewrite (mapping_insert_large sz _) in Heq by (done || lia).
    injection Heq as <- <-.
    destruct (Z.lt_ge_cases sz (2 ^ Z.succ k)) as [Hlt|Hge].
    + assert (Z.log2 sz = k) as Hk'.
      { apply Z.log2_unique; [lia|]. pose proof (Z.log2_spec size ltac:(lia)) as Hs.
        rewrite Hk in Hs. lia. }
      unfold class_lo, class_width in Hc |- *. rewrite Hk' in Hc |- *.
      destruct (Z.eqb_spec (k - 7) 0); [lia|].
      replace (k - 7 + 2) with (k - 5) in Hc |- * by lia. unfold sz in *. nia.
    + assert (Z.succ k ≤ Z.log2 sz) by (by apply Z.log2_le_pow2; lia).
      unfold class_lo in Hc |- *. destruct (Z.eqb_spec (Z.log2 sz - 7) 0); [lia|].
      assert (2 ^ (Z.succ k - 5) ≤ 2 ^ (Z.log2 sz - 7 + 2)) as Hp
        by (apply Z.pow_le_mono_r; lia).
      assert (2 ^ Z.succ k = 32 * 2 ^ (Z.succ k - 5)).
      { change 32 with (2 ^ 5). rewrite <- Z.pow_add_r by lia. f_equal. lia. }
      nia.
  - apply wp_ret. destruct (mapping_insert size) as [fl sl] eqn:Heq.
    destruct (mapping_insert_class size fl sl) as (Hfl & Hsl & _); [lia|done|].
    destruct (Z.ltb_spec size 256) as [_|]; [|lia].
    apply HQ; [done..| |done]. rewrite mapping_insert_small in Heq by lia.
    injection Heq as <- <-. unfold class_lo. simpl.
    pose proof (Z.div_mod size 8). lia.
Qed.

(** ** The portable fallback agrees with the builtins *)

Lemma land_top_mask w n :
  0 ≤ w < 2 ^ 32 → 0 ≤ n ≤ 32 → (Z.land w (2 ^ 32 - 2 ^ n) =? 0) = (w <? 2 ^ n).
Proof.
  intros Hw Hn.
  assert (Z.land w (2 ^ 32 - 2 ^ n) = Z.shiftl (Z.shiftr w n) n) as ->.
  { replace (2 ^ 32 - 2 ^ n) with (Z.shiftl (Z.ones (32 - n)) n).
    2:{ rewrite Z.shiftl_mul_pow2, Z.ones_equiv by lia.
        replace 32 with (32 - n + n) at 2 by lia. rewrite Z.pow_add_r by lia. lia. }
    apply Z.bits_inj'. intros i Hi. rewrite Z.land_spec, !Z.shiftl_spec by done.
    destruct (Z.lt_ge_cases i n).
    { rewrite !(Z.testbit_neg_r _ (i - n)) by lia. apply andb_false_r. }
    rewrite Z.shiftr_spec by lia. replace (i - n + n) with i by lia.
    destruct (Z.lt_ge_cases i 32).
    - rewrite Z.ones_spec_low by lia. apply andb_true_r.
    - by rewrite (testbit_high w 32) by lia. }
  rewrite Z.shiftl_mul_pow2, Z.shiftr_div_pow2 by lia.
  assert (0 < 2 ^ n) by (apply Z.pow_pos_nonneg; lia).
  destruct (Z.ltb_spec w (2 ^ n)).
  - by rewrite Z.div_small by lia.
  - apply Z.eqb_neq. assert (1 ≤ w / 2 ^ n) by (apply Z.div_le_lower_bound; lia). nia.
Qed.

(** One halving step keeps [log2 word + bit] and raises the floor on [log2]. *)
Lemma generic_step word bit n lo :
  0 < word < 2 ^ 32 → 0 ≤ n ≤ 32 → lo ≤ Z.log2 word → lo + (32 - n) ≤ 31 →
  n ≤ lo + (32 - n) →
  ∃ word' bit', Generic.step (2 ^ 32 - 2 ^ n) (32 - n) (word, bit) = (word', bit') ∧
    0 < word' < 2 ^ 32 ∧ Z.log2 word' + bit = Z.log2 word + 2 * bit - bit' ∧
    n ≤ Z.log2 word'.
Proof.
  intros Hw Hn Hlo H1 H2. unfold Generic.step. rewrite land_top_mask by lia.
  destruct (Z.ltb_spec word (2 ^ n)) as [Hlt|Hge].
  - do 2 eexists. split; [done|].
    assert (Z.shiftl word (32 - n) < 2 ^ 32).
    { rewrite Z.shiftl_mul_pow2 by lia. replace 32 with (n + (32 - n)) at 2 by lia.
      rewrite Z.pow_add_r by lia.
      assert (0 < 2 ^ (32 - n)) by (apply Z.pow_pos_nonneg; lia). nia. }
    assert (0 < Z.shiftl word (32 - n)).
    { rewrite Z.shiftl_mul_pow2 by lia.
      assert (0 < 2 ^ (32 - n)) by (apply Z.pow_pos_nonneg; lia). nia. }
    rewrite w32_small by lia. rewrite Z.log2_shiftl by lia. lia.
  - do 2 eexists. split; [done|].
    assert (n ≤ Z.log2 word) by (apply Z.log2_le_pow2; lia). lia.
Qed.

Lemma generic_fls_log2 word :
  0 < word < 2 ^ 32 → Generic.tlsf_fls_generic word = Z.log2 word + 1.
Proof.
  intros H. unfold Generic.tlsf_fls_generic.
  destruct (Z.eqb_spec word 0); [lia|].
  pose proof (Z.log2_nonneg word).
  destruct (generic_step word 32 16 0) as (w1 & b1 & E1 & ? & ? & ?); [lia..|].
  change (Generic.step 0xffff0000 16 (word, 32) = (w1, b1)) in E1. rewrite E1.
  destruct (generic_step w1 b1 24 16) as (w2 & b2 & E2 & ? & ? & ?); [lia..|].
  change (Generic.step 0xff000000 8 (w1, b1) = (w2, b2)) in E2. rewrite E2.
  destruct (generic_step w2 b2 28 24) as (w3 & b3 & E3 & ? & ? & ?); [lia..|].
  change (Generic.step 0xf0000000 4 (w2, b2) = (w3, b3)) in E3. rewrite E3.
  destruct (generic_step w3 b3 30 28) as (w4 & b4 & E4 & ? & ? & ?); [lia..|].
  change (Generic.step 0xc0000000 2 (w3, b3) = (w4, b4)) in E4. rewrite E4.
  destruct (generic_step w4 b4 31 30) as (w5 & b5 & E5 & ? & ? & ?); [lia..|].
  change (Generic.step 0x80000000 1 (w4, b4) = (w5, b5)) in E5. rewrite E5.
  assert (Z.log2 w5 < 32) by (apply Z.log2_lt_pow2; lia). simpl. lia.
Qed.

(** [word & -word] isolates the lowest set bit. *)
Lemma land_opp_ctz p : Z.land (Zpos p) (- Zpos p) = 2 ^ pos_ctz p.
Proof.
  induction p as [p _|p IH|]; [| |done].
  - simpl pos_ctz. apply Z.bits_inj'. intros i Hi. rewrite Z.pow_0_r.
    replace (- Zpos p~1) with (2 * Z.lnot (Zpos p) + 1) by (unfold Z.lnot; lia).
    replace (Zpos p~1) with (2 * Zpos p + 1) by lia.
    rewrite Z.land_spec. destruct (decide (i = 0)) as [->|].
    + by rewrite !Z.testbit_odd_0.
    + replace i with (Z.succ (i - 1)) by lia. rewrite !Z.testbit_odd_succ by lia.
      rewrite <- Z.land_spec, Z.land_lnot_diag, Z.bits_0.
      symmetry. apply (testbit_high 1 1); lia.
  - simpl pos_ctz. replace (- Zpos p~0) with (Z.shiftl (- Zpos p) 1)
      by (rewrite Z.shiftl_mul_pow2 by lia; lia).
    replace (Zpos p~0) with (Z.shiftl (Zpos p) 1)
      by (rewrite Z.shiftl_mul_pow2 by lia; lia).
    rewrite <- Z.shiftl_land, IH, Z.shiftl_mul_pow2 by lia.
    rewrite Z.pow_add_r by (pose proof (pos_ctz_spec p); lia). lia.
Qed.

Lemma generic_ffs_arg word :
  0 < word < 2 ^ 32 → Z.land word (w32 (not32 word + 1)) = 2 ^ tlsf_ffs word.
Proof.
  intros H. destruct word as [|p|p]; [lia| |lia].
  unfold tlsf_ffs, builtin_ffs. replace (1 + pos_ctz p - 1) with (pos_ctz p) by lia.
  rewrite <- land_opp_ctz. unfold not32, w32.
  rewrite Z.add_mod_idemp_l by lia. replace (Z.lnot (Zpos p) + 1) with (- Zpos p)
    by (unfold Z.lnot; lia).
  apply Z.bits_inj'. intros i Hi. rewrite !Z.land_spec.
  change ((- Zpos p) mod 2 ^ 32) with (w32 (- Zpos p)). rewrite w32_testbit by done.
  destruct (Z.ltb_spec i 32); [done|]. by rewrite (testbit_high (Zpos p) 32) by lia.
Qed.

(** ** Alignment and request sizes *)

Lemma land_not64_mask y k :
  0 ≤ y < 2 ^ 64 → 0 ≤ k < 64 →
  Z.land y (not64 (w64 (2 ^ k - 1))) = y - y mod 2 ^ k.
Proof.
  intros Hy Hk.
  assert (2 ^ k ≤ 2 ^ 63) by (apply Z.pow_le_mono_r; lia).
  assert (0 < 2 ^ k) by (apply Z.pow_pos_nonneg; lia).
  rewrite (w64_small (2 ^ k - 1)) by lia.
  replace (y - y mod 2 ^ k) with (Z.shiftl (Z.shiftr y k) k).
  2:{ rewrite Z.shiftl_mul_pow2, Z.shiftr_div_pow2 by lia.
      pose proof (Z.div_mod y (2 ^ k)). lia. }
  replace (2 ^ k - 1) with (Z.ones k) by (rewrite Z.ones_equiv; lia).
  apply Z.bits_inj'. intros i Hi.
  rewrite Z.land_spec, Z.shiftl_spec by done. unfold not64.
  rewrite w64_testbit, Z.lnot_spec by done.
  destruct (Z.lt_ge_cases i k).
  - rewrite Z.ones_spec_low by lia. rewrite (Z.testbit_neg_r _ (i - k)) by lia.
    by rewrite !andb_false_r.
  - rewrite Z.ones_spec_high by lia. rewrite Z.shiftr_spec by lia.
    replace (i - k + k) with i by lia. destruct (Z.ltb_spec i 64).
    + by rewrite andb_true_r.
    + by rewrite (testbit_high y 64) by lia.
Qed.

Lemma pow2_is_pow2 k : 0 ≤ k < 64 → (Z.land (2 ^ k) (w64 (2 ^ k - 1)) =? 0) = true.
Proof.
  intros Hk. apply Z.eqb_eq.
  assert (2 ^ k ≤ 2 ^ 63) by (apply Z.pow_le_mono_r; lia).
  assert (0 < 2 ^ k) by (apply Z.pow_pos_nonneg; lia).
  rewrite w64_small by lia.
  replace (2 ^ k - 1) with (Z.ones k) by (rewrite Z.ones_equiv; lia).
  rewrite Z.land_ones by lia. apply Z.mod_same. lia.
Qed.

Lemma mod_pow2_8 x k : 3 ≤ k → x mod 2 ^ k = 0 → x mod 8 = 0.
Proof.
  intros Hk Hx. apply Z.mod_divide; [lia|]. apply Z.mod_divide in Hx; [|lia].
  etrans; [|done]. exists (2 ^ (k - 3)). change 8 with (2 ^ 3).
  rewrite <- Z.pow_add_r by lia. f_equal. lia.
Qed.

(** What [adjust_request_size] returns for a power-of-two alignment. *)
Definition adjusted (size k : Z) : Z :=
  if size =? 0 then 0
  else let aligned := w64 (size + 2 ^ k - 1) - w64 (size + 2 ^ k - 1) mod 2 ^ k in
       if aligned <? 2 ^ 32 then Z.max aligned 24 else 0.

Lemma wp_adjust_request_size {S} size k (s : S) (Q : Z → S → Prop) :
  0 ≤ k < 64 → Q (adjusted size k) s → wp (adjust_request_size size (2 ^ k)) s Q.
Proof.
  intros Hk HQ. unfold adjust_request_size, adjusted in *.
  destruct (Z.eqb_spec size 0) as [->|Hne]; [done|]. cbn [negb].
  unfold align_up. apply wp_bind. apply wp_bind, wp_assert; [by apply pow2_is_pow2|].
  apply wp_ret, wp_ret. rewrite land_not64_mask by (done || apply w64_range).
  assert (2 ^ k ≤ 2 ^ 63) by (apply Z.pow_le_mono_r; lia).
  assert (0 < 2 ^ k) by (apply Z.pow_pos_nonneg; lia).
  rewrite (w64_small (2 ^ k - 1)) by lia.
  by replace (size + 2 ^ k - 1) with (size + (2 ^ k - 1)) in HQ by lia.
Qed.

Lemma adjusted_range size k :
  3 ≤ k < 64 → adjusted size k = 0 ∨
  (24 ≤ adjusted size k < 2 ^ 32 ∧ adjusted size k mod 8 = 0).
Proof.
  intros Hk. unfold adjusted. destruct (Z.eqb_spec size 0); [by left|]. cbv zeta.
  set (x := w64 _). destruct (Z.ltb_spec (x - x mod 2 ^ k) (2 ^ 32)); [right|by left].
  split; [lia|]. destruct (Z.max_spec (x - x mod 2 ^ k) 24) as [[_ ->]|[_ ->]]; [done|].
  apply (mod_pow2_8 _ k); [lia|].
  assert (0 < 2 ^ k) by (apply Z.pow_pos_nonneg; lia).
  rewrite Zminus_mod_idemp_r, Z.sub_diag. done.
Qed.

Lemma adjusted_ge size k :
  0 ≤ k < 64 → 0 ≤ size ≤ 2 ^ 64 - 2 ^ k → adjusted size k ≠ 0 → size ≤ adjusted size k.
Proof.
  intros Hk Hs. unfold adjusted. destruct (Z.eqb_spec size 0); [done|]. cbv zeta.
  assert (0 < 2 ^ k) by (apply Z.pow_pos_nonneg; lia).
  rewrite w64_small by lia.
  pose proof (Z.mod_pos_bound (size + 2 ^ k - 1) (2 ^ k)).
  case_match; [lia|done].
Qed.

(** ** What the bit routines promise *)

(** C10. The portable fallback of ffs and fls computes the same results as the
    compiler builtins on every 32-bit word, zero included. *)
Theorem generic_matches_builtin word :
  0 ≤ word < 2 ^ 32 →
  Generic.ffs_fallback word = tlsf_ffs word ∧ Generic.fls_fallback word = tlsf_fls word.
Proof.
  intros H. destruct (decide (word = 0)) as [->|]; [done|].
  unfold Generic.ffs_fallback, Generic.fls_fallback.
  split; [|rewrite generic_fls_log2, tlsf_fls_log2 by lia; lia].
  rewrite generic_ffs_arg by lia. destruct (tlsf_ffs_spec word) as (H1 & H2 & _); [lia|].
  pose proof (tlsf_ffs_lt word 32 ltac:(lia) ltac:(lia)).
  rewrite generic_fls_log2, Z.log2_pow2; [lia|done|].
  split; [apply Z.pow_pos_nonneg; lia|apply Z.pow_lt_mono_r; lia].
Qed.

Example generic_matches_builtin_witness :
  Generic.ffs_fallback 0x80008000 = tlsf_ffs 0x80008000 ∧
  Generic.fls_fallback 0x80008000 = tlsf_fls 0x80008000.
Proof. apply (generic_matches_builtin 0x80008000). lia. Defined.

(** Good-fit lookup: the class the search starts from is at most a 32nd
    above the request, every size filed at or above it satisfies the request,
    and no shift or index on the way is out of range. *)
Theorem mapping_search_good_fit {S} size (s : S) :
  24 ≤ size < 2 ^ 32 → size mod 8 = 0 →
  wp (mapping_search size) s (λ c s', s' = s ∧
    0 ≤ fst c ∧ 0 ≤ snd c < 32 ∧
    ∃ r, size ≤ r < size + size / 32 + 1 ∧ mapping_insert r = c ∧
    ∀ b fl sl, 0 ≤ b < 2 ^ 32 → mapping_insert b = (fl, sl) →
      class_le (fst c) (snd c) fl sl → class_ok fl sl ∧ size ≤ b).
Proof.
  intros H H8. apply mapping_search_spec; [change block_size_max with (2 ^ 32); lia|done|].
  intros fl sl Hfl Hsl Hlo Hm. split; [done|]. simpl. split; [lia|]. split; [lia|].
  exists (search_size size). split; [apply search_size_bound; lia|]. split; [done|].
  intros b fl' sl' Hb Heq Hle. split.
  - eapply mapping_insert_ok; [|done]. change block_size_max with (2 ^ 32). lia.
  - pose proof (mapping_insert_ge b fl sl fl' sl' ltac:(lia) Heq Hfl ltac:(lia) Hle). lia.
Qed.

Example mapping_search_good_fit_witness :
  wp (mapping_search 1000) tt (λ c s', s' = tt ∧
    0 ≤ fst c ∧ 0 ≤ snd c < 32 ∧
    ∃ r, 1000 ≤ r < 1000 + 1000 / 32 + 1 ∧ mapping_insert r = c ∧
    ∀ b fl sl, 0 ≤ b < 2 ^ 32 → mapping_insert b = (fl, sl) →
      class_le (fst c) (snd c) fl sl → class_ok fl sl ∧ 1000 ≤ b).
Proof. apply (mapping_search_good_fit 1000 tt); [lia|done]. Defined.
