(* ===== verification/TlsfModel.v ===== *)
(** The TLSF allocator of sys/mm/tlsf.c: its state and its operations,
    function by function.  Memory is kept as aligned 64-bit words; the bitmaps
    and list heads of [control_t] are kept apart from it, since no block
    overlaps them.  Every load and store is guarded: a null, misaligned or
    out-of-range access is [Undef], as is an index outside an array; a failed
    [tlsf_assert] is [Halt]. *)

From S2P Require Import Prelude CString TlsfBits.

(** ** State *)

(** Memory and the fields of [control_t] other than [block_null], which lives
    in memory at the address of the control structure itself. *)
Record tlsf := Tlsf {
  mem : Z → Z;
  fl_bitmap : Z;
  sl_bitmap : Z → Z;
  blocks : Z → Z → Z;
}.

Definition set_mem (f : (Z → Z) → Z → Z) (s : tlsf) : tlsf :=
  Tlsf (f (mem s)) (fl_bitmap s) (sl_bitmap s) (blocks s).
Definition set_fl_bitmap (v : Z) (s : tlsf) : tlsf :=
  Tlsf (mem s) v (sl_bitmap s) (blocks s).
Definition set_sl_bitmap (fl v : Z) (s : tlsf) : tlsf :=
  Tlsf (mem s) (fl_bitmap s) (upd (sl_bitmap s) fl v) (blocks s).
Definition set_blocks (fl sl v : Z) (s : tlsf) : tlsf :=
  Tlsf (mem s) (fl_bitmap s) (sl_bitmap s) (upd2 (blocks s) fl sl v).

Notation M := (ST tlsf).

(** Word access. *)
Definition addr_ok (a : Z) : bool := (0 <? a) && (a <? 2 ^ 64) && (a mod 8 =? 0).
Definition load (a : Z) : M Z := guard_ (addr_ok a) ;; gets (λ s, mem s a).
Definition store (a v : Z) : M unit :=
  guard_ (addr_ok a) ;; modify (set_mem (λ m, upd m a v)).

(** Indexing the arrays of [control_t]. *)
Definition fl_ok (fl : Z) : bool := (0 <=? fl) && (fl <? FL_INDEX_COUNT).
Definition sl_ok (sl : Z) : bool := (0 <=? sl) && (sl <? SL_INDEX_COUNT).
Definition get_sl_bitmap (fl : Z) : M Z := guard_ (fl_ok fl) ;; gets (λ s, sl_bitmap s fl).
Definition put_sl_bitmap (fl v : Z) : M unit :=
  guard_ (fl_ok fl) ;; modify (set_sl_bitmap fl v).
Definition get_blocks (fl sl : Z) : M Z :=
  guard_ (fl_ok fl && sl_ok sl) ;; gets (λ s, blocks s fl sl).
Definition put_blocks (fl sl v : Z) : M unit :=
  guard_ (fl_ok fl && sl_ok sl) ;; modify (set_blocks fl sl v).

(** ** Block headers *)

(** Fields of [block_header_t]. *)
Definition prev_phys_block (block : Z) : Z := block.
Definition size_field (block : Z) : Z := w64 (block + 8).
Definition next_free (block : Z) : Z := w64 (block + 16).
Definition prev_free (block : Z) : Z := w64 (block + 24).

Definition block_header_free_bit : Z := Z.shiftl 1 0.
Definition block_header_prev_free_bit : Z := Z.shiftl 1 1.

Definition block_size (block : Z) : M Z :=
  w ← load (size_field block);
  mret (Z.land w (not64 (Z.lor block_header_free_bit block_header_prev_free_bit))).

Definition block_set_size (block size : Z) : M unit :=
  oldsize ← load (size_field block);
  store (size_field block)
    (Z.lor size (Z.land oldsize (Z.lor block_header_free_bit block_header_prev_free_bit))).

Definition block_is_last (block : Z) : M bool :=
  sz ← block_size block; mret (sz =? 0).

Definition block_is_free (block : Z) : M bool :=
  w ← load (size_field block);
  mret (negb (Z.land w block_header_free_bit =? 0)).

Definition block_set_free (block : Z) : M unit :=
  w ← load (size_field block);
  store (size_field block) (Z.lor w block_header_free_bit).

Definition block_set_used (block : Z) : M unit :=
  w ← load (size_field block);
  store (size_field block) (Z.land w (not64 block_header_free_bit)).

Definition block_is_prev_free (block : Z) : M bool :=
  w ← load (size_field block);
  mret (negb (Z.land w block_header_prev_free_bit =? 0)).

Definition block_set_prev_free (block : Z) : M unit :=
  w ← load (size_field block);
  store (size_field block) (Z.lor w block_header_prev_free_bit).

Definition block_set_prev_used (block : Z) : M unit :=
  w ← load (size_field block);
  store (size_field block) (Z.land w (not64 block_header_prev_free_bit)).

Definition block_from_ptr (ptr : Z) : Z := w64 (ptr - block_start_offset).
Definition block_to_ptr (block : Z) : Z := w64 (block + block_start_offset).
Definition offset_to_block (ptr size : Z) : Z := w64 (ptr + size).

Definition block_prev (block : Z) : M Z :=
  pf ← block_is_prev_free block;
  assert_ pf ;;
  load (prev_phys_block block).

Definition block_next (block : Z) : M Z :=
  sz ← block_size block;
  let next := offset_to_block (block_to_ptr block) (w64 (sz - block_header_overhead)) in
  last ← block_is_last block;
  assert_ (negb last) ;;
  mret next.

Definition block_link_next (block : Z) : M Z :=
  next ← block_next block;
  store (prev_phys_block next) block ;;
  mret next.

Definition block_mark_as_free (block : Z) : M unit :=
  next ← block_link_next block;
  block_set_prev_free next ;;
  block_set_free block.

Definition block_mark_as_used (block : Z) : M unit :=
  next ← block_next block;
  block_set_prev_used next ;;
  block_set_used block.

Definition block_can_split (block size : Z) : M bool :=
  sz ← block_size block;
  mret (w64 (sizeof_block_header + size) <=? sz).

Definition assert_aligned (block : Z) : M unit :=
  p ← align_ptr (block_to_ptr block) ALIGN_SIZE;
  assert_ (block_to_ptr block =? p).

Definition block_split (block size : Z) : M Z :=
  let remaining :=
    offset_to_block (block_to_ptr block) (w64 (size - block_header_overhead)) in
  sz ← block_size block;
  let remain_size := w64 (sz - w64 (size + block_header_overhead)) in
  assert_aligned remaining ;;
  sz ← block_size block;
  assert_ (sz =? w64 (remain_size + size + block_header_overhead)) ;;
  block_set_size remaining remain_size ;;
  rsz ← block_size remaining;
  assert_ (block_size_min <=? rsz) ;;
  block_set_size block size ;;
  block_mark_as_free remaining ;;
  mret remaining.

Definition block_absorb (prev block : Z) : M Z :=
  last ← block_is_last prev;
  assert_ (negb last) ;;
  sz ← block_size block;
  w ← load (size_field prev);
  store (size_field prev) (w64 (w + w64 (sz + block_header_overhead))) ;;
  block_link_next prev ;;
  mret prev.

Section control.
(** The address of the [control_t], which is that of its [block_null]. *)
Context (control : Z).

(** ** Free lists *)

Definition search_suitable_block (fl sl : Z) : M (Z * Z * Z) :=
  slb ← get_sl_bitmap fl;
  mask ← shl_u32 (not32 0) sl;
  let sl_map := Z.land slb mask in
  if sl_map =? 0 then
    flb ← gets fl_bitmap;
    mask ← shl_u32 (not32 0) (fl + 1);
    let fl_map := Z.land flb mask in
    if fl_map =? 0 then mret (0, fl, sl)
    else
      let fl := tlsf_ffs fl_map in
      sl_map ← get_sl_bitmap fl;
      assert_ (negb (sl_map =? 0)) ;;
      let sl := tlsf_ffs sl_map in
      block ← get_blocks fl sl;
      mret (block, fl, sl)
  else
    assert_ (negb (sl_map =? 0)) ;;
    let sl := tlsf_ffs sl_map in
    block ← get_blocks fl sl;
    mret (block, fl, sl).

Definition remove_free_block (block fl sl : Z) : M unit :=
  prev ← load (prev_free block);
  next ← load (next_free block);
  assert_ (negb (prev =? 0)) ;;
  assert_ (negb (next =? 0)) ;;
  store (prev_free next) prev ;;
  store (next_free prev) next ;;
  head ← get_blocks fl sl;
  if head =? block then
    put_blocks fl sl next ;;
    if next =? control then
      slb ← get_sl_bitmap fl;
      slbit ← shl_u32 1 sl;
      put_sl_bitmap fl (Z.land slb (not32 slbit)) ;;
      slb ← get_sl_bitmap fl;
      if slb =? 0 then
        flb ← gets fl_bitmap;
        flbit ← shl_u32 1 fl;
        modify (set_fl_bitmap (Z.land flb (not32 flbit)))
      else mret tt
    else mret tt
  else mret tt.

Definition insert_free_block (block fl sl : Z) : M unit :=
  current ← get_blocks fl sl;
  assert_ (negb (current =? 0)) ;;
  assert_ (negb (block =? 0)) ;;
  store (next_free block) current ;;
  store (prev_free block) control ;;
  store (prev_free current) block ;;
  assert_aligned block ;;
  put_blocks fl sl block ;;
  flb ← gets fl_bitmap;
  flbit ← shl_u32 1 fl;
  modify (set_fl_bitmap (Z.lor flb flbit)) ;;
  slb ← get_sl_bitmap fl;
  slbit ← shl_u32 1 sl;
  put_sl_bitmap fl (Z.lor slb slbit).

Definition block_remove (block : Z) : M unit :=
  sz ← block_size block;
  let '(fl, sl) := mapping_insert sz in
  remove_free_block block fl sl.

Definition block_insert (block : Z) : M unit :=
  sz ← block_size block;
  let '(fl, sl) := mapping_insert sz in
  insert_free_block block fl sl.

(** ** Merging and trimming *)

Definition block_merge_prev (block : Z) : M Z :=
  pf ← block_is_prev_free block;
  if (pf : bool) then
    prev ← block_prev block;
    assert_ (negb (prev =? 0)) ;;
    f ← block_is_free prev;
    assert_ f ;;
    block_remove prev ;;
    block_absorb prev block
  else mret block.

Definition block_merge_next (block : Z) : M Z :=
  next ← block_next block;
  assert_ (negb (next =? 0)) ;;
  f ← block_is_free next;
  if (f : bool) then
    last ← block_is_last block;
    assert_ (negb last) ;;
    block_remove next ;;
    block_absorb block next
  else mret block.

Definition block_trim_free (block size : Z) : M unit :=
  f ← block_is_free block;
  assert_ f ;;
  c ← block_can_split block size;
  if (c : bool) then
    remaining_block ← block_split block size;
    block_link_next block ;;
    block_set_prev_free remaining_block ;;
    block_insert remaining_block
  else mret tt.

Definition block_trim_used (block size : Z) : M unit :=
  f ← block_is_free block;
  assert_ (negb f) ;;
  c ← block_can_split block size;
  if (c : bool) then
    remaining_block ← block_split block size;
    block_set_prev_used remaining_block ;;
    remaining_block ← block_merge_next remaining_block;
    block_insert remaining_block
  else mret tt.

Definition block_trim_free_leading (block size : Z) : M Z :=
  c ← block_can_split block size;
  if (c : bool) then
    remaining_block ← block_split block (w64 (size - block_header_overhead));
    block_set_prev_free remaining_block ;;
    block_link_next block ;;
    block_insert block ;;
    mret remaining_block
  else mret block.

Definition block_locate_free (size : Z) : M Z :=
  '(block, fl, sl) ← (
    if negb (size =? 0) then
      '(fl, sl) ← mapping_search size;
      if fl <? FL_INDEX_COUNT then search_suitable_block fl sl
      else mret (0, fl, sl)
    else mret (0, 0, 0));
  if negb (block =? 0) then
    sz ← block_size block;
    assert_ (size <=? sz) ;;
    remove_free_block block fl sl ;;
    mret block
  else mret block.

Definition block_prepare_used (block size : Z) : M Z :=
  if negb (block =? 0) then
    assert_ (negb (size =? 0)) ;;
    block_trim_free block size ;;
    block_mark_as_used block ;;
    mret (block_to_ptr block)
  else mret 0.

(** ** Construction and pools *)

Definition control_construct : M unit :=
  store (next_free control) control ;;
  store (prev_free control) control ;;
  modify (set_fl_bitmap 0) ;;
  for_each (seqZ 0 FL_INDEX_COUNT) (λ i,
    put_sl_bitmap i 0 ;;
    for_each (seqZ 0 SL_INDEX_COUNT) (λ j, put_blocks i j control)).

(** [sizeof(control_t)]: [block_null], 26 [unsigned int]s and 25 * 32 list
    heads. *)
Definition tlsf_size : Z := sizeof_block_header + 4 * (1 + FL_INDEX_COUNT)
                            + 8 * (FL_INDEX_COUNT * SL_INDEX_COUNT).
Definition tlsf_pool_overhead : Z := 2 * block_header_overhead.

Definition tlsf_add_pool (mem_ bytes : Z) : M Z :=
  let pool_overhead := tlsf_pool_overhead in
  pool_bytes ← align_down (w64 (bytes - pool_overhead)) ALIGN_SIZE;
  if negb (mem_ mod ALIGN_SIZE =? 0) then mret 0
  else if (pool_bytes <? block_size_min) || (block_size_max <? pool_bytes) then mret 0
  else
    let block := offset_to_block mem_ (w64 (- block_header_overhead)) in
    block_set_size block pool_bytes ;;
    block_set_free block ;;
    block_set_prev_used block ;;
    block_insert block ;;
    next ← block_link_next block;
    block_set_size next 0 ;;
    block_set_used next ;;
    block_set_prev_free next ;;
    mret mem_.

Definition tlsf_remove_pool (pool : Z) : M unit :=
  let block := offset_to_block pool (w64 (- block_header_overhead)) in
  f ← block_is_free block;
  assert_ f ;;
  next ← block_next block;
  nf ← block_is_free next;
  assert_ (negb nf) ;;
  next ← block_next block;
  nsz ← block_size next;
  assert_ (nsz =? 0) ;;
  sz ← block_size block;
  let '(fl, sl) := mapping_insert sz in
  remove_free_block block fl sl.

(** ** Main interface *)

Definition tlsf_malloc (size : Z) : M Z :=
  adjust ← adjust_request_size size ALIGN_SIZE;
  block ← block_locate_free adjust;
  block_prepare_used block adjust.

Definition tlsf_memalign (align size : Z) : M Z :=
  adjust ← adjust_request_size size ALIGN_SIZE;
  let gap_minimum := sizeof_block_header in
  size_with_gap ← adjust_request_size (w64 (adjust + align + gap_minimum)) align;
  let aligned_size :=
    if negb (adjust =? 0) && (ALIGN_SIZE <? align) then size_with_gap else adjust in
  block ← block_locate_free aligned_size;
  assert_ (sizeof_block_header =? block_size_min + block_header_overhead) ;;
  block ← (if negb (block =? 0) then
    let ptr := block_to_ptr block in
    aligned ← align_ptr ptr align;
    let gap := w64 (aligned - ptr) in
    gap ← (if negb (gap =? 0) && (gap <? gap_minimum) then
      let gap_remain := w64 (gap_minimum - gap) in
      let offset := Z.max gap_remain align in
      let next_aligned := w64 (aligned + offset) in
      aligned ← align_ptr next_aligned align;
      mret (w64 (aligned - ptr))
    else mret gap);
    if negb (gap =? 0) then
      assert_ (gap_minimum <=? gap) ;;
      block_trim_free_leading block gap
    else mret block
  else mret block);
  block_prepare_used block adjust.

Definition tlsf_free (ptr : Z) : M unit :=
  if negb (ptr =? 0) then
    let block := block_from_ptr ptr in
    f ← block_is_free block;
    assert_ (negb f) ;;
    block_mark_as_free block ;;
    block ← block_merge_prev block;
    block ← block_merge_next block;
    block_insert block
  else mret tt.

Definition tlsf_realloc (ptr size : Z) : M Z :=
  if negb (ptr =? 0) && (size =? 0) then tlsf_free ptr ;; mret 0
  else if ptr =? 0 then tlsf_malloc size
  else
    let block := block_from_ptr ptr in
    next ← block_next block;
    cursize ← block_size block;
    nsz ← block_size next;
    let combined := w64 (cursize + nsz + block_header_overhead) in
    adjust ← adjust_request_size size ALIGN_SIZE;
    f ← block_is_free block;
    assert_ (negb f) ;;
    nf ← block_is_free next;
    if (cursize <? adjust) && (negb nf || (combined <? adjust)) then
      p ← tlsf_malloc size;
      if negb (p =? 0) then
        let minsize := Z.min cursize size in
        modify (set_mem (λ m, memcpy m p ptr minsize)) ;;
        tlsf_free ptr ;;
        mret p
      else mret p
    else
      (if cursize <? adjust then
         block_merge_next block ;; block_mark_as_used block
       else mret tt) ;;
      block_trim_used block adjust ;;
      mret ptr.

End control.

Definition tlsf_create (mem_ : Z) : M Z :=
  if negb (mem_ mod ALIGN_SIZE =? 0) then mret 0
  else control_construct mem_ ;; mret mem_.

Definition tlsf_create_with_pool (mem_ bytes : Z) : M Z :=
  tlsf ← tlsf_create mem_;
  tlsf_add_pool tlsf (w64 (mem_ + tlsf_size)) (w64 (bytes - tlsf_size)) ;;
  mret tlsf.

Definition tlsf_destroy (tlsf : Z) : M unit := mret tt.
Definition tlsf_get_pool (tlsf : Z) : Z := w64 (tlsf + tlsf_size).
Definition tlsf_align_size : Z := ALIGN_SIZE.
Definition tlsf_block_size_min : Z := block_size_min.
Definition tlsf_block_size_max : Z := block_size_max.
Definition tlsf_alloc_overhead : Z := block_header_overhead.

Definition tlsf_block_size (ptr : Z) : M Z :=
  if negb (ptr =? 0) then block_size (block_from_ptr ptr) else mret 0.

(** ** Debugging utilities *)

Record integrity := Integrity { prev_status : Z; status : Z }.

(** [tlsf_insist]: the assertion halts first, so [status] only drops if the
    assertion is compiled out. *)
Definition tlsf_insist (x : bool) (status : Z) : M Z :=
  assert_ x ;; mret (if x then status else status - 1).

Definition integrity_walker (ptr size : Z) (used : bool) (integ : integrity) : M integrity :=
  let block := block_from_ptr ptr in
  pf ← block_is_prev_free block;
  let this_prev_status := if (pf : bool) then 1 else 0 in
  f ← block_is_free block;
  let this_status := if (f : bool) then 1 else 0 in
  this_block_size ← block_size block;
  st ← tlsf_insist (prev_status integ =? this_prev_status) 0;
  st ← tlsf_insist (size =? this_block_size) st;
  mret (Integrity this_status (status integ + st)).

Fixpoint walk_loop {U} (fuel : nat) (walker : Z → Z → bool → U → M U) (block : Z)
    (user : U) : M U :=
  match fuel with
  | O => no_fuel
  | S fuel =>
      if block =? 0 then mret user
      else
        last ← block_is_last block;
        if (last : bool) then mret user
        else
          sz ← block_size block;
          f ← block_is_free block;
          user ← walker (block_to_ptr block) sz (negb f) user;
          next ← block_next block;
          walk_loop fuel walker next user
  end.

(** [offset_to_block(pool, -(int)block_header_overhead)]: the negative [int]
    converts to [size_t]. *)
Definition tlsf_walk_pool {U} (fuel : nat) (pool : Z) (walker : Z → Z → bool → U → M U)
    (user : U) : M U :=
  walk_loop fuel walker (offset_to_block pool (w64 (- block_header_overhead))) user.

Definition tlsf_check_pool (fuel : nat) (pool : Z) : M Z :=
  integ ← tlsf_walk_pool fuel pool integrity_walker (Integrity 0 0);
  mret (status integ).

(** The [while] loop over one free list. *)
Fixpoint check_list (control : Z) (fuel : nat) (i j block st : Z) : M Z :=
  match fuel with
  | O => no_fuel
  | S fuel =>
      if block =? control then mret st
      else
        f ← block_is_free block;
        st ← tlsf_insist f st;
        pf ← block_is_prev_free block;
        st ← tlsf_insist (negb pf) st;
        next ← block_next block;
        nf ← block_is_free next;
        st ← tlsf_insist (negb nf) st;
        next ← block_next block;
        npf ← block_is_prev_free next;
        st ← tlsf_insist npf st;
        sz ← block_size block;
        st ← tlsf_insist (block_size_min <=? sz) st;
        sz ← block_size block;
        let '(fli, sli) := mapping_insert sz in
        st ← tlsf_insist ((fli =? i) && (sli =? j)) st;
        next ← load (next_free block);
        check_list control fuel i j next st
  end.

Definition check_cell (control : Z) (fuel : nat) (i j st : Z) : M Z :=
  flb ← gets fl_bitmap;
  flbit ← shl_u32 1 i;
  let fl_map := Z.land flb flbit in
  sl_list ← get_sl_bitmap i;
  slbit ← shl_u32 1 j;
  let sl_map := Z.land sl_list slbit in
  block ← get_blocks i j;
  st ← (if fl_map =? 0 then tlsf_insist (sl_map =? 0) st else mret st);
  if sl_map =? 0 then tlsf_insist (block =? control) st
  else
    st ← tlsf_insist (negb (sl_list =? 0)) st;
    st ← tlsf_insist (negb (block =? control)) st;
    check_list control fuel i j block st.

Definition tlsf_check (control : Z) (fuel : nat) : M Z :=
  fold_each (seqZ 0 FL_INDEX_COUNT) (λ st i,
    fold_each (seqZ 0 SL_INDEX_COUNT) (λ st j, check_cell control fuel i j st) st) 0.
