(* ===== verification/TlsfInv.v ===== *)
(** The heap invariant of the TLSF allocator: the abstract block map a heap
    represents, the physical layout of its blocks, the segregated free lists
    with their bitmaps, and the symbolic-execution lemmas for the header and
    list primitives. *)

From S2P Require Import Prelude CString TlsfBits TlsfModel.

(** ** Abstract heap *)

(** One physical block: payload size, free flag, previous-block-free flag.
    The sentinel that ends a pool is a used block of size 0. *)
Record blk := Blk { bsz : Z; bfree : bool; bpf : bool }.

(** The word stored in the [size] field. *)
Definition enc (b : blk) : Z := bsz b + (Z.b2z (bfree b) + 2 * Z.b2z (bpf b)).

Definition with_free (f : bool) (b : blk) : blk := Blk (bsz b) f (bpf b).
Definition with_pf (f : bool) (b : blk) : blk := Blk (bsz b) (bfree b) f.

(** The block at [a] is well placed: aligned, inside the address space. *)
Definition placed (a : Z) (b : blk) : Prop :=
  0 < a ∧ a mod 8 = 0 ∧ a + 16 + bsz b < 2 ^ 64 ∧ bsz b mod 8 = 0 ∧
  (bsz b = 0 ∨ 24 ≤ bsz b < 2 ^ 32).

(** Physical layout.  A block at [a] owns the bytes from its size word at
    [a + 8] to the end of its payload at [a + 16 + size]; its last payload
    word doubles as the next block's [prev_phys_block].  A sentinel ends the
    pool less than 4 GiB above any of its blocks ([ph_end]). *)
Record phys (control : Z) (m : Z → Z) (B : gmap Z blk) : Prop := {
  ph_placed a b : B !! a = Some b → placed a b;
  ph_header a b : B !! a = Some b → m (a + 8) = enc b;
  ph_next a b : B !! a = Some b → bsz b ≠ 0 →
    ∃ nb, B !! (a + 8 + bsz b) = Some nb ∧ bpf nb = bfree b ∧
          (bfree b = true → m (a + 8 + bsz b) = a);
  ph_last a b : B !! a = Some b → bsz b = 0 → bfree b = false;
  ph_prev a b : B !! a = Some b → bpf b = true →
    ∃ p pb, B !! p = Some pb ∧ bsz pb ≠ 0 ∧ p + 8 + bsz pb = a;
  ph_disj a b a' b' : B !! a = Some b → B !! a' = Some b' → a < a' → a + 8 + bsz b ≤ a';
  ph_end a b : B !! a = Some b → bsz b ≠ 0 →
    ∃ e eb, B !! e = Some eb ∧ bsz eb = 0 ∧ a + 8 + bsz b ≤ e ∧ e < a + 8 + 2 ^ 32;
  ph_control a b : B !! a = Some b → a + 16 + bsz b ≤ control ∨ control + 6536 ≤ a + 8;
}.

(** Doubly linked free list ending in [block_null], which is at [control]. *)
Fixpoint dll (control : Z) (m : Z → Z) (prev : Z) (l : list Z) : Prop :=
  match l with
  | [] => True
  | x :: l => m (x + 24) = prev ∧ m (x + 16) = hd control l ∧ dll control m x l
  end.

(** [Fr] maps each listed block to its size; [L i j] is the list of class
    [(i, j)]. *)
Record lists (control : Z) (s : tlsf) (Fr : gmap Z Z) (L : Z → Z → list Z) : Prop := {
  ls_head i j : class_ok i j → blocks s i j = hd control (L i j);
  ls_dll i j : class_ok i j → dll control (mem s) control (L i j);
  ls_nodup i j : class_ok i j → NoDup (L i j);
  ls_elem i j a : class_ok i j →
    a ∈ L i j ↔ ∃ sz, Fr !! a = Some sz ∧ mapping_insert sz = (i, j);
  ls_sl i j : class_ok i j → Z.testbit (sl_bitmap s i) j = true ↔ L i j ≠ [];
  ls_sl_range i : 0 ≤ i < FL_INDEX_COUNT → 0 ≤ sl_bitmap s i < 2 ^ 32;
  ls_fl i : 0 ≤ i < FL_INDEX_COUNT →
    Z.testbit (fl_bitmap s) i = true ↔ sl_bitmap s i ≠ 0;
  ls_fl_range : 0 ≤ fl_bitmap s < 2 ^ FL_INDEX_COUNT;
}.

Definition control_ok (control : Z) : Prop :=
  0 < control ∧ control mod 8 = 0 ∧ control + 6536 < 2 ^ 64.

(** Between two statements of an operation: the layout is right, and exactly
    the blocks of [Fr], all of them free, are in the lists. *)
Record wf (control : Z) (s : tlsf) (B : gmap Z blk) (Fr : gmap Z Z) : Prop := {
  wf_control : control_ok control;
  wf_phys : phys control (mem s) B;
  wf_lists : ∃ L, lists control s Fr L;
  wf_listed a sz : Fr !! a = Some sz → ∃ b, B !! a = Some b ∧ bsz b = sz ∧ bfree b = true;
}.

Definition free_map (B : gmap Z blk) : gmap Z Z :=
  omap (λ b, if bfree b then Some (bsz b) else None) B.

(** No two neighbouring blocks are both free. *)
Definition coalesced (B : gmap Z blk) : Prop :=
  ∀ a b, B !! a = Some b → bfree b = true → bpf b = false.

(** The invariant between operations: every free block is listed. *)
Definition tlsf_inv (control : Z) (s : tlsf) (B : gmap Z blk) : Prop :=
  wf control s B (free_map B) ∧ coalesced B.

(** The live allocations: used blocks (by header address) and their sizes. *)
Definition used_map (B : gmap Z blk) : gmap Z Z :=
  omap (λ b, if bfree b || (bsz b =? 0) then None else Some (bsz b)) B.

(** The payloads of the allocations in [U] are the same in both states. *)
Definition frame (U : gmap Z Z) (s s' : tlsf) : Prop :=
  ∀ a sz x, U !! a = Some sz → a + 16 ≤ x < a + 16 + sz → mem s' x = mem s x.

(** ** Symbolic execution of the primitives *)

Definition st (a v : Z) (s : tlsf) : tlsf := set_mem (λ m, upd m a v) s.

Lemma wp_load a s (Q : Z → tlsf → Prop) :
  0 < a < 2 ^ 64 → a mod 8 = 0 → Q (mem s a) s → wp (load a) s Q.
Proof.
  intros Ha H8 HQ. unfold load. apply wp_bind, wp_guard; [|by apply wp_gets].
  unfold addr_ok. rewrite H8. lia.
Qed.

Lemma wp_store a v s (Q : unit → tlsf → Prop) :
  0 < a < 2 ^ 64 → a mod 8 = 0 → Q tt (st a v s) → wp (store a v) s Q.
Proof.
  intros Ha H8 HQ. unfold store. apply wp_bind, wp_guard; [|by apply wp_modify].
  unfold addr_ok. rewrite H8. lia.
Qed.

Lemma wp_get_sl_bitmap fl s (Q : Z → tlsf → Prop) :
  0 ≤ fl < FL_INDEX_COUNT → Q (sl_bitmap s fl) s → wp (get_sl_bitmap fl) s Q.
Proof.
  intros Hfl HQ. apply wp_bind, wp_guard; [unfold fl_ok; lia|by apply wp_gets].
Qed.

Lemma wp_put_sl_bitmap fl v s (Q : unit → tlsf → Prop) :
  0 ≤ fl < FL_INDEX_COUNT → Q tt (set_sl_bitmap fl v s) → wp (put_sl_bitmap fl v) s Q.
Proof.
  intros Hfl HQ. apply wp_bind, wp_guard; [unfold fl_ok; lia|by apply wp_modify].
Qed.

Lemma wp_get_blocks fl sl s (Q : Z → tlsf → Prop) :
  class_ok fl sl → Q (blocks s fl sl) s → wp (get_blocks fl sl) s Q.
Proof.
  intros [Hfl Hsl] HQ.
  apply wp_bind, wp_guard; [unfold fl_ok, sl_ok; lia|by apply wp_gets].
Qed.

Lemma wp_put_blocks fl sl v s (Q : unit → tlsf → Prop) :
  class_ok fl sl → Q tt (set_blocks fl sl v s) → wp (put_blocks fl sl v) s Q.
Proof.
  intros [Hfl Hsl] HQ.
  apply wp_bind, wp_guard; [unfold fl_ok, sl_ok; lia|by apply wp_modify].
Qed.

Lemma mod8_add a k : a mod 8 = 0 → k mod 8 = 0 → (a + k) mod 8 = 0.
Proof. intros Ha Hk. rewrite Z.add_mod, Ha, Hk by lia. done. Qed.

(** The header of block [a] in state [s] encodes [b]. *)
Definition hdr (s : tlsf) (a : Z) (b : blk) : Prop :=
  mem s (a + 8) = enc b ∧ 0 < a ∧ a mod 8 = 0 ∧ a + 16 + bsz b < 2 ^ 64 ∧
  bsz b mod 8 = 0 ∧ 0 ≤ bsz b.

Lemma phys_hdr control s B a b :
  phys control (mem s) B → B !! a = Some b → hdr s a b.
Proof.
  intros Hp Hb. destruct (ph_placed _ _ _ Hp a b Hb) as (? & ? & ? & ? & ?).
  split_and!; [by apply (ph_header _ _ _ Hp)|lia..].
Qed.

Lemma b2z_cases (f g : bool) : 0 ≤ Z.b2z f + 2 * Z.b2z g < 8.
Proof. by destruct f, g. Qed.

Lemma enc_split b : bsz b mod 8 = 0 → enc b = 8 * (bsz b / 8) + (Z.b2z (bfree b) + 2 * Z.b2z (bpf b)).
Proof. intros H. unfold enc. pose proof (Z.div_mod (bsz b) 8). lia. Qed.

Lemma size_field_eq a : 0 ≤ a → a + 8 < 2 ^ 64 → size_field a = a + 8.
Proof. intros. apply w64_small. lia. Qed.

Section header.
Context (s : tlsf) (a : Z) (b : blk) (Hh : hdr s a b).

Lemma wp_load_size (Q : Z → tlsf → Prop) : Q (enc b) s → wp (load (size_field a)) s Q.
Proof using Hh.
  destruct Hh as (Hm & ? & ? & ? & ? & ?). intros HQ. rewrite size_field_eq by lia.
  apply wp_load; [lia|by apply mod8_add|]. by rewrite Hm.
Qed.

Lemma wp_store_size v (Q : unit → tlsf → Prop) :
  Q tt (st (a + 8) v s) → wp (store (size_field a) v) s Q.
Proof using Hh.
  destruct Hh as (Hm & ? & ? & ? & ? & ?). intros HQ. rewrite size_field_eq by lia.
  apply wp_store; [lia|by apply mod8_add|done].
Qed.

Lemma enc_range : 0 ≤ enc b < 2 ^ 64.
Proof using Hh.
  destruct Hh as (? & ? & ? & ? & ? & ?). unfold enc.
  pose proof (b2z_cases (bfree b) (bpf b)). lia.
Qed.

(** Flag arithmetic on an encoded header. *)
Lemma enc_land_not64 d (Q : Z → Prop) :
  0 ≤ d < 8 →
  Q (bsz b + Z.land (Z.b2z (bfree b) + 2 * Z.b2z (bpf b)) (7 - d)) →
  Q (Z.land (enc b) (not64 d)).
Proof using Hh.
  intros Hd HQ. destruct Hh as (? & ? & ? & ? & ? & ?). pose proof enc_range.
  pose proof (Z.div_mod (bsz b) 8).
  rewrite enc_split in * by done. rewrite land_not64_low8 by (done || apply b2z_cases).
  by replace (8 * (bsz b / 8)) with (bsz b) by lia.
Qed.

Lemma enc_lor d : 0 ≤ d < 8 →
  Z.lor (enc b) d = bsz b + Z.lor (Z.b2z (bfree b) + 2 * Z.b2z (bpf b)) d.
Proof using Hh.
  intros Hd. destruct Hh as (? & ? & ? & ? & ? & ?).
  pose proof (Z.div_mod (bsz b) 8).
  rewrite enc_split by done. rewrite lor_low8 by (done || apply b2z_cases). lia.
Qed.

Lemma enc_land d : 0 ≤ d < 8 →
  Z.land (enc b) d = Z.land (Z.b2z (bfree b) + 2 * Z.b2z (bpf b)) d.
Proof using Hh.
  intros Hd. destruct Hh as (? & ? & ? & ? & ? & ?).
  rewrite enc_split by done. pose proof (b2z_cases (bfree b) (bpf b)).
  apply Z.bits_inj'. intros i Hi. rewrite !Z.land_spec, testbit_split8 by done.
  destruct (Z.ltb_spec i 3); [done|]. rewrite (testbit_high d 3) by lia.
  by rewrite !andb_false_r.
Qed.

Lemma wp_block_size (Q : Z → tlsf → Prop) : Q (bsz b) s → wp (block_size a) s Q.
Proof using Hh.
  intros HQ. apply wp_bind, wp_load_size, wp_ret.
  change (Z.lor _ _) with 3. apply (enc_land_not64 3 (λ x, Q x s)); [lia|].
  destruct (bfree b), (bpf b); simpl Z.land; by rewrite Z.add_0_r.
Qed.

Lemma wp_block_is_last (Q : bool → tlsf → Prop) :
  Q (bsz b =? 0) s → wp (block_is_last a) s Q.
Proof using Hh. intros HQ. by apply wp_bind, wp_block_size, wp_ret. Qed.

Lemma wp_block_is_free (Q : bool → tlsf → Prop) :
  Q (bfree b) s → wp (block_is_free a) s Q.
Proof using Hh.
  intros HQ. apply wp_bind, wp_load_size, wp_ret.
  rewrite enc_land by (by vm_compute). by destruct (bfree b), (bpf b).
Qed.

Lemma wp_block_is_prev_free (Q : bool → tlsf → Prop) :
  Q (bpf b) s → wp (block_is_prev_free a) s Q.
Proof using Hh.
  intros HQ. apply wp_bind, wp_load_size, wp_ret.
  rewrite enc_land by (by vm_compute). by destruct (bfree b), (bpf b).
Qed.

Lemma wp_block_set_size size (Q : unit → tlsf → Prop) :
  size mod 8 = 0 → Q tt (st (a + 8) (enc (Blk size (bfree b) (bpf b))) s) →
  wp (block_set_size a size) s Q.
Proof using Hh.
  intros H8 HQ. apply wp_bind, wp_load_size, wp_store_size.
  rewrite enc_land by (by vm_compute).
  replace (Z.lor size _) with (enc (Blk size (bfree b) (bpf b))); [done|].
  rewrite enc_split by done. simpl. pose proof (Z.div_mod size 8).
  replace size with (8 * (size / 8) + 0) at 2 by lia.
  rewrite lor_low8; [by destruct (bfree b), (bpf b)|lia|].
  destruct (bfree b), (bpf b); by vm_compute.
Qed.

Lemma wp_set_flag (block_op : Z → M unit) (g : Z → Z) b' (Q : unit → tlsf → Prop) :
  block_op a = (w ← load (size_field a); store (size_field a) (g w)) →
  g (enc b) = enc b' → Q tt (st (a + 8) (enc b') s) → wp (block_op a) s Q.
Proof using Hh.
  intros -> Hg HQ. apply wp_bind, wp_load_size, wp_store_size. by rewrite Hg.
Qed.

Lemma wp_block_set_free (Q : unit → tlsf → Prop) :
  Q tt (st (a + 8) (enc (with_free true b)) s) → wp (block_set_free a) s Q.
Proof using Hh.
  eapply wp_set_flag; [done|]. cbv beta. rewrite enc_lor by (by vm_compute).
  unfold enc, with_free. simpl. by destruct (bfree b), (bpf b).
Qed.

Lemma wp_block_set_prev_free (Q : unit → tlsf → Prop) :
  Q tt (st (a + 8) (enc (with_pf true b)) s) → wp (block_set_prev_free a) s Q.
Proof using Hh.
  eapply wp_set_flag; [done|]. cbv beta. rewrite enc_lor by (by vm_compute).
  unfold enc, with_pf. simpl. by destruct (bfree b), (bpf b).
Qed.

Lemma wp_block_set_used (Q : unit → tlsf → Prop) :
  Q tt (st (a + 8) (enc (with_free false b)) s) → wp (block_set_used a) s Q.
Proof using Hh.
  eapply wp_set_flag; [done|]. cbv beta.
  apply (enc_land_not64 1 (λ x, x = _)); [lia|].
  unfold enc, with_free. simpl. by destruct (bfree b), (bpf b).
Qed.

Lemma wp_block_set_prev_used (Q : unit → tlsf → Prop) :
  Q tt (st (a + 8) (enc (with_pf false b)) s) → wp (block_set_prev_used a) s Q.
Proof using Hh.
  eapply wp_set_flag; [done|]. cbv beta.
  apply (enc_land_not64 2 (λ x, x = _)); [lia|].
  unfold enc, with_pf. simpl. by destruct (bfree b), (bpf b).
Qed.

(** Pointer arithmetic never wraps on a placed block. *)
Lemma block_to_ptr_eq : block_to_ptr a = a + 16.
Proof using Hh. destruct Hh as (? & ? & ? & ? & ? & ?). apply w64_small. unfold block_start_offset. lia. Qed.

Lemma wp_block_next (Q : Z → tlsf → Prop) :
  bsz b ≠ 0 → Q (a + 8 + bsz b) s → wp (block_next a) s Q.
Proof using Hh.
  intros Hne HQ. apply wp_bind, wp_block_size.
  rewrite block_to_ptr_eq. destruct Hh as (Hm & ? & ? & ? & ? & ?).
  assert (8 ≤ bsz b).
  { pose proof (Z.div_mod (bsz b) 8). lia. }
  unfold offset_to_block, block_header_overhead.
  rewrite (w64_small (bsz b - 8)) by lia.
  rewrite w64_small by lia. replace (a + 16 + (bsz b - 8)) with (a + 8 + bsz b) by lia.
  apply wp_bind, wp_block_is_last, wp_bind, wp_assert; [|by apply wp_ret].
  destruct (Z.eqb_spec (bsz b) 0); done.
Qed.

Lemma wp_block_link_next (Q : Z → tlsf → Prop) :
  bsz b ≠ 0 → Q (a + 8 + bsz b) (st (a + 8 + bsz b) a s) → wp (block_link_next a) s Q.
Proof using Hh.
  intros Hne HQ. apply wp_bind, wp_block_next; [done|].
  destruct Hh as (Hm & ? & ? & ? & ? & ?).
  apply wp_bind, wp_store; [unfold prev_phys_block; lia| |by apply wp_ret].
  unfold prev_phys_block. by apply mod8_add; [apply mod8_add|].
Qed.

Lemma wp_block_can_split size (Q : bool → tlsf → Prop) :
  0 ≤ size < 2 ^ 32 → Q (32 + size <=? bsz b) s → wp (block_can_split a size) s Q.
Proof using Hh.
  intros Hs HQ. apply wp_bind, wp_block_size, wp_ret.
  unfold sizeof_block_header. by rewrite w64_small by lia.
Qed.

End header.

Lemma wp_assert_aligned s a (Q : unit → tlsf → Prop) :
  0 < a → a mod 8 = 0 → a + 16 < 2 ^ 64 → Q tt s → wp (assert_aligned a) s Q.
Proof.
  intros Ha Ha8 Hlt HQ. unfold assert_aligned, block_to_ptr, block_start_offset.
  rewrite (w64_small (a + (8 + 8))) by lia. replace (a + (8 + 8)) with (a + 16) by lia.
  apply wp_bind. unfold align_ptr. apply wp_bind, wp_assert; [done|]. apply wp_ret.
  change ALIGN_SIZE with (2 ^ 3). rewrite land_not64_mask by (lia || apply w64_range).
  assert ((a + 16) mod 8 = 0) as H8 by by apply mod8_add.
  apply wp_assert; [|done]. apply Z.eqb_eq. change (2 ^ 3) with 8.
  rewrite (w64_small (8 - 1)) by lia.
  pose proof (Z.div_mod (a + 16) 8).
  destruct (Z.lt_ge_cases (a + 16 + (8 - 1)) (2 ^ 64)).
  - rewrite w64_small by lia.
    replace (a + 16 + (8 - 1)) with (7 + (a + 16) / 8 * 8) at 2 by lia.
    rewrite Z.mod_add, (Z.mod_small 7) by lia. lia.
  - assert (2 ^ 64 = 8 * 2 ^ 61) by done. lia.
Qed.

(** Headers across stores. *)
Lemma hdr_st_ne s a b x v : hdr s a b → x ≠ a + 8 → hdr (st x v s) a b.
Proof. intros (H & ?) Hne. split; [simpl; rewrite upd_ne by lia; done|done]. Qed.

Lemma hdr_st_eq s a b b' :
  hdr s a b → bsz b' = bsz b → hdr (st (a + 8) (enc b') s) a b'.
Proof.
  intros (H & ? & ? & ? & ? & ?) Hs. unfold hdr. rewrite Hs.
  split_and!; try done. simpl. by rewrite upd_eq.
Qed.

Lemma hdr_placed s a b' :
  placed a b' → mem s (a + 8) = enc b' → hdr s a b'.
Proof. intros (? & ? & ? & ? & ?) Hm. split_and!; try done; lia. Qed.

(** The maps used by the invariant. *)
Lemma free_map_Some B a sz :
  free_map B !! a = Some sz ↔ ∃ b, B !! a = Some b ∧ bfree b = true ∧ bsz b = sz.
Proof.
  unfold free_map. rewrite lookup_omap. destruct (B !! a) as [b|]; simpl.
  - destruct (bfree b) eqn:E; (split; [intros; simplify_eq; eauto|]);
      intros (b' & ? & ? & ?); simplify_eq; congruence.
  - split; [done|]. by intros (? & ? & ?).
Qed.

Lemma used_map_Some B a sz :
  used_map B !! a = Some sz ↔ ∃ b, B !! a = Some b ∧ bfree b = false ∧ bsz b = sz ∧ sz ≠ 0.
Proof.
  unfold used_map. rewrite lookup_omap. destruct (B !! a) as [b|]; simpl.
  - destruct (bfree b) eqn:E, (Z.eqb_spec (bsz b) 0); simpl;
      (split; [intros; simplify_eq; eauto 6|]);
      intros (b' & ? & ? & ? & ?); simplify_eq; congruence.
  - split; [done|]. by intros (? & ? & ?).
Qed.

Lemma frame_refl U s : frame U s s.
Proof. by intros ???. Qed.

Lemma frame_trans U s1 s2 s3 : frame U s1 s2 → frame U s2 s3 → frame U s1 s3.
Proof. intros H1 H2 a sz x Ha Hx. by rewrite (H2 a sz x Ha Hx), (H1 a sz x Ha Hx). Qed.

Lemma frame_mono U U' s s' : U ⊆ U' → frame U' s s' → frame U s s'.
Proof. intros HU H a sz x Ha. apply H. by eapply lookup_weaken. Qed.
