(* ===== verification/TlsfLists.v ===== *)
(** The segregated free lists of TLSF: inserting and removing a block keeps
    the lists and both bitmap levels right, and the two-level search finds a
    block whenever a class at or above the requested one is populated. *)

From S2P Require Import Prelude CString TlsfBits TlsfModel TlsfInv.

(** ** Doubly linked lists *)

(** List nodes (and [block_null]) are at least a block header apart. *)
Definition spaced (x y : Z) : Prop := x = y ∨ x + 32 ≤ y ∨ y + 32 ≤ x.

Definition node_ok (x : Z) : Prop := 0 < x ∧ x mod 8 = 0 ∧ x + 32 < 2 ^ 64.

Lemma dll_frame control m m' p l :
  (∀ x, x ∈ l → m' (x + 16) = m (x + 16) ∧ m' (x + 24) = m (x + 24)) →
  dll control m p l → dll control m' p l.
Proof.
  revert p. induction l as [|x l IH]; intros p Hm; simpl; [done|].
  intros (H1 & H2 & H3). destruct (Hm x) as [-> ->]; [set_solver|].
  split_and!; [done..|]. apply IH; [set_solver|done].
Qed.

(** Pushing [b] on the front of [l]. *)
Lemma dll_push control m m' b l :
  dll control m control l → NoDup (b :: l) → (∀ x, x ∈ l → spaced x b) →
  m' (b + 16) = hd control l → m' (b + 24) = control →
  (∀ x, head l = Some x → m' (x + 24) = b) →
  (∀ x, x ∈ l → m' (x + 16) = m (x + 16)) →
  (∀ x, x ∈ tail l → m' (x + 24) = m (x + 24)) →
  dll control m' control (b :: l).
Proof.
  intros Hl Hnd Hsp H1 H2 H3 H4 H5. simpl. split_and!; [done..|].
  destruct l as [|x l]; [done|]. simpl in *. destruct Hl as (? & ? & Hl).
  split_and!; [by apply H3| rewrite H4 by set_solver; done|].
  eapply dll_frame; [|done]. intros y Hy. split; [apply H4|apply H5]; set_solver.
Qed.

Lemma default_last_cons {A} (p x : A) l : default p (last (x :: l)) = default x (last l).
Proof. rewrite last_cons. by destruct (last l). Qed.

Lemma default_last_elem {A} (p : A) l : default p (last l) = p ∨ default p (last l) ∈ l.
Proof.
  destruct (last l) as [x|] eqn:E; [right|by left].
  apply last_Some in E as [l' ->]. simpl. set_solver.
Qed.

Lemma hd_elem {A} (d : A) l : hd d l = d ∨ hd d l ∈ l.
Proof. destruct l; [by left|right; set_solver]. Qed.

Lemma dll_mid control m p l1 b l2 :
  dll control m p (l1 ++ b :: l2) →
  m (b + 24) = default p (last l1) ∧ m (b + 16) = hd control l2.
Proof.
  revert p. induction l1 as [|x l1 IH]; intros p.
  - simpl. intros (? & ? & ?). done.
  - rewrite default_last_cons. simpl. intros (_ & _ & Hd). by apply IH.
Qed.

(** Unlinking [b]: its neighbours are linked to each other. *)
Lemma dll_unlink control m m' p l1 b l2 :
  dll control m p (l1 ++ b :: l2) → NoDup (l1 ++ b :: l2) → p ∉ l1 ++ b :: l2 →
  control ∉ l1 ++ b :: l2 →
  m' (hd control l2 + 24) = default p (last l1) →
  m' (default p (last l1) + 16) = hd control l2 →
  (∀ x, x ∈ l1 ++ l2 → x ≠ hd control l2 → m' (x + 24) = m (x + 24)) →
  (∀ x, x ∈ l1 ++ l2 → x ≠ default p (last l1) → m' (x + 16) = m (x + 16)) →
  dll control m' p (l1 ++ l2).
Proof.
  revert p. induction l1 as [|x l1 IH]; intros p.
  - simpl. intros (_ & _ & Hl) Hnd Hp Hc Hn Hpr H24 H16. destruct l2 as [|n l2]; [done|].
    simpl in *. destruct Hl as (? & ? & Hl).
    split_and!; [done|rewrite H16 by set_solver; done|].
    eapply dll_frame; [|done]. apply NoDup_cons in Hnd as [_ Hnd].
    apply NoDup_cons in Hnd as [? _].
    intros y Hy. split; [apply H16|apply H24]; set_solver.
  - rewrite !default_last_cons. intros (Hx24 & Hx16 & Hl) Hnd Hp Hc Hn Hpr H24 H16.
    simpl in Hnd. apply NoDup_cons in Hnd as [Hx Hnd].
    assert (∀ y, y ∈ l2 → y ≠ x) by set_solver.
    pose proof (hd_elem control l2) as Hhd. simpl. split_and!.
    + rewrite H24; [done|set_solver|]. intros ->. set_solver.
    + destruct l1 as [|y l1]; [done|].
      rewrite H16; [done|set_solver|]. rewrite default_last_cons.
      pose proof (default_last_elem y l1). intros ->. set_solver.
    + apply IH; [done..|set_solver|done|done| |].
      * intros y Hy. apply H24. set_solver.
      * intros y Hy. apply H16. set_solver.
Qed.

(** ** Bitmaps *)

Lemma w32_pow2 n : 0 ≤ n < 32 → w32 (Z.shiftl 1 n) = 2 ^ n.
Proof.
  intros. rewrite Z.shiftl_1_l. apply w32_small. split; [apply Z.pow_nonneg; lia|].
  apply Z.pow_lt_mono_r; lia.
Qed.

Lemma lor_bit_range v n k : 0 ≤ v < 2 ^ k → 0 ≤ n < k → 0 ≤ Z.lor v (2 ^ n) < 2 ^ k.
Proof.
  intros Hv Hn. assert (0 ≤ Z.lor v (2 ^ n)) by (apply Z.lor_nonneg; split; [lia|apply Z.pow_nonneg; lia]).
  split; [done|]. destruct (decide (Z.lor v (2 ^ n) = 0)) as [->|]; [apply Z.pow_pos_nonneg; lia|].
  apply Z.log2_lt_pow2; [lia|]. rewrite Z.log2_lor by (lia || apply Z.pow_nonneg; lia).
  rewrite Z.log2_pow2 by lia. apply Z.max_lub_lt; [|lia].
  destruct (decide (v = 0)) as [->|]; [simpl; lia|]. apply Z.log2_lt_pow2; lia.
Qed.

Lemma testbit_set_bit v n j : 0 ≤ n → 0 ≤ j →
  Z.testbit (Z.lor v (2 ^ n)) j = (n =? j) || Z.testbit v j.
Proof. intros. rewrite Z.lor_spec, Z.pow2_bits_eqb by done. apply orb_comm. Qed.

Lemma testbit_clear_bit v n j :
  0 ≤ v < 2 ^ 32 → 0 ≤ n < 32 → 0 ≤ j →
  Z.testbit (Z.land v (not32 (2 ^ n))) j = negb (n =? j) && Z.testbit v j.
Proof.
  intros Hv Hn Hj. unfold not32. rewrite Z.land_spec, w32_testbit, Z.lnot_spec by done.
  rewrite Z.pow2_bits_eqb by lia. destruct (Z.ltb_spec j 32).
  - apply andb_comm.
  - rewrite (testbit_high v 32) by lia. by rewrite !andb_false_r.
Qed.

Lemma bits_ne0 v : v ≠ 0 → 0 ≤ v → ∃ j, 0 ≤ j ∧ Z.testbit v j = true.
Proof.
  intros Hv H0. exists (Z.log2 v). split; [apply Z.log2_nonneg|]. apply Z.bit_log2. lia.
Qed.

Lemma bit_ne0 v j : Z.testbit v j = true → v ≠ 0.
Proof. intros H ->. by rewrite Z.bits_0 in H. Qed.

(** ** Nodes *)

Definition is_node (control : Z) (Fr : gmap Z Z) (a : Z) : Prop :=
  a = control ∨ is_Some (Fr !! a).

Record nodes (control : Z) (Fr : gmap Z Z) : Prop := {
  nd_ok a : is_node control Fr a → node_ok a;
  nd_spaced a a' : is_node control Fr a → is_node control Fr a' → spaced a a';
  nd_control : Fr !! control = None;
}.

(** The words list operations write. *)
Definition link_word (control : Z) (Fr : gmap Z Z) (x : Z) : Prop :=
  ∃ a, is_node control Fr a ∧ (x = a + 16 ∨ x = a + 24).

Definition links_frame (control : Z) (Fr : gmap Z Z) (s s' : tlsf) : Prop :=
  ∀ x, ¬ link_word control Fr x → mem s' x = mem s x.

Lemma nodes_free control b sz Fr :
  nodes control (<[b:=sz]> Fr) → Fr !! b = None → nodes control Fr.
Proof.
  intros Hn Hb.
  assert (∀ a, is_node control Fr a → is_node control (<[b:=sz]> Fr) a) as Hsub.
  { intros a [->|[z Ha]]; [by left|right]. exists z. rewrite lookup_insert_ne; [done|].
    intros ->. congruence. }
  split; intros.
  - apply (nd_ok _ _ Hn); auto.
  - apply (nd_spaced _ _ Hn); auto.
  - pose proof (nd_control _ _ Hn) as Hc. destruct (decide (b = control)) as [->|].
    + done.
    + by rewrite lookup_insert_ne in Hc.
Qed.

Lemma spaced_words a a' :
  spaced a a' → a ≠ a' → a + 16 ≠ a' + 16 ∧ a + 16 ≠ a' + 24 ∧ a + 24 ≠ a' + 24 ∧ a + 24 ≠ a' + 16.
Proof. unfold spaced. lia. Qed.

(** ** Insertion *)

Lemma lists_node control s Fr L i j x :
  lists control s Fr L → class_ok i j → x ∈ L i j → is_Some (Fr !! x).
Proof. intros Hl Hij Hx. apply (ls_elem _ _ _ _ Hl) in Hx as (sz & -> & _); [done..]. Qed.

Lemma hd_node control s Fr L i j :
  lists control s Fr L → class_ok i j → is_node control Fr (hd control (L i j)).
Proof.
  intros Hl Hij. destruct (hd_elem control (L i j)) as [->|Hx]; [by left|right].
  by eapply lists_node.
Qed.

Definition insert_state (control b fl sl : Z) (s : tlsf) : tlsf :=
  let cur := blocks s fl sl in
  set_sl_bitmap fl (Z.lor (sl_bitmap s fl) (2 ^ sl))
    (set_fl_bitmap (Z.lor (fl_bitmap s) (2 ^ fl))
      (set_blocks fl sl b (st (cur + 24) b (st (b + 24) control (st (b + 16) cur s))))).

Section insert.
Context (control b sz fl sl : Z) (s : tlsf) (Fr : gmap Z Z) (L : Z → Z → list Z).
Context (Hl : lists control s Fr L) (Hn : nodes control (<[b:=sz]> Fr)).
Context (Hb : Fr !! b = None) (Hc : class_ok fl sl) (Hmap : mapping_insert sz = (fl, sl)).

Let L' := upd2 L fl sl (b :: L fl sl).

Lemma insert_node a : is_node control Fr a → is_node control (<[b:=sz]> Fr) a.
Proof.
  intros [->|[z Ha]]; [by left|right]. exists z. rewrite lookup_insert_ne; [done|].
  intros ->. congruence.
Qed.

Lemma b_node : is_node control (<[b:=sz]> Fr) b.
Proof. right. rewrite lookup_insert_eq. by exists sz. Qed.

Lemma b_ne_control : b ≠ control.
Proof. intros ->. pose proof (nd_control _ _ Hn) as H. by rewrite lookup_insert_eq in H. Qed.

Lemma b_ne_node a : is_node control Fr a → a ≠ b.
Proof. intros Ha ->. destruct Ha as [Hc0|[z Ha]]; [by apply b_ne_control|congruence]. Qed.

Lemma insert_dll i j :
  class_ok i j → dll control (mem (insert_state control b fl sl s)) control (L' i j).
Proof.
  intros Hij. pose proof (ls_head _ _ _ _ Hl fl sl Hc) as Hhd.
  pose proof (hd_node _ _ _ _ fl sl Hl Hc) as Hcur. rewrite <- Hhd in Hcur.
  pose proof (nd_spaced _ _ Hn _ _ (insert_node _ Hcur) b_node) as Hsp.
  pose proof (b_ne_node _ Hcur).
  assert (∀ x i' j', class_ok i' j' → x ∈ L i' j' → spaced x b ∧ x ≠ b ∧
    spaced x (blocks s fl sl)) as Hx.
  { intros x i' j' Hij' Hx. pose proof (lists_node _ _ _ _ _ _ _ Hl Hij' Hx) as Hs.
    assert (is_node control Fr x) as Hxn by by right.
    split_and!; [apply (nd_spaced _ _ Hn)|by apply b_ne_node|apply (nd_spaced _ _ Hn)];
      auto using insert_node, b_node. }
  unfold L'. destruct (decide ((i, j) = (fl, sl))) as [[= -> ->]|Hne].
  - rewrite upd2_eq. apply (dll_push control (mem s)); simpl.
    + by apply (ls_dll _ _ _ _ Hl).
    + apply NoDup_cons. split; [|by apply (ls_nodup _ _ _ _ Hl)].
      intros Hin. by apply (Hx b fl sl).
    + intros x Hxl. by apply (Hx x fl sl).
    + rewrite <- Hhd. unfold spaced in Hsp. by upd_cases.
    + unfold spaced in Hsp. by upd_cases.
    + intros x Hx0. assert (blocks s fl sl = x) as ->.
      { rewrite Hhd. destruct (L fl sl); simplify_eq/=; done. }
      by upd_cases.
    + intros x Hxl. destruct (Hx x fl sl) as (H1 & H2 & H3); [done..|].
      unfold spaced in *. by upd_cases.
    + intros x Hxl. destruct (L fl sl) as [|y l] eqn:E; simpl in *; [set_solver|].
      destruct (Hx x fl sl) as (H1 & H2 & H3); [done|rewrite E; set_solver|].
      assert (x ≠ y).
      { pose proof (ls_nodup _ _ _ _ Hl fl sl Hc) as Hnd. rewrite E in Hnd.
        apply NoDup_cons in Hnd as [? _]. set_solver. }
      unfold spaced in *. by upd_cases.
  - rewrite upd2_ne by done. eapply dll_frame; [|by apply (ls_dll _ _ _ _ Hl)].
    intros x Hxl. destruct (Hx x i j) as (H1 & H2 & H3); [done..|].
    assert (x ≠ blocks s fl sl).
    { rewrite Hhd. intros ->. destruct (hd_elem control (L fl sl)) as [E|E].
      - rewrite E in Hxl. pose proof (lists_node _ _ _ _ _ _ _ Hl Hij Hxl) as [z Hz].
        pose proof (nd_control _ _ (nodes_free _ _ _ _ Hn Hb)). congruence.
      - apply (ls_elem _ _ _ _ Hl) in Hxl as (z1 & Hz1 & Hm1); [|done].
        apply (ls_elem _ _ _ _ Hl) in E as (z2 & Hz2 & Hm2); [|done].
        congruence. }
    simpl. unfold spaced in *. split; by upd_cases.
Qed.

Lemma lists_insert : lists control (insert_state control b fl sl s) (<[b:=sz]> Fr) L'.
Proof.
  pose proof Hc as [Hfl Hsl]. pose proof (ls_sl_range _ _ _ _ Hl fl Hfl).
  change SL_INDEX_COUNT with 32 in Hsl.
  split; simpl.
  - intros i j Hij. unfold L'. destruct (decide ((i, j) = (fl, sl))) as [[= -> ->]|Hne].
    + by rewrite !upd2_eq.
    + rewrite !upd2_ne by done. by apply (ls_head _ _ _ _ Hl).
  - apply insert_dll.
  - intros i j Hij. unfold L'. destruct (decide ((i, j) = (fl, sl))) as [[= -> ->]|Hne].
    + rewrite upd2_eq. apply NoDup_cons. split; [|by apply (ls_nodup _ _ _ _ Hl)].
      intros Hin. destruct (lists_node _ _ _ _ _ _ _ Hl Hij Hin). congruence.
    + rewrite upd2_ne by done. by apply (ls_nodup _ _ _ _ Hl).
  - intros i j a Hij. unfold L'. destruct (decide (a = b)) as [->|Hab].
    + setoid_rewrite lookup_insert_eq.
      destruct (decide ((i, j) = (fl, sl))) as [[= -> ->]|Hne].
      * rewrite upd2_eq. split; [eauto|set_solver].
      * rewrite upd2_ne by done. split; [|intros (? & ? & ?); congruence].
        intros Hin. destruct (lists_node _ _ _ _ _ _ _ Hl Hij Hin). congruence.
    + setoid_rewrite lookup_insert_ne; [|done].
      destruct (decide ((i, j) = (fl, sl))) as [[= -> ->]|Hne].
      * rewrite upd2_eq, elem_of_cons, (ls_elem _ _ _ _ Hl) by done. naive_solver.
      * rewrite upd2_ne by done. by apply (ls_elem _ _ _ _ Hl).
  - intros i j Hij. pose proof Hij as [Hi Hj]. change SL_INDEX_COUNT with 32 in Hj.
    unfold L'. destruct (decide (i = fl)) as [->|Hne].
    + rewrite upd_eq, testbit_set_bit by lia.
      destruct (Z.eqb_spec sl j) as [->|].
      * rewrite upd2_eq. done.
      * rewrite upd2_ne by congruence. by apply (ls_sl _ _ _ _ Hl).
    + rewrite upd_ne by done. rewrite upd2_ne by congruence. by apply (ls_sl _ _ _ _ Hl).
  - intros i Hi. destruct (decide (i = fl)) as [->|Hne].
    + rewrite upd_eq. by apply lor_bit_range.
    + rewrite upd_ne by done. by apply (ls_sl_range _ _ _ _ Hl).
  - intros i Hi. rewrite testbit_set_bit by lia.
    destruct (Z.eqb_spec fl i) as [->|].
    + rewrite upd_eq. split; [|done]. intros _. apply (bit_ne0 _ sl).
      rewrite testbit_set_bit by lia. by rewrite Z.eqb_refl.
    + rewrite upd_ne by done. by apply (ls_fl _ _ _ _ Hl).
  - apply lor_bit_range; [apply (ls_fl_range _ _ _ _ Hl)|done].
Qed.

Lemma insert_links : links_frame control (<[b:=sz]> Fr) s (insert_state control b fl sl s).
Proof.
  intros x Hx. simpl.
  pose proof (hd_node _ _ _ _ fl sl Hl Hc) as Hcur. rewrite <- (ls_head _ _ _ _ Hl) in Hcur by done.
  rewrite !upd_ne; [done|..]; intros ->; apply Hx.
  - exists b. split; [apply b_node|lia].
  - exists b. split; [apply b_node|lia].
  - exists (blocks s fl sl). split; [by apply insert_node|lia].
Qed.

Lemma wp_insert_free_block (Q : unit → tlsf → Prop) :
  Q tt (insert_state control b fl sl s) → wp (insert_free_block control b fl sl) s Q.
Proof.
  intros HQ. pose proof Hc as [Hfl Hsl]. change SL_INDEX_COUNT with 32 in Hsl.
  change FL_INDEX_COUNT with 25 in Hfl.
  pose proof (hd_node _ _ _ _ fl sl Hl Hc) as Hcur. rewrite <- (ls_head _ _ _ _ Hl) in Hcur by done.
  destruct (nd_ok _ _ Hn _ (insert_node _ Hcur)) as (? & ? & ?).
  destruct (nd_ok _ _ Hn _ b_node) as (? & ? & ?).
  apply wp_bind, wp_get_blocks; [done|]. set (cur := blocks s fl sl) in *.
  apply wp_bind, wp_assert; [destruct (Z.eqb_spec cur 0); [lia|done]|].
  apply wp_bind, wp_assert; [destruct (Z.eqb_spec b 0); [lia|done]|].
  unfold next_free, prev_free. rewrite !w64_small by lia.
  apply wp_bind, wp_store; [lia|by apply mod8_add|].
  apply wp_bind, wp_store; [lia|by apply mod8_add|].
  apply wp_bind, wp_store; [lia|by apply mod8_add|].
  apply wp_bind, wp_assert_aligned; [lia|done|lia|].
  apply wp_bind, wp_put_blocks; [done|].
  apply wp_bind, wp_gets, wp_bind, wp_shl_u32; [lia|]. rewrite w32_pow2 by lia.
  apply wp_bind, wp_modify.
  apply wp_bind, wp_get_sl_bitmap; [done|].
  apply wp_bind, wp_shl_u32; [lia|]. rewrite w32_pow2 by lia.
  by apply wp_put_sl_bitmap.
Qed.

End insert.

(** ** Removal *)

(** Nodes of different lists differ, also from [block_null]. *)
Lemma lists_disjoint control s Fr L i j i' j' x y :
  lists control s Fr L → Fr !! control = None → class_ok i j → class_ok i' j' →
  (i, j) ≠ (i', j') → x ∈ L i j → y = control ∨ y ∈ L i' j' → x ≠ y.
Proof.
  intros Hl Hc Hij Hij' Hne Hx Hy ->.
  apply (ls_elem _ _ _ _ Hl) in Hx as (z1 & Hz1 & Hm1); [|done].
  destruct Hy as [->|Hy]; [congruence|].
  apply (ls_elem _ _ _ _ Hl) in Hy as (z2 & Hz2 & Hm2); [|done]. congruence.
Qed.

Definition remove_state (control b fl sl : Z) (s : tlsf) : tlsf :=
  let prev := mem s (b + 24) in
  let next := mem s (b + 16) in
  let s1 := st (prev + 16) next (st (next + 24) prev s) in
  if blocks s fl sl =? b then
    let s2 := set_blocks fl sl next s1 in
    if next =? control then
      let v := Z.land (sl_bitmap s fl) (not32 (2 ^ sl)) in
      let s3 := set_sl_bitmap fl v s2 in
      if v =? 0 then set_fl_bitmap (Z.land (fl_bitmap s) (not32 (2 ^ fl))) s3 else s3
    else s2
  else s1.

Lemma remove_state_mem control b fl sl s :
  mem (remove_state control b fl sl s) =
  upd (upd (mem s) (mem s (b + 16) + 24) (mem s (b + 24))) (mem s (b + 24) + 16) (mem s (b + 16)).
Proof. unfold remove_state. cbv zeta. by repeat case_match. Qed.

Section remove.
Context (control b sz fl sl : Z) (s : tlsf) (Fr : gmap Z Z) (L : Z → Z → list Z).
Context (Hl : lists control s Fr L) (Hn : nodes control Fr).
Context (Hb : Fr !! b = Some sz) (Hc : class_ok fl sl) (Hmap : mapping_insert sz = (fl, sl)).
Context (l1 l2 : list Z) (HL : L fl sl = l1 ++ b :: l2).

Let L' := upd2 L fl sl (l1 ++ l2).
Let prev := default control (last l1).
Let next := hd control l2.

Lemma remove_neighbours : mem s (b + 24) = prev ∧ mem s (b + 16) = next.
Proof.
  pose proof (ls_dll _ _ _ _ Hl fl sl Hc) as Hd. rewrite HL in Hd. by apply dll_mid in Hd.
Qed.

Lemma in_l1_l2 x : x ∈ l1 ++ l2 → x ∈ L fl sl.
Proof. rewrite HL, !elem_of_app, elem_of_cons. naive_solver. Qed.

Lemma prev_in : prev = control ∨ prev ∈ L fl sl.
Proof.
  destruct (default_last_elem control l1) as [H|H]; [by left|right].
  rewrite HL. fold prev in H. set_solver.
Qed.

Lemma next_in : next = control ∨ next ∈ L fl sl.
Proof.
  destruct (hd_elem control l2) as [H|H]; [by left|right].
  rewrite HL. fold next in H. set_solver.
Qed.

Lemma in_node x i j : class_ok i j → x = control ∨ x ∈ L i j → is_node control Fr x.
Proof. intros Hij [?|Hx]; [by left|right]. by eapply lists_node. Qed.

Lemma control_not_in i j : class_ok i j → control ∉ L i j.
Proof.
  intros Hij Hx. destruct (lists_node _ _ _ _ _ _ _ Hl Hij Hx) as [z Hz].
  by rewrite (nd_control _ _ Hn) in Hz.
Qed.

Lemma remove_dll i j :
  class_ok i j → dll control (mem (remove_state control b fl sl s)) control (L' i j).
Proof.
  intros Hij. rewrite remove_state_mem. destruct remove_neighbours as [-> ->].
  pose proof (in_node _ fl sl Hc prev_in) as Hpn.
  pose proof (in_node _ fl sl Hc next_in) as Hnn.
  pose proof (nd_spaced _ _ Hn _ _ Hpn Hnn) as Hpns.
  assert (∀ x i' j', class_ok i' j' → x ∈ L i' j' → spaced x prev ∧ spaced x next) as Hsp.
  { intros x i' j' Hij' Hx.
    split; apply (nd_spaced _ _ Hn); try done; by right; eapply lists_node. }
  unfold L'. destruct (decide ((i, j) = (fl, sl))) as [[= -> ->]|Hne].
  - rewrite upd2_eq. pose proof (ls_dll _ _ _ _ Hl fl sl Hc) as Hd.
    pose proof (ls_nodup _ _ _ _ Hl fl sl Hc) as Hnd.
    pose proof (control_not_in fl sl Hc) as Hcn. rewrite HL in Hd, Hnd, Hcn.
    eapply dll_unlink; [done..| | | |]; fold prev next.
    + unfold spaced in Hpns. by upd_cases.
    + by upd_cases.
    + intros x Hx Hxn. destruct (Hsp x fl sl Hc (in_l1_l2 _ Hx)) as [H1 H2].
      unfold spaced in *. by upd_cases.
    + intros x Hx Hxp. destruct (Hsp x fl sl Hc (in_l1_l2 _ Hx)) as [H1 H2].
      unfold spaced in *. by upd_cases.
  - rewrite upd2_ne by done. eapply dll_frame; [|by apply (ls_dll _ _ _ _ Hl)].
    intros x Hx. destruct (Hsp x i j Hij Hx) as [H1 H2].
    pose proof (λ y, lists_disjoint _ _ _ _ i j fl sl x y Hl (nd_control _ _ Hn) Hij Hc Hne Hx)
      as Hdis.
    pose proof (Hdis _ prev_in). pose proof (Hdis _ next_in).
    unfold spaced in *. split; by upd_cases.
Qed.

Lemma head_is_b : blocks s fl sl = b ↔ l1 = [].
Proof.
  rewrite (ls_head _ _ _ _ Hl fl sl Hc), HL. destruct l1 as [|x l1']; simpl; [done|].
  split; [|done]. intros ->. pose proof (ls_nodup _ _ _ _ Hl fl sl Hc) as Hnd.
  rewrite HL in Hnd. simpl in Hnd. apply NoDup_cons in Hnd as [? _]. set_solver.
Qed.

Lemma next_is_control : next = control ↔ l2 = [].
Proof.
  unfold next. destruct l2 as [|x l2']; simpl; [done|]. split; [|done]. intros ->.
  destruct (control_not_in fl sl Hc). rewrite HL. set_solver.
Qed.

Lemma remove_blocks i j :
  class_ok i j → blocks (remove_state control b fl sl s) i j = hd control (L' i j).
Proof.
  intros Hij. destruct remove_neighbours as [Hp Hx].
  assert (blocks (remove_state control b fl sl s) =
          if blocks s fl sl =? b then upd2 (blocks s) fl sl next else blocks s) as ->.
  { unfold remove_state. cbv zeta. rewrite Hx. by repeat case_match. }
  unfold L'. destruct (Z.eqb_spec (blocks s fl sl) b) as [Hbb|Hbb].
  - apply head_is_b in Hbb.
    destruct (decide ((i, j) = (fl, sl))) as [[= -> ->]|Hne].
    + rewrite !upd2_eq. by rewrite Hbb.
    + rewrite !upd2_ne by done. by apply (ls_head _ _ _ _ Hl).
  - rewrite head_is_b in Hbb.
    destruct (decide ((i, j) = (fl, sl))) as [[= -> ->]|Hne].
    + rewrite upd2_eq, (ls_head _ _ _ _ Hl fl sl Hc), HL. by destruct l1.
    + rewrite upd2_ne by done. by apply (ls_head _ _ _ _ Hl).
Qed.

(** The new bitmaps. *)
Lemma remove_bitmaps :
  let s' := remove_state control b fl sl s in
  if decide (l1 ++ l2 = []) then
    let v := Z.land (sl_bitmap s fl) (not32 (2 ^ sl)) in
    sl_bitmap s' = upd (sl_bitmap s) fl v ∧
    fl_bitmap s' = if v =? 0 then Z.land (fl_bitmap s) (not32 (2 ^ fl)) else fl_bitmap s
  else sl_bitmap s' = sl_bitmap s ∧ fl_bitmap s' = fl_bitmap s.
Proof.
  destruct remove_neighbours as [_ Hx]. pose proof head_is_b as H1.
  pose proof next_is_control as H2. unfold remove_state. cbv zeta. rewrite Hx.
  destruct (Z.eqb_spec (blocks s fl sl) b) as [Hbb|Hbb].
  - apply H1 in Hbb. destruct (Z.eqb_spec next control) as [Hnc|Hnc].
    + apply H2 in Hnc. rewrite decide_True by (by rewrite Hbb, Hnc). by case_match.
    + rewrite H2 in Hnc. rewrite decide_False; [done|]. intros [_ ?]%app_eq_nil. done.
  - rewrite H1 in Hbb. rewrite decide_False; [done|]. intros [? _]%app_eq_nil. done.
Qed.

Lemma remove_elem i j a : class_ok i j →
  a ∈ L' i j ↔ ∃ sz, delete b Fr !! a = Some sz ∧ mapping_insert sz = (i, j).
Proof.
  pose proof Hc as [Hfl Hsl]. change SL_INDEX_COUNT with 32 in Hsl.
  pose proof (ls_sl_range _ _ _ _ Hl fl Hfl) as Hr.
  pose proof (ls_fl_range _ _ _ _ Hl) as Hfr.
  pose proof (ls_nodup _ _ _ _ Hl fl sl Hc) as Hnd. rewrite HL in Hnd.
  assert (Z.testbit (sl_bitmap s fl) sl = true) as Hset.
  { apply (ls_sl _ _ _ _ Hl); [done|]. rewrite HL. by destruct l1. }
  pose proof remove_bitmaps as Hbm. cbv zeta in Hbm.
  set (s' := remove_state control b fl sl s) in *.
  set (v := Z.land (sl_bitmap s fl) (not32 (2 ^ sl))) in *.
  intros Hij. unfold L'. destruct (decide (a = b)) as [->|Hab].
  - setoid_rewrite lookup_delete_eq. split; [|naive_solver]. intros Hin. exfalso.
    destruct (decide ((i, j) = (fl, sl))) as [[= -> ->]|Hne].
    + rewrite upd2_eq in Hin. apply NoDup_app in Hnd as (_ & Hnd1 & Hnd2).
      apply NoDup_cons in Hnd2 as [Hnd2 _].
      apply elem_of_app in Hin as [Hin|Hin]; [|done]. apply (Hnd1 b Hin). set_solver.
    + rewrite upd2_ne in Hin by done. apply (ls_elem _ _ _ _ Hl) in Hin as (? & ? & ?); [|done].
      congruence.
  - setoid_rewrite lookup_delete_ne; [|done].
    rewrite <- (ls_elem _ _ _ _ Hl) by done.
    destruct (decide ((i, j) = (fl, sl))) as [[= -> ->]|Hne].
    + rewrite upd2_eq, HL. set_solver.
    + by rewrite upd2_ne.
Qed.

Lemma remove_sl i j : class_ok i j → Z.testbit (sl_bitmap (remove_state control b fl sl s) i) j = true ↔ L' i j ≠ [].
Proof.
  pose proof Hc as [Hfl Hsl]. change SL_INDEX_COUNT with 32 in Hsl.
  pose proof (ls_sl_range _ _ _ _ Hl fl Hfl) as Hr.
  pose proof (ls_fl_range _ _ _ _ Hl) as Hfr.
  pose proof (ls_nodup _ _ _ _ Hl fl sl Hc) as Hnd. rewrite HL in Hnd.
  assert (Z.testbit (sl_bitmap s fl) sl = true) as Hset.
  { apply (ls_sl _ _ _ _ Hl); [done|]. rewrite HL. by destruct l1. }
  pose proof remove_bitmaps as Hbm. cbv zeta in Hbm.
  set (s' := remove_state control b fl sl s) in *.
  set (v := Z.land (sl_bitmap s fl) (not32 (2 ^ sl))) in *.
  intros Hij. pose proof Hij as [Hi Hj]. change SL_INDEX_COUNT with 32 in Hj.
  unfold L'. case_decide as Hemp; destruct Hbm as [-> _].
  - destruct (decide (i = fl)) as [->|Hne].
    + rewrite upd_eq. unfold v. rewrite testbit_clear_bit by lia.
      destruct (Z.eqb_spec sl j) as [->|].
      * rewrite upd2_eq, Hemp. done.
      * rewrite upd2_ne by congruence. by apply (ls_sl _ _ _ _ Hl).
    + rewrite upd_ne by done. rewrite upd2_ne by congruence. by apply (ls_sl _ _ _ _ Hl).
  - destruct (decide ((i, j) = (fl, sl))) as [[= -> ->]|Hne].
    + rewrite upd2_eq. done.
    + rewrite upd2_ne by done. by apply (ls_sl _ _ _ _ Hl).
Qed.

Lemma remove_fl i : 0 ≤ i < FL_INDEX_COUNT →
  Z.testbit (fl_bitmap (remove_state control b fl sl s)) i = true ↔ sl_bitmap (remove_state control b fl sl s) i ≠ 0.
Proof.
  pose proof Hc as [Hfl Hsl]. change SL_INDEX_COUNT with 32 in Hsl.
  pose proof (ls_sl_range _ _ _ _ Hl fl Hfl) as Hr.
  pose proof (ls_fl_range _ _ _ _ Hl) as Hfr.
  pose proof (ls_nodup _ _ _ _ Hl fl sl Hc) as Hnd. rewrite HL in Hnd.
  assert (Z.testbit (sl_bitmap s fl) sl = true) as Hset.
  { apply (ls_sl _ _ _ _ Hl); [done|]. rewrite HL. by destruct l1. }
  pose proof remove_bitmaps as Hbm. cbv zeta in Hbm.
  set (s' := remove_state control b fl sl s) in *.
  set (v := Z.land (sl_bitmap s fl) (not32 (2 ^ sl))) in *.
  intros Hi. change FL_INDEX_COUNT with 25 in *.
  pose proof (ls_fl _ _ _ _ Hl i Hi) as Hfli.
  case_decide; destruct Hbm as [-> ->]; [|done].
  destruct (Z.eqb_spec v 0) as [Hv|Hv].
  - rewrite testbit_clear_bit by lia. destruct (Z.eqb_spec fl i) as [->|].
    + rewrite upd_eq. done.
    + by rewrite upd_ne.
  - destruct (decide (i = fl)) as [->|]; [rewrite upd_eq|by rewrite upd_ne].
    rewrite Hfli. split; [done|]. intros _. by eapply bit_ne0.
Qed.

Lemma lists_remove : lists control (remove_state control b fl sl s) (delete b Fr) L'.
Proof.
  pose proof Hc as [Hfl Hsl]. change SL_INDEX_COUNT with 32 in Hsl.
  pose proof (ls_sl_range _ _ _ _ Hl fl Hfl) as Hr.
  pose proof (ls_fl_range _ _ _ _ Hl) as Hfr.
  pose proof (ls_nodup _ _ _ _ Hl fl sl Hc) as Hnd. rewrite HL in Hnd.
  assert (Z.testbit (sl_bitmap s fl) sl = true) as Hset.
  { apply (ls_sl _ _ _ _ Hl); [done|]. rewrite HL. by destruct l1. }
  pose proof remove_bitmaps as Hbm. cbv zeta in Hbm.
  set (s' := remove_state control b fl sl s) in *.
  set (v := Z.land (sl_bitmap s fl) (not32 (2 ^ sl))) in *.
  split; [exact remove_blocks|exact remove_dll| |exact remove_elem|exact remove_sl| |exact remove_fl|].
  - intros i j Hij. unfold L'. destruct (decide ((i, j) = (fl, sl))) as [[= -> ->]|Hne].
    + rewrite upd2_eq. rewrite <- Permutation_middle in Hnd. by apply NoDup_cons in Hnd as [_ ?].
    + rewrite upd2_ne by done. by apply (ls_nodup _ _ _ _ Hl).
  - intros i Hi. case_decide; destruct Hbm as [-> _]; [|by apply (ls_sl_range _ _ _ _ Hl)].
    destruct (decide (i = fl)) as [->|]; [rewrite upd_eq|rewrite upd_ne by done].
    + apply land_range; [done|lia].
    + by apply (ls_sl_range _ _ _ _ Hl).
  - change FL_INDEX_COUNT with 25 in *.
    case_decide; destruct Hbm as [_ ->]; [|done]. case_match; [|done]. by apply land_range.
Qed.

Lemma remove_links : links_frame control Fr s (remove_state control b fl sl s).
Proof.
  intros x Hx. rewrite remove_state_mem. destruct remove_neighbours as [-> ->].
  rewrite !upd_ne; [done|..]; intros ->; apply Hx; eexists.
  - split; [by apply (in_node _ fl sl), next_in|lia].
  - split; [by apply (in_node _ fl sl), prev_in|lia].
Qed.

Lemma wp_remove_free_block (Q : unit → tlsf → Prop) :
  Q tt (remove_state control b fl sl s) → wp (remove_free_block control b fl sl) s Q.
Proof.
  intros HQ. pose proof Hc as [Hfl Hsl]. change SL_INDEX_COUNT with 32 in Hsl.
  pose proof Hfl as Hfl'. change FL_INDEX_COUNT with 25 in Hfl'.
  assert (is_node control Fr b) as Hbn by (right; eauto).
  destruct (nd_ok _ _ Hn _ Hbn) as (? & ? & ?).
  destruct (nd_ok _ _ Hn _ (in_node _ fl sl Hc prev_in)) as (? & ? & ?).
  destruct (nd_ok _ _ Hn _ (in_node _ fl sl Hc next_in)) as (? & ? & ?).
  destruct remove_neighbours as [Hp Hx].
  unfold remove_free_block, prev_free, next_free.
  rewrite !(w64_small (b + _)) by lia.
  apply wp_bind, wp_load; [lia|by apply mod8_add|].
  apply wp_bind, wp_load; [lia|by apply mod8_add|].
  unfold remove_state in HQ. cbv zeta in HQ. rewrite Hp, Hx in *.
  apply wp_bind, wp_assert; [destruct (Z.eqb_spec prev 0); [lia|done]|].
  apply wp_bind, wp_assert; [destruct (Z.eqb_spec next 0); [lia|done]|].
  rewrite !w64_small by lia.
  apply wp_bind, wp_store; [lia|by apply mod8_add|].
  apply wp_bind, wp_store; [lia|by apply mod8_add|].
  apply wp_bind, wp_get_blocks; [done|]. simpl.
  destruct (Z.eqb_spec (blocks s fl sl) b); [|by apply wp_ret].
  apply wp_bind, wp_put_blocks; [done|].
  destruct (Z.eqb_spec next control); [|by apply wp_ret].
  apply wp_bind, wp_get_sl_bitmap; [done|]. simpl.
  apply wp_bind, wp_shl_u32; [lia|]. rewrite w32_pow2 by lia.
  apply wp_bind, wp_put_sl_bitmap; [done|].
  apply wp_bind, wp_get_sl_bitmap; [done|]. simpl. rewrite upd_eq.
  destruct (Z.eqb_spec (Z.land (sl_bitmap s fl) (not32 (2 ^ sl))) 0); [|by apply wp_ret].
  apply wp_bind, wp_gets, wp_bind, wp_shl_u32; [lia|]. rewrite w32_pow2 by lia.
  by apply wp_modify.
Qed.

End remove.

(** ** The two-level search *)

Lemma testbit_above v n j :
  0 ≤ v < 2 ^ 32 → 0 ≤ n < 32 → 0 ≤ j →
  Z.testbit (Z.land v (w32 (Z.shiftl (not32 0) n))) j = (n <=? j) && Z.testbit v j.
Proof.
  intros Hv Hn Hj. rewrite Z.land_spec, w32_testbit, Z.shiftl_spec by done.
  destruct (Z.leb_spec n j); [|rewrite (Z.testbit_neg_r _ (j - n)) by lia; by rewrite !andb_false_r].
  simpl. destruct (Z.ltb_spec j 32).
  - unfold not32. rewrite w32_testbit, Z.lnot_spec, Z.bits_0 by lia.
    destruct (Z.ltb_spec (j - n) 32); [|lia]. apply andb_true_r.
  - by rewrite (testbit_high v 32) by lia.
Qed.

Lemma ffs_masked v n k :
  0 ≤ v < 2 ^ k → 0 ≤ k ≤ 32 → 0 ≤ n < 32 →
  Z.land v (w32 (Z.shiftl (not32 0) n)) ≠ 0 →
  let j := tlsf_ffs (Z.land v (w32 (Z.shiftl (not32 0) n))) in
  n ≤ j < k ∧ Z.testbit v j = true.
Proof.
  intros Hv Hk Hn. assert (2 ^ k ≤ 2 ^ 32) by (apply Z.pow_le_mono_r; lia).
  pose proof (land_range v (w32 (Z.shiftl (not32 0) n)) k Hv ltac:(lia)) as Hr.
  pose proof (testbit_above v n) as Ha. revert Hr Ha.
  generalize (Z.land v (w32 (Z.shiftl (not32 0) n))). intros x Hr Ha Hx j.
  destruct (tlsf_ffs_spec x) as (Hj & Hbit & _); [lia|].
  pose proof (tlsf_ffs_lt x k ltac:(lia) ltac:(lia)).
  rewrite Ha in Hbit by lia. apply andb_true_iff in Hbit as [Hle ?].
  split; [unfold j; lia|done].
Qed.

Section search.
Context (control fl sl : Z) (s : tlsf) (Fr : gmap Z Z) (L : Z → Z → list Z).
Context (Hl : lists control s Fr L) (Hn : nodes control Fr).
Context (Hfl : 0 ≤ fl < FL_INDEX_COUNT) (Hsl : 0 ≤ sl < 32).

(** Some listed block is filed at or above [(fl, sl)]. *)
Definition populated_above : Prop :=
  ∃ a sz fl' sl', Fr !! a = Some sz ∧ mapping_insert sz = (fl', sl') ∧
    class_ok fl' sl' ∧ class_le fl sl fl' sl'.

Lemma cell_head fl' sl' :
  class_ok fl' sl' → Z.testbit (sl_bitmap s fl') sl' = true →
  ∃ l, L fl' sl' = blocks s fl' sl' :: l.
Proof.
  intros Hc Hbit. apply (ls_sl _ _ _ _ Hl) in Hbit; [|done].
  rewrite (ls_head _ _ _ _ Hl) by done. destruct (L fl' sl'); [done|]. simpl. eauto.
Qed.

(** The search returns the head of a populated class at or above the one
    asked for, or null when there is none. *)
Lemma wp_search_suitable_block (Q : Z * Z * Z → tlsf → Prop) :
  (∀ fl' sl' l, class_ok fl' sl' → class_le fl sl fl' sl' →
     L fl' sl' = blocks s fl' sl' :: l → Q (blocks s fl' sl', fl', sl') s) →
  (¬ populated_above → Q (0, fl, sl) s) →
  wp (search_suitable_block fl sl) s Q.
Proof.
  intros HQ HQ0. change FL_INDEX_COUNT with 25 in Hfl.
  pose proof (ls_sl_range _ _ _ _ Hl) as Hr. change FL_INDEX_COUNT with 25 in Hr.
  pose proof (ls_fl_range _ _ _ _ Hl) as Hfr. change FL_INDEX_COUNT with 25 in Hfr.
  apply wp_bind, wp_get_sl_bitmap; [done|].
  apply wp_bind, wp_shl_u32; [lia|]. cbv zeta.
  destruct (Z.eqb_spec (Z.land (sl_bitmap s fl) (w32 (Z.shiftl (not32 0) sl))) 0) as [Hz|Hz].
  - apply wp_bind, wp_gets, wp_bind, wp_shl_u32; [lia|].
    destruct (Z.eqb_spec (Z.land (fl_bitmap s) (w32 (Z.shiftl (not32 0) (fl + 1)))) 0)
      as [Hz2|Hz2].
    + apply wp_ret, HQ0. intros (a & sz & fl' & sl' & Ha & Hm & Hc & Hle).
      assert (a ∈ L fl' sl') as Hin by (apply (ls_elem _ _ _ _ Hl); eauto).
      assert (Z.testbit (sl_bitmap s fl') sl' = true) as Hb.
      { apply (ls_sl _ _ _ _ Hl); [done|]. intros E. rewrite E in Hin. set_solver. }
      pose proof Hc as [Hc1 Hc2]. change SL_INDEX_COUNT with 32 in Hc2.
      change FL_INDEX_COUNT with 25 in Hc1.
      destruct Hle as [Hlt|[<- Hle]].
      * apply (f_equal (λ x, Z.testbit x fl')) in Hz2.
        rewrite testbit_above, Z.bits_0 in Hz2 by lia.
        rewrite (proj2 (ls_fl _ _ _ _ Hl fl' (proj1 Hc))) in Hz2 by (by eapply bit_ne0).
        lia.
      * apply (f_equal (λ x, Z.testbit x sl')) in Hz.
        rewrite testbit_above, Z.bits_0, Hb in Hz by (lia || apply Hr; lia). lia.
    + destruct (ffs_masked (fl_bitmap s) (fl + 1) 25) as [Hj Hbit]; [done|lia..|done|].
      set (fl' := tlsf_ffs _) in *.
      apply wp_bind, wp_get_sl_bitmap; [change FL_INDEX_COUNT with 25; lia|].
      assert (sl_bitmap s fl' ≠ 0) as Hne
        by (apply (ls_fl _ _ _ _ Hl); [change FL_INDEX_COUNT with 25; lia|done]).
      apply wp_bind, wp_assert; [by destruct (Z.eqb_spec (sl_bitmap s fl') 0)|].
      specialize (Hr fl' ltac:(lia)).
      destruct (tlsf_ffs_spec (sl_bitmap s fl')) as (H1 & H2 & _); [lia|].
      pose proof (tlsf_ffs_lt (sl_bitmap s fl') 32 ltac:(lia) ltac:(lia)).
      assert (class_ok fl' (tlsf_ffs (sl_bitmap s fl'))) as Hc.
      { split; [change FL_INDEX_COUNT with 25|change SL_INDEX_COUNT with 32]; lia. }
      apply wp_bind, wp_get_blocks; [done|]. apply wp_ret.
      destruct (cell_head _ _ Hc H2) as [l HL]. eapply HQ; [done| |done].
      left. lia.
  - specialize (Hr fl ltac:(lia)).
    destruct (ffs_masked (sl_bitmap s fl) sl 32) as [Hj Hbit]; [done|lia..|done|].
    apply wp_bind, wp_assert; [by destruct (Z.eqb_spec (Z.land (sl_bitmap s fl) (w32 (Z.shiftl (not32 0) sl))) 0)|].
    set (sl' := tlsf_ffs _) in *.
    assert (class_ok fl sl') as Hc.
    { split; [change FL_INDEX_COUNT with 25|change SL_INDEX_COUNT with 32]; lia. }
    apply wp_bind, wp_get_blocks; [done|]. apply wp_ret.
    destruct (cell_head _ _ Hc Hbit) as [l HL]. eapply HQ; [done| |done].
    right. lia.
Qed.

End search.

(** ** Lists inside a heap *)

Lemma phys_free_min control m B a b :
  phys control m B → B !! a = Some b → bfree b = true → 24 ≤ bsz b < 2 ^ 32.
Proof.
  intros Hp Hb Hf. destruct (ph_placed _ _ _ Hp a b Hb) as (_ & _ & _ & _ & [H0|?]); [|done].
  pose proof (ph_last _ _ _ Hp a b Hb H0). congruence.
Qed.

Lemma phys_nodes control m B Fr :
  control_ok control → phys control m B →
  (∀ a sz, Fr !! a = Some sz → ∃ b, B !! a = Some b ∧ bfree b = true) →
  nodes control Fr.
Proof.
  intros Hc Hp HFr.
  assert (∀ a, is_Some (Fr !! a) → ∃ b, B !! a = Some b ∧ 24 ≤ bsz b ∧ placed a b ∧
    (a + 40 ≤ control ∨ control + 6536 ≤ a + 8)) as Hfree.
  { intros a [sz Ha]. destruct (HFr a sz Ha) as (b & Hb & Hf). exists b.
    pose proof (phys_free_min _ _ _ _ _ Hp Hb Hf). pose proof (ph_control _ _ _ Hp a b Hb).
    split_and!; [done|lia|by apply (ph_placed _ _ _ Hp)|lia]. }
  destruct Hc as (? & ? & ?). split.
  - intros a [->|Ha]; [split_and!; [done..|lia]|].
    destruct (Hfree a Ha) as (b & _ & ? & (? & ? & ? & ? & ?) & ?). split_and!; [done..|lia].
  - intros a a' [->|Ha] [->|Ha'].
    + by left.
    + destruct (Hfree a' Ha') as (b & _ & ? & _ & ?). unfold spaced. lia.
    + destruct (Hfree a Ha) as (b & _ & ? & _ & ?). unfold spaced. lia.
    + destruct (Hfree a Ha) as (b & Hb & ? & _), (Hfree a' Ha') as (b' & Hb' & ? & _).
      pose proof (ph_disj _ _ _ Hp a b a' b' Hb Hb').
      pose proof (ph_disj _ _ _ Hp a' b' a b Hb' Hb). unfold spaced. lia.
  - destruct (Fr !! control) as [sz|] eqn:E; [|done].
    destruct (Hfree control) as (b & _ & ? & _ & ?); [eauto|lia].
Qed.

Lemma phys_frame control m m' B :
  phys control m B →
  (∀ a b, B !! a = Some b → m' (a + 8) = m (a + 8)) →
  (∀ a b, B !! a = Some b → bfree b = true → m' (a + 8 + bsz b) = m (a + 8 + bsz b)) →
  phys control m' B.
Proof.
  intros Hp Hh Hf. split.
  - apply Hp.
  - intros a b Hb. rewrite (Hh a b Hb). by apply (ph_header _ _ _ Hp).
  - intros a b Hb Hne. destruct (ph_next _ _ _ Hp a b Hb Hne) as (nb & ? & ? & Hm).
    exists nb. split_and!; [done..|]. intros Hfr. rewrite (Hf a b) by done. auto.
  - apply Hp.
  - apply Hp.
  - apply Hp.
  - apply Hp.
  - apply Hp.
Qed.

(** Link words lie strictly inside the payloads of free blocks. *)
Lemma link_word_not_phys control m B Fr a b x :
  phys control m B → control_ok control →
  (∀ a sz, Fr !! a = Some sz → ∃ b, B !! a = Some b ∧ bfree b = true) →
  B !! a = Some b → link_word control Fr x →
  x ≠ a + 8 ∧ (bfree b = true → x ≠ a + 8 + bsz b) ∧
  (bfree b = false → ¬ (a + 16 ≤ x < a + 16 + bsz b)).
Proof.
  intros Hp Hc HFr Hb (n & Hnode & Hx).
  pose proof (ph_control _ _ _ Hp a b Hb) as Hab.
  destruct (ph_placed _ _ _ Hp a b Hb) as (? & ? & ? & ? & ?).
  destruct Hnode as [->|[sz Hn]].
  - split_and!; intros; lia.
  - destruct (HFr n sz Hn) as (nb & Hnb & Hnf).
    pose proof (phys_free_min _ _ _ _ _ Hp Hnb Hnf).
    pose proof (ph_disj _ _ _ Hp a b n nb Hb Hnb). pose proof (ph_disj _ _ _ Hp n nb a b Hnb Hb).
    destruct (Z.lt_trichotomy a n) as [?|[<-|?]].
    + split_and!; intros; lia.
    + simplify_eq. split_and!; intros; [lia|lia|congruence].
    + split_and!; intros; lia.
Qed.

Lemma links_frame_wf control s s' B Fr :
  control_ok control → phys control (mem s) B →
  (∀ a sz, Fr !! a = Some sz → ∃ b, B !! a = Some b ∧ bfree b = true) →
  links_frame control Fr s s' →
  phys control (mem s') B ∧ frame (used_map B) s s'.
Proof.
  intros Hc Hp HFr Hfr. split.
  - eapply phys_frame; [done|intros a b Hb|intros a b Hb Hf]; apply Hfr; intros Hlw;
      destruct (link_word_not_phys _ _ _ _ a b _ Hp Hc HFr Hb Hlw) as (H1 & H2 & _).
    + by apply H1.
    + by apply H2.
  - intros a sz x Ha Hx. apply used_map_Some in Ha as (b & Hb & Hf & <- & _).
    apply Hfr. intros Hlw.
    destruct (link_word_not_phys _ _ _ _ a b _ Hp Hc HFr Hb Hlw) as (_ & _ & H3).
    by apply H3.
Qed.

Lemma wf_listed_free control s B Fr :
  wf control s B Fr → ∀ a sz, Fr !! a = Some sz → ∃ b, B !! a = Some b ∧ bfree b = true.
Proof. intros Hw a sz Ha. destruct (wf_listed _ _ _ _ Hw a sz Ha) as (b & ? & _ & ?); eauto. Qed.

(** [block_insert] files a free block that is not yet listed. *)
Lemma wp_block_insert control s B Fr a b (Q : unit → tlsf → Prop) :
  wf control s B Fr → B !! a = Some b → bfree b = true → Fr !! a = None →
  (∀ s', wf control s' B (<[a:=bsz b]> Fr) → frame (used_map B) s s' → Q tt s') →
  wp (block_insert control a) s Q.
Proof.
  intros Hw Hb Hf Ha HQ. pose proof (wf_phys _ _ _ _ Hw) as Hp.
  destruct (wf_lists _ _ _ _ Hw) as [L Hl].
  pose proof (phys_free_min _ _ _ _ _ Hp Hb Hf) as Hsz.
  assert (∀ a' sz, <[a:=bsz b]> Fr !! a' = Some sz →
    ∃ b, B !! a' = Some b ∧ bsz b = sz ∧ bfree b = true) as HFr.
  { intros a' sz [[<- <-]|[Hne Ha']]%lookup_insert_Some; [eauto|].
    by apply (wf_listed _ _ _ _ Hw). }
  assert (nodes control (<[a:=bsz b]> Fr)) as Hn.
  { eapply phys_nodes; [apply Hw|done|]. intros a' sz H.
    destruct (HFr a' sz H) as (b' & ? & _ & ?). eauto. }
  apply wp_bind. eapply wp_block_size; [by eapply phys_hdr|].
  destruct (mapping_insert (bsz b)) as [fl sl] eqn:Hm.
  assert (class_ok fl sl) as Hc.
  { eapply mapping_insert_ok; [|done]. change block_size_max with (2 ^ 32). lia. }
  eapply wp_insert_free_block; [done..|].
  destruct (links_frame_wf control s (insert_state control a fl sl s) B (<[a:=bsz b]> Fr))
    as [Hp' Hfr]; [apply Hw|done| |by eapply insert_links|].
  { intros a' sz H. destruct (HFr a' sz H) as (b' & ? & _ & ?). eauto. }
  apply HQ; [|done]. split; [apply Hw|done| |done].
  eexists. by eapply lists_insert.
Qed.

(** Unlinking a listed block. *)
Lemma wp_remove_listed control s B Fr a sz fl sl (Q : unit → tlsf → Prop) :
  wf control s B Fr → Fr !! a = Some sz → mapping_insert sz = (fl, sl) →
  (∀ s', wf control s' B (delete a Fr) → frame (used_map B) s s' → Q tt s') →
  wp (remove_free_block control a fl sl) s Q.
Proof.
  intros Hw Ha Hm HQ. pose proof (wf_phys _ _ _ _ Hw) as Hp.
  destruct (wf_lists _ _ _ _ Hw) as [L Hl].
  destruct (wf_listed _ _ _ _ Hw a sz Ha) as (b & Hb & <- & Hf).
  pose proof (phys_free_min _ _ _ _ _ Hp Hb Hf) as Hsz.
  assert (class_ok fl sl) as Hc.
  { eapply mapping_insert_ok; [|done]. change block_size_max with (2 ^ 32). lia. }
  assert (nodes control Fr) as Hn
    by (eapply phys_nodes; [apply Hw|done|by eapply wf_listed_free]).
  assert (a ∈ L fl sl) as Hin by (apply (ls_elem _ _ _ _ Hl); eauto).
  apply list_elem_of_split in Hin as (l1 & l2 & HL).
  eapply wp_remove_free_block; [done..|].
  destruct (links_frame_wf control s (remove_state control a fl sl s) B Fr)
    as [Hp' Hfr]; [apply Hw|done|by eapply wf_listed_free|by eapply remove_links|].
  apply HQ; [|done]. split; [apply Hw|done| |].
  - eexists. by eapply lists_remove.
  - intros a' sz' [_ ?]%lookup_delete_Some. by apply (wf_listed _ _ _ _ Hw).
Qed.

Lemma wp_block_remove control s B Fr a sz (Q : unit → tlsf → Prop) :
  wf control s B Fr → Fr !! a = Some sz →
  (∀ s', wf control s' B (delete a Fr) → frame (used_map B) s s' → Q tt s') →
  wp (block_remove control a) s Q.
Proof.
  intros Hw Ha HQ. destruct (wf_listed _ _ _ _ Hw a sz Ha) as (b & Hb & Hs & Hf).
  apply wp_bind. eapply wp_block_size; [eapply phys_hdr; [apply Hw|done]|].
  rewrite Hs. destruct (mapping_insert sz) as [fl sl] eqn:Hm.
  by eapply wp_remove_listed.
Qed.
