(* ===== verification/TlsfPhys.v ===== *)
(** Physical layout of TLSF pools: changing the status of a block, splitting
    one and absorbing its right neighbour each keep the layout invariant,
    whatever the list words inside free payloads hold. *)

From S2P Require Import Prelude CString TlsfBits TlsfModel TlsfInv TlsfLists.

(** Disjointness of two blocks, both ways round. *)
Ltac disj Hp x y :=
  match goal with
  | Hx : _ !! x = Some ?bx, Hy : _ !! y = Some ?by_ |- _ =>
      pose proof (ph_disj _ _ _ Hp x bx y by_ Hx Hy);
      pose proof (ph_disj _ _ _ Hp y by_ x bx Hy Hx)
  end.

(** Size facts about one block. *)
Ltac sizes Hp x :=
  match goal with
  | Hx : _ !! x = Some ?bx |- _ =>
      let H := fresh in
      pose proof (ph_placed _ _ _ Hp x bx Hx) as H; destruct H as (? & ? & ? & ? & ?)
  end.

Section status.
Context (control : Z) (m m' : Z → Z) (B : gmap Z blk) (a : Z) (b nb : blk) (f : bool).
Notation n := (a + 8 + bsz b).
Context (Hp : phys control m B) (Ha : B !! a = Some b) (Hsz : bsz b ≠ 0) (Hn : B !! n = Some nb).

(** The block map after the free flag of [a] becomes [f]. *)
Definition set_status : gmap Z blk := <[n:=with_pf f nb]> (<[a:=with_free f b]> B).

Context (Hma : m' (a + 8) = enc (with_free f b)) (Hmn : m' (n + 8) = enc (with_pf f nb)).
Context (Hmf : f = true → m' n = a).
Context (Hother : ∀ x, x ≠ a + 8 → x ≠ n + 8 → x ≠ n → m' x = m x).

Lemma set_status_lookup x bx : set_status !! x = Some bx →
  ∃ b0, B !! x = Some b0 ∧ bsz bx = bsz b0 ∧
    bfree bx = (if decide (x = a) then f else bfree b0) ∧
    bpf bx = (if decide (x = n) then f else bpf b0).
Proof.
  sizes Hp a. unfold set_status.
  intros [[<- <-]|[Hne [[<- <-]|[Hne2 ?]]%lookup_insert_Some]]%lookup_insert_Some.
  - exists nb. simpl. repeat case_decide; split_and!; auto; lia.
  - exists b. simpl. repeat case_decide; split_and!; auto; lia.
  - exists bx. repeat case_decide; split_and!; auto; lia.
Qed.

Lemma set_status_inv x b0 : B !! x = Some b0 →
  set_status !! x = Some (Blk (bsz b0) (if decide (x = a) then f else bfree b0)
                            (if decide (x = n) then f else bpf b0)).
Proof.
  sizes Hp a. intros Hx. unfold set_status.
  repeat case_decide; simplify_map_eq; try lia; try done.
  by destruct b0.
Qed.

Lemma phys_set_status : phys control m' set_status.
Proof.
  sizes Hp a. sizes Hp (a + 8 + bsz b). split.
  - intros x bx (b0 & Hx & Hs & _)%set_status_lookup.
    destruct (ph_placed _ _ _ Hp x b0 Hx) as (? & ? & ? & ? & ?). unfold placed. by rewrite Hs.
  - intros x bx. unfold set_status.
    intros [[<- <-]|[Hne [[<- <-]|[Hne2 Hx]]%lookup_insert_Some]]%lookup_insert_Some;
      [done..|].
    disj Hp x a. disj Hp x (a + 8 + bsz b). sizes Hp x.
    rewrite Hother by lia. by apply (ph_header _ _ _ Hp).
  - intros x bx (b0 & Hx & Hs & Hf & _)%set_status_lookup Hne. rewrite Hs in *.
    destruct (ph_next _ _ _ Hp x b0 Hx Hne) as (yb & Hy & Hpf & Hfoot).
    eexists. split; [by apply set_status_inv|]. simpl. rewrite Hf.
    disj Hp x a. disj Hp x (a + 8 + bsz b). sizes Hp x.
    destruct (decide (x = a)) as [->|Hxa].
    + assert (b0 = b) as -> by congruence. assert (yb = nb) as -> by congruence.
      rewrite decide_True by done. by split.
    + rewrite decide_False by lia. split; [done|]. intros Hf0.
      rewrite Hother by lia. auto.
  - intros x bx (b0 & Hx & Hs & Hf & _)%set_status_lookup Hz. rewrite Hs in Hz.
    rewrite Hf. case_decide as Hxa; [subst x; congruence|]. by apply (ph_last _ _ _ Hp x).
  - intros x bx (b0 & Hx & Hs & _ & Hpf)%set_status_lookup Hb. rewrite Hpf in Hb.
    case_decide as Hxn.
    + subst x. exists a. eexists. split; [by apply set_status_inv|]. done.
    + destruct (ph_prev _ _ _ Hp x b0 Hx Hb) as (p & pb & Hpb & ? & ?).
      exists p. eexists. split; [by apply set_status_inv|]. done.
  - intros x bx y by_ (b0 & Hx & -> & _)%set_status_lookup (b1 & Hy & _)%set_status_lookup.
    by apply (ph_disj _ _ _ Hp x b0 y b1).
  - intros x bx (b0 & Hx & Hs & _)%set_status_lookup Hne. rewrite Hs in *.
    destruct (ph_end _ _ _ Hp x b0 Hx Hne) as (e & eb & He & ? & ? & ?).
    exists e. eexists. split; [by apply set_status_inv|]. done.
  - intros x bx (b0 & Hx & -> & _)%set_status_lookup. by apply (ph_control _ _ _ Hp).
Qed.
End status.

Section split.
Context (control : Z) (m m' : Z → Z) (B : gmap Z blk) (a : Z) (b nb : blk) (size : Z).
Notation n := (a + 8 + bsz b).
Notation r := (a + 8 + size).
Notation rb := (Blk (bsz b - size - 8) true (bfree b)).
Context (Hp : phys control m B) (Ha : B !! a = Some b) (Hn : B !! n = Some nb).
Context (Hs8 : size mod 8 = 0) (Hmin : 24 ≤ size) (Hfit : size + 32 ≤ bsz b).

(** The block map after [a] keeps [size] bytes and the rest is a free block. *)
Definition split_map : gmap Z blk :=
  <[n:=with_pf true nb]> (<[r:=rb]> (<[a:=Blk size (bfree b) (bpf b)]> B)).

Context (Hma : m' (a + 8) = enc (Blk size (bfree b) (bpf b))) (Hmr : m' (r + 8) = enc rb).
Context (Hmn : m' (n + 8) = enc (with_pf true nb)) (Hfn : m' n = r).
Context (Hfr : bfree b = true → m' r = a).
Context (Hother : ∀ x, x ≠ a + 8 → x ≠ r + 8 → x ≠ n + 8 → x ≠ n → x ≠ r → m' x = m x).

Lemma split_fresh : B !! r = None.
Proof.
  destruct (B !! r) as [xb|] eqn:Hx; [|done].
  pose proof (ph_disj _ _ _ Hp a b r xb Ha Hx). lia.
Qed.

Lemma split_map_lookup x bx : split_map !! x = Some bx →
  x = r ∧ bx = rb ∨
  x = a ∧ bx = Blk size (bfree b) (bpf b) ∨
  x ≠ r ∧ x ≠ a ∧ ∃ b0, B !! x = Some b0 ∧ bsz bx = bsz b0 ∧ bfree bx = bfree b0 ∧
    bpf bx = (if decide (x = n) then true else bpf b0).
Proof.
  unfold split_map. rewrite !lookup_insert_Some.
  intros [[<- <-]|[Hne [[<- <-]|[Hne2 [[<- <-]|[Hne3 Hx]]]]]]; [|by auto..|].
  - right. right. split_and!; [lia..|]. exists nb. rewrite decide_True by done. done.
  - right. right. split_and!; [lia..|]. exists bx. rewrite decide_False by lia. done.
Qed.

Lemma split_map_old x b0 : B !! x = Some b0 → x ≠ a →
  split_map !! x = Some (Blk (bsz b0) (bfree b0) (if decide (x = n) then true else bpf b0)).
Proof.
  intros Hx Hne. pose proof split_fresh. unfold split_map.
  destruct (decide (x = n)) as [->|].
  - rewrite lookup_insert_eq. by assert (b0 = nb) as -> by congruence.
  - rewrite !lookup_insert_ne by congruence. rewrite Hx. by destruct b0.
Qed.

Lemma split_map_r : split_map !! r = Some rb.
Proof. unfold split_map. rewrite lookup_insert_ne by lia. by rewrite lookup_insert_eq. Qed.

Lemma split_map_a : split_map !! a = Some (Blk size (bfree b) (bpf b)).
Proof.
  unfold split_map. rewrite !lookup_insert_ne by lia. by rewrite lookup_insert_eq.
Qed.

(** The sizes of the two parts. *)
Ltac split_arith :=
  pose proof (ph_placed _ _ _ Hp a b Ha) as (? & ? & ? & ? & ?);
  sizes Hp (a + 8 + bsz b);
  pose proof (Z.div_mod (bsz b) 8);
  pose proof (Z.div_mod size 8);
  pose proof (Z.div_mod a 8);
  pose proof (Z.mod_pos_bound (bsz b - size - 8) 8);
  pose proof (Z.mod_pos_bound (a + 8 + size) 8);
  pose proof (Z.div_mod (bsz b - size - 8) 8);
  pose proof (Z.div_mod (a + 8 + size) 8).

Lemma split_header x bx : split_map !! x = Some bx → m' (x + 8) = enc bx.
Proof.
  split_arith.
  intros [[-> ->]|[[-> ->]|(Hxr & Hxa & b0 & Hx & Hs & Hf & Hpf)]]%split_map_lookup;
    [done..|].
  destruct (decide (x = n)) as [->|Hxn].
  - rewrite Hmn. unfold enc, with_pf. simpl. rewrite Hs, Hf, Hpf. by assert (b0 = nb) as -> by congruence.
  - disj Hp x a. disj Hp x (a + 8 + bsz b). sizes Hp x. rewrite Hother by lia.
    rewrite (ph_header _ _ _ Hp x b0 Hx). unfold enc. by rewrite Hs, Hf, Hpf.
Qed.

Lemma split_next x bx : split_map !! x = Some bx → bsz bx ≠ 0 →
  ∃ yb, split_map !! (x + 8 + bsz bx) = Some yb ∧ bpf yb = bfree bx ∧ (bfree bx = true → m' (x + 8 + bsz bx) = x).
Proof.
  split_arith.
  intros [[-> ->]|[[-> ->]|(Hxr & Hxa & b0 & Hx & Hs & Hf & Hpf)]]%split_map_lookup Hne.
  - simpl. replace (r + 8 + (bsz b - size - 8)) with n by lia.
    eexists. split; [by apply split_map_old; [|lia]|]. simpl. by rewrite decide_True.
  - simpl. eexists. split; [apply split_map_r|]. done.
  - rewrite Hs in *. destruct (ph_next _ _ _ Hp x b0 Hx Hne) as (yb & Hy & Hpy & Hfoot).
    disj Hp x a. disj Hp x (a + 8 + bsz b). sizes Hp x. rewrite Hf.
    destruct (decide (x + 8 + bsz b0 = a)) as [Hxe|].
    + rewrite Hxe in *. assert (yb = b) as -> by congruence.
      eexists. split; [apply split_map_a|]. split; [done|]. intros. rewrite Hother by lia. auto.
    + eexists. split; [by apply split_map_old|]. simpl. rewrite decide_False by lia.
      split; [done|]. intros. rewrite Hother by lia. auto.
Qed.

Lemma split_prev x bx : split_map !! x = Some bx → bpf bx = true →
  ∃ p pb, split_map !! p = Some pb ∧ bsz pb ≠ 0 ∧ p + 8 + bsz pb = x.
Proof.
  split_arith.
  intros [[-> ->]|[[-> ->]|(Hxr & Hxa & b0 & Hx & Hs & Hf & Hpf)]]%split_map_lookup Hb;
    simpl in *.
  - exists a. eexists. split; [apply split_map_a|]. simpl. lia.
  - destruct (ph_prev _ _ _ Hp a b Ha Hb) as (p & pb & Hpb & ? & ?). exists p. eexists.
    split; [apply split_map_old; [done|]|done]. intros ->. sizes Hp a. lia.
  - rewrite Hpf in Hb. case_decide as Hxn.
    + exists r. eexists. split; [apply split_map_r|]. simpl. lia.
    + destruct (ph_prev _ _ _ Hp x b0 Hx Hb) as (p & pb & Hpb & ? & ?). exists p. eexists.
      split; [apply split_map_old; [done|]|done]. intros ->. congruence.
Qed.

Lemma split_disj x bx y by_ : split_map !! x = Some bx → split_map !! y = Some by_ → x < y → x + 8 + bsz bx ≤ y.
Proof.
  split_arith.
  intros Hx Hy Hlt.
  apply split_map_lookup in Hx as [[-> ->]|[[-> ->]|(Hxr & Hxa & b0 & Hx & Hs & _)]];
  apply split_map_lookup in Hy as [[-> ->]|[[-> ->]|(Hyr & Hya & b1 & Hy & Hs' & _)]]; simpl;
    try lia; rewrite ?Hs.
  - disj Hp y a. sizes Hp y. lia.
  - disj Hp y a. lia.
  - disj Hp x a. lia.
  - disj Hp x a. lia.
  - by apply (ph_disj _ _ _ Hp x b0 y b1).
Qed.

Lemma split_end x bx : split_map !! x = Some bx → bsz bx ≠ 0 →
  ∃ e eb, split_map !! e = Some eb ∧ bsz eb = 0 ∧ x + 8 + bsz bx ≤ e ∧ e < x + 8 + 2 ^ 32.
Proof.
  split_arith.
  assert (∀ e eb, B !! e = Some eb → bsz eb = 0 → ∃ eb', split_map !! e = Some eb' ∧ bsz eb' = 0)
    as Hend.
  { intros e eb He Hz. eexists. split; [apply split_map_old; [done|]|done].
    intros ->. assert (eb = b) as -> by congruence. lia. }
  destruct (ph_end _ _ _ Hp a b Ha) as (e & eb & He & Hz & ? & ?); [lia|].
  destruct (Hend e eb He Hz) as (eb' & He' & Hz').
  intros [[-> ->]|[[-> ->]|(Hxr & Hxa & b0 & Hx & Hs & _)]]%split_map_lookup Hne; simpl.
  - exists e, eb'. split_and!; [done..|lia|lia].
  - exists e, eb'. split_and!; [done..|lia|lia].
  - rewrite Hs in *. destruct (ph_end _ _ _ Hp x b0 Hx Hne) as (e2 & eb2 & He2 & Hz2 & ? & ?).
    destruct (Hend e2 eb2 He2 Hz2) as (eb3 & ? & ?). by exists e2, eb3.
Qed.

Lemma phys_split : phys control m' split_map.
Proof.
  split_arith. split; [|exact split_header|exact split_next| |exact split_prev|exact split_disj|exact split_end|].
  - intros x bx [[-> ->]|[[-> ->]|(Hxr & Hxa & b0 & Hx & Hs & _)]]%split_map_lookup.
    + unfold placed; simpl. split_and!; lia.
    + unfold placed; simpl. split_and!; lia.
    + unfold placed. rewrite Hs. apply (ph_placed _ _ _ Hp x b0 Hx).
  - intros x bx [[-> ->]|[[-> ->]|(Hxr & Hxa & b0 & Hx & Hs & Hf & Hpf)]]%split_map_lookup Hz;
      simpl in *; [lia..|]. rewrite Hf. apply (ph_last _ _ _ Hp x b0 Hx). congruence.
  - pose proof (ph_control _ _ _ Hp a b Ha).
    intros x bx [[-> ->]|[[-> ->]|(Hxr & Hxa & b0 & Hx & Hs & _)]]%split_map_lookup; simpl;
      [lia..|]. rewrite Hs. by apply (ph_control _ _ _ Hp).
Qed.
End split.

Section absorb.
Context (control : Z) (m m' : Z → Z) (B : gmap Z blk) (p : Z) (pb nb nnb : blk) (f : bool).
Notation n := (p + 8 + bsz pb).
Notation nn := (p + 8 + bsz pb + 8 + bsz nb).
Notation pb' := (Blk (bsz pb + 8 + bsz nb) f (bpf pb)).
Context (Hp : phys control m B) (Hpb : B !! p = Some pb) (Hpsz : bsz pb ≠ 0).
Context (Hn : B !! n = Some nb) (Hnsz : bsz nb ≠ 0) (Hnn : B !! nn = Some nnb).

(** The block map after [p] swallowed its right neighbour and has status [f]. *)
Definition absorb_map : gmap Z blk := <[nn:=with_pf f nnb]> (<[p:=pb']> (delete n B)).

Context (Hmp : m' (p + 8) = enc pb') (Hmnn : m' (nn + 8) = enc (with_pf f nnb)).
Context (Hfoot : f = true → m' nn = p).
Context (Hother : ∀ x, x ≠ p + 8 → x ≠ nn + 8 → x ≠ nn → m' x = m x).

Lemma absorb_map_lookup x bx : absorb_map !! x = Some bx →
  x = p ∧ bx = pb' ∨
  x ≠ p ∧ x ≠ n ∧ ∃ b0, B !! x = Some b0 ∧ bsz bx = bsz b0 ∧ bfree bx = bfree b0 ∧
    bpf bx = (if decide (x = nn) then f else bpf b0).
Proof.
  sizes Hp p. sizes Hp (p + 8 + bsz pb).
  unfold absorb_map. rewrite !lookup_insert_Some, lookup_delete_Some.
  intros [[<- <-]|[Hne [[<- <-]|[Hne2 [Hne3 Hx]]]]]; [|by auto|].
  - right. split_and!; [lia..|]. exists nnb. by rewrite decide_True.
  - right. split_and!; [lia..|]. exists bx. by rewrite decide_False by lia.
Qed.

Lemma absorb_map_old x b0 : B !! x = Some b0 → x ≠ p → x ≠ n →
  absorb_map !! x = Some (Blk (bsz b0) (bfree b0) (if decide (x = nn) then f else bpf b0)).
Proof.
  intros Hx Hne Hne2. unfold absorb_map. destruct (decide (x = nn)) as [->|].
  - rewrite lookup_insert_eq. by assert (b0 = nnb) as -> by congruence.
  - rewrite !lookup_insert_ne, lookup_delete_ne by congruence. rewrite Hx. by destruct b0.
Qed.

Lemma absorb_map_p : absorb_map !! p = Some pb'.
Proof.
  sizes Hp p. sizes Hp (p + 8 + bsz pb). unfold absorb_map.
  rewrite lookup_insert_ne by lia. by rewrite lookup_insert_eq.
Qed.

Lemma absorb_end e eb : B !! e = Some eb → bsz eb = 0 →
  ∃ eb', absorb_map !! e = Some eb' ∧ bsz eb' = 0.
Proof.
  intros He Hz. eexists. split; [apply absorb_map_old; [done| |]|done]; intros ->; congruence.
Qed.

(** Nothing else starts or ends inside the merged block. *)
Lemma absorb_apart x b0 : B !! x = Some b0 → x ≠ p → x ≠ n →
  x + 8 + bsz b0 ≤ p ∨ nn ≤ x.
Proof.
  intros Hx Hne Hne2. sizes Hp p. sizes Hp (p + 8 + bsz pb).
  disj Hp x p. disj Hp x (p + 8 + bsz pb). lia.
Qed.

Lemma absorb_size : placed p pb'.
Proof.
  destruct (ph_placed _ _ _ Hp p pb Hpb) as (? & ? & ? & ? & [?|?]); [done|].
  destruct (ph_placed _ _ _ Hp _ nb Hn) as (? & ? & ? & ? & ?).
  destruct (ph_end _ _ _ Hp p pb Hpb Hpsz) as (e & eb & He & Hz & ? & ?).
  destruct (absorb_apart e eb He) as [?|?]; [intros ->; congruence..|lia|].
  unfold placed; simpl. split_and!; [done..|lia| |lia].
  by apply mod8_add; [apply mod8_add|].
Qed.

(** The sizes of the two blocks. *)
Ltac absorb_arith :=
  pose proof (ph_placed _ _ _ Hp p pb Hpb) as (? & ? & ? & ? & ?);
  pose proof (ph_placed _ _ _ Hp _ nb Hn) as (? & ? & ? & ? & ?);
  sizes Hp (p + 8 + bsz pb + 8 + bsz nb).

Lemma absorb_header x bx : absorb_map !! x = Some bx → m' (x + 8) = enc bx.
Proof.
  absorb_arith.
  intros [[-> ->]|(Hxp & Hxn & b0 & Hx & Hs & Hf & Hpf)]%absorb_map_lookup; [done|].
  destruct (decide (x = nn)) as [->|Hxnn].
  - rewrite Hmnn. unfold enc, with_pf. simpl. rewrite Hs, Hf, Hpf.
    by assert (b0 = nnb) as -> by congruence.
  - pose proof (absorb_apart x b0 Hx Hxp Hxn). sizes Hp x. rewrite Hother by lia.
    rewrite (ph_header _ _ _ Hp x b0 Hx). unfold enc. by rewrite Hs, Hf, Hpf.
Qed.

Lemma absorb_next x bx : absorb_map !! x = Some bx → bsz bx ≠ 0 →
  ∃ yb, absorb_map !! (x + 8 + bsz bx) = Some yb ∧ bpf yb = bfree bx ∧ (bfree bx = true → m' (x + 8 + bsz bx) = x).
Proof.
  absorb_arith.
  intros [[-> ->]|(Hxp & Hxn & b0 & Hx & Hs & Hf & Hpf)]%absorb_map_lookup Hne.
  - simpl. replace (p + 8 + (bsz pb + 8 + bsz nb)) with nn by lia.
    eexists. split; [by apply absorb_map_old; [|lia..]|]. simpl. by rewrite decide_True.
  - rewrite Hs in *. destruct (ph_next _ _ _ Hp x b0 Hx Hne) as (yb & Hy & Hpy & Hft).
    pose proof (absorb_apart x b0 Hx Hxp Hxn). sizes Hp x. rewrite Hf.
    destruct (decide (x + 8 + bsz b0 = p)) as [Hxe|].
    + rewrite Hxe in *. assert (yb = pb) as -> by congruence.
      eexists. split; [apply absorb_map_p|]. split; [done|]. intros. rewrite Hother by lia. auto.
    + eexists. split; [apply absorb_map_old; [done|lia..]|]. simpl.
      rewrite decide_False by lia. split; [done|]. intros. rewrite Hother by lia. auto.
Qed.

Lemma absorb_prev x bx : absorb_map !! x = Some bx → bpf bx = true →
  ∃ q qb, absorb_map !! q = Some qb ∧ bsz qb ≠ 0 ∧ q + 8 + bsz qb = x.
Proof.
  absorb_arith.
  intros [[-> ->]|(Hxp & Hxn & b0 & Hx & Hs & Hf & Hpf)]%absorb_map_lookup Hb; simpl in *.
  - destruct (ph_prev _ _ _ Hp p pb Hpb Hb) as (q & qb & Hqb & ? & ?). exists q. eexists.
    sizes Hp q. split; [apply absorb_map_old; [done|lia..]|done].
  - rewrite Hpf in Hb. case_decide as Hxnn.
    + exists p. eexists. split; [apply absorb_map_p|]. simpl. lia.
    + destruct (ph_prev _ _ _ Hp x b0 Hx Hb) as (q & qb & Hqb & ? & ?). exists q. eexists.
      split; [apply absorb_map_old; [done| |]|done]; intros ->; congruence.
Qed.

Lemma absorb_disj x bx y by_ : absorb_map !! x = Some bx → absorb_map !! y = Some by_ → x < y → x + 8 + bsz bx ≤ y.
Proof.
  absorb_arith.
  intros Hx Hy Hlt.
  apply absorb_map_lookup in Hx as [[-> ->]|(Hxp & Hxn & b0 & Hx & Hs & _)];
  apply absorb_map_lookup in Hy as [[-> ->]|(Hyp & Hyn & b1 & Hy & _)]; simpl;
    try lia; rewrite ?Hs.
  - pose proof (absorb_apart y b1 Hy Hyp Hyn). sizes Hp y. lia.
  - pose proof (absorb_apart x b0 Hx Hxp Hxn). lia.
  - by apply (ph_disj _ _ _ Hp x b0 y b1).
Qed.

Lemma phys_absorb : phys control m' absorb_map.
Proof.
  absorb_arith. split; [|exact absorb_header|exact absorb_next| |exact absorb_prev|exact absorb_disj| |].
  - intros x bx [[-> ->]|(Hxp & Hxn & b0 & Hx & Hs & _)]%absorb_map_lookup; [apply absorb_size|].
    unfold placed. rewrite Hs. apply (ph_placed _ _ _ Hp x b0 Hx).
  - intros x bx [[-> ->]|(Hxp & Hxn & b0 & Hx & Hs & Hf & Hpf)]%absorb_map_lookup Hz;
      simpl in *; [lia|]. rewrite Hf. apply (ph_last _ _ _ Hp x b0 Hx). congruence.
  - intros x bx [[-> ->]|(Hxp & Hxn & b0 & Hx & Hs & _)]%absorb_map_lookup Hne; simpl.
    + destruct (ph_end _ _ _ Hp p pb Hpb Hpsz) as (e & eb & He & Hz & ? & ?).
      destruct (absorb_end e eb He Hz) as (eb' & ? & ?). exists e, eb'.
      destruct (absorb_apart e eb He) as [?|?]; [intros ->; congruence..|lia|].
      split_and!; [done..|lia|lia].
    + rewrite Hs in *. destruct (ph_end _ _ _ Hp x b0 Hx Hne) as (e & eb & He & Hz & ? & ?).
      destruct (absorb_end e eb He Hz) as (eb' & ? & ?). by exists e, eb'.
  - pose proof (ph_control _ _ _ Hp p pb Hpb). pose proof (ph_control _ _ _ Hp _ nb Hn).
    intros x bx [[-> ->]|(Hxp & Hxn & b0 & Hx & Hs & _)]%absorb_map_lookup; simpl.
    + lia.
    + rewrite Hs. by apply (ph_control _ _ _ Hp).
Qed.
End absorb.
