(* ===== verification/TlsfExtent.v ===== *)
(** What no operation of TLSF changes: the bytes its pools span and the number
    of sentinels; and the number of free blocks there can be. *)

From S2P Require Import Prelude CString TlsfBits TlsfModel TlsfInv TlsfLists TlsfPhys.

(** ** Sums over finite maps *)

Definition msum {A} (f : A → Z) (m : gmap Z A) : Z := map_fold (λ _ x acc, f x + acc) 0 m.

Section msum.
Context {A : Type} (f : A → Z).
Implicit Types m : gmap Z A.

Lemma msum_empty : msum f ∅ = 0.
Proof. apply map_fold_empty. Qed.

Lemma msum_insert_fresh m i x : m !! i = None → msum f (<[i:=x]> m) = f x + msum f m.
Proof. intros Hi. apply (map_fold_insert_L (λ _ x acc, f x + acc) 0 i x m); [intros; lia|done]. Qed.

Lemma msum_delete m i x : m !! i = Some x → msum f (delete i m) = msum f m - f x.
Proof. intros Hi. unfold msum. rewrite (map_fold_delete_L (λ _ x acc, f x + acc) 0 i x m); [lia|intros; lia|done]. Qed.

Lemma msum_insert m i x y : m !! i = Some x → msum f (<[i:=y]> m) = msum f m - f x + f y.
Proof.
  intros Hi. rewrite <- insert_delete_eq, msum_insert_fresh by apply lookup_delete_eq.
  rewrite (msum_delete m i x) by done. lia.
Qed.

Lemma msum_ge m c : 0 ≤ c → (∀ i x, m !! i = Some x → f x ≤ c) → msum f m ≤ Z.of_nat (size m) * c.
Proof.
  intros Hc. induction m as [|i x m Hi IH] using map_ind; intros Hle.
  - rewrite msum_empty, map_size_empty. lia.
  - rewrite msum_insert_fresh, map_size_insert_None by done.
    pose proof (Hle i x ltac:(apply lookup_insert_eq)).
    assert (msum f m ≤ Z.of_nat (size m) * c); [|lia].
    apply IH. intros j y Hj. apply (Hle j). rewrite lookup_insert_ne; [done|congruence].
Qed.
End msum.

Lemma msum_omap {A C} (f : A → Z) (h : C → option A) (m : gmap Z C) :
  msum f (omap h m) = msum (λ c, from_option f 0 (h c)) m.
Proof.
  induction m as [|i x m Hi IH] using map_ind; [by rewrite omap_empty, !msum_empty|].
  rewrite omap_insert. destruct (h x) as [a|] eqn:E; rewrite !msum_insert_fresh; try done.
  - rewrite E. simpl. by rewrite IH.
  - by rewrite lookup_omap, Hi.
  - rewrite delete_id by (by rewrite lookup_omap, Hi). by rewrite E, IH.
Qed.


Lemma msum_size {A} (m : gmap Z A) : msum (λ _, 1) m = Z.of_nat (size m).
Proof.
  induction m as [|i x m Hi IH] using map_ind; [by rewrite msum_empty, map_size_empty|].
  rewrite msum_insert_fresh, map_size_insert_None, IH by done. lia.
Qed.

Lemma msum_add {A} (f g : A → Z) m : msum (λ x, f x + g x) m = msum f m + msum g m.
Proof.
  induction m as [|i x m Hi IH] using map_ind; [by rewrite !msum_empty|].
  rewrite !msum_insert_fresh, IH by done. lia.
Qed.

Lemma msum_ext {A} (f g : A → Z) m : (∀ i x, m !! i = Some x → f x = g x) → msum f m = msum g m.
Proof.
  induction m as [|i x m Hi IH] using map_ind; intros He; [by rewrite !msum_empty|].
  rewrite !msum_insert_fresh by done. rewrite (He i x) by apply lookup_insert_eq.
  rewrite IH; [done|]. intros j y Hj. apply (He j). rewrite lookup_insert_ne; [done|congruence].
Qed.

(** ** The extent of a heap *)

(** Bytes from the first header to the end of the sentinel's size word, in all
    pools, and the number of pools. *)
Definition span (B : gmap Z blk) : Z := msum (λ b, bsz b + 8) B.
Definition pools (B : gmap Z blk) : Z := msum (λ b, Z.b2z (bsz b =? 0)) B.

Definition extent (B : gmap Z blk) : Z * Z := (span B, pools B).

Section changes.
Context (control : Z) (m : Z → Z) (B : gmap Z blk) (a : Z) (b nb : blk).
Notation n := (a + 8 + bsz b).
Context (Hp : phys control m B) (Ha : B !! a = Some b) (Hsz : bsz b ≠ 0) (Hn : B !! n = Some nb).

Lemma msum_status (f : blk → Z) g :
  (∀ x y, bsz x = bsz y → f x = f y) → msum f (set_status B a b nb g) = msum f B.
Proof.
  intros Hf. sizes Hp a. unfold set_status.
  rewrite (msum_insert f _ n nb), (msum_insert f _ a b) by (done || by rewrite lookup_insert_ne by lia).
  rewrite (Hf (with_free g b) b), (Hf (with_pf g nb) nb) by done. lia.
Qed.

Lemma extent_status g : extent (set_status B a b nb g) = extent B.
Proof. unfold extent, span, pools. f_equal; apply msum_status; intros [] [] ?; simpl in *; by subst. Qed.

Lemma extent_split size : 24 ≤ size → size + 32 ≤ bsz b → extent (split_map B a b nb size) = extent B.
Proof.
  intros Hmin Hfit. pose proof (split_fresh control m B a b size Hp Ha Hmin Hfit) as Hr. unfold split_map.
  assert (∀ f : blk → Z, msum f (<[n:=with_pf true nb]> (<[a + 8 + size:=Blk (bsz b - size - 8) true (bfree b)]>
    (<[a:=Blk size (bfree b) (bpf b)]> B))) =
    msum f B - f b + f (Blk size (bfree b) (bpf b)) + f (Blk (bsz b - size - 8) true (bfree b)) - f nb + f (with_pf true nb)) as Hs.
  { intros f. rewrite (msum_insert f _ n nb), msum_insert_fresh, (msum_insert f _ a b); [lia|done|..].
    - by rewrite lookup_insert_ne by lia.
    - by rewrite !lookup_insert_ne by lia. }
  unfold extent, span, pools. f_equal; rewrite Hs; simpl; [lia|].
  destruct (Z.eqb_spec (bsz b) 0), (Z.eqb_spec size 0), (Z.eqb_spec (bsz b - size - 8) 0); simpl; lia.
Qed.

Lemma extent_absorb nnb f : bsz nb ≠ 0 → B !! (n + 8 + bsz nb) = Some nnb → extent (absorb_map B a b nb nnb f) = extent B.
Proof.
  intros Hnsz Hnn. sizes Hp a. sizes Hp (a + 8 + bsz b). unfold absorb_map.
  assert (∀ g : blk → Z, msum g (<[n + 8 + bsz nb:=with_pf f nnb]> (<[a:=Blk (bsz b + 8 + bsz nb) f (bpf b)]> (delete n B))) =
    msum g B - g nb - g b + g (Blk (bsz b + 8 + bsz nb) f (bpf b)) - g nnb + g (with_pf f nnb)) as Hs.
  { intros g. rewrite (msum_insert g _ _ nnb), (msum_insert g _ a b), (msum_delete g _ n nb); [lia|done|..].
    - by rewrite lookup_delete_ne by lia.
    - by rewrite lookup_insert_ne, lookup_delete_ne by lia. }
  unfold extent, span, pools. f_equal; rewrite Hs; simpl; [lia|].
  destruct (Z.eqb_spec (bsz b) 0), (Z.eqb_spec (bsz nb) 0), (Z.eqb_spec (bsz b + 8 + bsz nb) 0); simpl; lia.
Qed.
End changes.

(** ** The largest free block *)

(** One of the free blocks [M] has [F] bytes or more. *)
Definition big (M : gmap Z Z) (F : Z) : Prop := F ≤ 0 ∨ map_Exists (λ _ sz, F ≤ sz) M.

Lemma big_mono M F F' : F' ≤ F → big M F → big M F'.
Proof. intros Hle [H|(a & sz & Ha & Hsz)]; [left; lia|right]. exists a, sz. split; [done|lia]. Qed.

Lemma big_insert M a x F : M !! a = None → big M F → big (<[a:=x]> M) F.
Proof.
  intros Hn [H|(y & sz & Hy & Hsz)]; [by left|right]. exists y, sz. split; [|done]. rewrite lookup_insert_ne; congruence.
Qed.

Lemma big_delete M a x F d : M !! a = Some x → x ≤ d → 0 ≤ d → big M F → big (delete a M) (F - d).
Proof.
  intros Ha Hx Hd [H|(y & sz & Hy & Hsz)]; [left; lia|].
  destruct (decide (y = a)) as [->|Hne]; [left; assert (sz = x) as -> by congruence; lia|right].
  exists y, sz. rewrite lookup_delete_ne by done. split; [done|]. lia.
Qed.

Lemma big_absorb M a n z F :
  (∀ x, M !! a = Some x → x ≤ z) → (∀ x, M !! n = Some x → x ≤ z) → big M F → big (<[a:=z]> (delete n M)) F.
Proof.
  intros Ha Hn [H|(y & sz & Hy & Hsz)]; [by left|right].
  destruct (decide (y = a)) as [->|Hya]; [exists a, z; rewrite lookup_insert_eq; split; [done|pose proof (Ha _ Hy); lia]|].
  destruct (decide (y = n)) as [->|Hyn]; [exists a, z; rewrite lookup_insert_eq; split; [done|pose proof (Hn _ Hy); lia]|].
  exists y, sz. by rewrite lookup_insert_ne, lookup_delete_ne by done.
Qed.

(** A free block at [a] whose part at [r] stays free. *)
Lemma big_split M a r x y d F :
  M !! a = Some x → M !! r = None → r ≠ a → x ≤ y + d → 0 ≤ d → big M F → big (<[r:=y]> (delete a M)) (F - d).
Proof.
  intros Ha Hr Hne Hxy Hd [H|(z & sz & Hz & Hsz)]; [left; lia|right].
  destruct (decide (z = a)) as [->|Hza].
  - exists r, y. rewrite lookup_insert_eq. split; [done|]. assert (sz = x) as -> by congruence. lia.
  - exists z, sz. rewrite lookup_insert_ne, lookup_delete_ne by congruence. split; [done|lia].
Qed.

(** The same extent, and the largest free block lost at most [d] bytes. *)
Record resized (d : Z) (B B' : gmap Z blk) : Prop := {
  rz_extent : extent B' = extent B;
  rz_big F : big (free_map B) F → big (free_map B') (F - d);
}.

Lemma resized_refl B : resized 0 B B.
Proof. split; [done|]. intros F. by rewrite Z.sub_0_r. Qed.

Lemma resized_trans d d' B1 B2 B3 : resized d B1 B2 → resized d' B2 B3 → resized (d + d') B1 B3.
Proof.
  intros [He Hb] [He' Hb']. split; [congruence|]. intros F HF. replace (F - (d + d')) with (F - d - d') by lia. by apply Hb', Hb.
Qed.

(** ** How many free blocks there are *)

(** The end of a block. *)
Lemma ends_inj control m B x bx y by_ :
  phys control m B → B !! x = Some bx → B !! y = Some by_ → x + 8 + bsz bx = y + 8 + bsz by_ → x = y.
Proof. intros Hp Hx Hy E. disj Hp x y. sizes Hp x. sizes Hp y. lia. Qed.

(** A free block is followed by one that is not: there are at most as many of
    them as live allocations and sentinels. *)
Lemma free_count control m B :
  phys control m B → coalesced B → Z.of_nat (size (free_map B)) ≤ Z.of_nat (size (used_map B)) + pools B.
Proof.
  intros Hp Hc. set (nf := omap (λ b, if bfree b then None else Some (bsz b)) B).
  assert (size (free_map B) ≤ size nf)%nat as Hle.
  { rewrite <- !size_dom. unfold size, set_size. simpl.
    set (next := λ a, a + 8 + default 0 (free_map B !! a)).
    assert (NoDup (next <$> elements (dom (free_map B)))) as Hnd.
    { apply NoDup_fmap_2_strong; [|apply NoDup_elements]. intros x y Hx Hy E.
      apply elem_of_elements, elem_of_dom in Hx as [sx Hx], Hy as [sy Hy]. unfold next in E. rewrite Hx, Hy in E.
      apply free_map_Some in Hx as (bx & Hx & _ & <-), Hy as (by_ & Hy & _ & <-). by eapply (ends_inj control m B). }
    rewrite <- (length_fmap next (elements (dom (free_map B)))).
    apply submseteq_length, NoDup_submseteq; [exact Hnd|].
    intros y (x & -> & Hx)%list_elem_of_fmap. apply elem_of_elements, elem_of_dom in Hx as [sx Hx].
    apply elem_of_elements, elem_of_dom. unfold next. rewrite Hx. simpl. apply free_map_Some in Hx as (bx & Hx & Hf & <-).
    assert (bsz bx ≠ 0) as Hne by (intros E; by rewrite (ph_last _ _ _ Hp x bx Hx E) in Hf).
    destruct (ph_next _ _ _ Hp x bx Hx Hne) as (nb & Hn & Hpf & _). exists (bsz nb). unfold nf. rewrite lookup_omap, Hn. simpl.
    destruct (bfree nb) eqn:E; [|done]. pose proof (Hc _ _ Hn E). congruence. }
  assert (Z.of_nat (size nf) = Z.of_nat (size (used_map B)) + pools B) as Hnf; [|lia].
  rewrite <- !msum_size. unfold nf, used_map, pools. rewrite !msum_omap, <- msum_add. apply msum_ext. intros x bx Hx.
  pose proof (ph_last _ _ _ Hp x bx Hx). destruct (bfree bx), (Z.eqb_spec (bsz bx) 0); simpl; (lia || naive_solver).
Qed.

(** Every byte of the span belongs to a free block, a live one or a sentinel. *)
Lemma span_split control m B :
  phys control m B → span B = msum (λ sz, sz + 8) (free_map B) + msum (λ sz, sz + 8) (used_map B) + 8 * pools B.
Proof.
  intros Hp. unfold span, free_map, used_map, pools. rewrite !msum_omap, <- msum_add.
  assert (∀ M : gmap Z blk, 8 * msum (λ b, Z.b2z (bsz b =? 0)) M = msum (λ b, 8 * Z.b2z (bsz b =? 0)) M) as Hm.
  { intros M. induction M as [|i x M Hi IH] using map_ind; [by rewrite !msum_empty|]. rewrite !msum_insert_fresh by done. lia. }
  rewrite Hm, <- msum_add. apply msum_ext. intros x bx Hx. pose proof (ph_last _ _ _ Hp x bx Hx).
  destruct (bfree bx), (Z.eqb_spec (bsz bx) 0); simpl; (lia || naive_solver).
Qed.

(** Some free block is at least the average. *)
Lemma large_free control m B x :
  phys control m B → coalesced B → 0 ≤ x → 0 < Z.of_nat (size (used_map B)) + pools B →
  (Z.of_nat (size (used_map B)) + pools B) * (x + 8) ≤
    span B - 8 * pools B - msum (λ sz, sz + 8) (used_map B) →
  ∃ a sz, free_map B !! a = Some sz ∧ x ≤ sz.
Proof.
  intros Hp Hc Hx Hpos Hroom. pose proof (free_count control m B Hp Hc) as Hn. pose proof (span_split control m B Hp) as Hs.
  destruct (decide (map_Exists (λ _ sz, x ≤ sz) (free_map B))) as [(a & sz & Ha & Hsz)|Hno]; [by exists a, sz|].
  exfalso. assert (msum (λ sz, sz + 8) (free_map B) ≤ Z.of_nat (size (free_map B)) * (x + 7)) as Hle.
  { apply msum_ge; [lia|]. intros a sz Ha. destruct (decide (x ≤ sz)); [|lia]. destruct Hno. by exists a, sz. }
  nia.
Qed.
