(* ===== verification/TlsfOps.v ===== *)
(** Each step of an allocation or a release as a transition between
    well-formed heaps: changing a block's status, splitting, absorbing,
    merging with the neighbours, and trimming. *)

From S2P Require Import Prelude CString TlsfBits TlsfModel TlsfInv TlsfLists TlsfPhys TlsfExtent.

(** ** Writes that leave the lists alone *)

Lemma lists_frame control s s' Fr L :
  lists control s Fr L →
  fl_bitmap s' = fl_bitmap s → sl_bitmap s' = sl_bitmap s → blocks s' = blocks s →
  (∀ x, link_word control Fr x → mem s' x = mem s x) →
  lists control s' Fr L.
Proof.
  intros Hl Hf Hs Hb Hm. split; rewrite ?Hf, ?Hs, ?Hb; try apply Hl.
  intros i j Hij. eapply dll_frame; [|by apply (ls_dll _ _ _ _ Hl)].
  intros x Hx. assert (is_node control Fr x) by (right; by eapply lists_node).
  split; apply Hm; exists x; auto.
Qed.

Lemma wf_update control s s' B B' Fr :
  wf control s B Fr → phys control (mem s') B' →
  fl_bitmap s' = fl_bitmap s → sl_bitmap s' = sl_bitmap s → blocks s' = blocks s →
  (∀ x, link_word control Fr x → mem s' x = mem s x) →
  (∀ a sz b, Fr !! a = Some sz → B !! a = Some b → bfree b = true →
     ∃ b', B' !! a = Some b' ∧ bsz b' = bsz b ∧ bfree b' = true) →
  wf control s' B' Fr.
Proof.
  intros Hw Hp Hf Hs Hb Hm HB. split; [apply Hw|done| |].
  - destruct (wf_lists _ _ _ _ Hw) as [L Hl]. exists L. by eapply lists_frame.
  - intros a sz Ha. destruct (wf_listed _ _ _ _ Hw a sz Ha) as (b & Hab & <- & Hfr).
    by apply (HB a (bsz b) b).
Qed.

(** Link words are not header words, and not inside an unlisted block. *)
Lemma link_word_header control s B Fr a b x :
  wf control s B Fr → B !! a = Some b → link_word control Fr x → x ≠ a ∧ x ≠ a + 8.
Proof.
  intros Hw Hb (n & Hnode & Hx). pose proof (wf_phys _ _ _ _ Hw) as Hp.
  pose proof (ph_control _ _ _ Hp a b Hb). sizes Hp a.
  pose proof (wf_control _ _ _ _ Hw) as (? & ? & ?).
  destruct Hnode as [->|[sz Hn]]; [lia|].
  destruct (wf_listed_free _ _ _ _ Hw n sz Hn) as (nb & Hnb & Hnf).
  pose proof (phys_free_min _ _ _ _ _ Hp Hnb Hnf).
  disj Hp a n. destruct (decide (a = n)) as [->|]; lia.
Qed.

Lemma link_word_unlisted control s B Fr a b x :
  wf control s B Fr → B !! a = Some b → Fr !! a = None → link_word control Fr x →
  ¬ (a + 8 ≤ x < a + 16 + bsz b).
Proof.
  intros Hw Hb Ha (n & Hnode & Hx) Hr. pose proof (wf_phys _ _ _ _ Hw) as Hp.
  pose proof (ph_control _ _ _ Hp a b Hb). sizes Hp a.
  destruct Hnode as [->|[sz Hn]]; [lia|].
  destruct (wf_listed_free _ _ _ _ Hw n sz Hn) as (nb & Hnb & Hnf).
  pose proof (phys_free_min _ _ _ _ _ Hp Hnb Hnf).
  assert (n ≠ a) by congruence. disj Hp a n. lia.
Qed.

(** Header words lie outside the payload of every other block. *)
Lemma used_payload control s B Fr U y sz :
  wf control s B Fr → U ⊆ used_map B → U !! y = Some sz →
  ∃ yb, B !! y = Some yb ∧ bfree yb = false ∧ bsz yb = sz ∧ 24 ≤ sz.
Proof.
  intros Hw HU Hy. eapply lookup_weaken in Hy; [|done].
  apply used_map_Some in Hy as (yb & Hyb & Hf & <- & Hne). exists yb.
  destruct (ph_placed _ _ _ (wf_phys _ _ _ _ Hw) y yb Hyb) as (_ & _ & _ & _ & ?).
  split_and!; [done..|lia].
Qed.

Lemma mem_st x v s : mem (st x v s) = upd (mem s) x v.
Proof. done. Qed.

(** ** Status changes *)

Section status.
Context (control : Z) (s : tlsf) (B : gmap Z blk) (Fr : gmap Z Z) (a : Z) (b nb : blk).
Notation n := (a + 8 + bsz b).
Context (Hw : wf control s B Fr) (Ha : B !! a = Some b) (Hsz : bsz b ≠ 0).
Context (Hn : B !! n = Some nb) (HFr : Fr !! a = None).

Lemma wf_set_status (f : bool) s' :
  fl_bitmap s' = fl_bitmap s → sl_bitmap s' = sl_bitmap s → blocks s' = blocks s →
  mem s' (a + 8) = enc (with_free f b) → mem s' (n + 8) = enc (with_pf f nb) →
  (f = true → mem s' n = a) →
  (∀ x, x ≠ a + 8 → x ≠ n + 8 → x ≠ n → mem s' x = mem s x) →
  wf control s' (set_status B a b nb f) Fr ∧ frame (delete a (used_map B)) s s'.
Proof.
  intros Hf Hs Hb Hma Hmn Hfoot Hoth. pose proof (wf_phys _ _ _ _ Hw) as Hp. split.
  - eapply wf_update; [done| |done..| |].
    + by eapply phys_set_status.
    + intros x Hx. destruct (link_word_header _ _ _ _ a b x Hw Ha Hx).
      destruct (link_word_header _ _ _ _ _ nb x Hw Hn Hx). auto.
    + intros y sz yb Hy Hyb Hyf. eexists. split; [by eapply set_status_inv|]. simpl.
      by rewrite decide_False by congruence.
  - intros y sz x Hy Hx.
    assert (y ≠ a) by (intros ->; by rewrite lookup_delete_eq in Hy).
    destruct (used_payload _ _ _ _ _ _ _ Hw (delete_subseteq (used_map B) a) Hy)
      as (yb & Hyb & Hyf & <- & ?).
    sizes Hp a. sizes Hp y. sizes Hp (a + 8 + bsz b).
    disj Hp y a. disj Hp y (a + 8 + bsz b). apply Hoth; lia.
Qed.

Lemma wp_block_mark_as_free (Q : unit → tlsf → Prop) :
  (∀ s', wf control s' (set_status B a b nb true) Fr → frame (delete a (used_map B)) s s' →
     Q tt s') →
  wp (block_mark_as_free a) s Q.
Proof.
  intros HQ. pose proof (wf_phys _ _ _ _ Hw) as Hp.
  pose proof (phys_hdr _ _ _ _ _ Hp Ha) as Hha. pose proof (phys_hdr _ _ _ _ _ Hp Hn) as Hhn.
  sizes Hp a. disj Hp a (a + 8 + bsz b).
  apply wp_bind, (wp_block_link_next s a b Hha); [done|].
  apply wp_bind, (wp_block_set_prev_free _ _ nb); [by apply hdr_st_ne; [|lia]|].
  apply (wp_block_set_free _ _ b).
  { apply hdr_st_ne; [|lia]. apply hdr_st_ne; [done|lia]. }
  edestruct (wf_set_status true) as [Hw' Hfr]; [..|by apply HQ]; try done.
  all: rewrite ?mem_st; intros; upd_cases; done || lia.
Qed.

Lemma wp_block_mark_as_used (Q : unit → tlsf → Prop) :
  (∀ s', wf control s' (set_status B a b nb false) Fr → frame (delete a (used_map B)) s s' →
     Q tt s') →
  wp (block_mark_as_used a) s Q.
Proof.
  intros HQ. pose proof (wf_phys _ _ _ _ Hw) as Hp.
  pose proof (phys_hdr _ _ _ _ _ Hp Ha) as Hha. pose proof (phys_hdr _ _ _ _ _ Hp Hn) as Hhn.
  sizes Hp a.
  apply wp_bind, (wp_block_next s a b Hha); [done|].
  apply wp_bind, (wp_block_set_prev_used _ _ nb); [done|].
  apply (wp_block_set_used _ _ b).
  { apply hdr_st_ne; [done|lia]. }
  edestruct (wf_set_status false) as [Hw' Hfr]; [..|by apply HQ]; try done.
  all: rewrite ?mem_st; intros; upd_cases; done || lia.
Qed.
End status.

(** ** Splitting *)

(** Setting the size of memory that is not a block yet keeps whatever the two
    flag bits hold. *)
Lemma wp_set_size_raw s r size (Q : unit → tlsf → Prop) :
  0 < r → r mod 8 = 0 → r + 16 < 2 ^ 64 → size mod 8 = 0 →
  (∀ g h, Q tt (st (r + 8) (enc (Blk size g h)) s)) → wp (block_set_size r size) s Q.
Proof.
  intros Hr H8 Hlt Hs HQ. unfold block_set_size. rewrite size_field_eq by lia.
  assert ((r + 8) mod 8 = 0) by by apply mod8_add.
  apply wp_bind, wp_load; [lia|done|]. apply wp_store; [lia|done|].
  set (w := Z.land (mem s (r + 8)) _).
  assert (∃ g h, w = Z.b2z g + 2 * Z.b2z h) as (g & h & ->).
  { unfold w. change (Z.lor block_header_free_bit block_header_prev_free_bit) with (Z.ones 2).
    rewrite Z.land_ones by lia. change (2 ^ 2) with 4.
    pose proof (Z.mod_pos_bound (mem s (r + 8)) 4 ltac:(lia)).
    assert (mem s (r + 8) mod 4 = 0 ∨ mem s (r + 8) mod 4 = 1 ∨ mem s (r + 8) mod 4 = 2 ∨
      mem s (r + 8) mod 4 = 3) as [->|[->|[->| ->]]] by lia;
      [exists false, false|exists true, false|exists false, true|exists true, true]; done. }
  replace (Z.lor size _) with (enc (Blk size g h)); [done|].
  rewrite enc_split by done. simpl. pose proof (Z.div_mod size 8).
  replace size with (8 * (size / 8) + 0) at 2 by lia.
  rewrite lor_low8; [by destruct g, h|lia|apply b2z_cases].
Qed.

Section split.
Context (control : Z) (s : tlsf) (B : gmap Z blk) (Fr : gmap Z Z) (a : Z) (b nb : blk) (size : Z).
Notation n := (a + 8 + bsz b).
Notation r := (a + 8 + size).
Notation rb := (Blk (bsz b - size - 8) true (bfree b)).
Notation a' := (Blk size (bfree b) (bpf b)).
Context (Hw : wf control s B Fr) (Ha : B !! a = Some b) (Hn : B !! n = Some nb).
Context (HFr : Fr !! a = None).
Context (Hs8 : size mod 8 = 0) (Hmin : 24 ≤ size) (Hfit : size + 32 ≤ bsz b).

Lemma wf_split s' :
  fl_bitmap s' = fl_bitmap s → sl_bitmap s' = sl_bitmap s → blocks s' = blocks s →
  mem s' (a + 8) = enc a' → mem s' (r + 8) = enc rb → mem s' (n + 8) = enc (with_pf true nb) →
  mem s' n = r → (bfree b = true → mem s' r = a) →
  (∀ x, x ≠ a + 8 → x ≠ r + 8 → x ≠ n + 8 → x ≠ n → x ≠ r → mem s' x = mem s x) →
  wf control s' (split_map B a b nb size) Fr ∧ frame (delete a (used_map B)) s s' ∧
  (∀ x, a + 16 ≤ x < r → mem s' x = mem s x).
Proof.
  intros Hf Hs Hb Hma Hmr Hmn Hfn Hfr Hoth. pose proof (wf_phys _ _ _ _ Hw) as Hp.
  sizes Hp a. split_and!.
  - eapply wf_update; [done| |done..| |].
    + by eapply phys_split.
    + intros x Hx. destruct (link_word_header _ _ _ _ a b x Hw Ha Hx).
      destruct (link_word_header _ _ _ _ _ nb x Hw Hn Hx).
      pose proof (link_word_unlisted _ _ _ _ a b x Hw Ha HFr Hx). apply Hoth; lia.
    + intros y sz yb Hy Hyb Hyf. eexists. split; [|split].
      * eapply split_map_old; [done..|congruence].
      * done.
      * done.
  - intros y sz x Hy Hx.
    assert (y ≠ a) by (intros ->; by rewrite lookup_delete_eq in Hy).
    destruct (used_payload _ _ _ _ _ _ _ Hw (delete_subseteq (used_map B) a) Hy)
      as (yb & Hyb & Hyf & <- & ?).
    sizes Hp y. sizes Hp (a + 8 + bsz b).
    disj Hp y a. disj Hp y (a + 8 + bsz b). apply Hoth; lia.
  - intros x Hx. apply Hoth; lia.
Qed.

(** [block_split] leaves the previous-free flag of the new block undetermined. *)
Lemma wp_block_split (Q : Z → tlsf → Prop) :
  (∀ g s', fl_bitmap s' = fl_bitmap s → sl_bitmap s' = sl_bitmap s → blocks s' = blocks s →
     mem s' (a + 8) = enc a' → mem s' (r + 8) = enc (Blk (bsz b - size - 8) true g) →
     mem s' (n + 8) = enc (with_pf true nb) → mem s' n = r →
     (∀ x, x ≠ a + 8 → x ≠ r + 8 → x ≠ n + 8 → x ≠ n → mem s' x = mem s x) →
     Q r s') →
  wp (block_split a size) s Q.
Proof.
  intros HQ. pose proof (wf_phys _ _ _ _ Hw) as Hp.
  pose proof (phys_hdr _ _ _ _ _ Hp Ha) as Hha. pose proof (phys_hdr _ _ _ _ _ Hp Hn) as Hhn.
  sizes Hp a. assert (r mod 8 = 0) by (by apply mod8_add; [apply mod8_add|]).
  assert ((bsz b - size - 8) mod 8 = 0).
  { replace (bsz b - size - 8) with (bsz b + (-1) * size + (-1) * 8) by lia.
    apply mod8_add; [apply mod8_add|done]; [done|].
    by rewrite Z.mul_mod, Hs8 by lia. }
  unfold block_split. rewrite (block_to_ptr_eq s a b Hha).
  unfold offset_to_block, block_header_overhead, block_size_min, sizeof_block_header.
  rewrite (w64_small (size - 8)), (w64_small (a + 16 + _)), (w64_small (size + 8)) by lia.
  replace (a + 16 + (size - 8)) with r by lia. cbv zeta.
  apply wp_bind, (wp_block_size s a b Hha).
  rewrite (w64_small (bsz b - _)) by lia.
  apply wp_bind, wp_assert_aligned; [lia|done|lia|].
  apply wp_bind, (wp_block_size s a b Hha).
  apply wp_bind, wp_assert; [rewrite w64_small by lia; lia|].
  replace (bsz b - (size + 8)) with (bsz b - size - 8) by lia.
  apply wp_bind, wp_set_size_raw; [lia|done|lia|done|]. intros g h.
  set (s1 := st _ _ s).
  assert (hdr s1 r (Blk (bsz b - size - 8) g h)) as Hhr.
  { unfold hdr; simpl. rewrite upd_eq. split_and!; done || lia. }
  assert (hdr s1 a b) as Hha1 by (apply hdr_st_ne; [done|lia]).
  apply wp_bind, (wp_block_size s1 r _ Hhr). simpl.
  apply wp_bind, wp_assert; [unfold block_size_min, sizeof_block_header; lia|].
  apply wp_bind, (wp_block_set_size s1 a b Hha1); [done|].
  set (s2 := st _ _ s1).
  assert (hdr s2 r (Blk (bsz b - size - 8) g h)) as Hhr2 by (apply hdr_st_ne; [done|lia]).
  assert (r + 8 + (bsz b - size - 8) = n) as Hrn by lia.
  apply wp_bind, wp_bind, (wp_block_link_next s2 r _ Hhr2); simpl; [lia|]. rewrite Hrn.
  apply wp_bind, (wp_block_set_prev_free _ _ nb).
  { apply hdr_st_ne; [|lia]. apply hdr_st_ne; [|lia]. apply hdr_st_ne; [done|lia]. }
  apply (wp_block_set_free _ _ (Blk (bsz b - size - 8) g h)).
  { apply hdr_st_ne; [|lia]. apply hdr_st_ne; [done|lia]. }
  apply wp_ret, (HQ h); try done; unfold s2, s1; rewrite ?mem_st; intros; upd_cases; done || lia.
Qed.

End split.

(** ** Absorbing the right neighbour *)

Section absorb.
Context (control : Z) (s : tlsf) (B : gmap Z blk) (Fr : gmap Z Z) (p : Z) (pb nb nnb : blk).
Notation n := (p + 8 + bsz pb).
Notation nn := (p + 8 + bsz pb + 8 + bsz nb).
Context (Hw : wf control s B Fr) (Hpb : B !! p = Some pb) (Hpsz : bsz pb ≠ 0).
Context (Hn : B !! n = Some nb) (Hnsz : bsz nb ≠ 0) (Hnn : B !! nn = Some nnb).
Context (HFp : Fr !! p = None) (HFn : Fr !! n = None).

Lemma wf_absorb (f : bool) s' :
  fl_bitmap s' = fl_bitmap s → sl_bitmap s' = sl_bitmap s → blocks s' = blocks s →
  mem s' (p + 8) = enc (Blk (bsz pb + 8 + bsz nb) f (bpf pb)) →
  mem s' (nn + 8) = enc (with_pf f nnb) → (f = true → mem s' nn = p) →
  (∀ x, x ≠ p + 8 → x ≠ nn + 8 → x ≠ nn → mem s' x = mem s x) →
  wf control s' (absorb_map B p pb nb nnb f) Fr ∧
  frame (delete p (delete n (used_map B))) s s' ∧
  (∀ x, p + 16 ≤ x < p + 16 + bsz pb → mem s' x = mem s x).
Proof.
  intros Hf Hs Hb Hma Hmn Hfoot Hoth. pose proof (wf_phys _ _ _ _ Hw) as Hp.
  sizes Hp p. sizes Hp (p + 8 + bsz pb). split_and!.
  - eapply wf_update; [done| |done..| |].
    + by eapply phys_absorb.
    + intros x Hx. destruct (link_word_header _ _ _ _ p pb x Hw Hpb Hx).
      destruct (link_word_header _ _ _ _ _ nnb x Hw Hnn Hx). auto.
    + intros y sz yb Hy Hyb Hyf. eexists. split; [|split].
      * eapply absorb_map_old; done || congruence.
      * done.
      * done.
  - intros y sz x Hy Hx.
    assert (y ≠ p) by (intros ->; by rewrite lookup_delete_eq in Hy).
    rewrite lookup_delete_ne in Hy by done.
    assert (y ≠ n) by (intros ->; by rewrite lookup_delete_eq in Hy).
    destruct (used_payload _ _ _ _ _ _ _ Hw (delete_subseteq (used_map B) n) Hy)
      as (yb & Hyb & Hyf & <- & ?).
    sizes Hp y. disj Hp y (p + 8 + bsz pb + 8 + bsz nb). disj Hp y p. disj Hp y (p + 8 + bsz pb).
    apply Hoth; lia.
  - intros x Hx. apply Hoth; lia.
Qed.

(** [block_absorb] keeps the flags of [p] and leaves its new right neighbour's
    flags alone. *)
Lemma wp_block_absorb (Q : Z → tlsf → Prop) :
  (∀ s', fl_bitmap s' = fl_bitmap s → sl_bitmap s' = sl_bitmap s → blocks s' = blocks s →
     mem s' (p + 8) = enc (Blk (bsz pb + 8 + bsz nb) (bfree pb) (bpf pb)) →
     mem s' (nn + 8) = enc nnb → mem s' nn = p →
     (∀ x, x ≠ p + 8 → x ≠ nn → mem s' x = mem s x) → Q p s') →
  wp (block_absorb p n) s Q.
Proof.
  intros HQ. pose proof (wf_phys _ _ _ _ Hw) as Hp.
  pose proof (phys_hdr _ _ _ _ _ Hp Hpb) as Hhp. pose proof (phys_hdr _ _ _ _ _ Hp Hn) as Hhn.
  pose proof (phys_hdr _ _ _ _ _ Hp Hnn) as Hhnn.
  assert (placed p (Blk (bsz pb + 8 + bsz nb) false (bpf pb))) as (_ & _ & Hend & Hm8 & Hlim)
    by by eapply absorb_size.
  simpl in *. sizes Hp p. sizes Hp (p + 8 + bsz pb).
  destruct Hlim as [?|Hlim]; [lia|].
  apply wp_bind, (wp_block_is_last s p pb Hhp).
  apply wp_bind, wp_assert; [by destruct (Z.eqb_spec (bsz pb) 0)|].
  apply wp_bind, (wp_block_size s _ nb Hhn).
  apply wp_bind, (wp_load_size s p pb Hhp).
  unfold block_header_overhead. rewrite (w64_small (bsz nb + 8)) by lia.
  pose proof (b2z_cases (bfree pb) (bpf pb)).
  rewrite w64_small by (unfold enc; lia).
  replace (enc pb + (bsz nb + 8)) with (enc (Blk (bsz pb + 8 + bsz nb) (bfree pb) (bpf pb)))
    by (unfold enc; simpl; lia).
  apply wp_bind, (wp_store_size s p pb Hhp).
  set (s1 := st _ _ s).
  assert (hdr s1 p (Blk (bsz pb + 8 + bsz nb) (bfree pb) (bpf pb))) as Hh1.
  { unfold hdr; simpl. rewrite upd_eq. split_and!; done || lia. }
  apply wp_bind, (wp_block_link_next s1 p _ Hh1); simpl; [lia|].
  replace (p + 8 + (bsz pb + 8 + bsz nb)) with nn by lia.
  apply wp_ret, HQ; try done; unfold s1; rewrite ?mem_st; intros; upd_cases; try (done || lia).
  by apply (ph_header _ _ _ Hp).
Qed.
End absorb.

(** ** What the transitions do to the block map *)

Lemma omap_insert_same {A C} (g : A → option C) (m : gmap Z A) k v v0 :
  m !! k = Some v0 → g v = g v0 → omap g (<[k:=v]> m) = omap g m.
Proof.
  intros Hk Hg. rewrite omap_insert, Hg. pose proof (lookup_omap g m k) as Hl.
  rewrite Hk in Hl. simpl in Hl. destruct (g v0) as [c|]; [by apply insert_id|].
  by apply delete_id.
Qed.

Section maps.
Context (control : Z) (m : Z → Z) (B : gmap Z blk) (a : Z) (b nb : blk).
Notation n := (a + 8 + bsz b).
Context (Hp : phys control m B) (Ha : B !! a = Some b) (Hsz : bsz b ≠ 0) (Hn : B !! n = Some nb).

Lemma next_ne : n ≠ a.
Proof. sizes Hp a. lia. Qed.

Lemma used_set_status f : used_map (set_status B a b nb f) =
  (if f then delete a (used_map B) else <[a:=bsz b]> (used_map B)).
Proof.
  pose proof next_ne. unfold used_map, set_status.
  rewrite (omap_insert_same _ _ _ _ nb); [|by rewrite lookup_insert_ne|done].
  rewrite omap_insert. simpl. destruct (Z.eqb_spec (bsz b) 0); [done|]. by destruct f.
Qed.

Lemma free_set_status f : free_map (set_status B a b nb f) =
  (if f then <[a:=bsz b]> (free_map B) else delete a (free_map B)).
Proof.
  pose proof next_ne. unfold free_map, set_status.
  rewrite (omap_insert_same _ _ _ _ nb); [|by rewrite lookup_insert_ne|done].
  rewrite omap_insert. simpl. by destruct f.
Qed.

Section split.
Context (size : Z) (Hmin : 24 ≤ size) (Hfit : size + 32 ≤ bsz b).
Notation r := (a + 8 + size).

Lemma used_split : used_map (split_map B a b nb size) =
  (if bfree b then used_map B else <[a:=size]> (used_map B)).
Proof.
  pose proof (split_fresh control m B a b size Hp Ha Hmin Hfit) as Hr.
  unfold used_map, split_map. rewrite (omap_insert_same _ _ _ _ nb);
    [|by rewrite !lookup_insert_ne by lia|done].
  rewrite !omap_insert. simpl. destruct (Z.eqb_spec size 0); [lia|].
  assert (omap (λ b0, if bfree b0 || (bsz b0 =? 0) then None else Some (bsz b0)) B !! r = None)
    by (by rewrite lookup_omap, Hr).
  destruct (bfree b) eqn:Hf; simpl.
  - rewrite !delete_id; [done| |]; [rewrite lookup_omap, Ha; simpl; by rewrite Hf|].
    rewrite lookup_delete_ne by lia. done.
  - apply delete_id. by rewrite lookup_insert_ne by lia.
Qed.

Lemma free_split : free_map (split_map B a b nb size) =
  <[r:=bsz b - size - 8]> (if bfree b then <[a:=size]> (free_map B) else free_map B).
Proof.
  pose proof (split_fresh control m B a b size Hp Ha Hmin Hfit) as Hr.
  unfold free_map, split_map. rewrite (omap_insert_same _ _ _ _ nb);
    [|by rewrite !lookup_insert_ne by lia|done].
  rewrite !omap_insert. simpl. f_equal. destruct (bfree b) eqn:Hf; [done|].
  apply delete_id. rewrite lookup_omap, Ha. simpl. by rewrite Hf.
Qed.
End split.

Section absorb.
Context (Hnf : bfree nb = true) (Hnsz : bsz nb ≠ 0) (nnb : blk) (f : bool).
Context (Hnn : B !! (n + 8 + bsz nb) = Some nnb).

Lemma used_absorb : used_map (absorb_map B a b nb nnb f) =
  (if f then delete a (used_map B) else <[a:=bsz b + 8 + bsz nb]> (used_map B)).
Proof.
  sizes Hp a. sizes Hp (a + 8 + bsz b). unfold used_map, absorb_map.
  rewrite (omap_insert_same _ _ _ _ nnb);
    [|by rewrite lookup_insert_ne, lookup_delete_ne by lia|done].
  rewrite omap_insert, omap_delete. simpl. rewrite delete_id.
  - destruct (Z.eqb_spec (bsz b + 8 + bsz nb) 0); [lia|]. by destruct f.
  - rewrite lookup_omap, Hn. simpl. by rewrite Hnf.
Qed.

Lemma free_absorb : free_map (absorb_map B a b nb nnb f) =
  (if f then <[a:=bsz b + 8 + bsz nb]> (delete n (free_map B))
   else delete a (delete n (free_map B))).
Proof.
  sizes Hp a. sizes Hp (a + 8 + bsz b). unfold free_map, absorb_map.
  rewrite (omap_insert_same _ _ _ _ nnb);
    [|by rewrite lookup_insert_ne, lookup_delete_ne by lia|done].
  rewrite omap_insert, omap_delete. simpl. by destruct f.
Qed.
End absorb.
End maps.

(** ** Merging *)

(** Between two steps of a release: the free block [q] is in no list, and it
    is the only reason two neighbours may both be free. *)
Record pending (control : Z) (s : tlsf) (B : gmap Z blk) (q : Z) (qb : blk) : Prop := {
  pd_wf : wf control s B (delete q (free_map B));
  pd_blk : B !! q = Some qb;
  pd_free : bfree qb = true;
  pd_coal y yb : B !! y = Some yb → bfree yb = true → bpf yb = true →
    y = q ∨ y = q + 8 + bsz qb;
}.

Lemma wf_next control s B Fr a b :
  wf control s B Fr → B !! a = Some b → bsz b ≠ 0 →
  ∃ nb, B !! (a + 8 + bsz b) = Some nb ∧ bpf nb = bfree b ∧
    (bfree b = true → mem s (a + 8 + bsz b) = a).
Proof. intros Hw. apply (ph_next _ _ _ (wf_phys _ _ _ _ Hw)). Qed.

Lemma wf_free_size control s B Fr a b :
  wf control s B Fr → B !! a = Some b → bfree b = true → 24 ≤ bsz b < 2 ^ 32.
Proof. intros Hw. apply (phys_free_min _ _ _ _ _ (wf_phys _ _ _ _ Hw)). Qed.

Lemma pending_insert control s B q qb nb (Q : unit → tlsf → Prop) :
  pending control s B q qb → bpf qb = false →
  B !! (q + 8 + bsz qb) = Some nb → bfree nb = false →
  (∀ s', tlsf_inv control s' B → frame (used_map B) s s' → Q tt s') →
  wp (block_insert control q) s Q.
Proof.
  intros [Hw Hq Hf Hc] Hpf Hn Hnf HQ.
  eapply wp_block_insert; [done..|by rewrite lookup_delete_eq|].
  intros s' Hw' Hfr. apply HQ; [|done]. split.
  - rewrite insert_delete_id in Hw'; [done|]. apply free_map_Some. eauto.
  - intros y yb Hy Hyf. destruct (bpf yb) eqn:E; [|done].
    destruct (Hc y yb Hy Hyf E) as [->| ->]; congruence.
Qed.

Lemma remove_pending control s B q qb fl sl (Q : unit → tlsf → Prop) :
  tlsf_inv control s B → B !! q = Some qb → bfree qb = true →
  mapping_insert (bsz qb) = (fl, sl) →
  (∀ s', pending control s' B q qb → frame (used_map B) s s' → Q tt s') →
  wp (remove_free_block control q fl sl) s Q.
Proof.
  intros [Hw Hc] Hq Hf Hm HQ. eapply (wp_remove_listed _ _ _ _ _ (bsz qb)); [done| |done|].
  - apply free_map_Some; eauto.
  - intros s' Hw' Hfr. apply HQ; [|done]. split; [done..|].
    intros y yb Hy Hyf Hyp. pose proof (Hc y yb Hy Hyf). congruence.
Qed.

(** Marking a used block free. *)
Lemma wp_mark_free_pending control s B a b nb (Q : unit → tlsf → Prop) :
  tlsf_inv control s B → B !! a = Some b → bfree b = false → bsz b ≠ 0 →
  B !! (a + 8 + bsz b) = Some nb →
  (∀ s', pending control s' (set_status B a b nb true) a (with_free true b) →
     frame (delete a (used_map B)) s s' → Q tt s') →
  wp (block_mark_as_free a) s Q.
Proof.
  intros [Hw Hc] Ha Hf Hsz Hn HQ. pose proof (wf_phys _ _ _ _ Hw) as Hp.
  assert (free_map B !! a = None) as HFa.
  { unfold free_map. rewrite lookup_omap, Ha. simpl. by rewrite Hf. }
  pose proof (next_ne control (mem s) B a b Hp Ha Hsz).
  eapply wp_block_mark_as_free; [done..|]. intros s' Hw' Hfr. apply HQ; [|done]. split.
  - by rewrite (free_set_status control (mem s)), delete_insert_id.
  - unfold set_status. rewrite lookup_insert_ne by done. apply lookup_insert_eq.
  - done.
  - simpl. intros y yb Hy Hyf Hyp.
    destruct (set_status_lookup control (mem s) B a b nb true Hp Ha Hsz Hn y yb Hy)
      as (b0 & Hb0 & _ & Hf0 & Hp0).
    destruct (decide (y = a)); [by left|]. case_decide; [by right|].
    rewrite (Hc y b0 Hb0) in Hp0 by congruence. congruence.
Qed.

(** Absorbing a free right neighbour [n], both unlisted, both to be free. *)
Lemma absorb_coalesced control m B p pb nb nnb f y yb :
  phys control m B → B !! p = Some pb → bsz pb ≠ 0 →
  B !! (p + 8 + bsz pb) = Some nb → bsz nb ≠ 0 →
  B !! (p + 8 + bsz pb + 8 + bsz nb) = Some nnb →
  absorb_map B p pb nb nnb f !! y = Some yb → bfree yb = true → bpf yb = true →
  y = p ∧ bpf pb = true ∧ f = true ∨
  f = true ∧ y = p + 8 + bsz pb + 8 + bsz nb ∧ bfree nnb = true ∨
  y ≠ p ∧ y ≠ p + 8 + bsz pb ∧ y ≠ p + 8 + bsz pb + 8 + bsz nb ∧
    ∃ b0, B !! y = Some b0 ∧ bfree b0 = true ∧ bpf b0 = true.
Proof.
  intros Hp Hpb Hpsz Hn Hnsz Hnn Hy Hyf Hyp.
  destruct (absorb_map_lookup control m B p pb nb nnb f Hp Hpb Hpsz Hn Hnsz Hnn y yb Hy)
    as [[-> ->]|(Hne & Hne2 & b0 & Hb0 & _ & Hf0 & Hp0)]; [by left|].
  right. case_decide as Hd; [left|right].
  - subst y. assert (b0 = nnb) as -> by congruence. split_and!; congruence.
  - split_and!; [done..|]. exists b0. split_and!; congruence.
Qed.

Lemma wf_absorb_free control s B Fr p pb nb nnb s' :
  wf control s B Fr → B !! p = Some pb → bfree pb = true →
  B !! (p + 8 + bsz pb) = Some nb → bfree nb = true →
  B !! (p + 8 + bsz pb + 8 + bsz nb) = Some nnb → bpf nnb = true →
  Fr !! p = None → Fr !! (p + 8 + bsz pb) = None →
  fl_bitmap s' = fl_bitmap s → sl_bitmap s' = sl_bitmap s → blocks s' = blocks s →
  mem s' (p + 8) = enc (Blk (bsz pb + 8 + bsz nb) (bfree pb) (bpf pb)) →
  mem s' (p + 8 + bsz pb + 8 + bsz nb + 8) = enc nnb →
  mem s' (p + 8 + bsz pb + 8 + bsz nb) = p →
  (∀ x, x ≠ p + 8 → x ≠ p + 8 + bsz pb + 8 + bsz nb → mem s' x = mem s x) →
  wf control s' (absorb_map B p pb nb nnb true) Fr ∧ frame (used_map B) s s'.
Proof.
  intros Hw Hpb Hpf Hn Hnf Hnn Hnpf HFp HFn Hfl Hsl Hbl Hm1 Hm2 Hm3 Hoth.
  pose proof (wf_free_size _ _ _ _ _ _ Hw Hpb Hpf). pose proof (wf_free_size _ _ _ _ _ _ Hw Hn Hnf).
  destruct (wf_absorb control s B Fr p pb nb nnb Hw Hpb ltac:(lia) Hn ltac:(lia) Hnn HFp HFn true s')
    as (Hw' & Hfr & _); [done..|by rewrite <- Hpf| |done|auto|].
  - rewrite Hm2. unfold with_pf, enc. simpl. by rewrite Hnpf.
  - split; [done|]. rewrite !delete_id in Hfr; [done|..].
    + unfold used_map. rewrite lookup_omap, Hn. simpl. by rewrite Hnf.
    + rewrite lookup_delete_ne by lia. unfold used_map. rewrite lookup_omap, Hpb. simpl.
      by rewrite Hpf.
Qed.

(** Merging a free block into its free neighbour. *)
Lemma resized_absorb control m B a b nb nnb :
  phys control m B → B !! a = Some b → bsz b ≠ 0 → B !! (a + 8 + bsz b) = Some nb → bsz nb ≠ 0 →
  B !! (a + 8 + bsz b + 8 + bsz nb) = Some nnb → resized 0 B (absorb_map B a b nb nnb true).
Proof.
  intros Hp Ha Hsz Hn Hnsz Hnn. split; [by eapply extent_absorb|]. intros F HF. rewrite Z.sub_0_r, (free_absorb control m) by done.
  sizes Hp a. sizes Hp (a + 8 + bsz b). apply big_absorb; [..|exact HF]; intros x (y & Hy & _ & <-)%free_map_Some.
  - assert (y = b) as -> by congruence. lia.
  - assert (y = nb) as -> by congruence. lia.
Qed.

Section merge.
Context (control : Z) (s : tlsf) (B : gmap Z blk) (q : Z) (qb : blk).
Context (Hpd : pending control s B q qb).

Lemma wp_block_merge_next (Q : Z → tlsf → Prop) :
  (∀ s' B' qb' nb, pending control s' B' q qb' → used_map B' = used_map B →
     bpf qb' = bpf qb → B' !! (q + 8 + bsz qb') = Some nb → bfree nb = false →
     bsz qb ≤ bsz qb' → frame (used_map B) s s' → resized 0 B B' → Q q s') →
  wp (block_merge_next control q) s Q.
Proof.
  intros HQ. destruct Hpd as [Hw Hq Hf Hc]. pose proof (wf_phys _ _ _ _ Hw) as Hp.
  pose proof (wf_free_size _ _ _ _ _ _ Hw Hq Hf) as Hqs.
  destruct (wf_next _ _ _ _ _ _ Hw Hq ltac:(lia)) as (nb & Hn & Hnpf & _).
  pose proof (phys_hdr _ _ _ _ _ Hp Hq) as Hhq. pose proof (phys_hdr _ _ _ _ _ Hp Hn) as Hhn.
  pose proof (ph_placed _ _ _ Hp _ _ Hq) as (Hq0 & _ & Hqlim & _ & _).
  apply wp_bind, (wp_block_next s q qb Hhq); [lia|].
  apply wp_bind, wp_assert; [destruct (Z.eqb_spec (q + 8 + bsz qb) 0); [lia|done]|].
  apply wp_bind, (wp_block_is_free s _ nb Hhn).
  destruct (bfree nb) eqn:Hnf; [|by apply wp_ret, (HQ s B qb nb); try apply frame_refl; try apply resized_refl].
  pose proof (wf_free_size _ _ _ _ _ _ Hw Hn Hnf) as Hns.
  destruct (wf_next _ _ _ _ _ _ Hw Hn ltac:(lia)) as (nnb & Hnn & Hnnpf & _).
  apply wp_bind, (wp_block_is_last s q qb Hhq).
  apply wp_bind, wp_assert; [destruct (Z.eqb_spec (bsz qb) 0); [lia|done]|].
  apply wp_bind. eapply wp_block_remove; [done| |].
  { rewrite lookup_delete_ne by lia. apply free_map_Some. eauto. }
  intros s1 Hw1 Hfr1. set (Fr1 := delete (q + 8 + bsz qb) _) in Hw1.
  assert (Fr1 !! q = None) as HF1 by (unfold Fr1; rewrite lookup_delete_ne, lookup_delete_eq by lia; done).
  assert (Fr1 !! (q + 8 + bsz qb) = None) as HF2 by apply lookup_delete_eq.
  eapply wp_block_absorb; [done..|lia|done|lia|done|].
  intros s2 Hfl Hsl Hbl Hm1 Hm2 Hm3 Hoth.
  destruct (wf_absorb_free control s1 B Fr1 q qb nb nnb s2) as [Hw2 Hfr2];
    try done; [by rewrite Hnnpf|].
  assert (bfree nnb = false) as Hnnf.
  { destruct (bfree nnb) eqn:E; [|done].
    destruct (Hc _ _ Hnn E ltac:(congruence)); lia. }
  apply (HQ s2 (absorb_map B q qb nb nnb true) (Blk (bsz qb + 8 + bsz nb) true (bpf qb))
           (with_pf true nnb)).
  - split.
    + rewrite (free_absorb control (mem s)) by (done || lia).
      rewrite delete_insert_eq, delete_delete. exact Hw2.
    + eapply (absorb_map_p control (mem s)); (done || lia).
    + done.
    + intros y yb Hy Hyf Hyp.
      destruct (absorb_coalesced _ _ _ _ _ _ _ _ _ _ Hp Hq ltac:(lia) Hn ltac:(lia) Hnn Hy Hyf Hyp)
        as [(-> & _)|[(_ & _ & ?)|(? & ? & ? & b0 & Hb0 & ? & ?)]];
        [by left|congruence|].
      destruct (Hc y b0 Hb0) as [?|?]; done.
  - by rewrite (used_absorb control (mem s)), delete_id by
      (done || lia || (unfold used_map; rewrite lookup_omap, Hq; simpl; by rewrite Hf)).
  - done.
  - simpl. unfold absorb_map. replace (q + 8 + (bsz qb + 8 + bsz nb))
      with (q + 8 + bsz qb + 8 + bsz nb) by lia. apply lookup_insert_eq.
  - done.
  - simpl. lia.
  - by eapply frame_trans.
  - apply (resized_absorb control (mem s)); (done || lia).
Qed.

Lemma wp_block_merge_prev (Q : Z → tlsf → Prop) :
  (∀ s' B' q' qb', pending control s' B' q' qb' → used_map B' = used_map B →
     bpf qb' = false → frame (used_map B) s s' → resized 0 B B' → Q q' s') →
  wp (block_merge_prev control q) s Q.
Proof.
  intros HQ. destruct Hpd as [Hw Hq Hf Hc]. pose proof (wf_phys _ _ _ _ Hw) as Hp.
  pose proof (wf_free_size _ _ _ _ _ _ Hw Hq Hf) as Hqs.
  pose proof (phys_hdr _ _ _ _ _ Hp Hq) as Hhq.
  pose proof (ph_placed _ _ _ Hp _ _ Hq) as (Hq0 & Hq8 & Hqlim & _ & _).
  apply wp_bind, (wp_block_is_prev_free s q qb Hhq).
  destruct (bpf qb) eqn:Hqpf; [|by apply wp_ret, (HQ s B q qb); try apply frame_refl; try apply resized_refl].
  destruct (ph_prev _ _ _ Hp q qb Hq Hqpf) as (p & pb & Hpb & Hpsz & Hpq).
  destruct (wf_next _ _ _ _ _ _ Hw Hpb Hpsz) as (qb0 & Hqb0 & Hpf & Hfoot).
  rewrite Hpq in *. assert (qb0 = qb) as -> by congruence.
  assert (bfree pb = true) as Hpfr by congruence.
  pose proof (ph_placed _ _ _ Hp _ _ Hpb) as (Hp0 & _).
  apply wp_bind, wp_bind, (wp_block_is_prev_free s q qb Hhq).
  apply wp_bind, wp_assert; [done|].
  apply wp_load; [unfold prev_phys_block; lia|done|]. unfold prev_phys_block.
  rewrite Hfoot by done.
  apply wp_bind, wp_assert; [destruct (Z.eqb_spec p 0); [lia|done]|].
  apply wp_bind, (wp_block_is_free s p pb (phys_hdr _ _ _ _ _ Hp Hpb)).
  apply wp_bind, wp_assert; [done|].
  pose proof (wf_free_size _ _ _ _ _ _ Hw Hpb Hpfr).
  apply wp_bind. eapply wp_block_remove; [done| |].
  { rewrite lookup_delete_ne by lia. apply free_map_Some. eauto. }
  intros s1 Hw1 Hfr1. set (Fr1 := delete p _) in Hw1.
  assert (Fr1 !! p = None) as HF1 by apply lookup_delete_eq.
  assert (Fr1 !! q = None) as HF2 by (unfold Fr1; rewrite lookup_delete_ne, lookup_delete_eq by lia; done).
  destruct (wf_next _ _ _ _ _ _ Hw Hq ltac:(lia)) as (nb & Hn & Hnpf & _).
  rewrite <- Hpq in Hq, Hn, HF2 |- *.
  eapply wp_block_absorb; [done..|lia|done|].
  intros s2 Hfl Hsl Hbl Hm1 Hm2 Hm3 Hoth.
  destruct (wf_absorb_free control s1 B Fr1 p pb qb nb s2) as [Hw2 Hfr2];
    try done; [by rewrite Hnpf|].
  assert (bpf pb = false) as Hppf.
  { destruct (bpf pb) eqn:E; [|done]. destruct (Hc _ _ Hpb Hpfr E); lia. }
  apply (HQ s2 (absorb_map B p pb qb nb true) p (Blk (bsz pb + 8 + bsz qb) true (bpf pb))).
  - split.
    + rewrite (free_absorb control (mem s)) by (done || lia).
      rewrite delete_insert_eq. unfold Fr1 in Hw2. rewrite <- Hpq in Hw2. exact Hw2.
    + eapply (absorb_map_p control (mem s)); (done || lia).
    + done.
    + intros y yb Hy Hyf Hyp.
      destruct (absorb_coalesced _ _ _ _ _ _ _ _ _ _ Hp Hpb ltac:(lia) Hq ltac:(lia) Hn Hy Hyf Hyp)
        as [(-> & _)|[(_ & -> & ?)|(? & ? & ? & b0 & Hb0 & ? & ?)]];
        [by left|right; simpl; lia|].
      destruct (Hc y b0 Hb0) as [?|?]; done || lia.
  - by rewrite (used_absorb control (mem s)), delete_id by
      (done || lia || (unfold used_map; rewrite lookup_omap, Hpb; simpl; by rewrite Hpfr)).
  - done.
  - by eapply frame_trans.
  - apply (resized_absorb control (mem s)); (done || lia).
Qed.
End merge.
