(* ===== verification/TlsfTrim.v ===== *)
(** Trimming a block to the requested size, and locating and preparing the
    block an allocation returns. *)

From S2P Require Import Prelude CString TlsfBits TlsfModel TlsfInv TlsfLists TlsfPhys TlsfExtent TlsfOps.

(** What is left of a block of [have] bytes trimmed to [size]. *)
Definition trimmed (have size : Z) : Z := if 32 + size <=? have then size else have.

Lemma trimmed_bounds have size : size ≤ have → size ≤ trimmed have size < size + 32.
Proof. unfold trimmed. destruct (Z.leb_spec (32 + size) have); lia. Qed.

Section trim.
Context (control : Z) (s : tlsf) (B : gmap Z blk) (a : Z) (b nb : blk) (size : Z).
Notation n := (a + 8 + bsz b).
Notation r := (a + 8 + size).
Notation rb := (Blk (bsz b - size - 8) true (bfree b)).
Notation a' := (Blk size (bfree b) (bpf b)).
Context (Hs8 : size mod 8 = 0) (Hmin : 24 ≤ size).

(** Splitting an unlisted free block and flagging the remainder. *)
Lemma wp_split_free {A} (k : Z → M A) Fr (Q : A → tlsf → Prop) (Hw : wf control s B Fr) (Ha : B !! a = Some b)
    (Hn : B !! n = Some nb) (HFr : Fr !! a = None) (Hf : bfree b = true)
    (Hfit : size + 32 ≤ bsz b) :
  (∀ s', wf control s' (split_map B a b nb size) Fr → frame (used_map B) s s' →
     wp (k r) s' Q) →
  wp (rem ← block_split a size; block_link_next a ;; block_set_prev_free rem ;; k rem) s Q ∧
  wp (rem ← block_split a size; block_set_prev_free rem ;; block_link_next a ;; k rem) s Q.
Proof.
  intros HQ. pose proof (wf_phys _ _ _ _ Hw) as Hp. sizes Hp a.
  assert (∀ s', fl_bitmap s' = fl_bitmap s → sl_bitmap s' = sl_bitmap s → blocks s' = blocks s →
    mem s' (a + 8) = enc a' → mem s' (r + 8) = enc rb → mem s' (n + 8) = enc (with_pf true nb) →
    mem s' n = r → mem s' r = a →
    (∀ x, x ≠ a + 8 → x ≠ r + 8 → x ≠ n + 8 → x ≠ n → x ≠ r → mem s' x = mem s x) →
    wp (k r) s' Q) as HQ'.
  { intros s' ?????????. destruct (wf_split control s B Fr a b nb size Hw Ha Hn HFr Hs8 Hmin Hfit s')
      as (Hw' & Hfr & _); try done.
    apply HQ; [done|]. rewrite delete_id in Hfr; [done|].
    unfold used_map. rewrite lookup_omap, Ha. simpl. by rewrite Hf. }
  split; apply wp_bind; eapply wp_block_split; try done;
    intros g s1 Hfl Hsl Hbl Hm1 Hm2 Hm3 Hm4 Hoth;
    (assert (hdr s1 a a') as Hha by (unfold hdr; simpl; split_and!; done || lia));
    (assert (hdr s1 r (Blk (bsz b - size - 8) true g)) as Hhr).
  1,3: unfold hdr; simpl; split_and!; try (done || lia);
    [by apply mod8_add; [apply mod8_add|]|
     replace (bsz b - size - 8) with (bsz b + (-1) * size + (-1) * 8) by lia;
     apply mod8_add; [apply mod8_add|done]; [done|by rewrite Z.mul_mod, Hs8 by lia]].
  - apply wp_bind, (wp_block_link_next s1 a a' Hha); simpl; [lia|].
    apply wp_bind, (wp_block_set_prev_free _ _ (Blk (bsz b - size - 8) true g)).
    { apply hdr_st_ne; [done|lia]. }
    apply HQ'; try done; rewrite ?mem_st; intros; upd_cases; try (done || lia); auto.
    unfold enc, with_pf. simpl. by rewrite Hf.
  - apply wp_bind, (wp_block_set_prev_free _ _ (Blk (bsz b - size - 8) true g)); [done|].
    apply wp_bind, (wp_block_link_next _ a a'); simpl.
    { apply hdr_st_ne; [done|lia]. }
    { lia. }
    apply HQ'; try done; rewrite ?mem_st; intros; upd_cases; try (done || lia); auto.
    unfold enc, with_pf. simpl. by rewrite Hf.
Qed.

Lemma wp_block_trim_free Fr (Q : unit → tlsf → Prop) (Hw : wf control s B Fr)
    (Ha : B !! a = Some b) (Hn : B !! n = Some nb) (HFr : Fr !! a = None)
    (Hf : bfree b = true) (Hlim : size < 2 ^ 32) :
  (bsz b < size + 32 → Q tt s) →
  (∀ s', size + 32 ≤ bsz b →
     wf control s' (split_map B a b nb size) (<[r:=bsz b - size - 8]> Fr) →
     frame (used_map B) s s' → Q tt s') →
  wp (block_trim_free control a size) s Q.
Proof.
  intros HQ1 HQ2. pose proof (wf_phys _ _ _ _ Hw) as Hp.
  pose proof (phys_hdr _ _ _ _ _ Hp Ha) as Hha.
  apply wp_bind, (wp_block_is_free s a b Hha), wp_bind, wp_assert; [done|].
  apply wp_bind, (wp_block_can_split s a b Hha); [lia|].
  destruct (Z.leb_spec (32 + size) (bsz b)); [|apply wp_ret, HQ1; lia].
  pose proof (split_fresh control (mem s) B a b size Hp Ha Hmin ltac:(lia)) as Hr.
  apply (wp_split_free _ Fr); [done..|lia|].
  intros s1 Hw1 Hfr1. eapply (wp_block_insert _ _ _ _ _ rb); [done| |done| |].
  - by apply (split_map_r B a b nb size); lia.
  - destruct (Fr !! r) as [z|] eqn:E; [|done].
    destruct (wf_listed _ _ _ _ Hw r z E) as (? & ? & _). congruence.
  - intros s2 Hw2 Hfr2. apply HQ2; [lia|done|]. eapply frame_trans; [done|].
    rewrite (used_split control (mem s)) in Hfr2 by (done || lia). by rewrite Hf in Hfr2.
Qed.

End trim.

(** ** Preparing a located block *)

Lemma free_lookup B a b : B !! a = Some b → bfree b = true → free_map B !! a = Some (bsz b).
Proof. intros. apply free_map_Some. eauto. Qed.

Lemma used_lookup B a b :
  B !! a = Some b → bfree b = false → bsz b ≠ 0 → used_map B !! a = Some (bsz b).
Proof. intros. apply used_map_Some. eauto 6. Qed.

Lemma used_none B a b : B !! a = Some b → bfree b = true → used_map B !! a = None.
Proof. intros Ha Hf. unfold used_map. rewrite lookup_omap, Ha. simpl. by rewrite Hf. Qed.

Section prepare.
Context (control : Z) (s : tlsf) (B : gmap Z blk) (a : Z) (b nb : blk) (size : Z).
Context (Hpd : pending control s B a b) (Hn : B !! (a + 8 + bsz b) = Some nb).
Context (Hnf : bfree nb = false).
Context (Hs8 : size mod 8 = 0) (Hmin : 24 ≤ size) (Hle : size ≤ bsz b).

Lemma wp_block_prepare_used (Q : Z → tlsf → Prop) :
  (∀ s' B', tlsf_inv control s' B' → used_map B' = <[a:=trimmed (bsz b) size]> (used_map B) →
     frame (used_map B) s s' → resized (size + 40) B B' → Q (a + 16) s') →
  wp (block_prepare_used control a size) s Q.
Proof.
  intros HQ. destruct Hpd as [Hw Ha Hf Hc]. pose proof (wf_phys _ _ _ _ Hw) as Hp.
  pose proof (wf_free_size _ _ _ _ _ _ Hw Ha Hf) as Hsz.
  pose proof (phys_hdr _ _ _ _ _ Hp Ha) as Hha.
  destruct (ph_placed _ _ _ Hp a b Ha) as (Ha0 & _).
  unfold block_prepare_used. destruct (Z.eqb_spec a 0); [lia|]. simpl.
  apply wp_bind, wp_assert; [destruct (Z.eqb_spec size 0); [lia|done]|].
  rewrite (block_to_ptr_eq s a b Hha).
  apply wp_bind. eapply wp_block_trim_free; [done..|by rewrite lookup_delete_eq|done|lia| |].
  - intros Hlt. apply wp_bind. eapply wp_block_mark_as_used; [done..|lia|done|by rewrite lookup_delete_eq|].
    intros s' Hw' Hfr. apply wp_ret.
    apply (HQ s' (set_status B a b nb false)); [split| | |].
    + by rewrite (free_set_status control (mem s)) by (done || lia).
    + intros y yb Hy Hyf.
      destruct (set_status_lookup control (mem s) B a b nb false Hp Ha ltac:(lia) Hn y yb Hy)
        as (b0 & Hb0 & _ & Hf0 & Hp0).
      case_decide; [congruence|]. case_decide; [congruence|]. rewrite Hp0.
      destruct (bpf b0) eqn:E; [|done]. destruct (Hc y b0 Hb0 ltac:(congruence) E); done.
    + rewrite (used_set_status control (mem s)) by (done || lia). unfold trimmed.
      destruct (Z.leb_spec (32 + size) (bsz b)); [lia|done].
    + rewrite delete_id in Hfr; [done|by eapply used_none].
    + split; [apply (extent_status control (mem s)); done || lia|]. intros F.
      rewrite (free_set_status control (mem s)) by (done || lia). apply (big_delete _ a (bsz b)); [|lia..].
      apply free_map_Some. by exists b.
  - intros s1 Hfit Hw1 Hfr1. set (B1 := split_map B a b nb size) in *.
    set (a' := Blk size (bfree b) (bpf b)).
    assert (B1 !! a = Some a') as Ha1 by (apply split_map_a; lia).
    assert (B1 !! (a + 8 + bsz a') = Some (Blk (bsz b - size - 8) true (bfree b))) as Hr1
      by (apply split_map_r; lia).
    pose proof (wf_phys _ _ _ _ Hw1) as Hp1.
    assert (a + 8 + size ≠ a) by lia.
    apply wp_bind. eapply (wp_block_mark_as_used _ _ _ _ _ a'); [done..|simpl; lia|done| |].
    { rewrite lookup_insert_ne by lia. apply lookup_delete_eq. }
    intros s2 Hw2 Hfr2. apply wp_ret. eapply (HQ s2 (set_status B1 a a' _ false)); [split| | |].
    + rewrite (free_set_status control (mem s1)) by (done || (simpl; lia)).
      unfold B1. rewrite (free_split control (mem s)), Hf by (done || lia).
      rewrite delete_insert_ne, delete_insert_eq by lia. exact Hw2.
    + intros y yb Hy Hyf.
      destruct (set_status_lookup control (mem s1) B1 a a' _ false Hp1 Ha1 ltac:(simpl; lia) Hr1 y yb Hy)
        as (b0 & Hb0 & _ & Hf0 & Hp0). simpl in Hp0.
      case_decide as Hyr; [congruence|]. case_decide as Hya; [congruence|]. rewrite Hp0.
      destruct (split_map_lookup B a b nb size Hn Hmin ltac:(lia) y b0 Hb0)
        as [[-> _]|[[-> _]|(_ & _ & b1 & Hb1 & _ & Hf1 & Hp1')]]; [done|done|].
      case_decide as Hyn; [congruence|]. rewrite Hp1'. destruct (bpf b1) eqn:E; [|done].
      destruct (Hc y b1 Hb1 ltac:(congruence) E); done.
    + rewrite (used_set_status control (mem s1)) by (done || (simpl; lia)).
      unfold B1. rewrite (used_split control (mem s)), Hf by (done || lia). simpl.
      unfold trimmed. destruct (Z.leb_spec (32 + size) (bsz b)); [done|lia].
    + eapply frame_trans; [done|]. unfold B1 in Hfr2.
      rewrite (used_split control (mem s)), Hf in Hfr2 by (done || lia).
      rewrite delete_id in Hfr2; [done|by eapply used_none].
    + split; [rewrite (extent_status control (mem s1)) by (done || (simpl; lia)); apply (extent_split control (mem s)); done || lia|].
      intros F HF. rewrite (free_set_status control (mem s1)) by (done || (simpl; lia)).
      unfold B1. rewrite (free_split control (mem s)), Hf by (done || lia).
      rewrite delete_insert_ne, delete_insert_eq by lia.
      apply (big_split _ a _ (bsz b)); [apply free_map_Some; by exists b| |lia|lia|lia|exact HF].
      unfold free_map. by rewrite lookup_omap, (split_fresh control (mem s) B a b size) by (done || lia).
Qed.
End prepare.

(** ** Locating a block *)

(** A free block is filed at or above the class the search starts from. *)
Definition fits (B : gmap Z blk) (size : Z) : Prop :=
  ∃ a sz fl sl fl' sl', free_map B !! a = Some sz ∧ mapping_insert sz = (fl', sl') ∧
    mapping_insert (search_size size) = (fl, sl) ∧ class_le fl sl fl' sl'.

(** In particular every free block of at least [search_size size] bytes fits. *)
Lemma fits_large control s B Fr size a sz :
  wf control s B Fr → 0 ≤ size → free_map B !! a = Some sz → search_size size ≤ sz → fits B size.
Proof.
  intros Hw Hs Ha Hsz. pose proof (search_size_bound size Hs).
  apply free_map_Some in Ha as Ha'. destruct Ha' as (b & Hb & Hf & <-).
  pose proof (wf_free_size _ _ _ _ _ _ Hw Hb Hf).
  destruct (mapping_insert (search_size size)) as [fl sl] eqn:E1.
  destruct (mapping_insert (bsz b)) as [fl' sl'] eqn:E2.
  exists a, (bsz b), fl, sl, fl', sl'. split_and!; [done..|].
  eapply mapping_insert_mono; [| |..]; [|done|lia|done..]. lia.
Qed.

Lemma tlsf_inv_nodes control s B : tlsf_inv control s B → nodes control (free_map B).
Proof. intros [Hw _]. eapply phys_nodes; [apply Hw|apply Hw|by eapply wf_listed_free]. Qed.

Lemma wp_block_locate_free control s B size (Q : Z → tlsf → Prop) :
  tlsf_inv control s B → size = 0 ∨ 24 ≤ size < 2 ^ 32 → size mod 8 = 0 →
  (size = 0 ∨ ¬ fits B size → Q 0 s) →
  (∀ s' a b nb, pending control s' B a b → bpf b = false →
     B !! (a + 8 + bsz b) = Some nb → bfree nb = false →
     size ≤ bsz b → size ≠ 0 → fits B size → frame (used_map B) s s' → Q a s') →
  wp (block_locate_free control size) s Q.
Proof.
  intros Hinv Hs Hs8 HQ0 HQ. pose proof Hinv as [Hw Hc].
  unfold block_locate_free. destruct (Z.eqb_spec size 0) as [->|Hne]; simpl.
  { apply wp_bind, wp_ret. simpl. apply wp_ret. auto. }
  apply wp_bind, wp_bind, mapping_search_spec; [change block_size_max with (2 ^ 32); lia|done|].
  intros fl sl Hfl Hsl Hlo Hms.
  destruct (wf_lists _ _ _ _ Hw) as [L Hl].
  assert (∀ a sz fl' sl', free_map B !! a = Some sz → mapping_insert sz = (fl', sl') → class_ok fl' sl') as Hok.
  { intros a sz fl' sl' Ha Hm. apply free_map_Some in Ha as (b & Hb & Hf & <-).
    pose proof (wf_free_size _ _ _ _ _ _ Hw Hb Hf).
    eapply mapping_insert_ok; [|done]. change block_size_max with (2 ^ 32). lia. }
  destruct (Z.ltb_spec fl FL_INDEX_COUNT) as [Hflc|Hflc].
  - eapply wp_search_suitable_block; [done|by eapply tlsf_inv_nodes|done|done| |].
    + intros fl' sl' l Hcl Hle HL. pose proof Hcl as [Hcl1 Hcl2].
      set (a := blocks s fl' sl') in *.
      assert (a ∈ L fl' sl') as Hin by (rewrite HL; set_solver).
      apply (ls_elem _ _ _ _ Hl) in Hin as (sz & Ha & Hm); [|done].
      assert (fits B size) as Hfit by (exists a, sz, fl, sl, fl', sl'; done).
      apply free_map_Some in Ha as (b & Hb & Hf & <-).
      pose proof (wf_free_size _ _ _ _ _ _ Hw Hb Hf).
      pose proof (mapping_insert_ge (bsz b) fl sl fl' sl' ltac:(lia) Hm Hfl Hsl Hle).
      pose proof (wf_phys _ _ _ _ Hw) as Hp.
      destruct (ph_placed _ _ _ Hp a b Hb) as (Ha0 & _).
      destruct (Z.eqb_spec a 0); [lia|]. simpl.
      apply wp_bind, (wp_block_size s a b (phys_hdr _ _ _ _ _ Hp Hb)).
      apply wp_bind, wp_assert; [lia|]. apply wp_bind.
      eapply remove_pending; [done..|]. intros s' Hpd Hfr. apply wp_ret.
      destruct (wf_next _ _ _ _ _ _ Hw Hb ltac:(lia)) as (nb & Hn & Hpf & _).
      eapply HQ; [done|by eapply Hc|done| |lia|done|done|done].
      destruct (bfree nb) eqn:E; [|done]. pose proof (Hc _ _ Hn E). congruence.
    + intros Hno. simpl. apply wp_ret, HQ0. right.
      intros (a & sz & fl1 & sl1 & fl' & sl' & Ha & Hm & Hm1 & Hle).
      apply Hno. rewrite Hms in Hm1. injection Hm1 as <- <-.
      exists a, sz, fl', sl'. eauto.
  - apply wp_ret. simpl. apply wp_ret, HQ0. right.
    intros (a & sz & fl1 & sl1 & fl' & sl' & Ha & Hm & Hm1 & Hle).
    rewrite Hms in Hm1. injection Hm1 as <- <-.
    destruct (Hok _ _ _ _ Ha Hm) as [? ?]. destruct Hle as [?|[? ?]]; lia.
Qed.

(** ** Shrinking a used block *)

Section shrink.
Context (control : Z) (s : tlsf) (B : gmap Z blk) (a : Z) (b nb : blk) (size : Z).
Notation r := (a + 8 + size).
Context (Hinv : tlsf_inv control s B) (Ha : B !! a = Some b) (Hf : bfree b = false).
Context (Hn : B !! (a + 8 + bsz b) = Some nb) (Hs8 : size mod 8 = 0) (Hmin : 24 ≤ size).

Lemma split_used_pending s' :
  size + 32 ≤ bsz b → wf control s' (split_map B a b nb size) (free_map B) →
  pending control s' (split_map B a b nb size) r (Blk (bsz b - size - 8) true false).
Proof.
  intros Hfit Hw'. destruct Hinv as [Hw Hc]. pose proof (wf_phys _ _ _ _ Hw) as Hp.
  pose proof (split_fresh control (mem s) B a b size Hp Ha Hmin Hfit) as Hr. split.
  - rewrite (free_split control (mem s)), Hf by done. rewrite delete_insert_id; [done|].
    unfold free_map. by rewrite lookup_omap, Hr.
  - rewrite <- Hf. by apply split_map_r.
  - done.
  - intros y yb Hy Hyf Hyp.
    destruct (split_map_lookup B a b nb size Hn Hmin Hfit y yb Hy)
      as [[-> _]|[[-> ->]|(_ & _ & b1 & Hb1 & _ & Hf1 & Hp1)]]; [by left|simpl in *; congruence|].
    case_decide; [right; simpl; lia|]. rewrite (Hc y b1 Hb1) in Hp1; congruence.
Qed.

Lemma wp_block_trim_used (Q : unit → tlsf → Prop) :
  size < 2 ^ 32 → size ≤ bsz b →
  (∀ s' B', tlsf_inv control s' B' → used_map B' = <[a:=trimmed (bsz b) size]> (used_map B) →
     frame (delete a (used_map B)) s s' →
     (∀ x, a + 16 ≤ x < a + 16 + size → mem s' x = mem s x) → extent B' = extent B → Q tt s') →
  wp (block_trim_used control a size) s Q.
Proof.
  intros Hlim Hle HQ. pose proof Hinv as [Hw Hc]. pose proof (wf_phys _ _ _ _ Hw) as Hp.
  pose proof (phys_hdr _ _ _ _ _ Hp Ha) as Hha. sizes Hp a.
  apply wp_bind, (wp_block_is_free s a b Hha), wp_bind, wp_assert; [by rewrite Hf|].
  apply wp_bind, (wp_block_can_split s a b Hha); [lia|].
  destruct (Z.leb_spec (32 + size) (bsz b)) as [Hfit|Hfit].
  2:{ apply wp_ret, (HQ s B); [done| |apply frame_refl|done|done]. unfold trimmed.
      destruct (Z.leb_spec (32 + size) (bsz b)); [lia|]. symmetry. apply insert_id.
      apply used_lookup; done || lia. }
  assert (free_map B !! a = None) as HFa.
  { unfold free_map. rewrite lookup_omap, Ha. simpl. by rewrite Hf. }
  apply wp_bind. eapply wp_block_split; try done; [lia|].
  intros g s1 Hfl Hsl Hbl Hm1 Hm2 Hm3 Hm4 Hoth.
  assert (r mod 8 = 0) by (by apply mod8_add; [apply mod8_add|]).
  assert ((bsz b - size - 8) mod 8 = 0).
  { replace (bsz b - size - 8) with (bsz b + (-1) * size + (-1) * 8) by lia.
    apply mod8_add; [apply mod8_add|done]; [done|by rewrite Z.mul_mod, Hs8 by lia]. }
  apply wp_bind, (wp_block_set_prev_used _ _ (Blk (bsz b - size - 8) true g)).
  { unfold hdr; simpl; split_and!; done || lia. }
  set (s2 := st _ _ s1).
  destruct (wf_split control s B (free_map B) a b nb size Hw Ha Hn HFa Hs8 Hmin ltac:(lia) s2)
    as (Hw2 & Hfr2 & _); try done;
    try (unfold s2; rewrite mem_st; intros; upd_cases; done || lia).
  { unfold s2. rewrite mem_st, upd_eq. by rewrite Hf. }
  { congruence. }
  { intros x ?????. unfold s2. rewrite mem_st, upd_ne by done. auto. }
  pose proof (split_used_pending s2 ltac:(lia) Hw2) as Hpd.
  assert (used_map (split_map B a b nb size) = <[a:=size]> (used_map B)) as HU.
  { rewrite (used_split control (mem s)) by (done || lia). by rewrite Hf. }
  apply wp_bind. eapply wp_block_merge_next; [done|].
  intros s3 B3 qb' nb' Hpd3 HU3 Hpf3 Hn3 Hnf3 _ Hfr3 He3.
  eapply pending_insert; [done..|]. intros s4 Hinv4 Hfr4.
  rewrite HU in HU3, Hfr3. rewrite HU3 in Hfr4.
  apply (HQ s4 B3); [done| | | |].
  - rewrite HU3. unfold trimmed. destruct (Z.leb_spec (32 + size) (bsz b)); [done|lia].
  - eapply frame_trans; [exact Hfr2|]. eapply (frame_mono _ (<[a:=size]> (used_map B))).
    + rewrite <- insert_delete_eq. apply insert_subseteq. by rewrite lookup_delete_eq.
    + by eapply frame_trans.
  - intros x Hx. pose proof (frame_trans _ _ _ _ Hfr3 Hfr4 a size x) as Hpay.
    rewrite Hpay; [|by rewrite lookup_insert_eq|done].
    unfold s2. rewrite mem_st, upd_ne by lia. apply Hoth; lia.
  - rewrite (rz_extent _ _ _ He3). apply (extent_split control (mem s)); done || lia.
Qed.
End shrink.

(** ** Splitting off an alignment gap *)

Lemma wp_block_trim_free_leading control s B a b nb gap (Q : Z → tlsf → Prop) :
  pending control s B a b → bpf b = false → B !! (a + 8 + bsz b) = Some nb → bfree nb = false →
  32 ≤ gap → gap mod 8 = 0 → gap + 32 ≤ bsz b →
  (∀ s' B' b' nb', pending control s' B' (a + gap) b' → bsz b' = bsz b - gap →
     B' !! (a + gap + 8 + bsz b') = Some nb' → bfree nb' = false →
     used_map B' = used_map B → frame (used_map B) s s' → extent B' = extent B → Q (a + gap) s') →
  wp (block_trim_free_leading control a gap) s Q.
Proof.
  intros [Hw Ha Hf Hc] Hbpf Hn Hnf Hgap Hg8 Hfit HQ. pose proof (wf_phys _ _ _ _ Hw) as Hp.
  pose proof (phys_hdr _ _ _ _ _ Hp Ha) as Hha.
  pose proof (wf_free_size _ _ _ _ _ _ Hw Ha Hf) as Hsz.
  assert ((gap - 8) mod 8 = 0) as Hg8'.
  { replace (gap - 8) with (gap + (-1) * 8) by lia. by apply mod8_add. }
  apply wp_bind, (wp_block_can_split s a b Hha); [lia|].
  destruct (Z.leb_spec (32 + gap) (bsz b)); [|lia].
  unfold block_header_overhead. rewrite w64_small by lia.
  pose proof (split_fresh control (mem s) B a b (gap - 8) Hp Ha ltac:(lia) ltac:(lia)) as Hr.
  set (B1 := split_map B a b nb (gap - 8)).
  assert (used_map B1 = used_map B) as HU.
  { unfold B1. rewrite (used_split control (mem s)) by (done || lia). by rewrite Hf. }
  apply (wp_split_free control s B a b nb (gap - 8) Hg8' ltac:(lia) _ (delete a (free_map B)));
    [done..|by rewrite lookup_delete_eq|done|lia|].
  intros s1 Hw1 Hfr1. apply wp_bind.
  eapply (wp_block_insert _ _ _ _ _ (Blk (gap - 8) (bfree b) (bpf b)));
    [done|apply split_map_a; lia|done|by rewrite lookup_delete_eq|].
  intros s2 Hw2 Hfr2. apply wp_ret. rewrite insert_delete_eq in Hw2. simpl in Hw2.
  fold B1 in Hw2, Hfr2. rewrite HU in Hfr2.
  replace (a + 8 + (gap - 8)) with (a + gap) in * by lia.
  assert (a + 8 + (gap - 8) = a + gap) as Hag by lia.
  apply (HQ s2 B1 (Blk (bsz b - (gap - 8) - 8) true (bfree b)) (with_pf true nb));
    [split|simpl; lia| |done|done|by eapply frame_trans|apply (extent_split control (mem s)); done || lia].
  - unfold B1. rewrite (free_split control (mem s)), Hf, Hag by (done || lia).
    rewrite delete_insert_id; [done|]. rewrite lookup_insert_ne by lia.
    unfold free_map. by rewrite lookup_omap, Hr.
  - rewrite <- Hag. apply split_map_r. lia.
  - done.
  - intros y yb Hy Hyf Hyp.
    destruct (split_map_lookup B a b nb (gap - 8) Hn ltac:(lia) ltac:(lia) y yb Hy)
      as [[-> _]|[[-> ->]|(_ & Hya & b1 & Hb1 & _ & Hf1 & Hp1)]];
      [left; lia|simpl in *; congruence|].
    case_decide as Hyn; [right; simpl; lia|].
    destruct (Hc y b1 Hb1) as [?|?]; congruence.
  - simpl. replace (a + gap + 8 + (bsz b - (gap - 8) - 8)) with (a + 8 + bsz b) by lia.
    unfold B1, split_map. apply lookup_insert_eq.
Qed.
