(* ===== verification/TlsfHeap.v ===== *)
(** The allocator's interface routines over whole heaps: allocation, release,
    aligned allocation and reallocation as transitions of the map of live
    allocations. *)

From S2P Require Import Prelude CString TlsfBits TlsfModel TlsfInv TlsfLists TlsfPhys TlsfOps.
From S2P Require Import TlsfExtent TlsfTrim.

Definition request (size : Z) : Z := adjusted size 3.

Lemma request_range size : request size = 0 ∨ (24 ≤ request size < 2 ^ 32 ∧ request size mod 8 = 0).
Proof. apply adjusted_range. lia. Qed.

Lemma request_mod8 size : request size mod 8 = 0.
Proof. destruct (request_range size) as [->|[_ ?]]; done. Qed.

(** ** Allocation *)

(** The outcome of an allocation that wants [size] bytes in a heap with the
    live allocations [U]: a fresh block of that size or little more, and blocks
    that satisfy [P]. *)
Definition allocated (control : Z) (P : gmap Z blk → Prop) (U : gmap Z Z) (size : Z) (s : tlsf) (p : Z) (s' : tlsf) : Prop :=
  ∃ B', tlsf_inv control s' B' ∧ P B' ∧ frame U s s' ∧ 16 < p < 2 ^ 64 ∧
    U !! (p - 16) = None ∧ ∃ sz, (size ≤ sz < size + 32 ∧ sz < 2 ^ 32) ∧ used_map B' = <[p - 16:=sz]> U.

Lemma inv_bound control s B a sz :
  tlsf_inv control s B → used_map B !! a = Some sz →
  ∃ b, B !! a = Some b ∧ bfree b = false ∧ bsz b = sz ∧ 24 ≤ sz < 2 ^ 32 ∧
    0 < a ∧ a mod 8 = 0 ∧ a + 16 + sz < 2 ^ 64.
Proof.
  intros [Hw _] Ha. apply used_map_Some in Ha as (b & Hb & Hf & <- & Hne).
  destruct (ph_placed _ _ _ (wf_phys _ _ _ _ Hw) a b Hb) as (? & ? & ? & ? & ?).
  exists b. split_and!; done || lia.
Qed.

(** Preparing a located block is an allocation. *)
Definition same_extent (B B' : gmap Z blk) : Prop := extent B' = extent B.

Lemma allocated_mono control (P P' : gmap Z blk → Prop) U size s p s' :
  allocated control P U size s p s' → (∀ B, P B → P' B) → allocated control P' U size s p s'.
Proof. intros (B & Hi & HP & H) HPP. exists B. split; [done|]. split; [by apply HPP|done]. Qed.

Lemma allocated_extent control d B U size s p s' :
  allocated control (resized d B) U size s p s' → allocated control (same_extent B) U size s p s'.
Proof. intros H. eapply allocated_mono; [exact H|]. by intros B' [He _]. Qed.

Lemma wp_prepare_allocated control s0 s B U a b nb size (Q : Z → tlsf → Prop) :
  pending control s B a b → B !! (a + 8 + bsz b) = Some nb → bfree nb = false →
  used_map B = U → frame U s0 s → size mod 8 = 0 → 24 ≤ size ≤ bsz b →
  (∀ s', allocated control (resized (size + 40) B) U size s0 (a + 16) s' → Q (a + 16) s') →
  wp (block_prepare_used control a size) s Q.
Proof.
  intros Hpd Hn Hnf HU Hfr Hs8 Hsz HQ. pose proof Hpd as [Hw Ha Hf _].
  pose proof (used_none B a b Ha Hf) as Hnone. rewrite HU in Hnone.
  destruct (ph_placed _ _ _ (wf_phys _ _ _ _ Hw) a b Ha) as (? & ? & ? & ? & ?).
  eapply wp_block_prepare_used; [done..|lia|lia|].
  intros s' B' Hinv' HU' Hfr' He. rewrite HU in *. apply HQ. exists B'.
  pose proof (trimmed_bounds (bsz b) size ltac:(lia)).
  assert (used_map B' !! a = Some (trimmed (bsz b) size)) as Hin
    by (rewrite HU'; by rewrite lookup_insert_eq).
  destruct (inv_bound _ _ _ _ _ Hinv' Hin) as (_ & _ & _ & _ & ? & _).
  replace (a + 16 - 16) with a by lia.
  split_and!; [done|exact He|by eapply frame_trans|lia|lia|done|].
  exists (trimmed (bsz b) size). split_and!; done || lia.
Qed.

Lemma wp_tlsf_malloc control s B size (Q : Z → tlsf → Prop) :
  tlsf_inv control s B →
  (request size = 0 ∨ ¬ fits B (request size) → Q 0 s) →
  (∀ p s', request size ≠ 0 → fits B (request size) →
     allocated control (resized (request size + 40) B) (used_map B) (request size) s p s' → Q p s') →
  wp (tlsf_malloc control size) s Q.
Proof.
  intros Hinv HQ0 HQ. unfold tlsf_malloc. change ALIGN_SIZE with (2 ^ 3).
  apply wp_bind, wp_adjust_request_size; [lia|]. fold (request size).
  pose proof (request_range size) as Hr. pose proof (request_mod8 size).
  apply wp_bind. eapply wp_block_locate_free; [done|lia|done| |].
  - intros Hnull. apply wp_ret. auto.
  - intros s1 a b nb Hpd Hpf Hn Hnf Hsz Hne Hfit Hfr.
    eapply wp_prepare_allocated; [done|done|done|done|done|done|lia|]. eauto.
Qed.

(** ** Release *)

Lemma block_from_ptr_eq a : 0 < a → a + 16 < 2 ^ 64 → block_from_ptr (a + 16) = a.
Proof.
  intros. unfold block_from_ptr, block_start_offset. rewrite w64_small by lia. lia.
Qed.

Lemma wp_tlsf_free control s B a sz (Q : unit → tlsf → Prop) :
  tlsf_inv control s B → used_map B !! a = Some sz →
  (∀ s' B', tlsf_inv control s' B' → used_map B' = delete a (used_map B) →
     frame (delete a (used_map B)) s s' → resized 0 B B' → Q tt s') →
  wp (tlsf_free control (a + 16)) s Q.
Proof.
  intros Hinv Hu HQ. destruct (inv_bound _ _ _ _ _ Hinv Hu) as (b & Ha & Hf & <- & ? & ? & ? & ?).
  pose proof Hinv as [Hw _]. pose proof (wf_phys _ _ _ _ Hw) as Hp.
  destruct (wf_next _ _ _ _ _ _ Hw Ha ltac:(lia)) as (nb & Hn & _).
  unfold tlsf_free. destruct (Z.eqb_spec (a + 16) 0); [lia|]. cbn [negb].
  rewrite block_from_ptr_eq by lia. cbv zeta.
  apply wp_bind, (wp_block_is_free s a b (phys_hdr _ _ _ _ _ Hp Ha)).
  apply wp_bind, wp_assert; [by rewrite Hf|].
  apply wp_bind. eapply wp_mark_free_pending; [done..|lia|done|].
  intros s1 Hpd1 Hfr1.
  pose proof (used_set_status control (mem s) B a b nb Hp Ha ltac:(lia) Hn true) as HU1.
  simpl in HU1. apply wp_bind. eapply wp_block_merge_prev; [done|].
  intros s2 B2 q qb Hpd2 HU2 Hpf2 Hfr2 He2.
  apply wp_bind. eapply wp_block_merge_next; [done|].
  intros s3 B3 qb3 nb3 Hpd3 HU3 Hpf3 Hn3 Hnf3 _ Hfr3 He3.
  eapply pending_insert; [done|congruence|done|done|].
  intros s4 Hinv4 Hfr4.
  rewrite HU3, HU2, HU1 in Hfr4. rewrite HU2, HU1 in Hfr3. rewrite HU1 in Hfr2.
  apply (HQ s4 B3); [done|congruence| |].
  - eapply frame_trans; [done|]. eapply frame_trans; [done|]. by eapply frame_trans.
  - apply (resized_trans 0 0 _ (set_status B a b nb true)); [|exact (resized_trans 0 0 _ _ _ He2 He3)].
    split; [apply (extent_status control (mem s)); done || lia|]. intros F HF.
    rewrite Z.sub_0_r, (free_set_status control (mem s)) by (done || lia). apply big_insert; [|exact HF].
    unfold free_map. rewrite lookup_omap, Ha. simpl. by rewrite Hf.
Qed.

(** ** Aligned allocation *)

Lemma mod_pow2_mod8 x k : 3 ≤ k → x mod 2 ^ k = 0 → x mod 8 = 0.
Proof. apply mod_pow2_8. Qed.

Lemma wp_align_ptr {S} ptr k (s : S) (Q : Z → S → Prop) :
  0 ≤ k < 64 → 0 ≤ ptr → ptr + 2 ^ k ≤ 2 ^ 64 →
  (∀ x, x mod 2 ^ k = 0 → ptr ≤ x < ptr + 2 ^ k → (ptr mod 2 ^ k = 0 → x = ptr) → Q x s) →
  wp (align_ptr ptr (2 ^ k)) s Q.
Proof.
  intros Hk Hp Hlt HQ. assert (0 < 2 ^ k) by (apply Z.pow_pos_nonneg; lia).
  assert (2 ^ k ≤ 2 ^ 63) by (apply Z.pow_le_mono_r; lia).
  unfold align_ptr. apply wp_bind, wp_assert; [by apply pow2_is_pow2|].
  apply wp_ret. rewrite land_not64_mask by (done || apply w64_range).
  rewrite (w64_small (2 ^ k - 1)), w64_small by lia.
  pose proof (Z.div_mod (ptr + (2 ^ k - 1)) (2 ^ k) ltac:(lia)) as Hdm.
  pose proof (Z.mod_pos_bound (ptr + (2 ^ k - 1)) (2 ^ k) ltac:(lia)) as Hmb.
  apply HQ; [|lia|].
  - replace (_ - _) with ((ptr + (2 ^ k - 1)) / 2 ^ k * 2 ^ k) by lia. by apply Z.mod_mul; lia.
  - intros Hm. pose proof (Z.div_mod ptr (2 ^ k) ltac:(lia)) as Hd. rewrite Hm in Hd.
    assert ((ptr + (2 ^ k - 1)) / 2 ^ k = ptr / 2 ^ k); [|nia].
    symmetry. apply (Z.div_unique _ _ _ (2 ^ k - 1)); lia.
Qed.

(** The block size [tlsf_memalign] looks for. *)
Definition memalign_request (k size : Z) : Z :=
  if negb (request size =? 0) && (8 <? 2 ^ k)
  then adjusted (w64 (request size + 2 ^ k + 32)) k else request size.

Lemma memalign_request_spec k size :
  4 ≤ k < 63 → request size ≠ 0 → memalign_request k size ≠ 0 →
  2 ^ k ≤ 2 ^ 32 ∧ request size + 2 ^ k + 32 ≤ memalign_request k size ∧
  memalign_request k size mod 2 ^ k = 0.
Proof.
  intros Hk Hr Hm. destruct (request_range size) as [|[Hrr Hr8]]; [done|].
  unfold memalign_request in *. destruct (Z.eqb_spec (request size) 0); [done|]. cbn [negb andb] in *.
  assert (2 ^ 4 ≤ 2 ^ k) by (apply Z.pow_le_mono_r; lia).
  assert (2 ^ k ≤ 2 ^ 62) by (apply Z.pow_le_mono_r; lia).
  destruct (Z.ltb_spec 8 (2 ^ k)); [|lia].
  rewrite w64_small in * by lia. set (x := request size + 2 ^ k + 32) in *.
  unfold adjusted in *. destruct (Z.eqb_spec x 0); [lia|]. cbv zeta in *.
  rewrite w64_small in * by lia.
  pose proof (Z.mod_pos_bound (x + 2 ^ k - 1) (2 ^ k) ltac:(lia)).
  destruct (Z.ltb_spec (x + 2 ^ k - 1 - (x + 2 ^ k - 1) mod 2 ^ k) (2 ^ 32)); [|done].
  rewrite Z.max_l in * by lia. split_and!; [lia|lia|].
  rewrite Zminus_mod_idemp_r, Z.sub_diag. by rewrite Zmod_0_l.
Qed.

Lemma memalign_request_range k size :
  0 ≤ k < 64 →
  (memalign_request k size = 0 ∨ 24 ≤ memalign_request k size < 2 ^ 32) ∧
  memalign_request k size mod 8 = 0.
Proof.
  intros Hk. unfold memalign_request. pose proof (request_range size) as Hr.
  destruct (negb _ && _) eqn:E.
  - apply andb_true_iff in E as [_ E%Z.ltb_lt].
    assert (3 ≤ k). { destruct (Z.lt_ge_cases k 3); [|done].
      assert (2 ^ k ≤ 2 ^ 3) by (apply Z.pow_le_mono_r; lia). lia. }
    destruct (adjusted_range (w64 (request size + 2 ^ k + 32)) k) as [->|[? ?]]; [lia|by split; [left|]|].
    split; [by right|done].
  - split; [|apply request_mod8]. lia.
Qed.

(** The gap computation: either the block's payload is aligned already, or
    the gap is a multiple of 8 of at least a block header. *)
Lemma wp_memalign_gap {S A} ptr k (f : Z → ST S A) (s : S) (Q : A → S → Prop) :
  4 ≤ k < 63 → 0 < ptr → ptr mod 8 = 0 → ptr + 2 ^ k + 56 < 2 ^ 64 →
  (∀ gap, gap mod 8 = 0 → gap = 0 ∨ 32 ≤ gap → (ptr + gap) mod 2 ^ k = 0 →
     gap ≤ 2 ^ k + 24 → wp (f gap) s Q) →
  wp (aligned ← align_ptr ptr (2 ^ k);
      let gap := w64 (aligned - ptr) in
      gap ← (if negb (gap =? 0) && (gap <? sizeof_block_header) then
        let gap_remain := w64 (sizeof_block_header - gap) in
        let offset := Z.max gap_remain (2 ^ k) in
        let next_aligned := w64 (aligned + offset) in
        aligned ← align_ptr next_aligned (2 ^ k);
        mret (w64 (aligned - ptr))
      else mret gap);
      f gap) s Q.
Proof.
  intros Hk Hp Hp8 Hlt HQ.
  assert (2 ^ 4 ≤ 2 ^ k) by (apply Z.pow_le_mono_r; lia).
  apply wp_bind, wp_align_ptr; [lia..|]. intros x Hx Hxr _. cbv zeta.
  rewrite (w64_small (x - ptr)) by lia. change sizeof_block_header with 32.
  assert (x mod 8 = 0) as Hx8 by (eapply mod_pow2_8; [|done]; lia).
  pose proof (Z.div_mod x 8). pose proof (Z.div_mod ptr 8).
  assert ((x - ptr) mod 8 = 0) as Hg8 by (rewrite Zminus_mod, Hx8, Hp8; done).
  destruct (Z.eqb_spec (x - ptr) 0) as [Hz|Hz]; cbn [negb andb].
  { apply wp_bind, wp_ret, HQ; try lia. by replace (ptr + (x - ptr)) with x by lia. }
  destruct (Z.ltb_spec (x - ptr) 32).
  2:{ apply wp_bind, wp_ret, HQ; try lia. by replace (ptr + (x - ptr)) with x by lia. }
  rewrite (w64_small (32 - _)) by lia.
  destruct (Z.le_gt_cases (32 - (x - ptr)) (2 ^ k)).
  - rewrite Z.max_r by lia. rewrite (w64_small (x + 2 ^ k)) by lia.
    assert ((x + 2 ^ k) mod 2 ^ k = 0) as Hm.
    { rewrite <- (Z.mul_1_l (2 ^ k)) at 1. by rewrite Z.mod_add by lia. }
    assert (x + 2 ^ k + 2 ^ k ≤ 2 ^ 64) as Hno.
    { pose proof (Z.div_mod (x + 2 ^ k) (2 ^ k) ltac:(lia)) as Hd. rewrite Hm in Hd.
      assert (2 ^ 64 = 2 ^ k * 2 ^ (64 - k)) as Hpw
        by (rewrite <- Z.pow_add_r by lia; f_equal; lia).
      assert ((x + 2 ^ k) / 2 ^ k < 2 ^ (64 - k)) by nia. nia. }
    apply wp_bind, wp_bind, wp_align_ptr; [lia..|]. intros y Hy Hyr Heq.
    rewrite (Heq Hm) in *. apply wp_ret. rewrite w64_small by lia.
    apply HQ; try lia.
    + replace (x + 2 ^ k - ptr) with ((x - ptr) + 2 ^ k) by lia. apply mod8_add; [done|].
      apply (mod_pow2_8 _ k); [lia|]. by apply Z.mod_same; lia.
    + by replace (ptr + (x + 2 ^ k - ptr)) with (x + 2 ^ k) by lia.
  - assert (k = 4) as ->.
    { destruct (decide (k = 4)); [done|].
      assert (2 ^ 5 ≤ 2 ^ k) by (apply Z.pow_le_mono_r; lia). lia. }
    change (2 ^ 4) with 16 in *.
    pose proof (Z.div_mod (x - ptr) 8). assert (x - ptr = 8) by lia.
    rewrite Z.max_l by lia. rewrite w64_small by lia.
    apply wp_bind, wp_bind. change 16 with (2 ^ 4). apply wp_align_ptr; [lia..|].
    change (2 ^ 4) with 16. intros y Hy Hyr _.
    pose proof (Z.div_mod x 16). pose proof (Z.div_mod y 16).
    assert (y = x + 32) as -> by lia.
    apply wp_ret. rewrite w64_small by lia. replace (x + 32 - ptr) with 40 by lia.
    apply HQ; try lia; [done|]. by replace (ptr + 40) with (x + 32) by lia.
Qed.

Lemma wp_tlsf_memalign control s B k size (Q : Z → tlsf → Prop) :
  tlsf_inv control s B → 0 ≤ k < 63 →
  (memalign_request k size = 0 ∨ ¬ fits B (memalign_request k size) → Q 0 s) →
  (∀ p s', fits B (memalign_request k size) → p mod 2 ^ k = 0 →
     allocated control (same_extent B) (used_map B) (request size) s p s' → Q p s') →
  wp (tlsf_memalign control (2 ^ k) size) s Q.
Proof.
  intros Hinv Hk HQ0 HQ. unfold tlsf_memalign. change ALIGN_SIZE with 8.
  change (adjust_request_size size 8) with (adjust_request_size (S:=tlsf) size (2 ^ 3)).
  apply wp_bind, wp_adjust_request_size; [lia|]. fold (request size). cbv zeta.
  apply wp_bind, wp_adjust_request_size; [lia|].
  change sizeof_block_header with 32. fold (memalign_request k size).
  destruct (memalign_request_range k size) as [Hmr Hm8]; [lia|].
  apply wp_bind. eapply wp_block_locate_free; [done|done|done| |].
  { intros Hnull. apply wp_bind, wp_assert; [done|]. simpl. apply wp_bind, wp_ret. apply wp_ret. auto. }
  intros s1 a b nb Hpd Hpf Hn Hnf Hsz Hne Hfit Hfr.
  apply wp_bind, wp_assert; [done|].
  pose proof Hpd as [Hw Ha Hf _]. pose proof (wf_phys _ _ _ _ Hw) as Hp.
  destruct (ph_placed _ _ _ Hp a b Ha) as (Ha0 & Ha8 & Halim & _).
  destruct (Z.eqb_spec a 0); [lia|]. cbn [negb].
  rewrite (block_to_ptr_eq s1 a b) by by eapply phys_hdr.
  assert (request size ≠ 0) as Hr0.
  { intros E. unfold memalign_request in Hne. by rewrite E in Hne. }
  destruct (request_range size) as [|[Hr Hr8]]; [done|].
  assert ((a + 16) mod 8 = 0) as Hp8 by by apply mod8_add.
  destruct (Z.lt_ge_cases k 4) as [Hk4|Hk4].
  - (* small alignments: every payload is aligned already *)
    assert (2 ^ k ≤ 2 ^ 3) by (apply Z.pow_le_mono_r; lia).
    assert (memalign_request k size = request size) as Hmeq.
    { unfold memalign_request. destruct (Z.ltb_spec 8 (2 ^ k)); [lia|]. by rewrite andb_false_r. }
    assert ((a + 16) mod 2 ^ k = 0) as Hal.
    { pose proof (Z.div_mod (a + 16) 8) as Hd. rewrite Hp8 in Hd.
      assert (8 = 2 ^ (3 - k) * 2 ^ k) as E by (rewrite <- Z.pow_add_r by lia; by replace (3 - k + k) with 3 by lia).
      rewrite Hd, E by lia. replace (_ + 0) with ((a + 16) / (2 ^ (3 - k) * 2 ^ k) * 2 ^ (3 - k) * 2 ^ k) by lia.
      apply Z.mod_mul. apply Z.pow_nonzero; lia. }
    apply wp_bind, wp_bind, wp_align_ptr; [lia..|]. intros x _ _ Hx. rewrite (Hx Hal).
    rewrite Z.sub_diag. simpl. apply wp_bind, wp_ret. simpl. apply wp_ret.
    eapply wp_prepare_allocated; [done|done|done|done|done|done|lia|]. eauto using allocated_extent.
  - destruct (memalign_request_spec k size) as (Hk32 & Hroom & _); [lia|done|done|].
    apply wp_bind, wp_memalign_gap; [lia..|done|lia|].
    intros gap Hg8 Hg Hal Hgb. destruct (Z.eqb_spec gap 0) as [->|Hg0]; cbn [negb].
    + apply wp_ret. rewrite Z.add_0_r in Hal.
      eapply wp_prepare_allocated; [done|done|done|done|done|done|lia|]. eauto using allocated_extent.
    + apply wp_bind, wp_assert; [lia|].
      eapply wp_block_trim_free_leading; [done|done|done|done|lia|done|lia|].
      intros s2 B2 b2 nb2 Hpd2 Hsz2 Hn2 Hnf2 HU2 Hfr2 He2.
      eapply wp_prepare_allocated; [done|done|done|exact HU2|exact (frame_trans _ _ _ _ Hfr Hfr2)|done|lia|].
      intros s3 Hall%allocated_extent. unfold same_extent in Hall. rewrite He2 in Hall. apply HQ; [done| |done].
      by replace (a + gap + 16) with (a + 16 + gap) by lia.
Qed.

(** ** Reallocation *)

(** Growing a used block over its free right neighbour. *)
(** The used block that took over its free neighbour leaves no two free
    neighbours behind. *)
Lemma grow_inv control s s' B a b nb nnb :
  tlsf_inv control s B → B !! a = Some b → bfree b = false → bsz b ≠ 0 →
  B !! (a + 8 + bsz b) = Some nb → bsz nb ≠ 0 → B !! (a + 8 + bsz b + 8 + bsz nb) = Some nnb →
  delete (a + 8 + bsz b) (free_map B) !! a = None →
  wf control s' (absorb_map B a b nb nnb false) (delete (a + 8 + bsz b) (free_map B)) →
  tlsf_inv control s' (absorb_map B a b nb nnb false).
Proof.
  intros [Hw Hc] Ha Hf Hsz Hn Hnsz Hnn HFa Hw3. pose proof (wf_phys _ _ _ _ Hw) as Hp. split.
  - rewrite (free_absorb control (mem s)) by (done || lia). by rewrite delete_id.
  - intros y yb Hy Hyf. destruct (bpf yb) eqn:Hyp; [|done].
    destruct (absorb_coalesced _ _ _ _ _ _ _ _ _ _ Hp Ha Hsz Hn Hnsz Hnn Hy Hyf Hyp)
      as [(_ & _ & ?)|[(? & _)|(_ & _ & _ & b0 & Hb0 & Hf0 & Hp0)]]; [done..|].
    by rewrite (Hc y b0 Hb0 Hf0) in Hp0.
Qed.

Lemma wp_grow control s B a b nb (Q : unit → tlsf → Prop) :
  tlsf_inv control s B → B !! a = Some b → bfree b = false → bsz b ≠ 0 →
  B !! (a + 8 + bsz b) = Some nb → bfree nb = true →
  (∀ s' B' b' nnb, tlsf_inv control s' B' →
     used_map B' = <[a:=bsz b + 8 + bsz nb]> (used_map B) →
     B' !! a = Some b' → bfree b' = false → bsz b' = bsz b + 8 + bsz nb →
     B' !! (a + 8 + bsz b') = Some nnb →
     frame (delete a (used_map B)) s s' →
     (∀ x, a + 16 ≤ x < a + 16 + bsz b → mem s' x = mem s x) → extent B' = extent B → Q tt s') →
  wp (block_merge_next control a ;; block_mark_as_used a) s Q.
Proof.
  intros Hinv Ha Hf Hsz Hn Hnf HQ. pose proof Hinv as [Hw Hc]. pose proof (wf_phys _ _ _ _ Hw) as Hp.
  pose proof (phys_hdr _ _ _ _ _ Hp Ha) as Hha. pose proof (phys_hdr _ _ _ _ _ Hp Hn) as Hhn.
  pose proof (wf_free_size _ _ _ _ _ _ Hw Hn Hnf) as Hns.
  destruct (wf_next _ _ _ _ _ _ Hw Hn ltac:(lia)) as (nnb & Hnn & Hnnpf & _).
  sizes Hp a.
  apply wp_bind, wp_bind, (wp_block_next s a b Hha); [done|].
  apply wp_bind, wp_assert; [destruct (Z.eqb_spec (a + 8 + bsz b) 0); [sizes Hp a; lia|done]|].
  apply wp_bind, (wp_block_is_free s _ nb Hhn). rewrite Hnf.
  apply wp_bind, (wp_block_is_last s a b Hha).
  apply wp_bind, wp_assert; [by destruct (Z.eqb_spec (bsz b) 0)|].
  apply wp_bind. eapply wp_block_remove; [done|by apply free_lookup|].
  intros s1 Hw1 Hfr1. set (n := a + 8 + bsz b) in *. set (Fr1 := delete n (free_map B)) in *.
  assert (Fr1 !! a = None) as HFa.
  { unfold Fr1. rewrite lookup_delete_ne by (unfold n; sizes Hp a; lia). unfold free_map.
    rewrite lookup_omap, Ha. simpl. by rewrite Hf. }
  assert (Fr1 !! n = None) as HFn by apply lookup_delete_eq.
  eapply wp_block_absorb; [done..|lia|done|].
  intros s2 Hfl Hsl Hbl Hm1 Hm2 Hm3 Hoth. fold n in Hm2, Hm3, Hoth.
  pose proof (wf_phys _ _ _ _ Hw1) as Hp1.
  assert (placed a (Blk (bsz b + 8 + bsz nb) (bfree b) (bpf b))) as Hpl
    by (eapply (absorb_size control (mem s)); done || lia).
  assert (hdr s2 a (Blk (bsz b + 8 + bsz nb) (bfree b) (bpf b))) as Hh2 by by apply hdr_placed.
  assert (hdr s2 (n + 8 + bsz nb) nnb) as Hhn2
    by (apply hdr_placed; [by apply (ph_placed _ _ _ Hp)|done]).
  apply wp_bind, (wp_block_next s2 a _ Hh2); simpl; [lia|].
  replace (a + 8 + (bsz b + 8 + bsz nb)) with (n + 8 + bsz nb) by lia.
  apply wp_bind, (wp_block_set_prev_used _ _ nnb Hhn2).
  apply (wp_block_set_used _ _ (Blk (bsz b + 8 + bsz nb) (bfree b) (bpf b))).
  { apply hdr_st_ne; [done|]. unfold n. sizes Hp a. lia. }
  set (s3 := st _ _ _).
  destruct (wf_absorb control s1 B Fr1 a b nb nnb Hw1 Ha Hsz Hn ltac:(lia) Hnn HFa HFn false s3)
    as (Hw3 & Hfr3 & Hpay3); try done.
  1-2: unfold s3; rewrite ?mem_st; upd_cases; done || (unfold n in *; sizes Hp a; lia).
  { intros x ???. unfold s3. rewrite !mem_st, !upd_ne by done. auto. }
  apply (HQ s3 (absorb_map B a b nb nnb false) (Blk (bsz b + 8 + bsz nb) false (bpf b))
           (with_pf false nnb)).
  - apply (grow_inv control s); [exact Hinv|exact Ha|exact Hf|exact Hsz|exact Hn|lia|exact Hnn|exact HFa|exact Hw3].
  - by rewrite (used_absorb control (mem s)) by (done || lia).
  - eapply (absorb_map_p control (mem s)); done || lia.
  - done.
  - done.
  - simpl. replace (a + 8 + (bsz b + 8 + bsz nb)) with (n + 8 + bsz nb) by (unfold n; lia).
    unfold absorb_map. apply lookup_insert_eq.
  - eapply frame_trans; [eapply frame_mono; [apply delete_subseteq|exact Hfr1]|].
    rewrite (delete_id (used_map B) n) in Hfr3; [done|by eapply used_none].
  - intros x Hx. rewrite Hpay3 by done.
    apply (Hfr1 a (bsz b) x); [by apply used_lookup|done].
  - apply (extent_absorb control (mem s)); done || lia.
Qed.

(** A copy into the payload of a used block. *)
Lemma inv_payload control s s' B a b :
  tlsf_inv control s B → B !! a = Some b → bfree b = false →
  fl_bitmap s' = fl_bitmap s → sl_bitmap s' = sl_bitmap s → blocks s' = blocks s →
  (∀ x, x < a + 16 ∨ a + 16 + bsz b ≤ x → mem s' x = mem s x) →
  tlsf_inv control s' B.
Proof.
  intros [Hw Hc] Ha Hf Hfl Hsl Hbl Hm. split; [|done]. pose proof (wf_phys _ _ _ _ Hw) as Hp.
  sizes Hp a. eapply wf_update; [done| |done..| |].
  - eapply phys_frame; [done| |]; intros y yb Hy.
    + apply Hm. sizes Hp y. disj Hp y a. destruct (decide (y = a)); lia.
    + intros Hyf. apply Hm. sizes Hp y. disj Hp y a. assert (y ≠ a) by congruence. lia.
  - intros x Hx. apply Hm.
    assert (free_map B !! a = None) as HFa.
    { unfold free_map. rewrite lookup_omap, Ha. simpl. by rewrite Hf. }
    pose proof (link_word_unlisted _ _ _ _ a b x Hw Ha HFa Hx). lia.
  - intros y sz yb _ Hy Hyf. eauto.
Qed.

(** Bytes of a payload follow its words. *)
Lemma payload_byte s s' a i hi :
  a mod 8 = 0 → 0 ≤ i < hi → hi mod 8 = 0 →
  (∀ x, a + 16 ≤ x < a + 16 + hi → mem s' x = mem s x) →
  word_ld8 (mem s') (a + 16 + i) = word_ld8 (mem s) (a + 16 + i).
Proof.
  intros Ha Hi Hh Hm. unfold word_ld8. rewrite Hm; [done|]. unfold word_base.
  assert ((a + 16) mod 8 = 0) by by apply mod8_add.
  pose proof (Z.div_mod (a + 16) 8). pose proof (Z.div_mod (a + 16 + i) 8).
  pose proof (Z.mod_pos_bound (a + 16 + i) 8). pose proof (Z.div_mod hi 8). lia.
Qed.

Definition reallocated (control : Z) (B : gmap Z blk) (U : gmap Z Z) (a cur size : Z) (s : tlsf) (p : Z)
    (s' : tlsf) : Prop :=
  allocated control (same_extent B) (delete a U) (request size) s p s' ∧
  ∀ i, 0 ≤ i < Z.min cur size → word_ld8 (mem s') (p + i) = word_ld8 (mem s) (a + 16 + i).

Section realloc.
Context (control : Z) (s : tlsf) (B : gmap Z blk) (a cur size : Z).
Notation U := (used_map B).
Context (Hinv : tlsf_inv control s B) (HU : U !! a = Some cur).
Context (Hsize : 0 < size ≤ 2 ^ 64 - 8) (Hreq : request size ≠ 0).

Lemma request_ge : size ≤ request size.
Proof. apply adjusted_ge; [lia| |done]. change (2 ^ 3) with 8. lia. Qed.

(** Moving: allocate, copy, release. *)
Lemma wp_realloc_move (Q : Z → tlsf → Prop) :
  (¬ fits B (request size) → Q 0 s) →
  (∀ p s', reallocated control B U a cur size s p s' → Q p s') →
  wp (p ← tlsf_malloc control size;
      if negb (p =? 0) then
        let minsize := Z.min cur size in
        modify (set_mem (λ m, memcpy m p (a + 16) minsize)) ;;
        tlsf_free control (a + 16) ;;
        mret p
      else mret p) s Q.
Proof.
  intros HQ0 HQ. destruct (inv_bound _ _ _ _ _ Hinv HU) as (b & Ha & Hf & Hcur & ? & ? & ? & ?).
  pose proof request_ge. pose proof (request_mod8 size). apply wp_bind.
  eapply wp_tlsf_malloc; [done| |].
  { intros Hnull. simpl. apply wp_ret, HQ0. by destruct Hnull. }
  intros p s1 _ _ (B1 & Hinv1 & He1 & Hfr1 & Hp & Hfresh & sz & Hsz & HU1).
  destruct (Z.eqb_spec p 0); [lia|]. cbn [negb]. cbv zeta.
  assert (used_map B1 !! (p - 16) = Some sz) as Hin by (by rewrite HU1, lookup_insert_eq).
  destruct (inv_bound _ _ _ _ _ Hinv1 Hin) as (pb & Hpb & Hpf & Hpsz & _ & _ & Hp8 & _).
  assert (p mod 8 = 0) as Hp8' by (replace p with (p - 16 + 16) by lia; by apply mod8_add).
  assert (a ≠ p - 16) as Hne by congruence.
  assert (used_map B1 !! a = Some cur) as HUa by (by rewrite HU1, lookup_insert_ne by lia).
  destruct (inv_bound _ _ _ _ _ Hinv1 HUa) as (b1 & Ha1 & Hf1 & Hcur1 & _).
  set (len := Z.min cur size). set (s2 := set_mem (λ m, memcpy m p (a + 16) len) s1).
  assert (∀ x, x < p ∨ p + len ≤ x → mem s2 x = mem s1 x) as Hout
    by (intros x Hx; apply memcpy_outside; [done|lia|done]).
  assert (tlsf_inv control s2 B1) as Hinv2.
  { eapply inv_payload; [exact Hinv1|exact Hpb|done..|]. intros x Hx. apply Hout. lia. }
  pose proof (wf_phys _ _ _ _ (proj1 Hinv1)) as Hph1.
  pose proof (ph_disj _ _ _ Hph1 _ _ _ _ Ha1 Hpb). pose proof (ph_disj _ _ _ Hph1 _ _ _ _ Hpb Ha1).
  apply wp_bind, wp_modify. fold s2. apply wp_bind.
  eapply wp_tlsf_free; [exact Hinv2|exact HUa|]. intros s3 B3 Hinv3 HU3 Hfr3 He3.
  apply wp_ret, HQ. split; [exists B3; split_and!; try done; [exact (eq_trans (rz_extent _ _ _ He3) (rz_extent _ _ _ He1))|..]|].
  - (* other allocations *)
    intros y ysz x Hy Hx. apply lookup_delete_Some in Hy as [Hya Hy].
    assert (y ≠ p - 16) by congruence.
    assert (used_map B1 !! y = Some ysz) as Hy1 by (by rewrite HU1, lookup_insert_ne).
    rewrite (Hfr3 y ysz x) by (done || by rewrite lookup_delete_ne).
    destruct (inv_bound _ _ _ _ _ Hinv1 Hy1) as (yb & Hyb & _ & Hysz & _).
    pose proof (ph_disj _ _ _ Hph1 _ _ _ _ Hyb Hpb). pose proof (ph_disj _ _ _ Hph1 _ _ _ _ Hpb Hyb).
    rewrite Hout by lia. by apply (Hfr1 y ysz x).
  - lia.
  - lia.
  - rewrite lookup_delete_ne by done. done.
  - exists sz. split; [done|]. rewrite HU3, HU1. apply delete_insert_ne. done.
  - (* the copied bytes *)
    intros i Hi. fold len in Hi. trans (word_ld8 (mem s2) (p + i)).
    { replace (p + i) with (p - 16 + 16 + i) by lia.
      eapply (payload_byte _ _ _ _ sz); [done|lia|rewrite <- Hpsz; apply (ph_placed _ _ _ Hph1 _ _ Hpb)|].
      intros x Hx. apply (Hfr3 (p - 16) sz x); [|done]. by rewrite lookup_delete_ne. }
    trans (word_ld8 (mem s1) (a + 16 + i)).
    + change (ld8 (memcpy (mem s1) p (a + 16) len) (p + i) = ld8 (mem s1) (a + 16 + i)).
      rewrite memcpy_ld8 by lia. destruct (Z.leb_spec p (p + i)), (Z.ltb_spec (p + i) (p + len)); try lia.
      simpl. f_equal. lia.
    + eapply (payload_byte _ _ _ _ cur); [done|lia|rewrite <- Hcur1; apply (ph_placed _ _ _ Hph1 _ _ Ha1)|].
      intros x Hx. by apply (Hfr1 a cur x).
Qed.

(** Staying in place: trim a block that is large enough. *)
Lemma wp_realloc_trim s1 B1 b1 nb1 (Q : Z → tlsf → Prop) :
  tlsf_inv control s1 B1 → extent B1 = extent B → delete a (used_map B1) = delete a U →
  B1 !! a = Some b1 → bfree b1 = false → B1 !! (a + 8 + bsz b1) = Some nb1 →
  request size ≤ bsz b1 → cur ≤ bsz b1 → frame (delete a U) s s1 →
  (∀ x, a + 16 ≤ x < a + 16 + cur → mem s1 x = mem s x) →
  (∀ p s', reallocated control B U a cur size s p s' → Q p s') →
  wp (block_trim_used control a (request size) ;; mret (a + 16)) s1 Q.
Proof.
  intros Hinv1 He1 HU1 Ha1 Hf1 Hn1 Hle Hcur Hfr1 Hpay1 HQ.
  destruct (request_range size) as [|[Hr Hr8]]; [done|]. pose proof request_ge.
  pose proof (wf_phys _ _ _ _ (proj1 Hinv1)) as Hp1. sizes Hp1 a.
  pose proof (inv_bound _ _ _ _ _ Hinv HU) as (b & Ha & Hf & Hb & ? & ? & ? & ?).
  pose proof (wf_phys _ _ _ _ (proj1 Hinv)) as Hp.
  pose proof (ph_placed _ _ _ Hp a b Ha) as (_ & _ & _ & Hc8 & _). rewrite Hb in Hc8.
  apply wp_bind. eapply wp_block_trim_used; [done..|lia|lia|done|].
  intros s2 B2 Hinv2 HU2 Hfr2 Hpay2 He2. apply wp_ret, HQ.
  pose proof (trimmed_bounds (bsz b1) (request size) Hle).
  assert (used_map B2 = <[a:=trimmed (bsz b1) (request size)]> (delete a U)) as HU2'.
  { rewrite HU2, <- HU1. symmetry. apply insert_delete_eq. }
  assert (used_map B2 !! a = Some (trimmed (bsz b1) (request size))) as Hin
    by (by rewrite HU2', lookup_insert_eq).
  pose proof (inv_bound _ _ _ _ _ Hinv2 Hin) as (_ & _ & _ & _ & ? & _).
  split.
  - exists B2. replace (a + 16 - 16) with a by lia. split_and!; [done|unfold same_extent; congruence| |lia|lia| |].
    + rewrite HU1 in Hfr2. by eapply frame_trans.
    + apply lookup_delete_eq.
    + eexists. split; [|exact HU2']. lia.
  - intros i Hi. trans (word_ld8 (mem s1) (a + 16 + i)).
    + eapply (payload_byte _ _ _ _ (request size)); [done|lia|done|done].
    + eapply (payload_byte _ _ _ _ cur); [done|lia|done|done].
Qed.

Lemma wp_tlsf_realloc (Q : Z → tlsf → Prop) :
  (cur < request size → ¬ fits B (request size) → Q 0 s) →
  (∀ p s', reallocated control B U a cur size s p s' → Q p s') →
  wp (tlsf_realloc control (a + 16) size) s Q.
Proof.
  intros HQ0 HQ. destruct (inv_bound _ _ _ _ _ Hinv HU) as (b & Ha & Hf & Hcur & ? & ? & ? & ?).
  pose proof (proj1 Hinv) as Hw. pose proof (wf_phys _ _ _ _ Hw) as Hp.
  pose proof (phys_hdr _ _ _ _ _ Hp Ha) as Hha.
  destruct (wf_next _ _ _ _ _ _ Hw Ha ltac:(lia)) as (nb & Hn & _).
  pose proof (phys_hdr _ _ _ _ _ Hp Hn) as Hhn. sizes Hp a. sizes Hp (a + 8 + bsz b).
  unfold tlsf_realloc. destruct (Z.eqb_spec (a + 16) 0); [lia|].
  destruct (Z.eqb_spec size 0); [lia|]. cbn [negb andb].
  rewrite block_from_ptr_eq by lia. cbv zeta.
  apply wp_bind, (wp_block_next s a b Hha); [lia|].
  apply wp_bind, (wp_block_size s a b Hha), wp_bind, (wp_block_size s _ nb Hhn).
  change ALIGN_SIZE with (2 ^ 3). apply wp_bind, wp_adjust_request_size; [lia|].
  fold (request size). destruct (request_range size) as [|[Hr Hr8]]; [done|].
  apply wp_bind, (wp_block_is_free s a b Hha), wp_bind, wp_assert; [by rewrite Hf|].
  apply wp_bind, (wp_block_is_free s _ nb Hhn).
  unfold block_header_overhead. rewrite w64_small by lia. rewrite Hcur.
  destruct (Z.ltb_spec cur (request size)) as [Hlt|Hge]; cbn [andb].
  - destruct (bfree nb) eqn:Hnf; cbn [negb orb].
    + destruct (Z.ltb_spec (cur + bsz nb + 8) (request size)); [apply wp_realloc_move; auto|].
      apply wp_bind.
      eapply wp_grow; [done..|lia|done|done|].
      intros s1 B1 b1 nnb Hinv1 HU1 Ha1 Hf1 Hsz1 Hn1 Hfr1 Hpay1 He1.
      eapply wp_realloc_trim; [done|exact He1| |done|done|done|lia|lia|done|by rewrite <- Hcur|done].
      rewrite HU1. by rewrite delete_insert_eq.
    + apply wp_realloc_move; auto.
  - apply wp_bind, wp_ret.
    eapply wp_realloc_trim; [done|done|done|done|done|done|lia|lia|apply frame_refl|done|done].
Qed.
End realloc.
