(* ===== verification/TlsfPool.v ===== *)
(** Pools: building the control structure, handing memory to the allocator,
    and the consistency checker. *)

From S2P Require Import Prelude CString TlsfBits TlsfModel TlsfInv TlsfLists TlsfPhys TlsfOps.
From S2P Require Import TlsfExtent TlsfTrim TlsfHeap.

(** ** The control structure *)

Lemma elem_of_seqZ_0 n i : i ∈ seqZ 0 n ↔ 0 ≤ i < n.
Proof. rewrite elem_of_seqZ. lia. Qed.

Lemma prefix_seqZ pre x n : pre ++ [x] `prefix_of` seqZ 0 n → x = zlen pre ∧ 0 ≤ x < n ∧
  ∀ i, i ∈ pre ↔ 0 ≤ i < zlen pre.
Proof.
  intros [rest Heq].
  assert (∀ k y, (pre ++ [x]) !! k = Some y → y = Z.of_nat k ∧ 0 ≤ y < n) as Hk.
  { intros k y Hy. assert (seqZ 0 n !! k = Some y) as H by (by rewrite Heq; apply lookup_app_l_Some).
    apply lookup_seqZ in H. lia. }
  destruct (Hk (length pre) x) as [-> ?]; [by rewrite lookup_app_r, Nat.sub_diag by lia|].
  split_and!; [done|lia|lia|]. intros i. split.
  - intros [k Hi]%list_elem_of_lookup_1. pose proof (lookup_lt_Some _ _ _ Hi).
    destruct (Hk k i) as [-> ?]; [by apply lookup_app_l_Some|]. lia.
  - intros Hi. assert (Z.to_nat i < length pre)%nat as Hl by lia.
    apply lookup_lt_is_Some in Hl as [y Hy].
    destruct (Hk (Z.to_nat i) y) as [E _]; [by apply lookup_app_l_Some|].
    apply list_elem_of_lookup. exists (Z.to_nat i). rewrite Hy. f_equal. lia.
Qed.

Lemma wp_control_construct control s (Q : unit → tlsf → Prop) :
  control_ok control →
  (∀ s', lists control s' ∅ (λ _ _, []) →
     (∀ x, x ≠ control + 16 → x ≠ control + 24 → mem s' x = mem s x) → Q tt s') →
  wp (control_construct control) s Q.
Proof.
  intros (H1 & H2 & H3) HQ. unfold control_construct, next_free, prev_free.
  rewrite !w64_small by lia.
  apply wp_bind, wp_store; [lia|by apply mod8_add|].
  apply wp_bind, wp_store; [lia|by apply mod8_add|].
  apply wp_bind, wp_modify. set (s0 := set_fl_bitmap 0 _).
  eapply wp_mono.
  { apply (wp_for_each (λ l s', mem s' = mem s0 ∧ fl_bitmap s' = 0 ∧
      (∀ i, i ∈ l → sl_bitmap s' i = 0) ∧
      (∀ i j, i ∈ l → 0 ≤ j < SL_INDEX_COUNT → blocks s' i j = control))).
    { split_and!; set_solver. }
    intros pre i s1 (Hm & Hf & Hs & Hb) (-> & Hi & Hpre)%prefix_seqZ.
    apply wp_bind, wp_put_sl_bitmap; [done|]. eapply wp_mono.
    { apply (wp_for_each (λ l s', mem s' = mem s0 ∧ fl_bitmap s' = 0 ∧
        (∀ i, i ∈ pre ++ [zlen pre] → sl_bitmap s' i = 0) ∧
        (∀ i j, i ∈ pre → 0 ≤ j < SL_INDEX_COUNT → blocks s' i j = control) ∧
        (∀ j, j ∈ l → blocks s' (zlen pre) j = control))).
      { split_and!; try done; [|set_solver]. simpl. intros i [Hin| ->%list_elem_of_singleton]%elem_of_app.
        - rewrite upd_ne; [auto|]. apply Hpre in Hin. lia.
        - apply upd_eq. }
      intros pre' j s2 (Hm2 & Hf2 & Hs2 & Hb2 & Hc2) (-> & Hj & Hpre')%prefix_seqZ.
      apply wp_put_blocks; [done|]. split_and!; try done; simpl.
      - intros i j' Hin Hj'. rewrite upd2_ne; [auto|]. apply Hpre in Hin. intros [= ? ?]; lia.
      - intros j' [Hin| ->%list_elem_of_singleton]%elem_of_app; [|apply upd2_eq].
        rewrite upd2_ne; [auto|]. apply Hpre' in Hin. intros [= ?]; lia. }
    intros [] s3 (Hm3 & Hf3 & Hs3 & Hb3 & Hc3). split_and!; try done.
    intros i j [Hin| ->%list_elem_of_singleton]%elem_of_app Hj; [by apply Hb3|].
    apply Hc3. by apply elem_of_seqZ_0. }
  intros [] s' (Hm & Hf & Hs & Hb). apply HQ.
  - split; try done.
    + intros i j [Hi Hj]. apply Hb; [by apply elem_of_seqZ_0|done].
    + intros i j _. constructor.
    + intros i j a _. split; [by intros ?%not_elem_of_nil|]. intros (sz & ? & _). by simplify_map_eq.
    + intros i j [Hi Hj]. rewrite Hs by by apply elem_of_seqZ_0. by rewrite Z.bits_0.
    + intros i Hi. rewrite Hs by by apply elem_of_seqZ_0. lia.
    + intros i Hi. rewrite Hs, Hf, Z.bits_0 by by apply elem_of_seqZ_0. done.
    + rewrite Hf. done.
  - intros x Hx1 Hx2. rewrite Hm. simpl. by rewrite !upd_ne.
Qed.

(** ** Adding a pool *)

Section pool.
Context (control : Z) (m m' : Z → Z) (B : gmap Z blk) (pool size : Z).
Notation a := (pool - 8).
Notation n := (pool + size).
Context (Hp : phys control m B) (Hpool : 8 < pool) (Hp8 : pool mod 8 = 0).
Context (Hs8 : size mod 8 = 0) (Hsz : 24 ≤ size < 2 ^ 32) (Hend : pool + size + 16 < 2 ^ 64).
Context (Hctl : pool + size + 16 ≤ control ∨ control + 6536 ≤ pool).
Context (Hapart : ∀ y yb, B !! y = Some yb → y + 16 + bsz yb ≤ pool ∨ pool + size + 16 ≤ y + 8).

(** The block map after a pool of [size] usable bytes is added at [pool]. *)
Definition pool_map : gmap Z blk := <[n:=Blk 0 false true]> (<[a:=Blk size true false]> B).

Lemma pool_map_lookup x bx : pool_map !! x = Some bx →
  x = n ∧ bx = Blk 0 false true ∨ x = a ∧ bx = Blk size true false ∨
  x ≠ n ∧ x ≠ a ∧ B !! x = Some bx.
Proof.
  unfold pool_map. rewrite !lookup_insert_Some.
  intros [[<- <-]|[? [[<- <-]|[? ?]]]]; auto 6.
Qed.

Lemma pool_fresh x bx : B !! x = Some bx → x ≠ n ∧ x ≠ a.
Proof. intros Hx. sizes Hp x. pose proof (Hapart x bx Hx). lia. Qed.

Lemma pool_map_old x bx : B !! x = Some bx → pool_map !! x = Some bx.
Proof.
  intros Hx. destruct (pool_fresh x bx Hx). unfold pool_map. by rewrite !lookup_insert_ne.
Qed.

Lemma pool_map_a : pool_map !! a = Some (Blk size true false).
Proof. unfold pool_map. rewrite lookup_insert_ne by lia. apply lookup_insert_eq. Qed.

Lemma phys_pool :
  m' pool = enc (Blk size true false) → m' (n + 8) = enc (Blk 0 false true) → m' n = a →
  (∀ x bx, B !! x = Some bx → m' (x + 8) = m (x + 8)) →
  (∀ x bx, B !! x = Some bx → bfree bx = true → m' (x + 8 + bsz bx) = m (x + 8 + bsz bx)) →
  phys control m' pool_map.
Proof.
  intros Hm1 Hm2 Hm3 Hm4 Hm5. split.
  - intros x bx [[-> ->]|[[-> ->]|(_ & _ & Hx)]]%pool_map_lookup; unfold placed; simpl.
    + split_and!; [lia|by apply mod8_add|lia|done|by left].
    + split_and!; [lia| |lia|done|by right].
      replace (pool - 8) with (pool + (-1) * 8) by lia. by apply mod8_add.
    + by apply (ph_placed _ _ _ Hp).
  - intros x bx [[-> ->]|[[-> ->]|(_ & _ & Hx)]]%pool_map_lookup; [done| |].
    + by replace (pool - 8 + 8) with pool by lia.
    + rewrite (Hm4 x bx Hx). by apply (ph_header _ _ _ Hp).
  - intros x bx [[-> ->]|[[-> ->]|(_ & _ & Hx)]]%pool_map_lookup Hne; simpl in *; [done| |].
    + exists (Blk 0 false true). replace (pool - 8 + 8 + size) with n by lia.
      split; [apply lookup_insert_eq|done].
    + destruct (ph_next _ _ _ Hp x bx Hx Hne) as (yb & Hy & ? & Hf). exists yb.
      split_and!; [by apply pool_map_old|done|]. intros. rewrite (Hm5 x bx); auto.
  - intros x bx [[-> ->]|[[-> ->]|(_ & _ & Hx)]]%pool_map_lookup Hz; simpl in *; [done|lia|].
    by apply (ph_last _ _ _ Hp x bx).
  - intros x bx [[-> ->]|[[-> ->]|(_ & _ & Hx)]]%pool_map_lookup Hb; simpl in *; [|done|].
    + exists a. eexists. split; [apply pool_map_a|]. simpl. lia.
    + destruct (ph_prev _ _ _ Hp x bx Hx Hb) as (p & pb & Hpb & ?). exists p, pb.
      split; [by apply pool_map_old|done].
  - intros x bx y by_ Hx Hy Hlt.
    apply pool_map_lookup in Hx as [[-> ->]|[[-> ->]|(_ & _ & Hx)]];
    apply pool_map_lookup in Hy as [[-> ->]|[[-> ->]|(_ & _ & Hy)]]; simpl; try lia.
    + pose proof (Hapart y by_ Hy). sizes Hp y. lia.
    + pose proof (Hapart y by_ Hy). sizes Hp y. lia.
    + pose proof (Hapart x bx Hx). lia.
    + pose proof (Hapart x bx Hx). lia.
    + by apply (ph_disj _ _ _ Hp x bx y by_).
  - intros x bx [[-> ->]|[[-> ->]|(_ & _ & Hx)]]%pool_map_lookup Hne; simpl in *; [done| |].
    + exists n, (Blk 0 false true). split_and!; [apply lookup_insert_eq|done|lia|lia].
    + destruct (ph_end _ _ _ Hp x bx Hx Hne) as (e & eb & He & ?). exists e, eb.
      split; [by apply pool_map_old|done].
  - intros x bx [[-> ->]|[[-> ->]|(_ & _ & Hx)]]%pool_map_lookup; simpl; [lia|lia|].
    by apply (ph_control _ _ _ Hp).
Qed.

Lemma free_pool : free_map pool_map = <[a:=size]> (free_map B).
Proof.
  unfold free_map, pool_map. rewrite !omap_insert. simpl. apply delete_id.
  rewrite lookup_insert_ne, lookup_omap by lia. destruct (B !! n) as [nb|] eqn:E; [|done].
  by destruct (pool_fresh _ _ E).
Qed.

Lemma used_pool : used_map pool_map = used_map B.
Proof.
  assert (B !! n = None) as E1.
  { destruct (B !! n) as [nb|] eqn:E; [|done]. by destruct (pool_fresh _ _ E). }
  assert (B !! a = None) as E2.
  { destruct (B !! a) as [nb|] eqn:E; [|done]. by destruct (pool_fresh _ _ E). }
  unfold used_map, pool_map. rewrite !omap_insert. simpl.
  rewrite !delete_id; [done| |]; rewrite ?lookup_delete_ne by lia; by rewrite lookup_omap, ?E1, ?E2.
Qed.

Lemma extent_pool : extent pool_map = (span B + (size + 16), pools B + 1).
Proof.
  assert (B !! n = None) as E1 by (destruct (B !! n) eqn:E; [by destruct (pool_fresh _ _ E)|done]).
  assert (B !! a = None) as E2 by (destruct (B !! a) eqn:E; [by destruct (pool_fresh _ _ E)|done]).
  unfold extent, span, pools, pool_map.
  rewrite !msum_insert_fresh by (done || by rewrite lookup_insert_ne by lia). simpl.
  destruct (Z.eqb_spec size 0); [lia|]. simpl. f_equal; lia.
Qed.
End pool.

Section add_pool.
Context (control : Z) (s : tlsf) (B : gmap Z blk) (pool bytes : Z).
Notation size := (bytes - 16 - (bytes - 16) mod 8).
Notation a := (pool - 8).
Notation n := (pool + size).
Context (Hinv : tlsf_inv control s B) (Hpool : 8 < pool) (Hp8 : pool mod 8 = 0).
Context (Hbytes : 40 ≤ bytes < 2 ^ 32 + 16) (Hend : pool + bytes < 2 ^ 64).
Context (Hctl : pool + bytes ≤ control ∨ control + 6536 ≤ pool).
Context (Hapart : ∀ y yb, B !! y = Some yb → y + 16 + bsz yb ≤ pool ∨ pool + bytes ≤ y + 8).

Lemma pool_size : 24 ≤ size < 2 ^ 32 ∧ size mod 8 = 0 ∧ size + 16 ≤ bytes.
Proof.
  pose proof (Z.mod_pos_bound (bytes - 16) 8 ltac:(lia)). pose proof (Z.div_mod (bytes - 16) 8).
  split_and!; [lia|lia| |lia].
  rewrite Zminus_mod_idemp_r, Z.sub_diag. done.
Qed.

Notation m_pool := (upd (upd (upd (mem s) pool (enc (Blk size true false)))
  (n + 8) (enc (Blk 0 false true))) n a).

Lemma phys_pool_virtual : phys control m_pool (pool_map B pool size).
Proof.
  pose proof pool_size as (? & ? & ?). pose proof (wf_phys _ _ _ _ (proj1 Hinv)) as Hp.
  assert (∀ y yb, B !! y = Some yb → y + 16 + bsz yb ≤ pool ∨ pool + size + 16 ≤ y + 8)
    by (intros y yb Hy; pose proof (Hapart y yb Hy); lia).
  eapply phys_pool; try done; try lia; intros; upd_cases; try (done || lia).
  all: sizes Hp x; pose proof (Hapart x bx ltac:(done)); lia.
Qed.

Lemma pool_nodes : nodes control (<[a:=size]> (free_map B)).
Proof.
  pose proof pool_size as (? & ? & ?). pose proof (wf_phys _ _ _ _ (proj1 Hinv)) as Hp.
  eapply phys_nodes; [apply Hinv|apply phys_pool_virtual|].
  intros y sz [[<- <-]|[? Hy]]%lookup_insert_Some.
  - eexists. split; [apply pool_map_a; lia|done].
  - apply free_map_Some in Hy as (b & Hb & Hf & _). exists b. split; [|done].
    eapply (pool_map_old control (mem s)); [done|lia| |done].
    intros z zb Hz. pose proof (Hapart z zb Hz). lia.
Qed.

(** The new pool's header words are not list words. *)
Lemma pool_link_word x :
  link_word control (<[a:=size]> (free_map B)) x →
  x ≠ pool ∧ x ≠ n ∧ x ≠ n + 8 ∧
  ∀ y yb, B !! y = Some yb → x ≠ y + 8 ∧ (bfree yb = true → x ≠ y + 8 + bsz yb) ∧
    (bfree yb = false → ¬ (y + 16 ≤ x < y + 16 + bsz yb)).
Proof.
  intros Hx. pose proof pool_size as (? & ? & ?). pose proof (wf_phys _ _ _ _ (proj1 Hinv)) as Hp.
  assert (∀ y sz, <[a:=size]> (free_map B) !! y = Some sz →
    ∃ b, pool_map B pool size !! y = Some b ∧ bfree b = true) as HFr.
  { intros y sz [[<- <-]|[? Hy]]%lookup_insert_Some.
    - eexists. split; [apply pool_map_a; lia|done].
    - apply free_map_Some in Hy as (b & Hb & Hf & _). exists b. split; [|done].
      eapply (pool_map_old control (mem s)); [done|lia| |done].
      intros z zb Hz. pose proof (Hapart z zb Hz). lia. }
  pose proof (wf_control _ _ _ _ (proj1 Hinv)) as Hc.
  pose proof phys_pool_virtual as Hpv.
  destruct (link_word_not_phys _ _ _ _ a _ x Hpv Hc HFr (pool_map_a B pool size ltac:(lia)) Hx)
    as (Hw1 & Hw2 & _). simpl in Hw1, Hw2. specialize (Hw2 eq_refl).
  destruct (link_word_not_phys _ _ _ _ n (Blk 0 false true) x Hpv Hc HFr) as (Hw3 & _);
    [apply lookup_insert_eq|done|].
  split_and!; [lia|lia|lia|]. intros y yb Hy.
  eapply link_word_not_phys; [exact Hpv|done|exact HFr| |done].
  eapply (pool_map_old control (mem s)); [done|lia| |done].
  intros z zb Hz. pose proof (Hapart z zb Hz). lia.
Qed.

(** What an allocator keeps apart from the words of the heap. *)
Definition same_index (s s' : tlsf) : Prop :=
  fl_bitmap s' = fl_bitmap s ∧ sl_bitmap s' = sl_bitmap s ∧ blocks s' = blocks s.

(** The block that spans the pool gets its header. *)
Lemma wp_pool_head (k : M Z) (Q : Z → tlsf → Prop) :
  (∀ s', hdr s' a (Blk size true false) → same_index s s' → (∀ x, x ≠ pool → mem s' x = mem s x) → wp k s' Q) →
  wp (block_set_size a size ;; block_set_free a ;; block_set_prev_used a ;; k) s Q.
Proof.
  intros HQ. pose proof pool_size as (Hs1 & Hs2 & Hs3).
  assert (a mod 8 = 0) as Ha8 by (replace a with (pool + (-1) * 8) by lia; by apply mod8_add).
  apply wp_bind, wp_set_size_raw; [lia|done|lia|done|]. intros g h. set (s1 := st _ _ s).
  assert (hdr s1 a (Blk size g h)) as Hh1 by (unfold hdr; simpl; rewrite upd_eq; split_and!; done || lia).
  apply wp_bind, (wp_block_set_free s1 a _ Hh1). set (s2 := st _ _ s1).
  assert (hdr s2 a (Blk size true h)) as Hh2 by (eapply hdr_st_eq; done).
  apply wp_bind, (wp_block_set_prev_used s2 a _ Hh2). apply HQ; [eapply hdr_st_eq; done|done|].
  intros x Hx. unfold s2, s1. rewrite !mem_st, !upd_ne by lia. done.
Qed.

(** The zero-sized block that ends the pool, after a block with the header of
    the whole. *)
Lemma wp_pool_sentinel s4 (r : Z) (Q : Z → tlsf → Prop) :
  hdr s4 a (Blk size true false) →
  (∀ s', same_index s4 s' → (∀ x, x ≠ n → x ≠ n + 8 → mem s' x = mem s4 x) → mem s' n = a →
     mem s' (n + 8) = enc (Blk 0 false true) → Q r s') →
  wp (next ← block_link_next a; block_set_size next 0 ;; block_set_used next ;; block_set_prev_free next ;; mret r) s4 Q.
Proof.
  intros Hh4 HQ. pose proof pool_size as (Hs1 & Hs2 & Hs3).
  apply wp_bind, (wp_block_link_next s4 a _ Hh4); simpl; [lia|].
  replace (pool - 8 + 8 + size) with n by lia. assert (n mod 8 = 0) as Hn8 by by apply mod8_add.
  apply wp_bind, wp_set_size_raw; [lia|done|lia|done|]. intros g h. set (s5 := st _ _ (st _ _ s4)).
  assert (hdr s5 n (Blk 0 g h)) as Hh5 by (unfold hdr; simpl; rewrite upd_eq; split_and!; done || lia).
  apply wp_bind, (wp_block_set_used s5 n _ Hh5). set (s6 := st _ _ s5).
  assert (hdr s6 n (Blk 0 false h)) as Hh6 by (eapply hdr_st_eq; done).
  apply wp_bind, (wp_block_set_prev_free s6 n _ Hh6), wp_ret, HQ.
  - done.
  - intros x ??. unfold s6, s5. rewrite !mem_st, !upd_ne by lia. done.
  - unfold s6, s5. rewrite !mem_st. upd_cases; done || lia.
  - by rewrite mem_st, upd_eq.
Qed.

(** A state with the new block in its list and both headers written, otherwise
    like [s], is the heap with the pool. *)
Lemma add_pool_inv s' L' :
  lists control s' (<[a:=size]> (free_map B)) L' →
  (∀ x, x ≠ pool → x ≠ n → x ≠ n + 8 → ¬ link_word control (<[a:=size]> (free_map B)) x → mem s' x = mem s x) →
  mem s' pool = enc (Blk size true false) → mem s' n = a → mem s' (n + 8) = enc (Blk 0 false true) →
  tlsf_inv control s' (pool_map B pool size) ∧ used_map (pool_map B pool size) = used_map B ∧ frame (used_map B) s s'.
Proof.
  intros Hl Hm Hm1 Hm2 Hm3. pose proof pool_size as (Hs1 & Hs2 & Hs3). pose proof Hinv as [Hw Hc].
  pose proof (wf_phys _ _ _ _ Hw) as Hp.
  assert (∀ y yb, B !! y = Some yb → y + 16 + bsz yb ≤ pool ∨ pool + size + 16 ≤ y + 8) as Hap
    by (intros y yb Hy; pose proof (Hapart y yb Hy); lia).
  assert (∀ x, link_word control (<[a:=size]> (free_map B)) x → ∀ y yb, B !! y = Some yb →
    x ≠ y + 8 ∧ (bfree yb = true → x ≠ y + 8 + bsz yb) ∧ (bfree yb = false → ¬ (y + 16 ≤ x < y + 16 + bsz yb))) as Hlink
    by (intros x Hx; apply (pool_link_word x Hx)).
  split; [split; [split|]|split].
  - apply Hw.
  - eapply (phys_pool control (mem s)); try done; try lia.
    + intros x bx Hx. sizes Hp x. pose proof (Hap x bx Hx). apply Hm; [lia..|]. intros Hlw. by destruct (Hlink _ Hlw x bx Hx).
    + intros x bx Hx Hf. sizes Hp x. pose proof (Hap x bx Hx). pose proof (wf_free_size _ _ _ _ _ _ Hw Hx Hf).
      apply Hm; [lia..|]. intros Hlw. destruct (Hlink _ Hlw x bx Hx) as (_ & Hne & _). by apply Hne.
  - rewrite (free_pool control (mem s)) by (done || lia). by exists L'.
  - intros y sz Hy. apply free_map_Some in Hy as (b & ? & ? & ?). eauto.
  - intros y yb [[-> ->]|[[-> ->]|(_ & _ & Hy)]]%pool_map_lookup Hf; [done|done|eauto].
  - by apply (used_pool control (mem s)); try lia.
  - intros y sz x Hy Hx. destruct (inv_bound _ _ _ _ _ Hinv Hy) as (b & Hb & Hf & <- & ? & ? & ? & ?).
    pose proof (Hap y b Hb). apply Hm; [lia..|]. intros Hlw. destruct (Hlink _ Hlw y b Hb) as (_ & _ & Hne). by apply Hne.
Qed.

Lemma wp_tlsf_add_pool (Q : Z → tlsf → Prop) :
  (∀ s', tlsf_inv control s' (pool_map B pool size) →
     used_map (pool_map B pool size) = used_map B →
     frame (used_map B) s s' → Q pool s') →
  wp (tlsf_add_pool control pool bytes) s Q.
Proof.
  intros HQ. pose proof pool_size as (Hs1 & Hs2 & Hs3). pose proof Hinv as [Hw Hc].
  pose proof (wf_phys _ _ _ _ Hw) as Hp. destruct (wf_lists _ _ _ _ Hw) as [L Hl].
  unfold tlsf_add_pool. change tlsf_pool_overhead with 16. cbv zeta.
  rewrite (w64_small (bytes - 16)) by lia. apply wp_bind. unfold align_down.
  change ALIGN_SIZE with 8. apply wp_bind, wp_assert; [done|]. apply wp_ret.
  rewrite (w64_small (8 - 1)) by lia. change (8 - 1) with (Z.ones 3).
  rewrite Z.land_ones by lia. change (2 ^ 3) with 8. rewrite (w64_small size) by lia. rewrite Hp8. cbn [Z.eqb negb].
  change block_size_min with 24. change block_size_max with (2 ^ 32).
  destruct (Z.ltb_spec size 24); [lia|]. destruct (Z.ltb_spec (2 ^ 32) size); [lia|]. cbn [orb].
  assert (offset_to_block pool (w64 (- block_header_overhead)) = a) as ->.
  { unfold offset_to_block, block_header_overhead, w64. assert (Z.opp 8 mod 2 ^ 64 = 2 ^ 64 - 8) as -> by done.
    symmetry. apply (Z.mod_unique _ _ 1); [left; lia|lia]. }
  apply wp_pool_head. intros s3 Hh3 (Hf3 & Hsl3 & Hb3) Hm3.
  assert (free_map B !! a = None) as HFa.
  { unfold free_map. rewrite lookup_omap. destruct (B !! a) as [ab|] eqn:E; [|done].
    exfalso. sizes Hp (pool - 8). pose proof (Hapart _ _ E). lia. }
  assert (lists control s3 (free_map B) L) as Hl3.
  { eapply lists_frame; [done..|]. intros x (y & Hnode & Hx). apply Hm3. apply pool_link_word. exists y. split; [|done].
    destruct Hnode as [->|?]; [by left|right]. apply lookup_insert_is_Some'. by right. }
  apply wp_bind, wp_bind, (wp_block_size s3 a _ Hh3). simpl. destruct (mapping_insert size) as [fl sl] eqn:Hmap.
  assert (class_ok fl sl) as Hcl by (eapply mapping_insert_ok; [|done]; change block_size_max with (2 ^ 32); lia).
  eapply wp_insert_free_block; [exact Hl3|apply pool_nodes|done..|]. set (s4 := insert_state _ _ _ _ _).
  assert (links_frame control (<[a:=size]> (free_map B)) s3 s4) as Hlf
    by (eapply insert_links; first [exact Hl3|apply pool_nodes|done]).
  assert (mem s4 pool = enc (Blk size true false)) as Hm4p.
  { rewrite Hlf; [|intros Hx; by apply pool_link_word in Hx as [? _]].
    destruct Hh3 as [Hh3 _]. by replace (a + 8) with pool in Hh3 by lia. }
  apply wp_pool_sentinel.
  { unfold hdr. replace (a + 8) with pool by lia. destruct Hh3 as (_ & Hh3). simpl in *. split; [done|].
    replace (a + 8) with pool in Hh3 by lia. exact Hh3. }
  intros s7 (Hf7 & Hsl7 & Hb7) Hm7 Hmn Hmn8.
  destruct (add_pool_inv s7 _ ltac:(eapply lists_frame;
    [eapply lists_insert; [exact Hl3|apply pool_nodes|done..]|done..|];
    intros x Hx; apply pool_link_word in Hx as (? & ? & ? & _); by apply Hm7)) as (Hi & Hu & Hfr); [..|by apply HQ].
  - intros x ??? Hnl. by rewrite Hm7, Hlf, Hm3.
  - rewrite Hm7 by lia. exact Hm4p.
  - exact Hmn.
  - exact Hmn8.
Qed.
End add_pool.

(** ** Initialisation *)

Lemma phys_empty control m : phys control m ∅.
Proof. split; intros *; rewrite ?lookup_empty; done. Qed.

Lemma tlsf_inv_empty control s :
  control_ok control → lists control s ∅ (λ _ _, []) → tlsf_inv control s ∅.
Proof.
  intros Hok Hl. split; [split|]; [done|apply phys_empty| |..].
  - exists (λ _ _, []). unfold free_map. by rewrite omap_empty.
  - intros a sz. unfold free_map. by rewrite omap_empty, lookup_empty.
  - intros a b. by rewrite lookup_empty.
Qed.

Lemma wp_tlsf_create_with_pool s mem_ bytes (Q : Z → tlsf → Prop) :
  0 < mem_ → mem_ mod 8 = 0 → mem_ + bytes < 2 ^ 64 → 6576 ≤ bytes < 2 ^ 32 + 6552 →
  (∀ s' B, tlsf_inv mem_ s' B → used_map B = ∅ →
     B !! (mem_ + 6528) = Some (Blk (bytes - 6552 - bytes mod 8) true false) →
     extent B = (bytes - 6536 - bytes mod 8, 1) → Q mem_ s') →
  wp (tlsf_create_with_pool mem_ bytes) s Q.
Proof.
  intros Hm Hm8 Hend Hbytes HQ. unfold tlsf_create_with_pool, tlsf_create.
  change ALIGN_SIZE with 8. rewrite Hm8. cbn [Z.eqb negb].
  assert (control_ok mem_) as Hok by (split_and!; done || lia).
  apply wp_bind, wp_bind, wp_control_construct; [done|].
  intros s1 Hl Hm1. apply wp_ret. change tlsf_size with 6536.
  pose proof (tlsf_inv_empty mem_ s1 Hok Hl) as Hinv.
  rewrite !w64_small by lia. apply wp_bind.
  assert (bytes mod 8 = (bytes - 6536 - 16) mod 8) as Hbm.
  { replace (bytes - 6536 - 16) with (bytes + (-819) * 8) by lia. by rewrite Z.mod_add. }
  eapply wp_tlsf_add_pool; [exact Hinv|lia|by apply mod8_add|lia|lia|right; lia| |].
  { intros y yb. by rewrite lookup_empty. }
  intros s2 Hinv2 HU _. apply wp_ret. eapply HQ; [done| | |].
  - rewrite HU. unfold used_map. apply omap_empty.
  - replace (mem_ + 6528) with (mem_ + 6536 - 8) by lia.
    rewrite pool_map_a by (pose proof (pool_size (bytes - 6536)); lia).
    do 2 f_equal. lia.
  - pose proof (pool_size (bytes - 6536) ltac:(lia)) as (? & ? & ?).
    rewrite (extent_pool mem_ (mem s1) ∅ _ _ (phys_empty _ _)); [|lia|intros y yb; by rewrite lookup_empty].
    unfold span, pools. rewrite !msum_empty. f_equal; lia.
Qed.

(** ** The consistency checker *)

Section check.
Context (control : Z) (s : tlsf) (B : gmap Z blk) (L : Z → Z → list Z).
Context (Hinv : tlsf_inv control s B) (Hl : lists control s (free_map B) L).

Lemma wp_tlsf_insist x st (Q : Z → tlsf → Prop) :
  x = true → Q st s → wp (tlsf_insist x st) s Q.
Proof. intros -> HQ. by apply wp_bind, wp_assert, wp_ret. Qed.

Lemma wp_check_list i j fuel st (Q : Z → tlsf → Prop) l p :
  class_ok i j → (∀ x, x ∈ l → x ∈ L i j) → dll control (mem s) p l →
  (length l < fuel)%nat → Q st s →
  wp (check_list control fuel i j (hd control l) st) s Q.
Proof.
  intros Hij. revert fuel p. induction l as [|x l IH]; intros fuel p Hsub Hd Hf HQ.
  - destruct fuel as [|fuel]; [simpl in Hf; lia|]. simpl. rewrite Z.eqb_refl. by apply wp_ret.
  - destruct fuel as [|fuel]; [simpl in Hf; lia|]. simpl.
    pose proof Hinv as [Hw Hc]. pose proof (wf_phys _ _ _ _ Hw) as Hp.
    pose proof (tlsf_inv_nodes _ _ _ Hinv) as Hnodes.
    assert (x ∈ L i j) as Hx by (apply Hsub; set_solver).
    apply (ls_elem _ _ _ _ Hl) in Hx as (sz & Hx & Hmap); [|done].
    assert (x ≠ control) as Hxc by (intros ->; by rewrite (nd_control _ _ Hnodes) in Hx).
    apply free_map_Some in Hx as Hx'. destruct Hx' as (b & Hb & Hfr & <-).
    pose proof (wf_free_size _ _ _ _ _ _ Hw Hb Hfr).
    destruct (wf_next _ _ _ _ _ _ Hw Hb ltac:(lia)) as (nb & Hn & Hnpf & _).
    pose proof (phys_hdr _ _ _ _ _ Hp Hb) as Hhb. pose proof (phys_hdr _ _ _ _ _ Hp Hn) as Hhn.
    assert (bfree nb = false) as Hnf.
    { destruct (bfree nb) eqn:E; [|done]. pose proof (Hc _ _ Hn E). congruence. }
    destruct Hd as (_ & Hnext & Hd). sizes Hp x.
    destruct (Z.eqb_spec x control); [done|].
    apply wp_bind, (wp_block_is_free s x b Hhb), wp_bind, wp_tlsf_insist; [done|].
    apply wp_bind, (wp_block_is_prev_free s x b Hhb), wp_bind, wp_tlsf_insist; [by rewrite (Hc x b)|].
    apply wp_bind, (wp_block_next s x b Hhb); [lia|].
    apply wp_bind, (wp_block_is_free s _ nb Hhn), wp_bind, wp_tlsf_insist; [by rewrite Hnf|].
    apply wp_bind, (wp_block_next s x b Hhb); [lia|].
    apply wp_bind, (wp_block_is_prev_free s _ nb Hhn), wp_bind, wp_tlsf_insist; [congruence|].
    apply wp_bind, (wp_block_size s x b Hhb), wp_bind, wp_tlsf_insist.
    { change block_size_min with 24. lia. }
    apply wp_bind, (wp_block_size s x b Hhb). rewrite Hmap.
    apply wp_bind, wp_tlsf_insist; [by rewrite !Z.eqb_refl|].
    unfold next_free. rewrite w64_small by lia.
    apply wp_bind, wp_load; [lia|by apply mod8_add|]. rewrite Hnext.
    apply (IH fuel x); [|done|simpl in Hf; lia|done]. intros y Hy. apply Hsub. set_solver.
Qed.

Lemma list_length i j : class_ok i j → (length (L i j) ≤ size (free_map B))%nat.
Proof.
  intros Hij. rewrite <- size_dom.
  rewrite <- (size_list_to_set (C := gset Z) (L i j)) by by apply (ls_nodup _ _ _ _ Hl).
  apply subseteq_size. intros x Hx%elem_of_list_to_set.
  apply (ls_elem _ _ _ _ Hl) in Hx as (sz & Hx & _); [|done]. by eapply elem_of_dom_2.
Qed.

Lemma wp_check_cell fuel i j st (Q : Z → tlsf → Prop) :
  class_ok i j → (size (free_map B) < fuel)%nat → Q st s →
  wp (check_cell control fuel i j st) s Q.
Proof.
  intros Hij Hf HQ. pose proof Hij as [Hi Hj]. change FL_INDEX_COUNT with 25 in Hi.
  change SL_INDEX_COUNT with 32 in Hj. unfold check_cell.
  apply wp_bind, wp_gets, wp_bind, wp_shl_u32; [lia|]. rewrite w32_pow2 by lia.
  apply wp_bind, wp_get_sl_bitmap; [done|]. apply wp_bind, wp_shl_u32; [lia|].
  rewrite w32_pow2 by lia. apply wp_bind, wp_get_blocks; [done|].
  rewrite (ls_head _ _ _ _ Hl i j Hij).
  pose proof (ls_sl _ _ _ _ Hl i j Hij) as Hsl. pose proof (ls_fl _ _ _ _ Hl i) as Hfl.
  change FL_INDEX_COUNT with 25 in Hfl. specialize (Hfl Hi).
  rewrite <- land_pow2_ne0 in Hsl, Hfl by lia.
  destruct (Z.eqb_spec (Z.land (sl_bitmap s i) (2 ^ j)) 0) as [Hz|Hz].
  - assert (L i j = []) as HL by (destruct (L i j); [done|exfalso; by apply Hsl]).
    rewrite HL. apply wp_bind. 
    assert (∀ st, Q st s → wp (tlsf_insist (control =? control) st) s Q)
      by (intros; apply wp_tlsf_insist; [apply Z.eqb_refl|done]).
    destruct (Z.eqb_spec (Z.land (fl_bitmap s) (2 ^ i)) 0).
    + apply wp_tlsf_insist; [done|]. simpl. auto.
    + apply wp_ret. simpl. auto.
  - destruct (Z.eqb_spec (Z.land (fl_bitmap s) (2 ^ i)) 0) as [Hfz|].
    { destruct Hfl as [_ Hfl]. exfalso. apply Hfl; [|done]. intros E. by rewrite E in Hz. }
    apply wp_bind, wp_ret. apply wp_bind, wp_tlsf_insist.
    { destruct (Z.eqb_spec (sl_bitmap s i) 0) as [E|]; [by rewrite E in Hz|done]. }
    assert (L i j ≠ []) as HL by by apply Hsl.
    apply wp_bind, wp_tlsf_insist.
    { destruct (L i j) as [|x l] eqn:E; [done|]. simpl.
      destruct (Z.eqb_spec x control) as [->|]; [|done].
      assert (control ∈ L i j) as Hx by (rewrite E; set_solver).
      apply (ls_elem _ _ _ _ Hl) in Hx as (sz & Hx & _); [|done].
      by rewrite (nd_control _ _ (tlsf_inv_nodes _ _ _ Hinv)) in Hx. }
    eapply wp_check_list; [done|done|by apply (ls_dll _ _ _ _ Hl)| |done].
    pose proof (list_length i j Hij). lia.
Qed.
End check.

Lemma wp_fold_each {S A C} (I : C → S → Prop) (l : list A) (f : C → A → ST S C) acc (s : S) :
  I acc s → (∀ acc x s, x ∈ l → I acc s → wp (f acc x) s I) → wp (fold_each l f acc) s I.
Proof.
  revert acc s. induction l as [|x l IH]; intros acc s HI Hf; simpl; [by apply wp_ret|].
  apply wp_bind. eapply wp_mono; [apply Hf; [set_solver|done]|].
  intros acc' s' HI'. apply IH; [done|]. intros; apply Hf; [set_solver|done].
Qed.

Lemma wp_tlsf_check control s B fuel :
  tlsf_inv control s B → (size (free_map B) < fuel)%nat →
  wp (tlsf_check control fuel) s (λ st s', st = 0 ∧ s' = s).
Proof.
  intros Hinv Hf. destruct (wf_lists _ _ _ _ (proj1 Hinv)) as [L Hl].
  apply wp_fold_each; [done|]. intros st i s' Hi [-> ->].
  apply wp_fold_each; [done|]. intros st j s' Hj [-> ->].
  apply elem_of_seqZ_0 in Hi, Hj. by eapply wp_check_cell; [done|done|split|done|].
Qed.
