(* ===== verification/TlsfProps.v ===== *)
(** The contract of the TLSF allocator: an abstract map of live allocations
    refined by every interface routine, and what it means for a client: no
    sequence of valid requests faults, overlaps or corrupts an allocation. *)

From S2P Require Import Prelude CString TlsfBits TlsfModel TlsfInv TlsfLists TlsfPhys TlsfOps.
From S2P Require Import TlsfExtent TlsfTrim TlsfHeap TlsfPool.

(** ** The abstract allocator *)

(** State [s] represents the live allocations [U] (header address to payload
    size) in pools of extent [E]. *)
Definition live (control : Z) (E : Z * Z) (s : tlsf) (U : gmap Z Z) : Prop :=
  ∃ B, tlsf_inv control s B ∧ used_map B = U ∧ extent B = E.

(** The requests a client can make. *)
Inductive call :=
| Malloc (size : Z)
| Memalign (k size : Z)
| Free (ptr : Z)
| Realloc (ptr size : Z).

Definition run_call (control : Z) (c : call) : M Z :=
  match c with
  | Malloc size => tlsf_malloc control size
  | Memalign k size => tlsf_memalign control (2 ^ k) size
  | Free ptr => tlsf_free control ptr ;; mret 0
  | Realloc ptr size => tlsf_realloc control ptr size
  end.

(** Pointers passed in are null or live; sizes are those a [size_t] request
    that is not rounded to nothing can have. *)
Definition valid_ptr (U : gmap Z Z) (ptr : Z) : Prop := ptr = 0 ∨ is_Some (U !! (ptr - 16)).
Definition valid_call (U : gmap Z Z) (c : call) : Prop :=
  match c with
  | Malloc size => 0 ≤ size < 2 ^ 64
  | Memalign k size => 0 ≤ k < 63 ∧ 0 ≤ size < 2 ^ 64
  | Free ptr => valid_ptr U ptr
  | Realloc ptr size => valid_ptr U ptr ∧ 0 ≤ size < 2 ^ 32 - 8
  end.

(** The size recorded in a block's header. *)
Definition header_size (s : tlsf) (a : Z) : Z := Z.land (mem s (a + 8)) (not64 3).

(** The live allocations after a call that returned [p] in state [s']. *)
Definition after_call (U : gmap Z Z) (c : call) (p : Z) (s' : tlsf) : gmap Z Z :=
  let add V := if p =? 0 then V else <[p - 16:=header_size s' (p - 16)]> V in
  match c with
  | Malloc _ | Memalign _ _ => add U
  | Free ptr => delete (ptr - 16) U
  | Realloc ptr size =>
      if p =? 0 then (if size =? 0 then delete (ptr - 16) U else U)
      else add (delete (ptr - 16) U)
  end.

(** Everything a client can do: calls with valid arguments, and writes inside
    the payload of a live allocation. *)
Inductive reachable (control bytes : Z) : tlsf → gmap Z Z → Prop :=
| reach_init s s' :
    0 < control → control mod 8 = 0 → control + bytes < 2 ^ 64 →
    6576 ≤ bytes < 2 ^ 32 + 6552 →
    tlsf_create_with_pool control bytes s = Done (control, s') → reachable control bytes s' ∅
| reach_call s U c p s' :
    reachable control bytes s U → valid_call U c → run_call control c s = Done (p, s') →
    reachable control bytes s' (after_call U c p s')
| reach_write s U a sz x v :
    reachable control bytes s U → U !! a = Some sz → a + 16 ≤ x < a + 16 + sz →
    reachable control bytes (st x v s) U.

(** Payloads of live allocations: aligned, inside the address space, apart
    from each other and from the control structure. *)
Definition separated (control : Z) (U : gmap Z Z) : Prop :=
  ∀ a sz, U !! a = Some sz →
    0 < a ∧ a mod 8 = 0 ∧ 24 ≤ sz ∧ a + 16 + sz < 2 ^ 64 ∧
    (a + 16 + sz ≤ control ∨ control + 6536 ≤ a + 16) ∧
    ∀ a' sz', U !! a' = Some sz' → a ≠ a' → a + 16 + sz ≤ a' + 16 ∨ a' + 16 + sz' ≤ a + 16.

(** ** Lemmas *)

Lemma live_separated control E s U : live control E s U → separated control U.
Proof.
  intros (B & Hinv & <- & _) a sz Ha. pose proof (wf_phys _ _ _ _ (proj1 Hinv)) as Hp.
  destruct (inv_bound _ _ _ _ _ Hinv Ha) as (b & Hb & Hf & <- & ? & ? & ? & ?).
  pose proof (ph_control _ _ _ Hp a b Hb). split_and!; try done; try lia.
  intros a' sz' Ha' Hne. destruct (inv_bound _ _ _ _ _ Hinv Ha') as (b' & Hb' & _ & <- & ? & _).
  disj Hp a a'. lia.
Qed.

Lemma live_header control s B a sz :
  tlsf_inv control s B → used_map B !! a = Some sz → header_size s a = sz.
Proof.
  intros Hinv Ha. destruct (inv_bound _ _ _ _ _ Hinv Ha) as (b & Hb & Hf & <- & _).
  pose proof (wf_phys _ _ _ _ (proj1 Hinv)) as Hp. unfold header_size.
  rewrite (ph_header _ _ _ Hp a b Hb).
  apply (enc_land_not64 s a b (phys_hdr _ _ _ _ _ Hp Hb) 3 (λ x, x = bsz b)); [lia|].
  destruct (bfree b), (bpf b); simpl Z.land; by rewrite Z.add_0_r.
Qed.

Lemma allocated_live control B U size s p s' :
  allocated control (same_extent B) U size s p s' →
  p ≠ 0 ∧ live control (extent B) s' (<[p - 16:=header_size s' (p - 16)]> U).
Proof.
  intros (B' & Hinv & He & _ & Hp & _ & sz & Hsz & HU). split; [lia|]. exists B'. split; [done|].
  rewrite (live_header control s' B' (p - 16) sz); [by rewrite HU|done|].
  rewrite HU. apply lookup_insert_eq.
Qed.

Lemma request_ne0 size : 0 < size < 2 ^ 32 - 8 → request size ≠ 0.
Proof.
  intros Hs. unfold request, adjusted. destruct (Z.eqb_spec size 0); [lia|]. cbv zeta.
  change (2 ^ 3) with 8. rewrite w64_small by lia.
  pose proof (Z.mod_pos_bound (size + 8 - 1) 8 ltac:(lia)).
  destruct (Z.ltb_spec (size + 8 - 1 - (size + 8 - 1) mod 8) (2 ^ 32)); lia.
Qed.

Lemma delete_null control E s U : live control E s U → delete (0 - 16) U = U.
Proof.
  intros (B & Hinv & <- & _). apply delete_id.
  destruct (used_map B !! (0 - 16)) as [z|] eqn:Hz; [|done].
  destruct (inv_bound _ _ _ _ _ Hinv Hz) as (? & _ & _ & _ & _ & ? & _). lia.
Qed.

Lemma wp_free_live control E s U ptr (Q : unit → tlsf → Prop) :
  live control E s U → valid_ptr U ptr →
  (∀ s', live control E s' (delete (ptr - 16) U) → frame (delete (ptr - 16) U) s s' → Q tt s') →
  wp (tlsf_free control ptr) s Q.
Proof.
  intros Hl [->|[sz Hp]] HQ.
  - apply wp_ret, HQ; [|apply frame_refl]. by erewrite delete_null.
  - destruct Hl as (B & Hinv & HU & HE). subst U E.
    replace ptr with (ptr - 16 + 16) at 1 by lia. eapply wp_tlsf_free; [done..|].
    intros s' B' Hinv' HU' Hfr [He _]. apply HQ; [|done]. by exists B'.
Qed.

Lemma wp_malloc_live control E s U size (Q : Z → tlsf → Prop) :
  live control E s U → Q 0 s →
  (∀ p s', request size ≠ 0 → p ≠ 0 →
     live control E s' (<[p - 16:=header_size s' (p - 16)]> U) → Q p s') →
  wp (tlsf_malloc control size) s Q.
Proof.
  intros (B & Hinv & HU & HE) HQ0 HQ. eapply wp_tlsf_malloc; [done|by intros _|].
  intros p s' Hr _ Hall%allocated_extent. rewrite HU in Hall. apply allocated_live in Hall as [Hp Hl]. rewrite HE in Hl. by apply HQ.
Qed.

Lemma wp_realloc_live control E s U ptr size :
  live control E s U → valid_ptr U ptr → 0 ≤ size < 2 ^ 32 - 8 →
  wp (tlsf_realloc control ptr size) s
    (λ p s', live control E s' (after_call U (Realloc ptr size) p s')).
Proof.
  intros Hl Hptr Hs. unfold after_call. destruct (decide (ptr = 0)) as [->|Hp0].
  { unfold tlsf_realloc. simpl. rewrite (delete_null control E s U) by done.
    eapply wp_malloc_live; [done| |].
    - simpl. by destruct (size =? 0).
    - intros p s' _ Hp Hl'. by destruct (Z.eqb_spec p 0). }
  destruct (decide (size = 0)) as [->|Hs0].
  { unfold tlsf_realloc. destruct (Z.eqb_spec ptr 0); [done|]. simpl.
    apply wp_bind. eapply wp_free_live; [done..|]. intros s' Hl' _. by apply wp_ret. }
  destruct Hptr as [?|[cur Hcur]]; [done|]. destruct Hl as (B & Hinv & HU & HE). subst U E.
  replace ptr with (ptr - 16 + 16) at 1 by lia.
  eapply wp_tlsf_realloc; [done|done|lia|apply request_ne0; lia| |].
  - intros _ _. simpl. destruct (Z.eqb_spec size 0); [done|]. by exists B.
  - intros p s' [Hall _]. apply allocated_live in Hall as [Hp ?].
    by destruct (Z.eqb_spec p 0).
Qed.

Lemma wp_run_call control E s U c :
  live control E s U → valid_call U c →
  wp (run_call control c) s (λ p s', live control E s' (after_call U c p s')).
Proof.
  intros Hl Hc. destruct c as [size|k size|ptr|ptr size]; simpl.
  - eapply wp_malloc_live; [done|done|]. intros p s' _ Hp Hl'. by destruct (Z.eqb_spec p 0).
  - destruct Hc. destruct Hl as (B & Hinv & HU & HE). eapply wp_tlsf_memalign; [done|lia| |].
    + intros _. by exists B.
    + intros p s' _ _ Hall. rewrite HU in Hall. apply allocated_live in Hall as [Hp Hl']. rewrite HE in Hl'.
      by destruct (Z.eqb_spec p 0).
  - apply wp_bind. eapply wp_free_live; [done..|]. intros s' Hl' _. by apply wp_ret.
  - destruct Hc as [Hptr Hs]. by apply wp_realloc_live.
Qed.

Lemma wp_value {S A} (m : ST S A) s a s' (Q : A → S → Prop) :
  m s = Done (a, s') → wp m s Q → Q a s'.
Proof. unfold wp. by intros ->. Qed.

(** The extent of the pool made of [bytes] bytes. *)
Definition pool_extent (bytes : Z) : Z * Z := (bytes - 6536 - bytes mod 8, 1).

Lemma reachable_live control bytes s U : reachable control bytes s U → live control (pool_extent bytes) s U.
Proof.
  induction 1 as [s s' H1 H2 H3 H4 Hrun|s U c p s' _ IH Hc Hrun|s U a sz x v _ IH Ha Hx].
  - apply (wp_value _ _ _ _ (λ c s', live control (pool_extent bytes) s' ∅) Hrun).
    apply wp_tlsf_create_with_pool; [done..|]. intros s1 B Hinv HU _ HE. by exists B.
  - apply (wp_value _ _ _ _ (λ p s', live control (pool_extent bytes) s' (after_call U c p s')) Hrun).
    by apply wp_run_call.
  - destruct IH as (B & Hinv & HU & HE). subst U. exists B. split; [|done].
    destruct (inv_bound _ _ _ _ _ Hinv Ha) as (b & Hb & Hf & <- & _).
    eapply inv_payload; [exact Hinv|done|done|done..|].
    intros y Hy. simpl. apply upd_ne. lia.
Qed.

(** ** A concrete heap for the witnesses: 64 KiB at 4096 *)

Definition blank : tlsf := Tlsf (λ _, 0) 0 (λ _, 0) (λ _ _, 0).

Lemma example_heap : ∃ s B, tlsf_create_with_pool 4096 65536 blank = Done (4096, s) ∧
  tlsf_inv 4096 s B ∧ used_map B = ∅ ∧ B !! 10624 = Some (Blk 58984 true false).
Proof.
  destruct (wp_done (tlsf_create_with_pool 4096 65536) blank
    (λ c s, c = 4096 ∧ ∃ B, tlsf_inv 4096 s B ∧ used_map B = ∅ ∧
      B !! 10624 = Some (Blk 58984 true false))) as (c & s & Hrun & -> & B & HB).
  - apply wp_tlsf_create_with_pool; [lia|done|lia|lia|]. intros s' B H1 H2 H3 _. split; [done|].
    by exists B.
  - exists s, B. exact (conj Hrun HB).
Qed.

Lemma example_live : ∃ s B a sz, tlsf_inv 4096 s B ∧ used_map B !! a = Some sz.
Proof.
  destruct example_heap as (s & B & _ & Hinv & HU & HB).
  destruct (wp_done (tlsf_malloc 4096 100) s
    (λ p s', ∃ B', tlsf_inv 4096 s' B' ∧ ∃ sz, used_map B' !! (p - 16) = Some sz))
    as (p & s' & _ & B' & Hinv' & sz & Hsz); [|by exists s', B', (p - 16), sz].
  eapply wp_tlsf_malloc; [done| |].
  - intros [H|H]; [done|]. exfalso. apply H.
    eapply (fits_large _ _ _ _ _ 10624 58984); [apply Hinv|done| |done].
    apply free_map_Some. eauto.
  - intros p s' _ _ (B' & Hinv' & _ & _ & _ & _ & sz & _ & HU'). exists B'. split; [done|].
    exists sz. rewrite HU'. apply lookup_insert_eq.
Qed.

(** ** The contract *)

(** C1. Safety of any client: whatever sequence of valid calls and payload
    writes led from a fresh pool to this state, the live allocations are
    aligned, disjoint and apart from the control structure, and the next valid
    call completes (no failed assertion, no invalid access) in a state whose
    live allocations are again as predicted. *)
Theorem tlsf_safe control bytes s U c :
  reachable control bytes s U → valid_call U c →
  separated control U ∧
  wp (run_call control c) s (λ p s', separated control (after_call U c p s')).
Proof.
  intros Hr Hc. apply reachable_live in Hr as Hl. split; [by eapply live_separated|].
  eapply wp_mono; [by apply wp_run_call|]. intros p s' Hl'. exact (live_separated _ _ _ _ Hl').
Qed.

Example tlsf_safe_witness : ∃ s,
  reachable 4096 65536 s ∅ ∧ valid_call ∅ (Malloc 100) ∧
  wp (run_call 4096 (Malloc 100)) s (λ p s', separated 4096 (after_call ∅ (Malloc 100) p s')).
Proof.
  destruct example_heap as (s & B & Hrun & _).
  assert (reachable 4096 65536 s ∅) as Hr by (eapply (reach_init 4096 65536 blank s); [lia|done|lia|lia|exact Hrun]).
  assert (valid_call ∅ (Malloc 100)) as Hc by (simpl; lia).
  exists s. split; [exact Hr|]. split; [exact Hc|].
  exact (proj2 (tlsf_safe 4096 65536 s ∅ (Malloc 100) Hr Hc)).
Defined.

(** C2. [tlsf_malloc] returns null, leaving the heap untouched, exactly when
    the request rounds to nothing or no free block is filed in a class that
    suits it; otherwise it returns an aligned payload of at least the rounded
    size, fresh with respect to the live allocations, whose contents it leaves
    alone; the largest free block shrinks by the rounded size and 40 bytes at
    most. *)
Theorem tlsf_malloc_correct control s B size :
  tlsf_inv control s B →
  wp (tlsf_malloc control size) s (λ p s',
    if decide (p = 0) then s' = s ∧ (request size = 0 ∨ ¬ fits B (request size))
    else request size ≠ 0 ∧ fits B (request size) ∧ p mod 8 = 0 ∧
         allocated control (resized (request size + 40) B) (used_map B) (request size) s p s').
Proof.
  intros Hinv. eapply wp_tlsf_malloc; [done|intros Hno; by rewrite decide_True|].
  intros p s' Hr Hfit Hall.
  pose proof Hall as (B' & Hinv' & _ & _ & Hp & _ & sz & _ & HU).
  rewrite decide_False by lia. split_and!; try done.
  destruct (inv_bound control s' B' (p - 16) sz) as (_ & _ & _ & _ & _ & _ & Hp8 & _); [done| |].
  { rewrite HU. apply lookup_insert_eq. }
  replace p with (p - 16 + 16) by lia. by apply mod8_add.
Qed.

Example tlsf_malloc_correct_witness : ∃ s B, tlsf_inv 4096 s B ∧
  wp (tlsf_malloc 4096 100) s (λ p s',
    if decide (p = 0) then s' = s ∧ (request 100 = 0 ∨ ¬ fits B (request 100))
    else request 100 ≠ 0 ∧ fits B (request 100) ∧ p mod 8 = 0 ∧
         allocated 4096 (resized (request 100 + 40) B) (used_map B) (request 100) s p s').
Proof.
  destruct example_heap as (s & B & _ & Hinv & _). exists s, B. split; [exact Hinv|].
  exact (tlsf_malloc_correct 4096 s B 100 Hinv).
Defined.

(** C6. Good fit: a request of [size] bytes succeeds whenever some free block
    exceeds the rounded request by a 32nd. *)
Theorem tlsf_malloc_good_fit control s B size a sz :
  tlsf_inv control s B → 0 < size < 2 ^ 32 - 8 → free_map B !! a = Some sz →
  request size + request size / 32 + 1 ≤ sz →
  wp (tlsf_malloc control size) s (λ p s',
    p ≠ 0 ∧ size ≤ request size ∧ allocated control (resized (request size + 40) B) (used_map B) (request size) s p s').
Proof.
  intros Hinv Hs Ha Hsz. pose proof (request_ne0 size Hs).
  destruct (request_range size) as [|[Hr _]]; [done|].
  pose proof (search_size_bound (request size) ltac:(lia)).
  eapply wp_tlsf_malloc; [done| |].
  - intros [|Hno]; [done|]. destruct Hno.
    eapply (fits_large _ _ _ _ _ a sz); [apply Hinv|lia|done|lia].
  - intros p s' _ _ Hall. pose proof Hall as (_ & _ & _ & _ & Hp & _). split; [lia|].
    split; [|done]. apply request_ge; [|done]. lia.
Qed.

Example tlsf_malloc_good_fit_witness : ∃ s B, tlsf_inv 4096 s B ∧
  wp (tlsf_malloc 4096 50000) s (λ p s',
    p ≠ 0 ∧ 50000 ≤ request 50000 ∧ allocated 4096 (resized (request 50000 + 40) B) (used_map B) (request 50000) s p s').
Proof.
  destruct example_heap as (s & B & _ & Hinv & _ & HB). exists s, B. split; [exact Hinv|].
  apply (tlsf_malloc_good_fit 4096 s B 50000 10624 58984 Hinv); [lia| |by vm_compute].
  apply free_map_Some. eauto.
Defined.

(** C3. [tlsf_free] removes exactly the released allocation, keeps the
    contents of all the others, merges the block with its free neighbours (no
    two neighbouring free blocks remain), refiles it and makes no free block
    smaller. *)
Theorem tlsf_free_correct control s B ptr sz :
  tlsf_inv control s B → used_map B !! (ptr - 16) = Some sz →
  wp (tlsf_free control ptr) s (λ _ s',
    ∃ B', tlsf_inv control s' B' ∧ coalesced B' ∧ used_map B' = delete (ptr - 16) (used_map B) ∧
          frame (delete (ptr - 16) (used_map B)) s s' ∧ resized 0 B B').
Proof.
  intros Hinv Hp. replace ptr with (ptr - 16 + 16) at 1 by lia.
  eapply wp_tlsf_free; [done..|]. intros s' B' Hinv' HU Hfr Hrz. exists B'.
  split_and!; try done. apply Hinv'.
Qed.

Example tlsf_free_correct_witness : ∃ s B ptr sz,
  tlsf_inv 4096 s B ∧ used_map B !! (ptr - 16) = Some sz ∧
  wp (tlsf_free 4096 ptr) s (λ _ s',
    ∃ B', tlsf_inv 4096 s' B' ∧ coalesced B' ∧ used_map B' = delete (ptr - 16) (used_map B) ∧
          frame (delete (ptr - 16) (used_map B)) s s' ∧ resized 0 B B').
Proof.
  destruct example_live as (s & B & a & sz & Hinv & Ha).
  assert (used_map B !! (a + 16 - 16) = Some sz) as Ha' by (replace (a + 16 - 16) with a by lia; exact Ha).
  exists s, B, (a + 16), sz. split; [exact Hinv|]. split; [exact Ha'|].
  exact (tlsf_free_correct 4096 s B (a + 16) sz Hinv Ha').
Defined.

(** C4. [tlsf_realloc] of a live allocation to a non-zero size: null only if
    the block had to grow and no free block suits the request, with the heap
    and the old allocation untouched; otherwise the result is the only change
    to the live allocations, holds at least the rounded size and starts with
    the old contents, whether the block was trimmed, grown in place or moved. *)
Theorem tlsf_realloc_correct control s B ptr cur size :
  tlsf_inv control s B → used_map B !! (ptr - 16) = Some cur → 0 < size < 2 ^ 32 - 8 →
  wp (tlsf_realloc control ptr size) s (λ p s',
    if decide (p = 0) then s' = s ∧ cur < request size ∧ ¬ fits B (request size)
    else reallocated control B (used_map B) (ptr - 16) cur size s p s').
Proof.
  intros Hinv Hp Hs. replace ptr with (ptr - 16 + 16) at 1 by lia.
  eapply (wp_tlsf_realloc control s B (ptr - 16) cur size); [done|done|lia|by apply request_ne0| |].
  - intros ??. by rewrite decide_True.
  - intros p s' Hre. pose proof Hre as [(_ & _ & _ & _ & ? & _) _]. by rewrite decide_False by lia.
Qed.

Example tlsf_realloc_correct_witness : ∃ s B ptr cur,
  tlsf_inv 4096 s B ∧ used_map B !! (ptr - 16) = Some cur ∧
  wp (tlsf_realloc 4096 ptr 4000) s (λ p s',
    if decide (p = 0) then s' = s ∧ cur < request 4000 ∧ ¬ fits B (request 4000)
    else reallocated 4096 B (used_map B) (ptr - 16) cur 4000 s p s').
Proof.
  destruct example_live as (s & B & a & sz & Hinv & Ha).
  assert (used_map B !! (a + 16 - 16) = Some sz) as Ha' by (replace (a + 16 - 16) with a by lia; exact Ha).
  exists s, B, (a + 16), sz. split; [exact Hinv|]. split; [exact Ha'|].
  apply (tlsf_realloc_correct 4096 s B (a + 16) sz 4000 Hinv Ha'). lia.
Defined.

(** C5. [tlsf_memalign] for an alignment of [2 ^ k] ([k < 63]): null without a
    change exactly when no class suits the padded request, otherwise a payload
    aligned to [2 ^ k] with the guarantees of an allocation; the gap in front
    of it went back to the free lists. *)
Theorem tlsf_memalign_correct control s B k size :
  tlsf_inv control s B → 0 ≤ k < 63 →
  wp (tlsf_memalign control (2 ^ k) size) s (λ p s',
    if decide (p = 0) then
      s' = s ∧ (memalign_request k size = 0 ∨ ¬ fits B (memalign_request k size))
    else fits B (memalign_request k size) ∧ p mod 2 ^ k = 0 ∧
         allocated control (same_extent B) (used_map B) (request size) s p s').
Proof.
  intros Hinv Hk. eapply wp_tlsf_memalign; [done|done|intros Hno; by rewrite decide_True|].
  intros p s' Hfit Hal Hall. pose proof Hall as (_ & _ & _ & _ & ? & _).
  by rewrite decide_False by lia.
Qed.

Example tlsf_memalign_correct_witness : ∃ s B, tlsf_inv 4096 s B ∧
  wp (tlsf_memalign 4096 (2 ^ 12) 100) s (λ p s',
    if decide (p = 0) then
      s' = s ∧ (memalign_request 12 100 = 0 ∨ ¬ fits B (memalign_request 12 100))
    else fits B (memalign_request 12 100) ∧ p mod 2 ^ 12 = 0 ∧
         allocated 4096 (same_extent B) (used_map B) (request 100) s p s').
Proof.
  destruct example_heap as (s & B & _ & Hinv & _). exists s, B. split; [exact Hinv|].
  apply (tlsf_memalign_correct 4096 s B 12 100 Hinv). lia.
Defined.

(** C8. [tlsf_create_with_pool] on [bytes] bytes of aligned memory of any
    contents establishes the heap invariant with no live allocation and all of
    the pool's memory in one free block. *)
Theorem tlsf_create_correct s mem_ bytes :
  0 < mem_ → mem_ mod 8 = 0 → mem_ + bytes < 2 ^ 64 → 6576 ≤ bytes < 2 ^ 32 + 6552 →
  wp (tlsf_create_with_pool mem_ bytes) s (λ c s',
    c = mem_ ∧ ∃ B, tlsf_inv mem_ s' B ∧ used_map B = ∅ ∧
      B !! (mem_ + 6528) = Some (Blk (bytes - 6552 - bytes mod 8) true false)).
Proof.
  intros. apply wp_tlsf_create_with_pool; try done. intros s' B ????. split; [done|]. by exists B.
Qed.

Example tlsf_create_correct_witness :
  wp (tlsf_create_with_pool 4096 65536) blank (λ c s',
    c = 4096 ∧ ∃ B, tlsf_inv 4096 s' B ∧ used_map B = ∅ ∧
      B !! (4096 + 6528) = Some (Blk (65536 - 6552 - 65536 mod 8) true false)).
Proof. apply (tlsf_create_correct blank 4096 65536); [lia|done|lia|lia]. Defined.

(** [tlsf_add_pool] hands a disjoint region to the allocator: the live
    allocations and their contents do not change and the region becomes one
    free block ended by a sentinel. *)
Theorem tlsf_add_pool_correct control s B pool bytes :
  tlsf_inv control s B → 8 < pool → pool mod 8 = 0 → 40 ≤ bytes < 2 ^ 32 + 16 →
  pool + bytes < 2 ^ 64 → pool + bytes ≤ control ∨ control + 6536 ≤ pool →
  (∀ y yb, B !! y = Some yb → y + 16 + bsz yb ≤ pool ∨ pool + bytes ≤ y + 8) →
  wp (tlsf_add_pool control pool bytes) s (λ p s', p = pool ∧
    ∃ B', tlsf_inv control s' B' ∧ used_map B' = used_map B ∧ frame (used_map B) s s' ∧
      B' !! (pool - 8) = Some (Blk (bytes - 16 - (bytes - 16) mod 8) true false)).
Proof.
  intros Hinv ? ? Hb ???. eapply wp_tlsf_add_pool; try done. intros s' Hinv' HU Hfr.
  split; [done|]. eexists. split_and!; [done..|].
  apply pool_map_a. pose proof (pool_size bytes Hb). lia.
Qed.

Example tlsf_add_pool_correct_witness : ∃ s, tlsf_inv 4096 s ∅ ∧
  wp (tlsf_add_pool 4096 16384 4096) s (λ p s', p = 16384 ∧
    ∃ B', tlsf_inv 4096 s' B' ∧ used_map B' = used_map ∅ ∧ frame (used_map ∅) s s' ∧
      B' !! (16384 - 8) = Some (Blk (4096 - 16 - (4096 - 16) mod 8) true false)).
Proof.
  destruct (wp_done (control_construct 4096) blank (λ _ s', tlsf_inv 4096 s' ∅))
    as (_ & s & _ & Hinv).
  { apply wp_control_construct; [split_and!; done || lia|].
    intros s' Hl _. by apply tlsf_inv_empty; [split_and!; done || lia|]. }
  exists s. split; [exact Hinv|].
  apply (tlsf_add_pool_correct 4096 s ∅ 16384 4096 Hinv); [lia|done|lia|lia|right; lia|].
  intros y yb. by rewrite lookup_empty.
Defined.

(** C9. The checker [tlsf_check] accepts every heap that satisfies the
    invariant: it terminates on every list, no [tlsf_insist] fails and it
    returns 0 without changing anything. *)
Theorem tlsf_check_correct control s B fuel :
  tlsf_inv control s B → (size (free_map B) < fuel)%nat →
  tlsf_check control fuel s = Done (0, s).
Proof.
  intros Hinv Hf. destruct (wp_done _ _ _ (wp_tlsf_check control s B fuel Hinv Hf))
    as (st & s' & Hrun & -> & ->). exact Hrun.
Qed.

Example tlsf_check_correct_witness : ∃ s B, tlsf_inv 4096 s B ∧
  tlsf_check 4096 (S (size (free_map B))) s = Done (0, s).
Proof.
  destruct example_heap as (s & B & _ & Hinv & _). exists s, B. split; [exact Hinv|].
  apply (tlsf_check_correct 4096 s B _ Hinv). lia.
Defined.

(** ** Requests outside the contract *)

(** The value a computation returns, if it returns. *)
Definition result {S A} (m : ST S A) (s : S) : option A :=
  match m s with Done (a, _) => Some a | _ => None end.

(** A request within eight bytes of [SIZE_MAX] wraps around in [align_up] and
    is served with a 24-byte block. *)
Example malloc_size_max_wraps :
  result (tlsf ← tlsf_create_with_pool 4096 65536;
          p ← tlsf_malloc tlsf (2 ^ 64 - 1); tlsf_block_size p) blank = Some 24.
Proof. vm_compute. reflexivity. Qed.

(** Reallocating to 4 GiB or more returns the old pointer with the block cut
    down to nothing. *)
Example realloc_4gib_truncates :
  result (tlsf ← tlsf_create_with_pool 4096 65536;
          p ← tlsf_malloc tlsf 100;
          q ← tlsf_realloc tlsf p (2 ^ 32); sz ← tlsf_block_size q; mret (q - p, sz)) blank =
  Some (0, 0).
Proof. vm_compute. reflexivity. Qed.

(** An alignment of [2 ^ 63] wraps the padded request, so the returned pointer
    is not aligned. *)
Example memalign_2_63_unaligned :
  result (tlsf ← tlsf_create_with_pool 4096 65536;
          p ← tlsf_memalign tlsf (2 ^ 63) 100; mret (p mod 2 ^ 63 =? 0)) blank = Some false.
Proof. vm_compute. reflexivity. Qed.

(** A pool of exactly 4 GiB passes the size check of [tlsf_add_pool] and then
    indexes past the end of the first-level bitmap. *)
Example add_pool_4gib_out_of_bounds :
  tlsf_add_pool 4096 16384 (2 ^ 32 + 16)
    (Tlsf (λ _, 0) 0 (λ _, 0) (λ _ _, 4096)) = Undef.
Proof. vm_compute. reflexivity. Qed.
