(* ===== verification/TlsfRoom.v ===== *)
(** How much a TLSF heap can still serve: the operations neither gain nor lose
    memory, and fragmentation is bounded by the number of live allocations. *)

From S2P Require Import Prelude CString TlsfBits TlsfModel TlsfInv TlsfLists TlsfPhys TlsfExtent TlsfOps.
From S2P Require Import TlsfTrim TlsfHeap TlsfPool TlsfProps.

(** ** Sufficient room *)

(** A free block of [need n] bytes, with its header, serves a request of [n]. *)
Definition need (n : Z) : Z := request n + request n / 32 + 9.

(** What the allocations [U] and their headers leave of pools of extent [E]. *)
Definition slack (E : Z * Z) (U : gmap Z Z) : Z := E.1 - 8 * E.2 - msum (λ sz, sz + 8) U.

(** Cut into as many pieces as there can be, the slack has one that serves
    [n]. *)
Definition enough (E : Z * Z) (U : gmap Z Z) (n : Z) : Prop :=
  0 < n < 2 ^ 32 - 8 ∧ 0 < E.2 ∧ (Z.of_nat (size U) + E.2) * need n ≤ slack E U.

Lemma fits_enough control s B n :
  tlsf_inv control s B → enough (extent B) (used_map B) n → fits B (request n).
Proof.
  intros [Hw Hc] (Hn & HE & Hroom). unfold need, slack in Hroom. simpl in *.
  pose proof (request_ne0 n Hn). destruct (request_range n) as [|[Hr _]]; [done|].
  pose proof (search_size_bound (request n) ltac:(lia)).
  destruct (large_free control (mem s) B (request n + request n / 32 + 1) (wf_phys _ _ _ _ Hw) Hc) as (a & sz & Ha & Hsz).
  - pose proof (Z.div_pos (request n) 32). lia.
  - lia.
  - replace (request n + request n / 32 + 1 + 8) with (request n + request n / 32 + 9) by lia. exact Hroom.
  - eapply fits_large; [exact Hw|lia|exact Ha|lia].
Qed.

(** ** Sequences of requests *)

(** A free block of [free] bytes serves the requests [l] one after another. *)
Fixpoint served (free : Z) (l : list Z) : bool :=
  match l with
  | [] => true
  | n :: l => (0 <? n) && (n <? 2 ^ 32 - 8) && (request n + request n / 32 + 1 <=? free) && served (free - (request n + 40)) l
  end.

Definition serves (B : gmap Z blk) (l : list Z) : Prop := ∃ F, big (free_map B) F ∧ served F l = true.

Lemma served_mono F F' l : F ≤ F' → served F l = true → served F' l = true.
Proof.
  revert F F'. induction l as [|n l IH]; intros F F' HF; [done|]. simpl. rewrite !andb_true_iff, !Z.leb_le.
  intros [[Hn Hr] Hl]. split; [split; [done|lia]|]. apply (IH (F - (request n + 40))); [lia|done].
Qed.

Lemma serves_nil B : serves B [].
Proof. exists 0. split; [by left|done]. Qed.

Lemma serves_head control s B n l : tlsf_inv control s B → serves B (n :: l) → 0 < n < 2 ^ 32 - 8 ∧ fits B (request n).
Proof.
  intros [Hw _] (F & HF & Hl). simpl in Hl. rewrite !andb_true_iff, Z.leb_le in Hl. assert (0 < n < 2 ^ 32 - 8) as Hn by lia.
  split; [exact Hn|]. pose proof (request_ne0 n Hn). destruct (request_range n) as [|[Hr _]]; [done|].
  pose proof (search_size_bound (request n) ltac:(lia)). pose proof (Z.div_pos (request n) 32).
  destruct HF as [|(a & sz & Ha & Hsz)]; [lia|]. eapply fits_large; [exact Hw|lia|exact Ha|lia].
Qed.

(** A request that is not made after all. *)
Lemma serves_skip B n l : serves B (n :: l) → serves B l.
Proof.
  intros (F & HF & Hl). exists F. split; [done|]. simpl in Hl. rewrite !andb_true_iff in Hl.
  apply (served_mono (F - (request n + 40))); [|apply Hl]. destruct (request_range n) as [->|[? _]]; lia.
Qed.

Lemma serves_step B B' n l : serves B (n :: l) → resized (request n + 40) B B' → serves B' l.
Proof.
  intros (F & HF & Hl) [_ Hb]. simpl in Hl. rewrite !andb_true_iff in Hl. exists (F - (request n + 40)).
  split; [by apply Hb|apply Hl].
Qed.

Lemma serves_release B B' l : serves B l → resized 0 B B' → serves B' l.
Proof. intros (F & HF & Hl) [_ Hb]. exists (F - 0). split; [by apply Hb|]. by replace (F - 0) with F by lia. Qed.

(** ** The heap without live allocations *)

Lemma empty_free control s B bytes :
  tlsf_inv control s B → used_map B = ∅ → extent B = pool_extent bytes → 6552 + bytes mod 8 < bytes →
  ∃ a, free_map B = {[a := bytes - 6552 - bytes mod 8]}.
Proof.
  intros Hinv HU HE Hb. pose proof (wf_phys _ _ _ _ (proj1 Hinv)) as Hp. injection HE as Hs Hn.
  pose proof (free_count control (mem s) B Hp (proj2 Hinv)) as Hc. pose proof (span_split control (mem s) B Hp) as Hsp.
  rewrite HU, Hn, map_size_empty in Hc. rewrite HU, Hn, msum_empty, Hs in Hsp.
  destruct (map_choose (free_map B)) as (a & sz & Ha).
  { intros E. rewrite E, msum_empty in Hsp. lia. }
  exists a. assert (delete a (free_map B) = ∅) as Hd.
  { apply map_size_empty_inv. rewrite map_size_delete_Some by done. lia. }
  pose proof (msum_delete (λ sz, sz + 8) (free_map B) a sz Ha) as Hm. rewrite Hd, msum_empty in Hm.
  rewrite <- (insert_delete_id _ _ _ Ha), Hd, insert_empty. f_equal. lia.
Qed.

Lemma serves_empty control s B bytes l :
  tlsf_inv control s B → used_map B = ∅ → extent B = pool_extent bytes → 6552 + bytes mod 8 < bytes →
  served (bytes - 6552 - bytes mod 8) l = true → serves B l.
Proof.
  intros Hinv HU HE Hb Hl. destruct (empty_free _ _ _ _ Hinv HU HE Hb) as [a Ha].
  exists (bytes - 6552 - bytes mod 8). split; [right|done]. rewrite Ha. exists a, (bytes - 6552 - bytes mod 8).
  by rewrite lookup_singleton_eq.
Qed.

(** ** Properties *)

(** C7. No memory is lost and fragmentation is bounded: whatever sequence of
    allocations, releases, reallocations and writes led from a fresh pool of
    [bytes] bytes to the allocations [U], a request is served if the bytes
    that [U] and its headers leave, cut into as many pieces as there are live
    allocations and one, make pieces of the rounded request and a 32nd. *)
Theorem tlsf_capacity control bytes s U size (free := bytes - 6544 - bytes mod 8 - msum (λ sz, sz + 8) U) :
  reachable control bytes s U → 0 < size < 2 ^ 32 - 8 →
  (Z.of_nat (base.size U) + 1) * (request size + request size / 32 + 9) ≤ free →
  wp (tlsf_malloc control size) s (λ p s', p ≠ 0 ∧ p mod 8 = 0 ∧
    ∃ sz, size ≤ sz < size + 64 ∧ U !! (p - 16) = None ∧ live control (pool_extent bytes) s' (<[p - 16:=sz]> U)).
Proof.
  intros Hr Hs Hroom. destruct (reachable_live _ _ _ _ Hr) as (B & Hinv & HU & HE).
  assert (fits B (request size)) as Hfit.
  { eapply fits_enough; [exact Hinv|]. rewrite HU, HE. split; [exact Hs|]. split; [done|].
    unfold slack, need. simpl. unfold free in Hroom. lia. }
  eapply wp_tlsf_malloc; [exact Hinv| |].
  - intros [H0|Hno]; [by destruct (request_ne0 size Hs)|done].
  - intros p s' _ _ (B' & Hinv' & [HE' _] & _ & Hp & Hf & sz & Hsz & HU'). rewrite HU in *. rewrite HE in HE'. split; [lia|].
    assert (used_map B' !! (p - 16) = Some sz) as Hin by (rewrite HU'; apply lookup_insert_eq).
    destruct (inv_bound _ _ _ _ _ Hinv' Hin) as (_ & _ & _ & _ & _ & _ & Hp8 & _).
    split; [replace p with (p - 16 + 16) by lia; by apply mod8_add|].
    exists sz. split; [|split; [done|by exists B']].
    assert (size ≤ request size) by (apply adjusted_ge; [lia|change (2 ^ 3) with 8; lia|by apply request_ne0]).
    assert (request size ≤ size + 32); [|lia].
    unfold request, adjusted in *. destruct (Z.eqb_spec size 0); [lia|]. cbv zeta in *. change (2 ^ 3) with 8 in *.
    rewrite w64_small in * by lia. pose proof (Z.mod_pos_bound (size + 8 - 1) 8 ltac:(lia)). case_match; lia.
Qed.

Example tlsf_capacity_witness : ∃ s, reachable 4096 65536 s ∅ ∧
  wp (tlsf_malloc 4096 57000) s (λ p s', p ≠ 0 ∧ p mod 8 = 0 ∧
    ∃ sz, 57000 ≤ sz < 57000 + 64 ∧ (∅ : gmap Z Z) !! (p - 16) = None ∧ live 4096 (pool_extent 65536) s' (<[p - 16:=sz]> ∅)).
Proof.
  destruct example_heap as (s & B & Hrun & _).
  assert (reachable 4096 65536 s ∅) as Hr by (eapply (reach_init 4096 65536 blank s); [lia|done|lia|lia|exact Hrun]).
  exists s. split; [exact Hr|]. apply (tlsf_capacity 4096 65536 s ∅ 57000 Hr); [lia|]. vm_compute. discriminate.
Defined.

Lemma reachable_bytes control bytes s U : reachable control bytes s U → 6576 ≤ bytes.
Proof. by induction 1 as [s s' _ _ _ [? _] _| |]. Qed.

(** When nothing is live any more the heap is again one free block, as big as
    the pool it was made of. *)
Theorem tlsf_no_leak control bytes s :
  reachable control bytes s ∅ →
  ∃ B a, tlsf_inv control s B ∧ free_map B = {[a := bytes - 6552 - bytes mod 8]}.
Proof.
  intros Hr. destruct (reachable_live _ _ _ _ Hr) as (B & Hinv & HU & HE). exists B.
  pose proof (reachable_bytes _ _ _ _ Hr). pose proof (Z.mod_pos_bound bytes 8 ltac:(lia)).
  destruct (empty_free control s B bytes Hinv HU HE) as [a Ha]; [lia|]. by exists a.
Qed.

Example tlsf_no_leak_witness : ∃ s, reachable 4096 65536 s ∅ ∧
  ∃ B a, tlsf_inv 4096 s B ∧ free_map B = {[a := 58984]}.
Proof.
  destruct example_heap as (s & B & Hrun & _).
  assert (reachable 4096 65536 s ∅) as Hr by (eapply (reach_init 4096 65536 blank s); [lia|done|lia|lia|exact Hrun]).
  exists s. split; [exact Hr|]. exact (tlsf_no_leak 4096 65536 s Hr).
Defined.
