(* ===== verification/Bitmap.v ===== *)
(** sys/libkern/bitmap.c and the rounding macros of lib/math.h. *)

From S2P Require Import Prelude.

(** ** Rounding macros *)

Definition ALIGN_DOWN (address align : Z) : Z := Z.land address (not64 (w64 (align - 1))).
Definition ALIGN_UP (address align : Z) : Z :=
  Z.land (w64 (address + align - 1)) (not64 (w64 (align - 1))).

(** ** The shift operator *)

(** [x >> n] on [int] is what C says it is for a count below 32; for larger
    counts C leaves the behaviour undefined, and the value is whatever the
    target's instruction produces.  The model takes that value as a parameter. *)
Class ShiftSem := {
  shr_int : Z → Z → Z;
  shr_int_ok : ∀ x n, 0 ≤ n < 32 → shr_int x n = Z.shiftr x n;
}.

(** x86 takes the count modulo 32. *)
#[export] Program Instance x86_shift : ShiftSem := {| shr_int x n := Z.shiftr x (n mod 32) |}.
Next Obligation. intros x n Hn. simpl. by rewrite Z.mod_small. Qed.

(** ** Bitmaps as byte arrays *)

Definition bitmap_set_bit (bitmap : Z → Z) (bit : Z) : Z → Z :=
  upd bitmap (bit / 8) (w8 (Z.lor (bitmap (bit / 8)) (Z.shiftl 1 (bit mod 8)))).

Definition bitmap_unset_bit (bitmap : Z → Z) (bit : Z) : Z → Z :=
  upd bitmap (bit / 8) (w8 (Z.land (bitmap (bit / 8)) (Z.lnot (Z.shiftl 1 (bit mod 8))))).

(** The shift count is [bit], not [bit % 8]. *)
Definition bitmap_test_bit `{ShiftSem} (bitmap : Z → Z) (bit : Z) : Z :=
  w8 (shr_int (Z.land (bitmap (bit / 8)) (Z.shiftl 1 (bit mod 8))) bit).

(** Bit [i] of the bitmap. *)
Definition bit_at (bitmap : Z → Z) (i : Z) : bool := Z.testbit (bitmap (i / 8)) (i mod 8).

(** ** Lemmas *)

Lemma mod8_range i : 0 ≤ i mod 8 < 8.
Proof. apply Z.mod_pos_bound. lia. Qed.

Lemma w8_testbit x i : 0 ≤ i → Z.testbit (w8 x) i = (i <? 8) && Z.testbit x i.
Proof.
  intros. unfold w8. destruct (Z.ltb_spec i 8).
  - by rewrite Z.mod_pow2_bits_low.
  - by rewrite Z.mod_pow2_bits_high by lia.
Qed.

Lemma bit_index i j : i / 8 = j / 8 → i mod 8 = j mod 8 → i = j.
Proof. intros H1 H2. rewrite (Z.div_mod i 8), (Z.div_mod j 8) by lia. lia. Qed.

Lemma bit_at_set bm i j : bit_at (bitmap_set_bit bm i) j = (i =? j) || bit_at bm j.
Proof.
  unfold bit_at, bitmap_set_bit. pose proof (mod8_range i). pose proof (mod8_range j).
  destruct (decide (j / 8 = i / 8)) as [E|E].
  - rewrite E, upd_eq, w8_testbit, Z.lor_spec, Z.shiftl_1_l, Z.pow2_bits_eqb by lia.
    destruct (Z.ltb_spec (j mod 8) 8); [|lia]. simpl.
    destruct (Z.eqb_spec (i mod 8) (j mod 8)) as [Em|Em], (Z.eqb_spec i j) as [Ei|Ei];
      rewrite ?orb_true_r, ?orb_false_r; try done.
    + destruct Ei. by apply bit_index.
    + congruence.
  - rewrite upd_ne by done. destruct (Z.eqb_spec i j); [congruence|done].
Qed.

Lemma bit_at_unset bm i j : bit_at (bitmap_unset_bit bm i) j = negb (i =? j) && bit_at bm j.
Proof.
  unfold bit_at, bitmap_unset_bit. pose proof (mod8_range i). pose proof (mod8_range j).
  destruct (decide (j / 8 = i / 8)) as [E|E].
  - rewrite E, upd_eq, w8_testbit, Z.land_spec, Z.lnot_spec, Z.shiftl_1_l, Z.pow2_bits_eqb by lia.
    destruct (Z.ltb_spec (j mod 8) 8); [|lia]. simpl.
    destruct (Z.eqb_spec (i mod 8) (j mod 8)) as [Em|Em], (Z.eqb_spec i j) as [Ei|Ei];
      simpl; rewrite ?andb_true_r, ?andb_false_r; try done.
    + destruct Ei. by apply bit_index.
    + congruence.
  - rewrite upd_ne by done. destruct (Z.eqb_spec i j); [congruence|done].
Qed.

Lemma land_bit x k : 0 ≤ k → Z.land x (2 ^ k) = if Z.testbit x k then 2 ^ k else 0.
Proof.
  intros Hk. apply Z.bits_inj'. intros i Hi. rewrite Z.land_spec, Z.pow2_bits_eqb by done.
  destruct (Z.eqb_spec k i) as [<-|Hne].
  - destruct (Z.testbit x k); [by rewrite Z.pow2_bits_true|by rewrite Z.bits_0].
  - rewrite andb_false_r. destruct (Z.testbit x k); [|by rewrite Z.bits_0].
    by rewrite Z.pow2_bits_false.
Qed.

Lemma bit_at_ext bm bm' : (∀ i, bit_at bm' i = bit_at bm i) →
  (∀ k, 0 ≤ bm k < 256) → (∀ k, 0 ≤ bm' k < 256) → ∀ k, bm' k = bm k.
Proof.
  intros Hb H1 H2 k. apply Z.bits_inj'. intros i Hi.
  destruct (Z.lt_ge_cases i 8).
  - specialize (Hb (8 * k + i)). unfold bit_at in Hb.
    assert ((8 * k + i) / 8 = k) as E1 by (symmetry; apply (Z.div_unique _ _ _ i); lia).
    assert ((8 * k + i) mod 8 = i) as E2 by (symmetry; apply (Z.mod_unique _ _ k); lia).
    by rewrite E1, E2 in Hb.
  - rewrite !(testbit_high _ 8) by (try apply H1; try apply H2; lia). done.
Qed.

(** What [bitmap_test_bit] returns: the bit for the first eight bits of a
    bitmap, and zero for bits 8 to 31 whatever the bitmap holds. *)
Theorem bitmap_test_bit_spec `{ShiftSem} bm bit :
  0 ≤ bit < 32 →
  bitmap_test_bit bm bit = if bit <? 8 then Z.b2z (bit_at bm bit) else 0.
Proof.
  intros Hb. unfold bitmap_test_bit, bit_at. rewrite shr_int_ok by done.
  pose proof (mod8_range bit). rewrite Z.shiftl_1_l, land_bit by lia.
  destruct (Z.ltb_spec bit 8).
  - rewrite Z.mod_small by lia. destruct (Z.testbit _ bit); [|by rewrite Z.shiftr_0_l].
    rewrite Z.shiftr_div_pow2, Z.div_same by (try apply Z.pow_nonzero; lia). done.
  - assert (Z.shiftr (if Z.testbit (bm (bit / 8)) (bit mod 8) then 2 ^ (bit mod 8) else 0) bit = 0)
      as ->; [|done].
    destruct (Z.testbit _ _); [|apply Z.shiftr_0_l].
    rewrite Z.shiftr_div_pow2 by lia. apply Z.div_small.
    split; [apply Z.pow_nonneg; lia|]. apply Z.pow_lt_mono_r; lia.
Qed.

Example bitmap_test_bit_spec_witness :
  bitmap_test_bit (λ _, 0xFF) 8 = if 8 <? 8 then Z.b2z (bit_at (λ _, 0xFF) 8) else 0.
Proof. apply (bitmap_test_bit_spec (λ _, 0xFF) 8). lia. Defined.

(** Setting and clearing a bit changes exactly that bit. *)
Theorem bitmap_set_unset bm i j :
  bit_at (bitmap_set_bit bm i) j = (i =? j) || bit_at bm j ∧
  bit_at (bitmap_unset_bit bm i) j = negb (i =? j) && bit_at bm j.
Proof. split; [apply bit_at_set|apply bit_at_unset]. Qed.
