(* ===== verification/Pmm.v ===== *)
(** sys/mm/pmm.c: the physical frame allocator over the boot memory map. *)

From S2P Require Import Prelude Bitmap.

(** ** State *)

(** An entry of the boot loader's memory map; the loader's response is input. *)
Record memmap_entry := Entry { base : Z; length_ : Z; type_ : Z }.
Definition LIMINE_MEMMAP_USABLE : Z := 0.
Definition PAGE_SIZE : Z := 4096.

(** [bitmap] is [None] while the pointer is null; [bitmap_phys] and
    [bitmap_bytes] are the physical address and the size of the area carved
    out for it (ghost fields: the code keeps only the pointer). *)
Record pmm := Pmm {
  entries : list memmap_entry;
  bitmap : option (Z → Z);
  bitmap_phys : Z;
  bitmap_bytes : Z;
}.

Definition set_bitmap (f : Z → Z) (s : pmm) : pmm :=
  Pmm (entries s) (Some f) (bitmap_phys s) (bitmap_bytes s).

Notation P := (ST pmm).

(** ** The memory map *)

Definition usable (e : memmap_entry) : bool := type_ e =? LIMINE_MEMMAP_USABLE.

Definition find_highest_mem_chunk (l : list memmap_entry) : option memmap_entry :=
  foldl (λ chunk entry,
    if usable entry then
      match chunk with
      | None => Some entry
      | Some c => if base c <? base entry then Some entry else chunk
      end
    else chunk) None l.

Definition bitmap_size_of (highest_entry : memmap_entry) : Z :=
  let highest_address := w64 (base highest_entry + length_ highest_entry) in
  ALIGN_UP (highest_address / 0x1000 / 8) 0x1000.

(** A map without usable memory makes [highest_entry] null. *)
Definition get_bitmap_size : P Z :=
  l ← gets entries;
  match find_highest_mem_chunk l with
  | None => undef
  | Some highest_entry => mret (bitmap_size_of highest_entry)
  end.

(** ** The bitmap *)

(** Access to the bytes of the bitmap: the pointer is valid and the byte lies
    inside the carved-out area. *)
Definition with_bitmap {A} (bit : Z) (f : (Z → Z) → P A) : P A :=
  n ← gets bitmap_bytes;
  guard_ ((0 <=? bit) && (bit / 8 <? n)) ;;
  b ← gets bitmap;
  match b with
  | Some bm => f bm
  | None => undef
  end.

Definition set_bit (bit : Z) : P unit :=
  with_bitmap bit (λ bm, modify (set_bitmap (bitmap_set_bit bm bit))).
Definition unset_bit (bit : Z) : P unit :=
  with_bitmap bit (λ bm, modify (set_bitmap (bitmap_unset_bit bm bit))).

Section with_shift.
Context `{ShiftSem}.

Definition test_bit (bit : Z) : P Z :=
  with_bitmap bit (λ bm, mret (bitmap_test_bit bm bit)).

(** ** Initialisation *)

(** Carve the bitmap out of the first usable entry that is large enough. *)
Fixpoint carve (l : list memmap_entry) (bitmap_size : Z) : option (Z * list memmap_entry) :=
  match l with
  | [] => None
  | entry :: l =>
      if usable entry && (bitmap_size <=? length_ entry) then
        Some (base entry,
          Entry (w64 (base entry + bitmap_size)) (length_ entry - bitmap_size) (type_ entry) :: l)
      else
        '(phys, l') ← carve l bitmap_size;
        Some (phys, entry :: l')
  end.

(** [for (j = 0; j < length; j += 0x1000) bitmap_unset_bit(bitmap, (base + j)/0x1000)] *)
Definition free_entry (entry : memmap_entry) : P unit :=
  for_each (seqZ 0 ((length_ entry + 0xFFF) / 0x1000)) (λ k,
    unset_bit (w64 (base entry + k * 0x1000) / 0x1000)).

Definition init_bitmap : P unit :=
  bitmap_size ← get_bitmap_size;
  l ← gets entries;
  match carve l bitmap_size with
  | Some (phys, l') => modify (λ _, Pmm l' (Some (λ _, 0xFF)) phys bitmap_size)
  | None => mret tt
  end ;;
  l ← gets entries;
  for_each l (λ entry,
    if usable entry && (bitmap_size <=? length_ entry) then free_entry entry
    else mret tt).

Definition pmm_init (response : list memmap_entry) : P unit :=
  modify (λ s, Pmm response (bitmap s) (bitmap_phys s) (bitmap_bytes s)) ;;
  init_bitmap.

(** ** Allocation *)

(** The search loop: [fuel] bounds the remaining bits. *)
Fixpoint find_loop (fuel : nat) (frame_count bit frames_found bit_start : Z) : P Z :=
  match fuel with
  | O => no_fuel
  | S fuel =>
      n ← get_bitmap_size;
      if bit <? n * 8 then
        t ← test_bit bit;
        if t =? 0 then
          if frame_count <=? frames_found then mret bit_start
          else
            let bit_start := if bit_start =? 0 then bit else bit_start in
            find_loop fuel frame_count (bit + 1) (frames_found + 1) bit_start
        else find_loop fuel frame_count (bit + 1) 0 0
      else mret bit_start
  end.

Definition find_contigious_chunk (frame_count : Z) : P Z :=
  n ← get_bitmap_size;
  find_loop (S (Z.to_nat (n * 8))) frame_count 1 0 0.

Definition pmm_alloc (frames : Z) : P Z :=
  bit ← find_contigious_chunk frames;
  if bit =? 0 then mret 0
  else
    for_each (seqZ bit frames) set_bit ;;
    mret (w64 (PAGE_SIZE * bit)).

Definition pmm_free (ptr frames : Z) : P unit :=
  for_each (seqZ 0 frames) (λ k, unset_bit ((ptr + k * PAGE_SIZE) / 0x1000)).

End with_shift.

(** ** Specification *)

(** The allocator is running on bitmap [bm] of [n] bytes. *)
Definition running (s : pmm) (bm : Z → Z) (n : Z) : Prop :=
  bitmap s = Some bm ∧ bitmap_bytes s = n ∧ 0 ≤ n ∧
  bitmap_size_of <$> find_highest_mem_chunk (entries s) = Some n.

(** The bitmap with a range of frames marked used, or free. *)
Definition mark_used (bm : Z → Z) (l : list Z) : Z → Z := foldl bitmap_set_bit bm l.
Definition mark_free (bm : Z → Z) (l : list Z) : Z → Z := foldl bitmap_unset_bit bm l.

Lemma bit_at_mark_used bm l j : bit_at (mark_used bm l) j = bool_decide (j ∈ l) || bit_at bm j.
Proof.
  unfold mark_used. revert bm. induction l as [|i l IH]; intros bm; simpl; [done|].
  rewrite IH, bit_at_set. destruct (Z.eqb_spec i j) as [->|Hne].
  - rewrite (bool_decide_true (j ∈ j :: l)) by set_solver. by rewrite orb_true_r.
  - simpl. f_equal. apply bool_decide_ext. set_solver.
Qed.

Lemma bit_at_mark_free bm l j : bit_at (mark_free bm l) j = negb (bool_decide (j ∈ l)) && bit_at bm j.
Proof.
  unfold mark_free. revert bm. induction l as [|i l IH]; intros bm; simpl; [done|].
  rewrite IH, bit_at_unset. destruct (Z.eqb_spec i j) as [->|Hne].
  - rewrite (bool_decide_true (j ∈ j :: l)) by set_solver. by rewrite andb_false_r.
  - simpl. f_equal. f_equal. apply bool_decide_ext. set_solver.
Qed.

Lemma running_set s bm n bm' : running s bm n → running (set_bitmap bm' s) bm' n.
Proof. intros (H1 & H2 & H3). by split. Qed.

Lemma wp_get_bitmap_size s bm n (Q : Z → pmm → Prop) :
  running s bm n → Q n s → wp get_bitmap_size s Q.
Proof.
  intros (_ & _ & _ & Hn) HQ. apply wp_bind, wp_gets.
  destruct (find_highest_mem_chunk (entries s)); [|done]. simpl in Hn. injection Hn as ->.
  by apply wp_ret.
Qed.

Lemma wp_with_bitmap {A} s bm n bit (f : (Z → Z) → P A) (Q : A → pmm → Prop) :
  running s bm n → 0 ≤ bit < n * 8 → wp (f bm) s Q → wp (with_bitmap bit f) s Q.
Proof.
  intros (Hb & Hn & _) Hbit HQ. apply wp_bind, wp_gets. rewrite Hn.
  pose proof (Z.div_mod bit 8). pose proof (Z.mod_pos_bound bit 8).
  apply wp_bind, wp_guard; [lia|]. apply wp_bind, wp_gets. by rewrite Hb.
Qed.

(** Marking a list of frames, given by their indices. *)
Lemma wp_mark {A} (op : A → P unit) (idx : A → Z) (g : (Z → Z) → Z → Z → Z) l s bm n
    (Q : unit → pmm → Prop) :
  (∀ x, op x = with_bitmap (idx x) (λ bm, modify (set_bitmap (g bm (idx x))))) →
  running s bm n → (∀ i, i ∈ idx <$> l → 0 ≤ i < n * 8) →
  Q tt (set_bitmap (foldl g bm (idx <$> l)) s) →
  wp (for_each l op) s Q.
Proof.
  intros Hop. revert s bm. induction l as [|x l IH]; intros s bm Hr Hl HQ; simpl.
  - apply wp_ret. simpl in HQ. destruct Hr as (Hb & _). destruct s; simpl in *. by subst.
  - simpl in Hl. apply wp_bind. rewrite Hop. eapply wp_with_bitmap; [done|apply Hl; set_solver|].
    apply wp_modify. apply (IH _ (g bm (idx x))).
    + by eapply running_set.
    + intros j Hj. apply Hl. set_solver.
    + exact HQ.
Qed.

Lemma wp_set_bits l s bm n (Q : unit → pmm → Prop) :
  running s bm n → (∀ i, i ∈ l → 0 ≤ i < n * 8) →
  Q tt (set_bitmap (mark_used bm l) s) → wp (for_each l set_bit) s Q.
Proof.
  intros Hr Hl HQ. eapply (wp_mark _ id bitmap_set_bit); [done|done|by rewrite list_fmap_id|].
  by rewrite list_fmap_id.
Qed.

Lemma elem_of_range i r k : i ∈ seqZ r k ↔ r ≤ i < r + k.
Proof. rewrite elem_of_seqZ. lia. Qed.

Section spec.
Context `{ShiftSem}.

(** What the search sees: [bitmap_test_bit] says the frame is free. *)
Definition seems_free (bm : Z → Z) (i : Z) : Prop := bitmap_test_bit bm i = 0.

(** [r] starts [frames + 1] frames that all seem free, inside the bitmap. *)
Definition run_at (bm : Z → Z) (n frames r : Z) : Prop :=
  1 ≤ r ∧ r + frames < n * 8 ∧ ∀ i, r ≤ i ≤ r + frames → seems_free bm i.

(** The loop at [bit], inside a run of free frames that started at [c]. *)
Lemma wp_find_loop fuel s bm n frames bit found start c (Q : Z → pmm → Prop) :
  running s bm n → 1 ≤ frames → 1 ≤ c ≤ bit → bit ≤ n * 8 → n * 8 - bit < Z.of_nat fuel →
  c = (if start =? 0 then bit else start) → start = 0 ∨ 1 ≤ start < bit → found = bit - c → found ≤ frames →
  (∀ i, c ≤ i < bit → seems_free bm i) →
  (∀ r, run_at bm n frames r → c ≤ r) →
  (∀ r, (r = 0 ∨ run_at bm n frames r ∨
         (1 ≤ r < n * 8 ∧ n * 8 ≤ r + frames ∧ ∀ i, r ≤ i < n * 8 → seems_free bm i)) →
     (∀ r', run_at bm n frames r' → run_at bm n frames r ∧ r ≤ r') → Q r s) →
  wp (find_loop fuel frames bit found start) s Q.
Proof.
  intros Hr Hfr. revert bit found start c. induction fuel as [|fuel IH];
    intros bit found start c Hc Hbit Hfuel Hcs Hst Hfound Hle Hfree Hleft HQ; [lia|].
  simpl. apply wp_bind. eapply wp_get_bitmap_size; [done|].
  destruct (Z.ltb_spec bit (n * 8)) as [Hlt|Hge].
  - apply wp_bind. eapply wp_with_bitmap; [done|lia|]. apply wp_ret.
    destruct (Z.eqb_spec (bitmap_test_bit bm bit) 0) as [Ht|Ht].
    + assert (∀ i, c ≤ i < bit + 1 → seems_free bm i) as Hfree'.
      { intros i Hi. destruct (decide (i = bit)) as [->|]; [done|]. apply Hfree. lia. }
      destruct (Z.leb_spec frames found).
      * destruct (Z.eqb_spec start 0); [lia|]. subst c. apply wp_ret.
        assert (run_at bm n frames start) as Hrun.
        { split_and!; [lia|lia|]. intros i Hi. apply Hfree'. lia. }
        apply HQ; [by right; left|]. intros r' Hr'. split; [done|]. by apply Hleft.
      * apply (IH _ _ _ c); try done; try lia.
        destruct (Z.eqb_spec start 0); [|by destruct (Z.eqb_spec start 0)].
        destruct (Z.eqb_spec bit 0); lia.
    + apply (IH _ _ _ (bit + 1)); try done; try lia.
      intros r Hrun. pose proof (Hleft r Hrun). destruct Hrun as (_ & _ & Hall).
      destruct (Z.lt_ge_cases bit r); [lia|]. destruct Ht. apply Hall. lia.
  - apply wp_ret. assert (bit = n * 8) as -> by lia. apply HQ.
    + destruct (Z.eqb_spec start 0) as [->|]; [by left|]. right. right. subst c.
      split_and!; try done; lia.
    + intros r' Hr'. pose proof (Hleft r' Hr'). destruct Hr' as (_ & ? & _). lia.
Qed.

Lemma wp_find_contigious_chunk s bm n frames (Q : Z → pmm → Prop) :
  running s bm n → 1 ≤ frames → 1 ≤ n →
  (∀ r, (r = 0 ∨ run_at bm n frames r ∨
         (1 ≤ r < n * 8 ∧ n * 8 ≤ r + frames ∧ ∀ i, r ≤ i < n * 8 → seems_free bm i)) →
     (∀ r', run_at bm n frames r' → run_at bm n frames r ∧ r ≤ r') → Q r s) →
  wp (find_contigious_chunk frames) s Q.
Proof.
  intros Hr Hf Hn HQ. apply wp_bind. eapply wp_get_bitmap_size; [done|].
  eapply (wp_find_loop _ s bm n frames 1 0 0 1); try done; try lia.
  intros r (? & _). done.
Qed.

Lemma wp_pmm_alloc s bm n frames (Q : Z → pmm → Prop) :
  running s bm n → 1 ≤ frames → 1 ≤ n → n * 8 * PAGE_SIZE < 2 ^ 64 → (∃ r, run_at bm n frames r) →
  (∀ r bm', run_at bm n frames r → (∀ r', run_at bm n frames r' → r ≤ r') → running (set_bitmap bm' s) bm' n →
     (∀ i, bit_at bm' i = bool_decide (r ≤ i < r + frames) || bit_at bm i) → Q (PAGE_SIZE * r) (set_bitmap bm' s)) →
  wp (pmm_alloc frames) s Q.
Proof.
  intros Hr Hf Hn Hlim [r0 Hr0] HQ. change PAGE_SIZE with 4096 in *.
  apply wp_bind. eapply wp_find_contigious_chunk; [done..|].
  intros r _ Hfirst. destruct (Hfirst r0 Hr0) as [(Hr1 & Hrn & Hall) _].
  destruct (Z.eqb_spec r 0); [lia|]. apply wp_bind.
  eapply wp_set_bits; [done| |].
  - intros i Hi%elem_of_range. lia.
  - apply wp_ret. change PAGE_SIZE with 4096. rewrite w64_small by lia.
    apply (HQ r (mark_used bm (seqZ r frames))); [by split_and!| |by eapply running_set|].
    + intros r' Hr'. by apply Hfirst.
    + intros i. rewrite bit_at_mark_used. f_equal. apply bool_decide_ext. apply elem_of_range.
Qed.

(** One frame is always found, though it may be frame 0. *)
Lemma wp_pmm_alloc_one s bm n (Q : Z → pmm → Prop) :
  running s bm n → 1 ≤ n → n * 8 * PAGE_SIZE < 2 ^ 64 →
  (∀ r bm', 0 ≤ r < n * 8 → running (set_bitmap bm' s) bm' n → Q (PAGE_SIZE * r) (set_bitmap bm' s)) →
  wp (pmm_alloc 1) s Q.
Proof.
  intros Hr Hn Hlim HQ. change PAGE_SIZE with 4096 in *. apply wp_bind. eapply wp_find_contigious_chunk; [done|lia|done|].
  intros r Hr' _. destruct (Z.eqb_spec r 0) as [->|Hne].
  - apply wp_ret. specialize (HQ 0 bm). replace (set_bitmap bm s) with s in HQ
      by (destruct s, Hr as (Hb & _); simpl in *; by subst). apply HQ; [lia|done].
  - assert (1 ≤ r < n * 8) as Hin by (destruct Hr' as [|[(? & ? & _)|(? & _)]]; lia).
    apply wp_bind. eapply wp_set_bits; [done|intros i Hi%elem_of_range; lia|]. apply wp_ret.
    change PAGE_SIZE with 4096. rewrite w64_small by lia. apply (HQ r); [lia|by eapply running_set].
Qed.

(** C17. Whenever some run of [frames + 1] frames seems free, [pmm_alloc]
    returns the address of the first such run, marks exactly its [frames]
    frames used and changes nothing else; the search always terminates and
    stays inside the bitmap. *)
Theorem pmm_alloc_correct s bm n frames :
  running s bm n → 1 ≤ frames → 1 ≤ n → n * 8 * PAGE_SIZE < 2 ^ 64 →
  (∃ r, run_at bm n frames r) →
  wp (pmm_alloc frames) s (λ p s', ∃ r bm',
    p = PAGE_SIZE * r ∧ run_at bm n frames r ∧ (∀ r', run_at bm n frames r' → r ≤ r') ∧
    s' = set_bitmap bm' s ∧ running s' bm' n ∧
    ∀ i, bit_at bm' i = bool_decide (r ≤ i < r + frames) || bit_at bm i).
Proof. intros Hr Hf Hn Hlim Hrun. eapply wp_pmm_alloc; [done..|]. intros r bm' ? ? ? ?. by exists r, bm'. Qed.

(** [pmm_free] of a page-aligned range inside the bitmap clears exactly
    the bits of its frames. *)
Theorem pmm_free_correct s bm n r frames :
  running s bm n → 0 ≤ r → 0 ≤ frames → r + frames ≤ n * 8 →
  wp (pmm_free (PAGE_SIZE * r) frames) s (λ _ s', ∃ bm',
    s' = set_bitmap bm' s ∧ running s' bm' n ∧
    ∀ i, bit_at bm' i = negb (bool_decide (r ≤ i < r + frames)) && bit_at bm i).
Proof.
  intros Hr Hr0 Hf Hle. unfold pmm_free.
  assert (∀ k, (PAGE_SIZE * r + k * PAGE_SIZE) / 0x1000 = r + k) as Hidx.
  { intros k. change PAGE_SIZE with 4096. replace (4096 * r + k * 4096) with ((r + k) * 4096) by lia.
    by apply Z.div_mul. }
  assert ((λ k, (PAGE_SIZE * r + k * PAGE_SIZE) / 0x1000) <$> seqZ 0 frames = seqZ r frames) as Hl.
  { rewrite (list_fmap_ext _ (Z.add r)) by (intros; apply Hidx). by rewrite fmap_add_seqZ, Z.add_0_r. }
  eapply (wp_mark _ (λ k, (PAGE_SIZE * r + k * PAGE_SIZE) / 0x1000) bitmap_unset_bit);
    [done|done| |]; rewrite Hl.
  - intros i Hi%elem_of_range. lia.
  - eexists. split; [done|]. split; [by eapply running_set|].
    intros i. fold (mark_free bm (seqZ r frames)). rewrite bit_at_mark_free.
    f_equal. f_equal. apply bool_decide_ext. apply elem_of_range.
Qed.

(** ** Initialisation *)

Definition frames_of (e : memmap_entry) : list Z :=
  (λ k, w64 (base e + k * 0x1000) / 0x1000) <$> seqZ 0 ((length_ e + 0xFFF) / 0x1000).

(** Page-aligned and inside what [n] bytes of bitmap cover. *)
Definition entry_ok (n : Z) (e : memmap_entry) : Prop :=
  0 ≤ base e ∧ base e mod 4096 = 0 ∧ 0 ≤ length_ e ∧ length_ e mod 4096 = 0 ∧
  base e + length_ e ≤ n * 8 * 4096 ∧ base e + length_ e < 2 ^ 64.

Definition managed (n : Z) (e : memmap_entry) : bool := usable e && (n <=? length_ e).

Lemma elem_of_frames n e i : entry_ok n e →
  i ∈ frames_of e ↔ base e ≤ i * 4096 < base e + length_ e.
Proof.
  intros (H1 & H2 & H3 & H4 & H5 & H6). unfold frames_of. rewrite list_elem_of_fmap.
  pose proof (Z.div_mod (base e) 4096) as Hb. pose proof (Z.div_mod (length_ e) 4096) as Hl.
  assert ((length_ e + 0xFFF) / 0x1000 = length_ e / 4096) as ->.
  { symmetry. apply (Z.div_unique _ _ _ 4095); lia. }
  assert (∀ k, 0 ≤ k < length_ e / 4096 → w64 (base e + k * 0x1000) / 0x1000 = base e / 4096 + k) as Hk.
  { intros k Hk. rewrite w64_small by lia. symmetry. apply (Z.div_unique _ _ _ 0); lia. }
  split.
  - intros (k & -> & Hin%elem_of_range). rewrite Hk by lia. lia.
  - intros Hi. exists (i - base e / 4096). rewrite elem_of_range, Hk by lia. lia.
Qed.

Lemma wp_free_entry s bm n e (Q : unit → pmm → Prop) :
  running s bm n → entry_ok n e → Q tt (set_bitmap (mark_free bm (frames_of e)) s) →
  wp (free_entry e) s Q.
Proof.
  intros Hr He HQ.
  eapply (wp_mark _ (λ k, w64 (base e + k * 0x1000) / 0x1000) bitmap_unset_bit); [done|done| |done].
  intros i Hi. apply (elem_of_frames n e i He) in Hi. destruct He as (? & ? & ? & ? & ? & ?). lia.
Qed.

Lemma wp_free_entries l s bm n (Q : unit → pmm → Prop) :
  running s bm n → (∀ e, e ∈ l → managed n e = true → entry_ok n e) →
  (∀ bm', (∀ i, bit_at bm' i = true ↔ bit_at bm i = true ∧
      ¬ ∃ e, e ∈ l ∧ managed n e = true ∧ base e ≤ i * 4096 < base e + length_ e) →
     Q tt (set_bitmap bm' s)) →
  wp (for_each l (λ e, if managed n e then free_entry e else mret tt)) s Q.
Proof.
  revert s bm. induction l as [|e l IH]; intros s bm Hr Hl HQ; simpl.
  - apply wp_ret. pose proof Hr as (Hb & _). specialize (HQ bm).
    replace (set_bitmap bm s) with s in HQ by (destruct s; simpl in *; by subst).
    apply HQ. intros i. split; [|by intros [? _]]. intros ?. split; [done|].
    by intros (e & ?%not_elem_of_nil & _).
  - apply wp_bind. destruct (managed n e) eqn:Hm.
    + assert (entry_ok n e) as He by (apply Hl; [set_solver|done]).
      eapply wp_free_entry; [done..|].
      eapply IH; [by eapply running_set|intros; apply Hl; set_solver|].
      intros bm' Hbm'. replace (set_bitmap bm' (set_bitmap _ s)) with (set_bitmap bm' s)
        by (by destruct s). apply HQ. intros i. rewrite Hbm', bit_at_mark_free.
      rewrite andb_true_iff, negb_true_iff, bool_decide_eq_false, (elem_of_frames n e i He).
      split; [intros [[? ?] Hno]|intros [? Hno]]; split_and!; try done.
      * intros (e' & [->|?]%elem_of_cons & Hm' & ?); [lia|]. apply Hno. eauto.
      * intros Hi. apply Hno. exists e. split_and!; [set_solver|done|lia|lia].
      * intros (e' & ? & ? & ?). apply Hno. exists e'. split_and!; [set_solver|done|lia|lia].
    + apply wp_ret. eapply IH; [done|intros; apply Hl; set_solver|].
      intros bm' Hbm'. apply HQ. intros i. rewrite Hbm'.
      split; intros [? Hno]; (split; [done|]); intros (e' & He' & Hm' & ?); apply Hno.
      * apply elem_of_cons in He' as [->|?]; [congruence|]. eauto.
      * exists e'. split_and!; [set_solver|done|lia|lia].
Qed.

Lemma wp_pmm_init s response h phys carved n (Q : unit → pmm → Prop) :
  find_highest_mem_chunk response = Some h → n = bitmap_size_of h → 0 ≤ n →
  carve response n = Some (phys, carved) →
  bitmap_size_of <$> find_highest_mem_chunk carved = Some n →
  Forall (λ e, managed n e = true → entry_ok n e) carved →
  (∀ s' bm, entries s' = carved → bitmap_phys s' = phys → running s' bm n →
    (∀ i, bit_at bm i = false ↔
      ∃ e, e ∈ carved ∧ managed n e = true ∧ base e ≤ i * 4096 < base e + length_ e) → Q tt s') →
  wp (pmm_init response) s Q.
Proof.
  intros Hh Hhn Hn Hcarve Hstable Hok HQ.
  apply wp_bind, wp_modify. apply wp_bind, wp_bind, wp_gets. simpl. rewrite Hh.
  apply wp_ret. rewrite <- Hhn. apply wp_bind, wp_gets. simpl. rewrite Hcarve.
  apply wp_bind, wp_modify, wp_bind, wp_gets. simpl.
  eapply (wp_free_entries carved _ (λ _, 0xFF) n); [done| |].
  - by intros e He; apply (proj1 (Forall_forall _ _) Hok).
  - intros bm Hbm. apply (HQ _ bm); try done. intros i.
    specialize (Hbm i). rewrite <- not_true_iff_false, Hbm.
    assert (bit_at (λ _, 0xFF) i = true) as Hff.
    { unfold bit_at. pose proof (mod8_range i).
      assert (i mod 8 = 0 ∨ i mod 8 = 1 ∨ i mod 8 = 2 ∨ i mod 8 = 3 ∨ i mod 8 = 4 ∨ i mod 8 = 5 ∨
        i mod 8 = 6 ∨ i mod 8 = 7) as [->|[->|[->|[->|[->|[->|[->| ->]]]]]]] by lia; done. }
    split; [|by intros Hex [_ Hno]]. intros Hno.
    destruct (decide (Exists (λ e, managed n e = true ∧ base e ≤ i * 4096 < base e + length_ e) carved))
      as [(e & ? & ?)%Exists_exists|Hne]; [eauto|].
    destruct Hno. split; [done|]. intros (e & ? & ? & ?). apply Hne, Exists_exists. eauto.
Qed.

(** Frames inside usable memory make a run, where shifting zero gives zero. *)
Lemma usable_run carved n bm frames r :
  (∀ i, shr_int 0 i = 0) → 1 ≤ r → 0 ≤ frames → Forall (λ e, managed n e = true → entry_ok n e) carved →
  (∀ i, bit_at bm i = false ↔
      ∃ e, e ∈ carved ∧ managed n e = true ∧ base e ≤ i * 4096 < base e + length_ e) →
  (∀ i, r ≤ i ≤ r + frames → ∃ e, e ∈ carved ∧ managed n e = true ∧ base e ≤ i * 4096 < base e + length_ e) →
  run_at bm n frames r.
Proof.
  intros Hshift Hr Hf Hok Hbm Hfree. split; [done|]. split.
  - destruct (Hfree (r + frames)) as (e & He & Hm & Hi); [lia|].
    destruct (proj1 (Forall_forall _ _) Hok e He Hm) as (_ & _ & _ & _ & Hend & _). lia.
  - intros i Hi. pose proof (proj2 (Hbm i) (Hfree i Hi)) as Hbit. unfold seems_free, bitmap_test_bit.
    pose proof (mod8_range i). rewrite Z.shiftl_1_l, land_bit by lia. unfold bit_at in Hbit. by rewrite Hbit, Hshift.
Qed.


End spec.

(** ** Witnesses *)

(** 32 MiB of memory above the first, one bitmap page. *)
Definition sample_map : list memmap_entry := [Entry 0 0x9F000 1; Entry 0x100000 0x2000000 0].
Definition sample_carved : list memmap_entry := [Entry 0 0x9F000 1; Entry 0x101000 0x1FFF000 0].
Definition sample (bm : Z → Z) : pmm := Pmm sample_carved (Some bm) 0x100000 4096.

Lemma sample_running bm : running (sample bm) bm 4096.
Proof. done. Qed.


Example pmm_alloc_correct_witness :
  wp (pmm_alloc 2) (sample (λ _, 0)) (λ p s', ∃ r bm',
    p = PAGE_SIZE * r ∧ run_at (λ _, 0) 4096 2 r ∧ (∀ r', run_at (λ _, 0) 4096 2 r' → r ≤ r') ∧
    s' = set_bitmap bm' (sample (λ _, 0)) ∧ running s' bm' 4096 ∧
    ∀ i, bit_at bm' i = bool_decide (r ≤ i < r + 2) || bit_at (λ _, 0) i).
Proof.
  apply (pmm_alloc_correct (sample (λ _, 0)) (λ _, 0) 4096 2); [apply sample_running|lia|lia| |].
  - change PAGE_SIZE with 4096. lia.
  - exists 1. split; [lia|]. split; [lia|]. intros i Hi.
    assert (i = 1 ∨ i = 2 ∨ i = 3) as [->|[->| ->]] by lia; reflexivity.
Defined.

Example pmm_free_correct_witness :
  wp (pmm_free (PAGE_SIZE * 300) 5) (sample (λ _, 0xFF)) (λ _ s', ∃ bm',
    s' = set_bitmap bm' (sample (λ _, 0xFF)) ∧ running s' bm' 4096 ∧
    ∀ i, bit_at bm' i = negb (bool_decide (300 ≤ i < 300 + 5)) && bit_at (λ _, 0xFF) i).
Proof.
  apply (pmm_free_correct (sample (λ _, 0xFF)) (λ _, 0xFF) 4096 300 5);
    [apply sample_running|lia|lia|lia].
Defined.

(** ** What goes wrong: the shift count of [bitmap_test_bit] *)

(** With every frame of the machine marked used, a request for one frame is
    served with frame 8. *)
Example pmm_alloc_when_full : 
  (p ← pmm_alloc 1; mret p) (sample (λ _, 0xFF)) =
  Done (8 * 4096, set_bitmap (bitmap_set_bit (λ _, 0xFF) 8) (sample (λ _, 0xFF))).
Proof. reflexivity. Qed.

(** Two live allocations of eight frames share frame 8. *)
Example pmm_double_allocation :
  (p ← pmm_alloc 8; q ← pmm_alloc 8; mret (p / 4096, q / 4096)) (sample (λ _, 0)) =
  Done ((1, 8), set_bitmap (mark_used (λ _, 0) (seqZ 1 8 ++ seqZ 8 8)) (sample (λ _, 0))).
Proof. reflexivity. Qed.

(** On x86, where the count is taken modulo 32, a request for 25 frames on a
    full machine ends with the trailing run and writes past the bitmap. *)
Example pmm_alloc_overruns : pmm_alloc 25 (sample (λ _, 0xFF)) = Undef.
Proof. vm_compute. reflexivity. Qed.
