(* ===== verification/Heap.v ===== *)
(** sys/mm/heap.c: the kernel heap on top of TLSF, and the allocator interface
    its clients are verified against. *)

From S2P Require Import Prelude CString TlsfBits TlsfModel TlsfInv TlsfLists TlsfPhys TlsfOps.
From S2P Require Import TlsfExtent TlsfTrim TlsfHeap TlsfPool TlsfProps TlsfRoom.

(** ** State and operations *)

(** The file's two static variables, and the allocator's memory. *)
Record heap := Heap { arena : tlsf; tlsf_ctx : Z; bytes_allocated : Z }.

Notation H := (ST heap).

Definition HEAP_SIZE_PAGES : Z := 30.

(** Run an allocator routine on the heap's arena. *)
Definition on_arena {A} (m : Z → M A) : H A := λ h,
  match m (tlsf_ctx h) (arena h) with
  | Done (a, t) => Done (a, Heap t (tlsf_ctx h) (bytes_allocated h))
  | Halt => Halt
  | Undef => Undef
  | NoFuel => NoFuel
  end.

(** [pages] is what [vmm_alloc_pages(HEAP_SIZE_PAGES)] returned. *)
Definition heap_init (pages : Z) : H unit :=
  ctx ← on_arena (λ _, tlsf_create_with_pool pages (HEAP_SIZE_PAGES * 4096));
  modify (λ h, Heap (arena h) ctx (bytes_allocated h)).

Definition kmalloc (sz : Z) : H Z :=
  modify (λ h, Heap (arena h) (tlsf_ctx h) (w64 (bytes_allocated h + sz))) ;;
  on_arena (λ ctx, tlsf_malloc ctx sz).

(** [memzero(mem, n)] on the arena; writing through null is undefined. *)
Definition zero_fill (mem_ n : Z) : H unit :=
  guard_ (negb (mem_ =? 0) || (n =? 0)) ;;
  on_arena (λ _, modify (set_mem (λ m, memzero m mem_ n))).

Definition kcalloc (nmemb size : Z) : H Z :=
  mem_ ← kmalloc (w64 (size * nmemb));
  zero_fill mem_ (w64 (size * nmemb)) ;;
  mret mem_.

Definition krealloc (ptr sz : Z) : H Z := on_arena (λ ctx, tlsf_realloc ctx ptr sz).

Definition kfree (ptr : Z) : H unit := on_arena (λ ctx, tlsf_free ctx ptr).

(** ** The interface *)

(** The two operations of a heap with states [S] that its clients call. *)
Class AllocOps (S : Type) := {
  alloc : Z → ST S Z;
  release : Z → ST S unit;
}.

(** The same heap for a client that cannot live with a refused request: it
    stops where the other returns null. *)
Definition surely {S} (ops : AllocOps S) : AllocOps S := {|
  alloc n := p ← alloc n; assert_ (negb (p =? 0) || (n =? 0)) ;; mret p;
  release := release;
|}.

(** What a client of a heap relies on: a map of live payloads (address to
    size), allocations that are fresh or null, and releases that remove exactly
    the released payload; a heap with [room] for a list of requests serves them
    one after another. *)
Class Allocator (S : Type) := {
  allocator_ops :: AllocOps S;
  owns : S → gmap Z Z → Prop;
  alloc_spec : ∀ s U n (Q : Z → S → Prop),
    owns s U → 0 ≤ n ≤ 2 ^ 64 - 8 →
    (∀ s', owns s' U → Q 0 s') →
    (∀ p sz s', 0 < p < 2 ^ 64 → p mod 8 = 0 → U !! p = None → n ≤ sz → owns s' (<[p:=sz]> U) → Q p s') →
    wp (alloc n) s Q;
  release_spec : ∀ s U p (Q : unit → S → Prop),
    owns s U → is_Some (U !! p) → (∀ s', owns s' (delete p U) → Q tt s') →
    wp (release p) s Q;
  owns_separate : ∀ s U p sz p' sz', owns s U → U !! p = Some sz → U !! p' = Some sz' →
    p ≠ p' → p + sz ≤ p' ∨ p' + sz' ≤ p;
  room : S → gmap Z Z → list Z → Prop;
  room_owns : ∀ s U l, room s U l → owns s U;
  room_alloc : ∀ s U n l (Q : Z → S → Prop),
    room s U (n :: l) →
    (∀ p sz s', 0 < p < 2 ^ 64 → p mod 8 = 0 → U !! p = None → n ≤ sz → room s' (<[p:=sz]> U) l → Q p s') →
    wp (alloc n) s Q;
  room_release : ∀ s U l p (Q : unit → S → Prop),
    room s U l → is_Some (U !! p) → (∀ s', room s' (delete p U) l → Q tt s') → wp (release p) s Q;
  owns_nonnull : ∀ s U p sz, owns s U → U !! p = Some sz → 0 < p;
}.

(** The judgement on clients that do not check for null: the code [c] over
    the heap completes with [Q], and every undefined run of it is one that
    the heap that stops instead of returning null would have stopped. *)
Definition unless_exhausted {S T A} `{Allocator T} (c : AllocOps T → ST S A) : S → (A → S → Prop) → Prop :=
  wp_unless (c (surely allocator_ops)) (c allocator_ops).

Lemma unless_exhausted_mono {S T A} `{Allocator T} (c : AllocOps T → ST S A) s (Q Q' : A → S → Prop) :
  unless_exhausted c s Q → (∀ a s', Q a s' → Q' a s') → unless_exhausted c s Q'.
Proof. apply wp_unless_mono. Qed.

(** An allocation whose null result is not survived. *)
Lemma wp_unless_alloc {S A} `{Allocator S} n (k' k : Z → ST S A) s U Q :
  owns s U → 0 < n ≤ 2 ^ 64 - 8 →
  (∀ s', alloc n s = Done (0, s') → wp_or True (k 0) s' Q) →
  (∀ p sz s', alloc n s = Done (p, s') → 0 < p < 2 ^ 64 → p mod 8 = 0 → U !! p = None → n ≤ sz →
     owns s' (<[p:=sz]> U) → wp_unless (k' p) (k p) s' Q) →
  wp_unless (alloc (AllocOps := surely allocator_ops) n ≫= k') (alloc n ≫= k) s Q.
Proof.
  intros Ho Hn HQ0 HQ. destruct (wp_done _ _ _ (wp_run _ _ _ (alloc_spec s U n (λ p s', p = 0 ∨
    ∃ sz, 0 < p < 2 ^ 64 ∧ p mod 8 = 0 ∧ U !! p = None ∧ n ≤ sz ∧ owns s' (<[p:=sz]> U)) Ho
    ltac:(lia) ltac:(by left) ltac:(intros p sz; right; by exists sz)))) as (p & s' & E & _ & Hp).
  unfold wp_unless, mbind, ST_bind. simpl. unfold mbind, ST_bind. rewrite E.
  destruct Hp as [->|(sz & Hp & Hp8 & Hf & Hsz & Ho')].
  - destruct (Z.eqb_spec n 0); [lia|]. specialize (HQ0 s' E). simpl. unfold wp_or in HQ0.
    destruct (k 0 s') as [[a s'']| | |]; auto.
  - destruct (Z.eqb_spec p 0); [lia|]. by eapply HQ.
Qed.

(** ** The kernel heap implements it *)

(** Payload addresses instead of block headers. *)
Definition payloads (U : gmap Z Z) : gmap Z Z := kmap (λ a, a + 16) U.

#[global] Instance add_inj k : Inj (=) (=) (λ a : Z, a + k).
Proof. intros x y H. lia. Qed.

Lemma lookup_payloads U p : payloads U !! p = U !! (p - 16).
Proof.
  unfold payloads. replace p with ((λ a, a + 16) (p - 16)) at 1 by lia.
  by rewrite (lookup_kmap (λ a, a + 16)).
Qed.

Lemma payloads_insert U a sz : payloads (<[a:=sz]> U) = <[a + 16:=sz]> (payloads U).
Proof. unfold payloads. by rewrite (kmap_insert (λ a, a + 16)). Qed.

Lemma payloads_delete U a : payloads (delete a U) = delete (a + 16) (payloads U).
Proof. unfold payloads. by rewrite (kmap_delete (λ a, a + 16)). Qed.

Lemma msum_payloads f U : msum f (payloads U) = msum f U.
Proof.
  induction U as [|a sz U Ha IH] using map_ind; [unfold payloads; by rewrite kmap_empty|].
  rewrite payloads_insert, !msum_insert_fresh, IH; [done|done|].
  rewrite lookup_payloads. by replace (a + 16 - 16) with a by lia.
Qed.

Lemma size_payloads U : size (payloads U) = size U.
Proof. apply Nat2Z.inj. by rewrite <- !msum_size, msum_payloads. Qed.

(** A heap with blocks [B]. *)
Definition holds (B : gmap Z blk) (h : heap) (V : gmap Z Z) : Prop :=
  tlsf_inv (tlsf_ctx h) (arena h) B ∧ payloads (used_map B) = V.

Definition heap_owns (h : heap) (V : gmap Z Z) : Prop := ∃ B, holds B h V.

(** The heap owns [V] and is sure to serve the requests [l]. *)
Definition heap_room (h : heap) (V : gmap Z Z) (l : list Z) : Prop := ∃ B, holds B h V ∧ serves B l.

Lemma wp_on_arena {A} (m : Z → M A) h (Q : A → heap → Prop) :
  wp (m (tlsf_ctx h)) (arena h) (λ a t, Q a (Heap t (tlsf_ctx h) (bytes_allocated h))) →
  wp (on_arena m) h Q.
Proof. unfold wp, on_arena. by destruct (m _ _) as [[a t]| | |]. Qed.

Lemma request_null size : request size = 0 → 0 ≤ size ≤ 2 ^ 64 - 8 → size = 0 ∨ 2 ^ 32 - 8 < size.
Proof.
  intros Hr Hs. destruct (decide (size = 0)); [by left|right].
  destruct (Z.lt_ge_cases (2 ^ 32 - 8) size); [done|]. exfalso.
  destruct (decide (size = 2 ^ 32 - 8)) as [->|]; [by vm_compute in Hr|].
  by apply (request_ne0 size); [lia|].
Qed.

(** The shape of every allocation result the clients see. *)
Lemma wp_malloc_owned h B V n (Q : Z → tlsf → Prop) (ctx := tlsf_ctx h) (t := arena h) :
  holds B h V → 0 ≤ n ≤ 2 ^ 64 - 8 → (¬ (0 < n < 2 ^ 32 - 8 ∧ fits B (request n)) → Q 0 t) →
  (∀ p sz t' B', 16 < p < 2 ^ 64 → p mod 8 = 0 → V !! p = None → n ≤ sz →
     (∀ k, holds B' (Heap t' ctx k) (<[p:=sz]> V)) → resized (request n + 40) B B' → frame (used_map B) t t' → Q p t') →
  wp (tlsf_malloc ctx n) t Q.
Proof.
  intros [Hinv <-] Hn HQ0 HQ. eapply wp_tlsf_malloc; [exact Hinv| |].
  { intros Hnull. apply HQ0. intros [Hn' Hfit]. destruct Hnull as [H0|[]]; [by destruct (request_ne0 n Hn')|done]. }
  intros p t' Hr _ (B' & Hinv' & Hrz & Hfr & Hp & Hfresh & sz & Hsz & HU').
  assert (n ≤ request n) by (apply adjusted_ge; [lia|change (2 ^ 3) with 8; lia|done]).
  assert (used_map B' !! (p - 16) = Some sz) as Hin by (rewrite HU'; apply lookup_insert_eq).
  destruct (inv_bound _ _ _ _ _ Hinv' Hin) as (_ & _ & _ & _ & _ & _ & Hp8 & _).
  apply (HQ p sz t' B'); [done| |by rewrite lookup_payloads|lia| |done|done].
  - replace p with (p - 16 + 16) by lia. by apply mod8_add.
  - intros k. split; [exact Hinv'|]. rewrite HU', payloads_insert. by replace (p - 16 + 16) with p by lia.
Qed.

Lemma wp_free_owned B h V p (Q : unit → heap → Prop) :
  holds B h V → is_Some (V !! p) → (∀ B' h', holds B' h' (delete p V) → resized 0 B B' → Q tt h') → wp (kfree p) h Q.
Proof.
  intros [Hinv <-] [sz Hp] HQ. rewrite lookup_payloads in Hp. apply wp_on_arena.
  replace p with (p - 16 + 16) at 1 by lia. eapply wp_tlsf_free; [exact Hinv|exact Hp|]. intros t' B' Hinv' HU' _ Hrz.
  apply (HQ B'); [|exact Hrz]. split; [exact Hinv'|]. rewrite HU', payloads_delete. by replace (p - 16 + 16) with p by lia.
Qed.

Definition kernel_ops : AllocOps heap := {| alloc := kmalloc; release := kfree |}.

#[export] Program Instance kernel_heap : Allocator heap := {|
  allocator_ops := kernel_ops; owns := heap_owns; room := heap_room |}.
Next Obligation.
  intros h V n Q [B Hh] Hn HQ0 HQ. apply wp_bind, wp_modify, wp_on_arena. simpl.
  eapply (wp_malloc_owned h); [exact Hh|exact Hn| |].
  - intros _. apply HQ0. by exists B.
  - intros p sz t' B' Hp Hp8 Hfresh Hsz Hh' _ _. apply (HQ p sz); [lia|done..|]. exists B'. apply Hh'.
Qed.
Next Obligation.
  intros h V p Q [B Hh] Hp HQ. eapply wp_free_owned; [exact Hh|exact Hp|]. intros B' h' Hh' _. apply HQ. by exists B'.
Qed.
Next Obligation.
  intros h V p sz p' sz' (B & Hinv & <-) Hp Hp' Hne. rewrite lookup_payloads in Hp, Hp'.
  destruct (live_separated (tlsf_ctx h) (extent B) (arena h) (used_map B) ltac:(by exists B) _ _ Hp) as (_ & _ & _ & _ & _ & Hd).
  destruct (Hd _ _ Hp'); lia.
Qed.
Next Obligation. intros h V l (B & Hh & _). by exists B. Qed.
Next Obligation.
  intros h V n l Q (B & Hh & Hr) HQ. pose proof (serves_head _ _ _ _ _ (proj1 Hh) Hr) as Hen. pose proof Hen as [Hn _].
  apply wp_bind, wp_modify, wp_on_arena. simpl. eapply (wp_malloc_owned h); [exact Hh|lia|done|].
  intros p sz t' B' Hp Hp8 Hfresh Hsz Hh' Hrz _. apply (HQ p sz); [lia|done..|]. exists B'. split; [apply Hh'|].
  by eapply serves_step.
Qed.
Next Obligation.
  intros h V l p Q (B & Hh & Hr) Hp HQ. eapply wp_free_owned; [exact Hh|exact Hp|]. intros B' h' Hh' Hrz. apply HQ.
  exists B'. split; [done|]. by eapply serves_release.
Qed.
Next Obligation.
  intros h V p sz (B & Hinv & <-) Hp. rewrite lookup_payloads in Hp.
  destruct (inv_bound _ _ _ _ _ Hinv Hp) as (_ & _ & _ & _ & _ & ? & _). lia.
Qed.

(** ** Theorems *)

Lemma heap_init_holds h pages :
  0 < pages → pages mod 8 = 0 → pages + 122880 < 2 ^ 64 →
  wp (heap_init pages) h (λ _ h', bytes_allocated h' = bytes_allocated h ∧
    ∃ B, holds B h' ∅ ∧ used_map B = ∅ ∧ extent B = pool_extent 122880).
Proof.
  intros Hp H8 Hend. apply wp_bind, wp_on_arena.
  apply wp_tlsf_create_with_pool; [done|done|change (HEAP_SIZE_PAGES * 4096) with 122880; lia..|].
  intros t B Hinv HU _ HE. apply wp_modify. split; [done|]. exists B. split; [|done]. split; [done|].
  rewrite HU. unfold payloads. by rewrite kmap_empty.
Qed.

(** [heap_init] on any 30 pages of 8-aligned memory gives a heap with no
    live payload. *)
Theorem heap_init_correct h pages :
  0 < pages → pages mod 8 = 0 → pages + 122880 < 2 ^ 64 →
  wp (heap_init pages) h (λ _ h', owns h' ∅ ∧ bytes_allocated h' = bytes_allocated h).
Proof.
  intros Hp H8 Hend. eapply wp_mono; [by apply heap_init_holds|]. intros [] h' (Hb & B & Hh & _). split; [by exists B|done].
Qed.

(** What is left of the 30 pages of a new heap. *)
Definition heap_bytes : Z := HEAP_SIZE_PAGES * 4096 - 6552.

(** It has room for whatever fits into it. *)
Lemma heap_init_room h pages l :
  0 < pages → pages mod 8 = 0 → pages + 122880 < 2 ^ 64 → served heap_bytes l = true →
  wp (heap_init pages) h (λ _ h', room h' ∅ l).
Proof.
  intros Hp H8 Hend Hl. eapply wp_mono; [by apply heap_init_holds|]. intros [] h' (_ & B & Hh & HU & HE).
  exists B. split; [done|]. by apply (serves_empty _ _ _ 122880 l (proj1 Hh) HU HE).
Qed.

Lemma fresh_heap l : served heap_bytes l = true → ∃ h, room h ∅ l.
Proof.
  intros Hl. destruct (wp_done _ _ _ (heap_init_room (Heap blank 0 0) 4096 l ltac:(lia) eq_refl ltac:(lia) Hl))
    as (u & h & _ & Hr). by exists h.
Qed.

Example heap_init_correct_witness :
  wp (heap_init 4096) (Heap blank 0 0) (λ _ h', owns h' ∅ ∧ bytes_allocated h' = 0).
Proof. apply (heap_init_correct (Heap blank 0 0) 4096); [lia|done|lia]. Defined.

(** [kcalloc] of a non-null result: a fresh payload of at least the
    product (modulo 2^64, as the code computes it), every byte of which reads
    zero, and all other live payloads keep their contents. *)
Theorem kcalloc_zeroes h V nmemb size :
  owns h V → w64 (size * nmemb) ≤ 2 ^ 64 - 8 →
  match kcalloc nmemb size h with
  | Done (p, h') => p = 0 ∧ owns h' V ∨
      ∃ sz, V !! p = None ∧ w64 (size * nmemb) ≤ sz ∧ owns h' (<[p:=sz]> V) ∧
        (∀ i, 0 ≤ i < w64 (size * nmemb) → word_ld8 (mem (arena h')) (p + i) = 0) ∧
        (∀ q qsz x, V !! q = Some qsz → q ≤ x < q + qsz →
           mem (arena h') x = mem (arena h) x)
  | Undef => 0 < w64 (size * nmemb)
  | _ => False
  end.
Proof.
  intros [B Hh] Hn. set (n := w64 (size * nmemb)) in *.
  pose proof (w64_range (size * nmemb)) as Hn0. fold n in Hn0.
  assert (wp (kmalloc n) h (λ p h', p = 0 ∧ owns h' V ∨
    ∃ sz B', 16 < p ∧ p mod 8 = 0 ∧ V !! p = None ∧ n ≤ sz ∧ holds B' h' (<[p:=sz]> V) ∧
      frame (used_map B) (arena h) (arena h'))) as Hwp.
  { apply wp_bind, wp_modify, wp_on_arena. simpl. eapply (wp_malloc_owned h); [exact Hh|lia| |].
    - intros _. left. split; [done|]. by exists B.
    - intros p sz t' B' Hp Hp8 Hfresh Hsz Hh' _ Hfr. right. exists sz, B'. split_and!; [lia|done..|apply Hh'|done]. }
  unfold kcalloc. fold n. unfold mbind, ST_bind.
  apply wp_done in Hwp as (p & h' & -> & [[-> Ho]|(sz & B' & Hp & Hp8 & Hfresh & Hsz & [Hinv HU] & Hfr)]).
  - unfold zero_fill, guard_, mbind, ST_bind. simpl. destruct (Z.eqb_spec n 0) as [->|]; simpl; [|lia].
    left. split; [done|]. destruct Ho as (B' & Hinv' & HU'). exists B'. split; [|done].
    simpl. destruct (arena h'); exact Hinv'.
  - unfold zero_fill, guard_, mbind, ST_bind. destruct (Z.eqb_spec p 0); [lia|]. simpl. right. exists sz.
    assert (used_map B' !! (p - 16) = Some sz) as Hin by (rewrite <- lookup_payloads, HU; apply lookup_insert_eq).
    destruct (inv_bound _ _ _ _ _ Hinv Hin) as (b & Hb & Hbf & Hbsz & _).
    assert (∀ x, x < p ∨ p + n ≤ x → memzero (mem (arena h')) p n x = mem (arena h') x) as Hout.
    { intros x Hx. apply memzero_outside; [done|lia|done]. }
    split_and!; [done|done| | |].
    + exists B'. split; [|exact HU]. simpl. eapply inv_payload; [exact Hinv|exact Hb|done|done..|].
      intros x Hx. simpl. apply Hout. lia.
    + intros i Hi. change (ld8 (memzero (mem (arena h')) p n) (p + i) = 0).
      rewrite memzero_ld8 by lia. destruct (Z.leb_spec p (p + i)), (Z.ltb_spec (p + i) (p + n)); done || lia.
    + intros q qsz x Hq Hx. simpl. assert (q ≠ p) as Hne by congruence.
      destruct (owns_separate h' (<[p:=sz]> V) q qsz p sz) as [?|?]; [by exists B'|by rewrite lookup_insert_ne|apply lookup_insert_eq|done|..];
        (rewrite Hout by lia; destruct Hh as [_ <-]; rewrite lookup_payloads in Hq; apply (Hfr (q - 16) qsz x); [done|lia]).
Qed.

(** A kernel heap without live payloads. *)
Lemma example_owned : ∃ h : heap, owns h ∅.
Proof.
  destruct example_heap as (s & B & _ & Hinv & HU & _). exists (Heap s 4096 0), B. split; [done|].
  rewrite HU. unfold payloads. apply kmap_empty.
Qed.

Example kcalloc_zeroes_witness : ∃ h, owns h ∅ ∧
  match kcalloc 10 8 h with
  | Done (p, h') => p = 0 ∧ owns h' ∅ ∨
      ∃ sz, (∅ : gmap Z Z) !! p = None ∧ w64 (8 * 10) ≤ sz ∧ owns h' (<[p:=sz]> ∅) ∧
        (∀ i, 0 ≤ i < w64 (8 * 10) → word_ld8 (mem (arena h')) (p + i) = 0) ∧
        (∀ q qsz x, (∅ : gmap Z Z) !! q = Some qsz → q ≤ x < q + qsz →
           mem (arena h') x = mem (arena h) x)
  | Undef => 0 < w64 (8 * 10)
  | _ => False
  end.
Proof.
  destruct example_owned as [h Ho]. exists h. split; [exact Ho|].
  apply (kcalloc_zeroes h ∅ 10 8 Ho). vm_compute. discriminate.
Defined.

(** The product of [kcalloc] wraps: more than 2^64 bytes are requested and a
    24-byte block comes back. *)
Example kcalloc_product_wraps :
  result (heap_init 4096 ;;
          p ← kcalloc (2 ^ 61 + 1) 8;
          on_arena (λ _, tlsf_block_size p)) (Heap blank 0 0) = Some 24.
Proof. vm_compute. reflexivity. Qed.

(** When the heap is exhausted [kcalloc] zeroes memory at address 0. *)
Example kcalloc_null_write :
  (heap_init 4096 ;; kcalloc 1 200000) (Heap blank 0 0) = Undef.
Proof. vm_compute. reflexivity. Qed.
