(* ===== verification/HeapBytes.v ===== *)
(** Structures and buffers in the kernel heap: fields in byte memory, what an
    allocation may change, and writes that stay inside one. *)

From S2P Require Import Prelude CString TlsfModel TlsfInv TlsfPhys TlsfExtent TlsfTrim TlsfHeap TlsfProps TlsfRoom.
From S2P Require Import Heap.

(** ** Structures in byte memory *)

Section structs.
Context {M : Type} `{ByteMem M}.

(** An [n]-byte little-endian field at [a]. *)
Definition st_le (m : M) (a n v : Z) : M := foldl (λ m i, st8 m (a + i) (w8 (Z.shiftr v (8 * i)))) m (seqZ 0 n).

(** A bit-field of [n] bits at bit [k] of the byte at [a]. *)
Definition set_bits (b k n v : Z) : Z :=
  Z.lor (Z.land b (Z.lnot (Z.shiftl (Z.ones n) k))) (Z.shiftl (v mod 2 ^ n) k).
Definition st_bits (m : M) (a k n v : Z) : M := st8 m a (set_bits (ld8 m a) k n v).

(** The field read back. *)
Fixpoint ld_le (m : M) (a : Z) (n : nat) : Z :=
  match n with
  | O => 0
  | S n => ld8 m a + 2 ^ 8 * ld_le m (a + 1) n
  end.

(** *** Lemmas *)

Lemma ld8_st_le (m : M) a n v b :
  0 ≤ n → ld8 (st_le m a n v) b = if (a <=? b) && (b <? a + n) then w8 (Z.shiftr v (8 * (b - a))) else ld8 m b.
Proof.
  intros Hn. unfold st_le. rewrite (memset_fill m a (λ i, w8 (Z.shiftr v (8 * i))) n b); [done| |done].
  intros i. apply Z.mod_pos_bound. lia.
Qed.

Lemma ld_le_bytes (m : M) a n v :
  (∀ i, 0 ≤ i < Z.of_nat n → ld8 m (a + i) = w8 (Z.shiftr v (8 * i))) → ld_le m a n = v mod 2 ^ (8 * Z.of_nat n).
Proof.
  revert a v. induction n as [|n IH]; intros a v Hb; [simpl; by rewrite Z.mod_1_r|]. cbn [ld_le].
  rewrite (IH (a + 1) (Z.shiftr v 8)).
  - rewrite <- (Z.add_0_r a) at 1. rewrite Hb, Z.mul_0_r, Z.shiftr_0_r by lia. unfold w8.
    rewrite Z.shiftr_div_pow2 by lia. replace (8 * Z.of_nat (S n)) with (8 + 8 * Z.of_nat n) by lia.
    rewrite Z.pow_add_r by lia. rewrite Z.rem_mul_r; [lia|lia|]. apply Z.pow_pos_nonneg; lia.
  - intros i Hi. replace (a + 1 + i) with (a + (1 + i)) by lia. rewrite Hb, Z.shiftr_shiftr by lia. do 2 f_equal. lia.
Qed.

Lemma set_bits_range b k n v : 0 ≤ b < 256 → 0 ≤ k → 0 ≤ n → k + n ≤ 8 → 0 ≤ set_bits b k n v < 256.
Proof.
  intros Hb Hk Hn Hkn. unfold set_bits. apply (lor_bound 8); [by apply (land_range _ _ 8)|].
  rewrite Z.shiftl_mul_pow2 by lia. pose proof (Z.mod_pos_bound v (2 ^ n) ltac:(apply Z.pow_pos_nonneg; lia)).
  assert (2 ^ n * 2 ^ k ≤ 2 ^ 8) by (rewrite <- Z.pow_add_r by lia; apply Z.pow_le_mono_r; lia).
  assert (0 < 2 ^ k) by (apply Z.pow_pos_nonneg; lia). nia.
Qed.

Lemma ld8_st_bits (m : M) a k n v b : 0 ≤ k → 0 ≤ n → k + n ≤ 8 →
  ld8 (st_bits m a k n v) b = if b =? a then set_bits (ld8 m a) k n v else ld8 m b.
Proof. intros. unfold st_bits. apply ld8_st8, set_bits_range; [apply ld8_range|lia..]. Qed.

End structs.

(** [memcpy] from a byte memory into word memory. *)
Definition copy_in (src : bmem) (dst n : Z) (m : Z → Z) : Z → Z :=
  foldl (λ m i, st8 m (dst + i) (ld8 src i)) m (seqZ 0 n).

(** Decide the byte comparisons of a chain of stores. *)
Ltac byte_cases :=
  repeat match goal with
  | |- context [?a =? ?b] =>
      first [ replace (a =? b) with true by (symmetry; apply Z.eqb_eq; lia)
            | replace (a =? b) with false by (symmetry; apply Z.eqb_neq; lia) ]
  | |- context [?a <=? ?b] =>
      first [ replace (a <=? b) with true by (symmetry; apply Z.leb_le; lia)
            | replace (a <=? b) with false by (symmetry; apply Z.leb_gt; lia) ]
  | |- context [?a <? ?b] =>
      first [ replace (a <? b) with true by (symmetry; apply Z.ltb_lt; lia)
            | replace (a <? b) with false by (symmetry; apply Z.ltb_ge; lia) ]
  end; cbn [andb].

(** ** Lemmas on the heap *)

(** The contents of the live payloads [V] are the same. *)
Definition keeps (V : gmap Z Z) (h h' : heap) : Prop :=
  ∀ q sz x, V !! q = Some sz → q ≤ x < q + sz → mem (arena h') x = mem (arena h) x.

(** [kmalloc] in a heap of blocks [B]. *)
Lemma wp_kmalloc_in B h V n (Q : Z → heap → Prop) :
  holds B h V → 0 ≤ n ≤ 2 ^ 64 - 8 →
  (∀ p h', kmalloc n h = Done (p, h') → keeps V h h' →
     (p = 0 ∧ ¬ (0 < n < 2 ^ 32 - 8 ∧ fits B (request n)) ∧ holds B h' V ∨
      ∃ sz B', 0 < p < 2 ^ 64 ∧ V !! p = None ∧ n ≤ sz ∧ holds B' h' (<[p:=sz]> V) ∧ resized (request n + 40) B B') → Q p h') →
  wp (kmalloc n) h Q.
Proof.
  intros Hh Hn HQ.
  assert (wp (kmalloc n) h (λ p h', keeps V h h' ∧
    (p = 0 ∧ ¬ (0 < n < 2 ^ 32 - 8 ∧ fits B (request n)) ∧ holds B h' V ∨
     ∃ sz B', 0 < p < 2 ^ 64 ∧ V !! p = None ∧ n ≤ sz ∧ holds B' h' (<[p:=sz]> V) ∧ resized (request n + 40) B B'))) as Hwp;
    [|eapply wp_mono; [apply wp_run, Hwp|intros p h' (Hrun & Hk & Hp); by apply HQ]].
  apply wp_bind, wp_modify, wp_on_arena. simpl. eapply (wp_malloc_owned h); [exact Hh|exact Hn| |].
  - intros Hno. split; [by intros q qsz x _ _|left]. by split_and!.
  - intros r sz t' B' Hr Hr8 Hfresh Hsz Hh' Hrz Hfr. split.
    + destruct Hh as [_ <-]. intros q qsz x Hq Hx. rewrite lookup_payloads in Hq. apply (Hfr (q - 16) qsz x Hq). lia.
    + right. exists sz, B'. split_and!; [lia..|done|done|apply Hh'|done].
Qed.

(** [kmalloc], whether or not memory is left. *)
Lemma wp_kmalloc h V n (Q : Z → heap → Prop) :
  owns h V → 0 ≤ n ≤ 2 ^ 64 - 8 →
  (∀ p h', kmalloc n h = Done (p, h') → keeps V h h' →
     (p = 0 ∧ owns h' V ∨ ∃ sz, 0 < p < 2 ^ 64 ∧ V !! p = None ∧ n ≤ sz ∧ owns h' (<[p:=sz]> V)) → Q p h') →
  wp (kmalloc n) h Q.
Proof.
  intros [B Hh] Hn HQ. eapply wp_kmalloc_in; [exact Hh|done|]. intros p h' Hrun Hk Hp. apply HQ; [done..|].
  destruct Hp as [(-> & _ & Hh')|(sz & B' & Hp & Hf & Hsz & Hh' & _)]; [left; split; [done|by exists B]|right].
  exists sz. split_and!; [lia..|done|lia|by exists B'].
Qed.

Lemma owns_room h V : owns h V → room h V [].
Proof. intros [B Hh]. exists B. split; [done|apply serves_nil]. Qed.

Lemma wp_kmalloc_room h V n l (Q : Z → heap → Prop) :
  room h V (n :: l) →
  (∀ p sz h', keeps V h h' → 0 < p < 2 ^ 64 → V !! p = None → n ≤ sz → room h' (<[p:=sz]> V) l → Q p h') →
  wp (kmalloc n) h Q.
Proof.
  intros (B & Hh & Hr) HQ. pose proof (serves_head _ _ _ _ _ (proj1 Hh) Hr) as Hen. pose proof Hen as [Hn _].
  eapply wp_kmalloc_in; [exact Hh|lia|]. intros p h' _ Hk [(_ & Hno & _)|(sz & B' & Hp & Hf & Hsz & Hh' & Hrz)]; [by destruct Hno|].
  apply (HQ p sz); [done..|]. exists B'. split; [done|]. by eapply serves_step.
Qed.

Lemma room_skip h V n l : room h V (n :: l) → room h V l.
Proof. intros (B & Hh & Hr). exists B. split; [done|by eapply serves_skip]. Qed.

Lemma room_kmalloc h V n l :
  room h V (n :: l) →
  ∃ p sz h', kmalloc n h = Done (p, h') ∧ keeps V h h' ∧ 0 < p < 2 ^ 64 ∧ V !! p = None ∧ n ≤ sz ∧ room h' (<[p:=sz]> V) l.
Proof.
  intros Hr. assert (wp (kmalloc n) h (λ p h', ∃ sz, keeps V h h' ∧ 0 < p < 2 ^ 64 ∧ V !! p = None ∧ n ≤ sz ∧
    room h' (<[p:=sz]> V) l)) as Hwp by (eapply wp_kmalloc_room; [exact Hr|eauto 10]).
  destruct (wp_done _ _ _ Hwp) as (p & h' & Hrun & sz & ?). by exists p, sz, h'.
Qed.

(** A live payload: its place and least size. *)
Lemma owned_place h V q sz : owns h V → V !! q = Some sz → q mod 8 = 0 ∧ 0 < q ∧ 24 ≤ sz ∧ q + sz < 2 ^ 64.
Proof.
  intros (B & Hinv & <-) Hq. rewrite lookup_payloads in Hq.
  destruct (inv_bound _ _ _ _ _ Hinv Hq) as (_ & _ & _ & _ & ? & ? & ? & ?).
  pose proof (Z.div_mod (q - 16) 8). split; [|lia]. replace q with (q - 16 + 2 * 8) by lia. by rewrite Z.mod_add.
Qed.

Lemma payload_base h V q sz i : owns h V → V !! q = Some sz → 0 ≤ i < sz → q ≤ word_base (q + i) < q + sz.
Proof.
  intros Ho Hq Hi. destruct (owned_place h V q sz Ho Hq) as (H8 & _). unfold word_base.
  pose proof (Z.div_mod q 8). pose proof (Z.div_mod (q + i) 8). pose proof (Z.mod_pos_bound (q + i) 8). lia.
Qed.

Lemma keeps_trans V V' h1 h2 h3 : V ⊆ V' → keeps V h1 h2 → keeps V' h2 h3 → keeps V h1 h3.
Proof.
  intros HV H12 H23 q sz x Hq Hx. rewrite (H23 q sz x); [by apply (H12 q sz)| |done].
  by eapply lookup_weaken.
Qed.

(** ** Writing inside allocations *)

(** [f] changes no word outside the [sz] bytes at [q]. *)
Definition inside (q sz : Z) (f : (Z → Z) → Z → Z) : Prop := ∀ m x, x < q ∨ q + sz ≤ x → f m x = m x.

Lemma inside_st8 q sz a g : q mod 8 = 0 → q ≤ a < q + sz → inside q sz (λ m, st8 m a (g m)).
Proof.
  intros Hq Ha m x Hx. change (word_st8 m a (g m) x = m x). unfold word_st8. apply upd_ne. unfold word_base.
  pose proof (Z.div_mod q 8). pose proof (Z.div_mod a 8). pose proof (Z.mod_pos_bound a 8). lia.
Qed.

Lemma inside_comp q sz f g : inside q sz f → inside q sz g → inside q sz (λ m, g (f m)).
Proof. intros Hf Hg m x Hx. by rewrite Hg, Hf. Qed.

Lemma inside_foldl q sz (g : (Z → Z) → Z → Z → Z) l :
  (∀ i, i ∈ l → inside q sz (λ m, g m i)) → inside q sz (λ m, foldl g m l).
Proof.
  intros Hg m x Hx. revert m. induction l as [|i l IH]; intros m; simpl; [done|].
  rewrite IH; [|intros j Hj; apply Hg; by right]. by apply (Hg i ltac:(left)).
Qed.

Lemma inside_st_le q sz a n v : q mod 8 = 0 → q ≤ a → a + n ≤ q + sz → inside q sz (λ m, st_le m a n v).
Proof.
  intros Hq Ha Hn. unfold st_le. apply (inside_foldl q sz (λ m i, st8 m (a + i) (w8 (Z.shiftr v (8 * i))))).
  intros i Hi%elem_of_seqZ. apply (inside_st8 q sz (a + i) (λ _, _)); lia.
Qed.

Lemma inside_memzero q sz a n : q mod 8 = 0 → q ≤ a → a + n ≤ q + sz → inside q sz (λ m, memzero m a n).
Proof.
  intros Hq Ha Hn. unfold memzero. apply (inside_foldl q sz (λ m i, st8 m (a + i) 0)).
  intros i Hi%elem_of_seqZ. apply (inside_st8 q sz (a + i) (λ _, 0)); lia.
Qed.

(** The heap after a change of its bytes. *)
Definition poked (f : (Z → Z) → Z → Z) (h : heap) : heap := Heap (set_mem f (arena h)) (tlsf_ctx h) (bytes_allocated h).
Notation hmem h := (mem (arena h)).

Lemma holds_poked B h V q sz f : holds B h V → V !! q = Some sz → inside q sz f → holds B (poked f h) V.
Proof.
  intros [Hinv <-] Hq Hf. rewrite lookup_payloads in Hq. split; [|done].
  destruct (inv_bound _ _ _ _ _ Hinv Hq) as (b & HB & Hfr & Hsz & _).
  eapply inv_payload; [exact Hinv|exact HB|done|done..|]. intros x Hx. simpl. apply Hf. lia.
Qed.

Lemma owns_poked h V q sz f : owns h V → V !! q = Some sz → inside q sz f → owns (poked f h) V.
Proof. intros [B Hh] Hq Hf. exists B. by eapply holds_poked. Qed.

Lemma room_poked h V l q sz f : room h V l → V !! q = Some sz → inside q sz f → room (poked f h) V l.
Proof. intros (B & Hh & Hr) Hq Hf. exists B. split; [by eapply holds_poked|done]. Qed.

(** A byte of a payload may be written. *)
Lemma owns_write h V q sz i v :
  owns h V → V !! q = Some sz → 0 ≤ i < sz →
  owns (Heap (set_mem (λ m, word_st8 m (q + i) v) (arena h)) (tlsf_ctx h) (bytes_allocated h)) V.
Proof.
  intros Ho Hq Hi. destruct (owned_place _ _ _ _ Ho Hq) as (Hq8 & _).
  exact (owns_poked h V q sz _ Ho Hq (inside_st8 q sz (q + i) (λ _, v) Hq8 ltac:(lia))).
Qed.

Lemma keeps_poked h V W q sz f :
  owns h V → V !! q = Some sz → inside q sz f → W ⊆ V → W !! q = None → keeps W h (poked f h).
Proof.
  intros Ho Hq Hf HW Hnone q' sz' x Hq' Hx. simpl. apply Hf.
  assert (q' ≠ q) as Hne by congruence.
  destruct (owns_separate h V q' sz' q sz Ho ltac:(by eapply lookup_weaken) Hq Hne); lia.
Qed.

Lemma keeps_refl V h : keeps V h h.
Proof. by intros q sz x _ _. Qed.

Lemma keeps_byte h h' V q sz i :
  owns h V → keeps V h h' → V !! q = Some sz → 0 ≤ i < sz → ld8 (hmem h') (q + i) = ld8 (hmem h) (q + i).
Proof.
  intros Ho Hk Hq Hi. change (word_ld8 (hmem h') (q + i) = word_ld8 (hmem h) (q + i)). unfold word_ld8.
  f_equal. f_equal. apply (Hk q sz); [done|]. by eapply payload_base.
Qed.

Lemma keeps_weaken V W h h' : W ⊆ V → keeps V h h' → keeps W h h'.
Proof. intros HW Hk q sz x Hq Hx. apply (Hk q sz); [by eapply lookup_weaken|done]. Qed.

Lemma ld8_copy_in src dst n m b : 0 ≤ n →
  ld8 (copy_in src dst n m) b = if (dst <=? b) && (b <? dst + n) then ld8 src (b - dst) else ld8 m b.
Proof. intros Hn. unfold copy_in. apply (memset_fill m dst (λ i, ld8 src i) n b); [apply ld8_range|done]. Qed.

Lemma inside_copy_in src q sz dst n : q mod 8 = 0 → q ≤ dst → dst + n ≤ q + sz → inside q sz (copy_in src dst n).
Proof.
  intros Hq Ha Hn. unfold copy_in. apply (inside_foldl q sz (λ m i, st8 m (dst + i) (ld8 src i))).
  intros i Hi%elem_of_seqZ. apply (inside_st8 q sz (dst + i) (λ _, ld8 src i)); lia.
Qed.

Lemma ld_le_ext (m m' : Z → Z) a n :
  (∀ i, 0 ≤ i < Z.of_nat n → ld8 m' (a + i) = ld8 m (a + i)) → ld_le m' a n = ld_le m a n.
Proof.
  revert a. induction n as [|n IH]; intros a Hb; [done|]. cbn [ld_le].
  rewrite <- (Z.add_0_r a) at 1. rewrite Hb, Z.add_0_r by lia. f_equal. f_equal. apply IH.
  intros i Hi. rewrite <- Z.add_assoc. apply Hb. lia.
Qed.

Lemma keeps_byte_sub h h' V W q sz i :
  owns h W → V ⊆ W → keeps V h h' → V !! q = Some sz → 0 ≤ i < sz → ld8 (hmem h') (q + i) = ld8 (hmem h) (q + i).
Proof.
  intros Ho HV Hk Hq Hi. change (word_ld8 (hmem h') (q + i) = word_ld8 (hmem h) (q + i)). unfold word_ld8.
  f_equal. f_equal. apply (Hk q sz); [done|]. eapply payload_base; [done|by eapply lookup_weaken|done].
Qed.

(** ** Sufficient memory, or none at all *)

Section starved.
(** [P] says that the heap may run out. *)
Context (P : Prop).

Definition room_or (h : heap) (V : gmap Z Z) (l : list Z) : Prop := ∃ B, holds B h V ∧ (P ∨ serves B l).

Lemma room_or_owns h V l : room_or h V l → owns h V.
Proof. intros (B & Hh & _). by exists B. Qed.

Lemma room_or_room h V l : room h V l → room_or h V l.
Proof. intros (B & Hh & Hr). exists B. split; [done|by right]. Qed.

Lemma room_or_starved h V l : P → owns h V → room_or h V l.
Proof. intros HP [B Hh]. exists B. split; [done|by left]. Qed.

Lemma room_or_poked h V l q sz f : room_or h V l → V !! q = Some sz → inside q sz f → room_or (poked f h) V l.
Proof. intros (B & Hh & Hr) Hq Hf. exists B. split; [by eapply holds_poked|done]. Qed.

Lemma wp_kmalloc_or h V n l (Q : Z → heap → Prop) :
  room_or h V (n :: l) → 0 < n ≤ 2 ^ 64 - 8 →
  (∀ p h', keeps V h h' →
     (p = 0 ∧ P ∧ owns h' V ∨ ∃ sz, 0 < p < 2 ^ 64 ∧ V !! p = None ∧ n ≤ sz ∧ room_or h' (<[p:=sz]> V) l) → Q p h') →
  wp (kmalloc n) h Q.
Proof.
  intros (B & Hh & Hr) Hn HQ. eapply wp_kmalloc_in; [exact Hh|lia|]. intros p h' _ Hk Hp. apply (HQ p h' Hk).
  destruct Hp as [(-> & Hno & Hh')|(sz & B' & Hp & Hf & Hsz & Hh' & Hrz)]; [left|right].
  - destruct Hr as [HP|Hr]; [|by destruct (Hno (serves_head _ _ _ _ _ (proj1 Hh) Hr))]. split_and!; [done..|by exists B].
  - exists sz. split; [done|]. split; [done|]. split; [lia|]. exists B'. split; [done|].
    destruct Hr as [HP|Hr]; [by left|right]. by eapply serves_step.
Qed.
End starved.

Lemma room_never h V l : room_or False h V l → room h V l.
Proof. intros (B & Hh & [[]|Hr]). by exists B. Qed.
