(* ===== verification/Hashmap.v ===== *)
(** sys/include/lib/hashmap.h: the open-addressing string hash map, with its
    CRC-32C hash, over any heap that meets the allocator interface. *)

From S2P Require Import Prelude CString Heap.

(** ** Hashing *)

Definition crc32_tab : list Z :=
  [
   0x00000000; 0xF26B8303; 0xE13B70F7; 0x1350F3F4; 0xC79A971F; 0x35F1141C; 0x26A1E7E8; 0xD4CA64EB;
   0x8AD958CF; 0x78B2DBCC; 0x6BE22838; 0x9989AB3B; 0x4D43CFD0; 0xBF284CD3; 0xAC78BF27; 0x5E133C24;
   0x105EC76F; 0xE235446C; 0xF165B798; 0x030E349B; 0xD7C45070; 0x25AFD373; 0x36FF2087; 0xC494A384;
   0x9A879FA0; 0x68EC1CA3; 0x7BBCEF57; 0x89D76C54; 0x5D1D08BF; 0xAF768BBC; 0xBC267848; 0x4E4DFB4B;
   0x20BD8EDE; 0xD2D60DDD; 0xC186FE29; 0x33ED7D2A; 0xE72719C1; 0x154C9AC2; 0x061C6936; 0xF477EA35;
   0xAA64D611; 0x580F5512; 0x4B5FA6E6; 0xB93425E5; 0x6DFE410E; 0x9F95C20D; 0x8CC531F9; 0x7EAEB2FA;
   0x30E349B1; 0xC288CAB2; 0xD1D83946; 0x23B3BA45; 0xF779DEAE; 0x05125DAD; 0x1642AE59; 0xE4292D5A;
   0xBA3A117E; 0x4851927D; 0x5B016189; 0xA96AE28A; 0x7DA08661; 0x8FCB0562; 0x9C9BF696; 0x6EF07595;
   0x417B1DBC; 0xB3109EBF; 0xA0406D4B; 0x522BEE48; 0x86E18AA3; 0x748A09A0; 0x67DAFA54; 0x95B17957;
   0xCBA24573; 0x39C9C670; 0x2A993584; 0xD8F2B687; 0x0C38D26C; 0xFE53516F; 0xED03A29B; 0x1F682198;
   0x5125DAD3; 0xA34E59D0; 0xB01EAA24; 0x42752927; 0x96BF4DCC; 0x64D4CECF; 0x77843D3B; 0x85EFBE38;
   0xDBFC821C; 0x2997011F; 0x3AC7F2EB; 0xC8AC71E8; 0x1C661503; 0xEE0D9600; 0xFD5D65F4; 0x0F36E6F7;
   0x61C69362; 0x93AD1061; 0x80FDE395; 0x72966096; 0xA65C047D; 0x5437877E; 0x4767748A; 0xB50CF789;
   0xEB1FCBAD; 0x197448AE; 0x0A24BB5A; 0xF84F3859; 0x2C855CB2; 0xDEEEDFB1; 0xCDBE2C45; 0x3FD5AF46;
   0x7198540D; 0x83F3D70E; 0x90A324FA; 0x62C8A7F9; 0xB602C312; 0x44694011; 0x5739B3E5; 0xA55230E6;
   0xFB410CC2; 0x092A8FC1; 0x1A7A7C35; 0xE811FF36; 0x3CDB9BDD; 0xCEB018DE; 0xDDE0EB2A; 0x2F8B6829;
   0x82F63B78; 0x709DB87B; 0x63CD4B8F; 0x91A6C88C; 0x456CAC67; 0xB7072F64; 0xA457DC90; 0x563C5F93;
   0x082F63B7; 0xFA44E0B4; 0xE9141340; 0x1B7F9043; 0xCFB5F4A8; 0x3DDE77AB; 0x2E8E845F; 0xDCE5075C;
   0x92A8FC17; 0x60C37F14; 0x73938CE0; 0x81F80FE3; 0x55326B08; 0xA759E80B; 0xB4091BFF; 0x466298FC;
   0x1871A4D8; 0xEA1A27DB; 0xF94AD42F; 0x0B21572C; 0xDFEB33C7; 0x2D80B0C4; 0x3ED04330; 0xCCBBC033;
   0xA24BB5A6; 0x502036A5; 0x4370C551; 0xB11B4652; 0x65D122B9; 0x97BAA1BA; 0x84EA524E; 0x7681D14D;
   0x2892ED69; 0xDAF96E6A; 0xC9A99D9E; 0x3BC21E9D; 0xEF087A76; 0x1D63F975; 0x0E330A81; 0xFC588982;
   0xB21572C9; 0x407EF1CA; 0x532E023E; 0xA145813D; 0x758FE5D6; 0x87E466D5; 0x94B49521; 0x66DF1622;
   0x38CC2A06; 0xCAA7A905; 0xD9F75AF1; 0x2B9CD9F2; 0xFF56BD19; 0x0D3D3E1A; 0x1E6DCDEE; 0xEC064EED;
   0xC38D26C4; 0x31E6A5C7; 0x22B65633; 0xD0DDD530; 0x0417B1DB; 0xF67C32D8; 0xE52CC12C; 0x1747422F;
   0x49547E0B; 0xBB3FFD08; 0xA86F0EFC; 0x5A048DFF; 0x8ECEE914; 0x7CA56A17; 0x6FF599E3; 0x9D9E1AE0;
   0xD3D3E1AB; 0x21B862A8; 0x32E8915C; 0xC083125F; 0x144976B4; 0xE622F5B7; 0xF5720643; 0x07198540;
   0x590AB964; 0xAB613A67; 0xB831C993; 0x4A5A4A90; 0x9E902E7B; 0x6CFBAD78; 0x7FAB5E8C; 0x8DC0DD8F;
   0xE330A81A; 0x115B2B19; 0x020BD8ED; 0xF0605BEE; 0x24AA3F05; 0xD6C1BC06; 0xC5914FF2; 0x37FACCF1;
   0x69E9F0D5; 0x9B8273D6; 0x88D28022; 0x7AB90321; 0xAE7367CA; 0x5C18E4C9; 0x4F48173D; 0xBD23943E;
   0xF36E6F75; 0x0105EC76; 0x12551F82; 0xE03E9C81; 0x34F4F86A; 0xC69F7B69; 0xD5CF889D; 0x27A40B9E;
   0x79B737BA; 0x8BDCB4B9; 0x988C474D; 0x6AE7C44E; 0xBE2DA0A5; 0x4C4623A6; 0x5F16D052; 0xAD7D5351].

(** One step of the table-driven loop. *)
Definition crc32_step (crc32val c : Z) : Z :=
  Z.lxor (nth (Z.to_nat (Z.lxor (w8 crc32val) c)) crc32_tab 0) (Z.shiftr crc32val 8).

Definition HASHMAP_MAX_CHAIN_LENGTH : Z := 8.

(** Robert Jenkins' mix and Knuth's multiplicative step, on 32-bit words. *)
Definition mix (key : Z) : Z :=
  let key := w32 (key + w32 (Z.shiftl key 12)) in
  let key := Z.lxor key (Z.shiftr key 22) in
  let key := w32 (key + w32 (Z.shiftl key 4)) in
  let key := Z.lxor key (Z.shiftr key 9) in
  let key := w32 (key + w32 (Z.shiftl key 10)) in
  let key := Z.lxor key (Z.shiftr key 2) in
  let key := w32 (key + w32 (Z.shiftl key 7)) in
  let key := Z.lxor key (Z.shiftr key 12) in
  w32 (Z.shiftr key 3 * 2654435761).

(** ** State *)

Record element := Elem { key : Z; key_len : Z; in_use : Z; edata : Z }.

(** An all-zero element, as [kcalloc] and [memset] leave it. *)
Definition blank_elem : element := Elem 0 0 0 0.

(** [data_ptr] is the address of the table, [data] its contents. *)
Record hashmap := Hashmap {
  table_size : Z;
  size_ : Z;
  data_ptr : Z;
  data : Z → element;
}.

Definition sizeof_element : Z := 24.

Section hashmap.
(** The heap, and the memory the keys point into. *)
Context {S M : Type} {ops : AllocOps S} `{ByteMem M} (km : M).

Notation R := (ST S).

(** [m->data[i]]. *)
Definition elem_at (m : hashmap) (i : Z) : R element :=
  guard_ (negb (data_ptr m =? 0) && (0 <=? i) && (i <? table_size m)) ;; mret (data m i).

Definition set_elem (m : hashmap) (i : Z) (e : element) : hashmap :=
  Hashmap (table_size m) (size_ m) (data_ptr m) (upd (data m) i e).

Definition set_size (m : hashmap) (n : Z) : hashmap :=
  Hashmap (table_size m) n (data_ptr m) (data m).

(** [x % m->table_size] *)
Definition mod_table (x : Z) (m : hashmap) : R Z :=
  guard_ (negb (table_size m =? 0)) ;; mret (x mod table_size m).

(** ** Operations *)

Definition hashmap_crc32_helper (s len : Z) : Z :=
  foldl (λ crc32val i, crc32_step crc32val (ld8 km (s + i))) 0 (seqZ 0 len).

Definition hashmap_hash_helper_int_helper (m : hashmap) (keystring len : Z) : R Z :=
  mod_table (mix (hashmap_crc32_helper keystring len)) m.

Definition hashmap_match_helper (e : element) (k len : Z) : bool :=
  (key_len e =? len) && (memcmp km (key e) k len =? 0).

(** [kcalloc]: the zeroing writes through a null result. *)
Definition calloc (nmemb size : Z) : R Z :=
  mem_ ← alloc (w64 (size * nmemb));
  guard_ (negb (mem_ =? 0) || (w64 (size * nmemb) =? 0)) ;;
  mret mem_.

(** Returns the flag and the map left in [*out_hashmap]. *)
Definition hashmap_create (initial_size : Z) : R (Z * hashmap) :=
  let out := Hashmap initial_size 0 0 (λ _, blank_elem) in
  if (0 =? initial_size) || negb (Z.land initial_size (initial_size - 1) =? 0) then mret (1, out)
  else
    p ← calloc initial_size sizeof_element;
    if p =? 0 then mret (1, out)
    else mret (0, Hashmap initial_size 0 p (λ _, blank_elem)).

(** The first probe: [inl index] when the key is found, else the number of
    slots in use. *)
Fixpoint probe_match (n : nat) (m : hashmap) (k len curr total_in_use : Z) : R (Z + Z) :=
  match n with
  | O => mret (inr total_in_use)
  | Datatypes.S n =>
      e ← elem_at m curr;
      let total_in_use := total_in_use + in_use e in
      if negb (in_use e =? 0) && hashmap_match_helper e k len then mret (inl curr)
      else
        curr ← mod_table (w32 (curr + 1)) m;
        probe_match n m k len curr total_in_use
  end.

(** The second probe: the first slot not in use. *)
Fixpoint probe_empty (n : nat) (m : hashmap) (curr : Z) : R (option Z) :=
  match n with
  | O => mret None
  | Datatypes.S n =>
      e ← elem_at m curr;
      if in_use e =? 0 then mret (Some curr)
      else
        curr ← mod_table (w32 (curr + 1)) m;
        probe_empty n m curr
  end.

(** [None] stands for the return value 0. *)
Definition hashmap_hash_helper (m : hashmap) (k len : Z) : R (option Z) :=
  if table_size m <=? size_ m then mret None
  else
    start ← hashmap_hash_helper_int_helper m k len;
    found ← probe_match (Z.to_nat HASHMAP_MAX_CHAIN_LENGTH) m k len start 0;
    match found with
    | inl index => mret (Some index)
    | inr total_in_use =>
        if total_in_use <? HASHMAP_MAX_CHAIN_LENGTH then
          probe_empty (Z.to_nat HASHMAP_MAX_CHAIN_LENGTH) m start
        else mret None
    end.

(** The loop shared by lookup and the two removals: the first slot in the
    chain that holds the key. *)
Fixpoint find_loop (n : nat) (m : hashmap) (k len curr : Z) : R (option Z) :=
  match n with
  | O => mret None
  | Datatypes.S n =>
      e ← elem_at m curr;
      if negb (in_use e =? 0) && hashmap_match_helper e k len then mret (Some curr)
      else
        curr ← mod_table (w32 (curr + 1)) m;
        find_loop n m k len curr
  end.

Definition hashmap_get (m : hashmap) (k len : Z) : R Z :=
  curr ← hashmap_hash_helper_int_helper m k len;
  i ← find_loop (Z.to_nat HASHMAP_MAX_CHAIN_LENGTH) m k len curr;
  match i with
  | Some curr => e ← elem_at m curr; mret (edata e)
  | None => mret 0
  end.

Definition hashmap_remove (m : hashmap) (k len : Z) : R (Z * hashmap) :=
  curr ← hashmap_hash_helper_int_helper m k len;
  i ← find_loop (Z.to_nat HASHMAP_MAX_CHAIN_LENGTH) m k len curr;
  match i with
  | Some curr => mret (0, set_size (set_elem m curr blank_elem) (w32 (size_ m - 1)))
  | None => mret (1, m)
  end.

Definition hashmap_remove_and_return_key (m : hashmap) (k len : Z) : R (Z * hashmap) :=
  curr ← hashmap_hash_helper_int_helper m k len;
  i ← find_loop (Z.to_nat HASHMAP_MAX_CHAIN_LENGTH) m k len curr;
  match i with
  | Some curr =>
      e ← elem_at m curr;
      mret (key e, set_size (set_elem m curr (Elem 0 (key_len e) 0 0)) (w32 (size_ m - 1)))
  | None => mret (0, m)
  end.

(** The callback of [hashmap_iterate] takes its context and a value. *)
Fixpoint iterate_loop {C} (l : list Z) (m : hashmap) (f : C → Z → R (Z * C)) (ctx : C) : R (Z * C) :=
  match l with
  | [] => mret (0, ctx)
  | i :: l =>
      e ← elem_at m i;
      if negb (in_use e =? 0) then
        '(r, ctx) ← f ctx (edata e);
        if r =? 0 then mret (1, ctx) else iterate_loop l m f ctx
      else iterate_loop l m f ctx
  end.

Definition hashmap_iterate {C} (m : hashmap) (f : C → Z → R (Z * C)) (ctx : C) : R (Z * C) :=
  iterate_loop (seqZ 0 (table_size m)) m f ctx.

Fixpoint iterate_pairs_loop {C} (l : list Z) (m : hashmap) (f : C → element → R (Z * C)) (ctx : C)
    : R (Z * hashmap * C) :=
  match l with
  | [] => mret (0, m, ctx)
  | i :: l =>
      e ← elem_at m i;
      if negb (in_use e =? 0) then
        '(r, ctx) ← f ctx e;
        if r =? -1 then
          iterate_pairs_loop l (set_size (set_elem m i blank_elem) (w32 (size_ m - 1))) f ctx
        else if r =? 0 then iterate_pairs_loop l m f ctx
        else mret (1, m, ctx)
      else iterate_pairs_loop l m f ctx
  end.

Definition hashmap_iterate_pairs {C} (m : hashmap) (f : C → element → R (Z * C)) (ctx : C)
    : R (Z * hashmap * C) :=
  iterate_pairs_loop (seqZ 0 (table_size m)) m f ctx.

Definition hashmap_num_entries (m : hashmap) : Z := size_ m.

(** [kfree(m->data)]: freeing null does nothing. *)
Definition hashmap_destroy (m : hashmap) : R hashmap :=
  (if data_ptr m =? 0 then mret tt else release (data_ptr m)) ;;
  mret (Hashmap 0 0 0 (λ _, blank_elem)).

(** [hashmap_put], [hashmap_rehash_helper] and [hashmap_rehash_iterator] call
    each other; [put] is the recursive call. *)
Definition hashmap_rehash_iterator (put : hashmap → Z → Z → Z → R (Z * hashmap))
    (new_hash : hashmap) (e : element) : R (Z * hashmap) :=
  '(temp, new_hash) ← put new_hash (key e) (key_len e) (edata e);
  mret (if 0 <? temp then 1 else -1, new_hash).

Definition hashmap_rehash_helper (put : hashmap → Z → Z → Z → R (Z * hashmap))
    (m : hashmap) : R (Z * hashmap) :=
  let new_size := w32 (2 * table_size m) in
  '(flag, new_hash) ← hashmap_create new_size;
  if negb (flag =? 0) then mret (flag, m)
  else
    '(flag, m, new_hash) ← hashmap_iterate_pairs m (hashmap_rehash_iterator put) new_hash;
    if negb (flag =? 0) then mret (flag, m)
    else hashmap_destroy m ;; mret (0, new_hash).

(** Store an element at the index the hash helper chose. *)
Definition put_at (m : hashmap) (index k len value : Z) : R hashmap :=
  e ← elem_at m index;
  let m' := set_elem m index (Elem k len 1 value) in
  mret (if in_use e =? 0 then set_size m' (w32 (size_ m + 1)) else m').

Fixpoint hashmap_put (fuel : nat) (m : hashmap) (k len value : Z) : R (Z * hashmap) :=
  match fuel with
  | O => no_fuel
  | Datatypes.S fuel =>
      index ← hashmap_hash_helper m k len;
      match index with
      | Some index => m ← put_at m index k len value; mret (0, m)
      | None =>
          '(flag, m) ← hashmap_rehash_helper (hashmap_put fuel) m;
          if negb (flag =? 0) then mret (1, m) else hashmap_put fuel m k len value
      end
  end.

End hashmap.
