(* ===== verification/HashmapProps.v ===== *)
(** Correctness of the hash map: its table hash is bitwise CRC-32C, and every
    operation implements the corresponding one on a finite map from key
    strings to values. *)

From S2P Require Import Prelude CString Heap Hashmap.

(** ** CRC-32C *)

(** The reference: shift the register right, folding in the reflected
    polynomial for each bit that drops out. *)
Definition crc_bit (x : Z) : Z :=
  if Z.odd x then Z.lxor (Z.shiftr x 1) 0x82F63B78 else Z.shiftr x 1.
Definition crc_byte (crc c : Z) : Z := Nat.iter 8 crc_bit (Z.lxor crc c).
Definition crc32c (msg : list Z) : Z := foldl crc_byte 0 msg.

Lemma crc_bit_lxor x y : crc_bit (Z.lxor x y) = Z.lxor (crc_bit x) (crc_bit y).
Proof.
  unfold crc_bit. rewrite <- !Z.bit0_odd, Z.lxor_spec, Z.shiftr_lxor.
  destruct (Z.testbit x 0), (Z.testbit y 0); simpl; apply Z.bits_inj'; intros i Hi;
    rewrite !Z.lxor_spec;
    destruct (Z.testbit (Z.shiftr x 1) i), (Z.testbit (Z.shiftr y 1) i), (Z.testbit 0x82F63B78 i); done.
Qed.

Lemma crc_iter_lxor n x y :
  Nat.iter n crc_bit (Z.lxor x y) = Z.lxor (Nat.iter n crc_bit x) (Nat.iter n crc_bit y).
Proof. induction n as [|n IH]; simpl; [done|]. by rewrite IH, crc_bit_lxor. Qed.

Lemma crc_bit_even x : crc_bit (2 * x) = x.
Proof.
  unfold crc_bit. rewrite Z.odd_mul. simpl. rewrite Z.shiftr_div_pow2 by lia.
  change (2 ^ 1) with 2. rewrite Z.mul_comm. by apply Z.div_mul.
Qed.

Lemma crc_iter_high n x : Nat.iter n crc_bit (x * 2 ^ Z.of_nat n) = x.
Proof.
  revert x. induction n as [|n IH]; intros x; simpl; [lia|].
  rewrite <- Nat.iter_succ, Nat.iter_succ_r.
  replace (x * 2 ^ Z.of_nat (S n)) with (2 * (x * 2 ^ Z.of_nat n)).
  - by rewrite crc_bit_even.
  - rewrite Nat2Z.inj_succ, Z.pow_succ_r by lia. lia.
Qed.

(** The 256 table entries, checked by evaluation. *)
Lemma crc_table v : 0 ≤ v < 256 → nth (Z.to_nat v) crc32_tab 0 = Nat.iter 8 crc_bit v.
Proof.
  intros Hv.
  assert (forallb (λ i, nth (Z.to_nat i) crc32_tab 0 =? Nat.iter 8 crc_bit i) (seqZ 0 256) = true) as Hall
    by (vm_compute; reflexivity).
  rewrite forallb_forall in Hall. apply Z.eqb_eq, Hall.
  apply list_elem_of_In, elem_of_seqZ. lia.
Qed.

Lemma lxor_range x y n : 0 ≤ x < 2 ^ n → 0 ≤ y < 2 ^ n → 0 ≤ n → 0 ≤ Z.lxor x y < 2 ^ n.
Proof.
  intros Hx Hy Hn. assert (0 ≤ Z.lxor x y) by (apply Z.lxor_nonneg; lia).
  split; [done|]. rewrite <- (Z.mod_small x (2 ^ n)), <- (Z.mod_small y (2 ^ n)) by done.
  rewrite <- !Z.land_ones by done.
  assert (Z.lxor (Z.land x (Z.ones n)) (Z.land y (Z.ones n)) = Z.land (Z.lxor x y) (Z.ones n)) as ->.
  { apply Z.bits_inj'. intros i Hi. rewrite !Z.lxor_spec, !Z.land_spec, Z.lxor_spec.
    by destruct (Z.testbit x i), (Z.testbit y i), (Z.testbit (Z.ones n) i). }
  rewrite Z.land_ones by done. apply Z.mod_pos_bound. apply Z.pow_pos_nonneg; lia.
Qed.

(** The table-driven step is eight steps of the bitwise register. *)
Lemma crc32_step_correct crc c :
  0 ≤ crc < 2 ^ 32 → 0 ≤ c < 256 → crc32_step crc c = crc_byte crc c.
Proof.
  intros Hcrc Hc. unfold crc32_step, crc_byte.
  assert (Z.lxor crc c = Z.lxor (Z.lxor (w8 crc) c) (Z.shiftr crc 8 * 2 ^ 8)) as ->.
  { apply Z.bits_inj'. intros i Hi. rewrite <- Z.shiftl_mul_pow2, !Z.lxor_spec, Z.shiftl_spec by lia.
    unfold w8. destruct (Z.ltb_spec i 8).
    - rewrite Z.mod_pow2_bits_low, (Z.testbit_neg_r _ (i - 8)) by lia. by rewrite xorb_false_r.
    - rewrite Z.mod_pow2_bits_high, Z.shiftr_spec by lia.
      rewrite (testbit_high c 8) by lia. replace (i - 8 + 8) with i by lia.
      by destruct (Z.testbit crc i). }
  rewrite crc_iter_lxor. f_equal.
  - rewrite crc_table; [done|]. apply (lxor_range _ _ 8); [|lia|lia].
    apply Z.mod_pos_bound. lia.
  - symmetry. apply (crc_iter_high 8).
Qed.

Lemma crc_byte_range crc c : 0 ≤ crc < 2 ^ 32 → 0 ≤ c < 256 → 0 ≤ crc_byte crc c < 2 ^ 32.
Proof.
  intros Hcrc Hc. unfold crc_byte.
  assert (0 ≤ Z.lxor crc c < 2 ^ 32) as Hx by (apply lxor_range; lia).
  revert Hx. generalize (Z.lxor crc c). clear. generalize 8%nat. intros n.
  induction n as [|n IH]; intros x Hx; [done|].
  rewrite Nat.iter_succ_r. apply IH. unfold crc_bit.
  assert (0 ≤ Z.shiftr x 1 < 2 ^ 32).
  { rewrite Z.shiftr_div_pow2 by lia. change (2 ^ 1) with 2. pose proof (Z.div_mod x 2).
    pose proof (Z.mod_pos_bound x 2). lia. }
  destruct (Z.odd x); [|done]. apply lxor_range; lia.
Qed.

Lemma foldl_crc32_step l crc :
  0 ≤ crc < 2 ^ 32 → Forall (λ c, 0 ≤ c < 256) l → foldl crc32_step crc l = foldl crc_byte crc l.
Proof.
  revert crc. induction l as [|c l IH]; intros crc Hcrc Hl; simpl; [done|].
  apply Forall_cons in Hl as [Hc Hl]. rewrite crc32_step_correct by done.
  apply IH; [by apply crc_byte_range|done].
Qed.

Lemma helper_fold {M} `{ByteMem M} (km : M) s len :
  hashmap_crc32_helper km s len = foldl crc32_step 0 (bytes_at km s len).
Proof.
  unfold hashmap_crc32_helper, bytes_at. generalize (seqZ 0 len). intros l.
  assert (∀ z, foldl (λ crc32val i, crc32_step crc32val (ld8 km (s + i))) z l =
    foldl crc32_step z ((λ i, ld8 km (s + i)) <$> l)) as Hl; [|apply Hl].
  induction l as [|i l IH]; intros z; simpl; [done|apply IH].
Qed.

(** C16. [hashmap_crc32_helper] computes bitwise CRC-32C of the key, that is,
    what the SSE 4.2 instruction of the other branch computes: the 256-entry
    table is the right one. *)
Theorem crc32_helper_correct {M} `{ByteMem M} (km : M) s len :
  hashmap_crc32_helper km s len = crc32c (bytes_at km s len).
Proof.
  rewrite helper_fold. apply foldl_crc32_step; [lia|].
  unfold bytes_at. apply Forall_fmap, Forall_true. intros i. apply ld8_range.
Qed.

(** ** The abstract map *)

Section refine.
Context {S M : Type} `{Allocator S} `{ByteMem M} (km : M).

Definition ekey (e : element) : list Z := bytes_at km (key e) (key_len e).

Definition hash_of (ks : list Z) (ts : Z) : Z := mix (foldl crc32_step 0 ks) mod ts.
#[local] Strategy expand [hash_of].
#[local] Strategy opaque [mix].

(** Slot [i] is among the eight slots probed for key [ks]. *)
Definition in_chain (ts : Z) (ks : list Z) (i : Z) : Prop :=
  ∃ d, 0 ≤ d < 8 ∧ i = (hash_of ks ts + d) mod ts.

Definition pow2_size (ts : Z) : Prop := ∃ k, 0 ≤ k < 32 ∧ ts = 2 ^ k.

(** [m] holds the entries of [Mp]: each in exactly one slot, in the chain of
    its key. *)
Record repr (m : hashmap) (Mp : gmap (list Z) Z) : Prop := {
  rp_size : pow2_size (table_size m);
  rp_ptr : data_ptr m ≠ 0;
  rp_count : size_ m = Z.of_nat (base.size Mp);
  rp_full : size_ m ≤ table_size m;
  rp_flag i : 0 ≤ i < table_size m → in_use (data m i) = 0 ∨ in_use (data m i) = 1;
  rp_len i : 0 ≤ i < table_size m → in_use (data m i) ≠ 0 → 0 ≤ key_len (data m i) < 2 ^ 32;
  rp_chain i : 0 ≤ i < table_size m → in_use (data m i) ≠ 0 →
    in_chain (table_size m) (ekey (data m i)) i;
  rp_inj i j : 0 ≤ i < table_size m → 0 ≤ j < table_size m →
    in_use (data m i) ≠ 0 → in_use (data m j) ≠ 0 → ekey (data m i) = ekey (data m j) → i = j;
  rp_map ks v : Mp !! ks = Some v ↔ ∃ i, 0 ≤ i < table_size m ∧ in_use (data m i) ≠ 0 ∧
    ekey (data m i) = ks ∧ edata (data m i) = v;
}.

Lemma pow2_size_pos ts : pow2_size ts → 0 < ts < 2 ^ 32.
Proof.
  intros (k & Hk & ->). split; [apply Z.pow_pos_nonneg; lia|apply Z.pow_lt_mono_r; lia].
Qed.

Lemma match_helper e k len :
  0 ≤ key_len e → 0 ≤ len → hashmap_match_helper km e k len = true ↔ ekey e = bytes_at km k len.
Proof.
  intros He Hl. unfold hashmap_match_helper, ekey.
  rewrite andb_true_iff, Z.eqb_eq, Z.eqb_eq, memcmp_0. split.
  - intros [Hlen Hc]. by rewrite Hlen.
  - intros Heq. assert (key_len e = len) as Hlen.
    { apply (f_equal length) in Heq. rewrite !length_bytes_at in Heq. lia. }
    split; [done|]. by rewrite Hlen in Heq.
Qed.

Lemma wp_elem_at m i (s : S) (Q : element → S → Prop) :
  data_ptr m ≠ 0 → 0 ≤ i < table_size m → Q (data m i) s → wp (elem_at m i) s Q.
Proof.
  intros Hp Hi HQ. apply wp_bind, wp_guard; [|by apply wp_ret].
  destruct (Z.eqb_spec (data_ptr m) 0); [done|]. simpl. lia.
Qed.

Lemma wp_mod_table x m (s : S) (Q : Z → S → Prop) :
  table_size m ≠ 0 → Q (x mod table_size m) s → wp (mod_table x m) s Q.
Proof.
  intros Hp HQ. apply wp_bind, wp_guard; [|by apply wp_ret].
  by destruct (Z.eqb_spec (table_size m) 0).
Qed.

Lemma wp_hash m k len (s : S) (Q : Z → S → Prop) :
  table_size m ≠ 0 → Q (hash_of (bytes_at km k len) (table_size m)) s →
  wp (hashmap_hash_helper_int_helper km m k len) s Q.
Proof.
  intros Hp HQ. unfold hashmap_hash_helper_int_helper. rewrite helper_fold.
  apply wp_mod_table; [exact Hp|]. unfold hash_of in HQ. exact HQ.
Qed.

(** One step along the chain. *)
Lemma chain_step start d ts : 0 < ts < 2 ^ 32 →
  w32 ((start + d) mod ts + 1) mod ts = (start + (d + 1)) mod ts.
Proof.
  intros Hts. assert (0 ≤ (start + d) mod ts < ts) by (apply Z.mod_pos_bound; lia).
  rewrite w32_small by lia. rewrite Z.add_mod_idemp_l by lia. by rewrite <- Z.add_assoc.
Qed.

Section probes.
Context (m : hashmap) (Mp : gmap (list Z) Z) (k len start : Z) (s : S).
Context (Hr : repr m Mp) (Hlen : 0 ≤ len).
Notation ts := (table_size m).
Notation K := (bytes_at km k len).
Notation holds_key e := (negb (in_use e =? 0) && hashmap_match_helper km e k len).

Lemma holds_key_iff i :
  0 ≤ i < ts → holds_key (data m i) = true ↔ in_use (data m i) ≠ 0 ∧ ekey (data m i) = K.
Proof.
  intros Hi. rewrite andb_true_iff, negb_true_iff, Z.eqb_neq.
  split; intros [Hu Hm]; pose proof (rp_len _ _ Hr i Hi Hu); (split; [done|]).
  - rewrite match_helper in Hm by lia. done.
  - rewrite match_helper by lia. done.
Qed.

Lemma slot_range x : 0 ≤ x mod ts < ts.
Proof. apply Z.mod_pos_bound. apply pow2_size_pos, (rp_size _ _ Hr). Qed.

Lemma wp_slot_search n d (Q : option Z → S → Prop) :
  (∀ i, 0 ≤ i < ts → in_use (data m i) ≠ 0 → ekey (data m i) = K → Q (Some i) s) →
  ((∀ d', d ≤ d' < d + Z.of_nat n → holds_key (data m ((start + d') mod ts)) = false) → Q None s) →
  wp (find_loop km n m k len ((start + d) mod ts)) s Q.
Proof.
  pose proof (pow2_size_pos _ (rp_size _ _ Hr)) as Hts.
  revert d. induction n as [|n IH]; intros d HQ1 HQ2; simpl; [apply wp_ret, HQ2; lia|].
  pose proof (slot_range (start + d)) as Hi.
  apply wp_bind, wp_elem_at; [apply (rp_ptr _ _ Hr)|done|].
  destruct (holds_key (data m ((start + d) mod ts))) eqn:Hk.
  - apply wp_ret. apply holds_key_iff in Hk as [? ?]; [|done]. by apply HQ1.
  - apply wp_bind, wp_mod_table; [lia|]. rewrite chain_step by done. apply IH; [done|].
    intros Hno. apply HQ2. intros d' Hd'. destruct (decide (d' = d)) as [->|]; [done|]. apply Hno. lia.
Qed.

(** The whole chain of a key decides whether the map holds it. *)
Lemma chain_complete i :
  0 ≤ i < ts → in_use (data m i) ≠ 0 → ekey (data m i) = K →
  (∀ d', 0 ≤ d' < 8 → holds_key (data m ((hash_of K ts + d') mod ts)) = false) → False.
Proof.
  intros Hi Hu Hk Hno. destruct (rp_chain _ _ Hr i Hi Hu) as (d & Hd & Hid). rewrite Hk in Hid.
  specialize (Hno d Hd). rewrite <- Hid in Hno. by rewrite (proj2 (holds_key_iff i Hi)) in Hno.
Qed.
End probes.

(** Looking a key up finds its slot exactly when the map has it. *)
Lemma wp_lookup {A} m Mp k len (f : option Z → ST S A) s (Q : A → S → Prop) :
  repr m Mp → 0 ≤ len →
  (∀ i, 0 ≤ i < table_size m → in_use (data m i) ≠ 0 → ekey (data m i) = bytes_at km k len →
     Mp !! bytes_at km k len = Some (edata (data m i)) → wp (f (Some i)) s Q) →
  (Mp !! bytes_at km k len = None → wp (f None) s Q) →
  wp (curr ← hashmap_hash_helper_int_helper km m k len;
      i ← find_loop km (Z.to_nat HASHMAP_MAX_CHAIN_LENGTH) m k len curr; f i) s Q.
Proof.
  intros Hr Hlen HQ1 HQ2. pose proof (pow2_size_pos _ (rp_size _ _ Hr)) as Hts.
  apply wp_bind, wp_hash; [lia|]. apply wp_bind.
  set (h := hash_of (bytes_at km k len) (table_size m)).
  replace h with ((h + 0) mod table_size m).
  2:{ rewrite Z.add_0_r. unfold h, hash_of. by rewrite Z.mod_mod by lia. }
  eapply wp_slot_search; [done..| |].
  - intros i Hi Hu Hk. apply (HQ1 i); [done..|]. apply (rp_map _ _ Hr). eauto.
  - intros Hno. apply HQ2. destruct (Mp !! bytes_at km k len) as [v|] eqn:E; [|done].
    apply (rp_map _ _ Hr) in E as (i & Hi & Hu & Hk & _). exfalso.
    eapply (chain_complete m Mp); [done|done|exact Hi|done..].
Qed.

(** ** Lookup and removal *)

Lemma wp_hashmap_get m Mp k len (s : S) (Q : Z → S → Prop) :
  repr m Mp → 0 ≤ len → Q (default 0 (Mp !! bytes_at km k len)) s → wp (hashmap_get km m k len) s Q.
Proof.
  intros Hr Hlen HQ. eapply wp_lookup; [done..| |].
  - intros i Hi Hu Hk Hin. apply wp_bind, wp_elem_at; [apply (rp_ptr _ _ Hr)|done|]. apply wp_ret. by rewrite Hin in HQ.
  - intros Hin. apply wp_ret. by rewrite Hin in HQ.
Qed.

(** C12. [hashmap_get] returns the value stored under the key's bytes, or null
    when the map has none. *)
Theorem hashmap_get_correct m Mp k len (s : S) :
  repr m Mp → 0 ≤ len →
  wp (hashmap_get km m k len) s (λ v s', s' = s ∧ v = default 0 (Mp !! bytes_at km k len)).
Proof. intros Hr Hlen. by eapply wp_hashmap_get. Qed.

(** Blanking the slot of a key removes it. *)
Lemma repr_delete m Mp i e' :
  repr m Mp → 0 ≤ i < table_size m → in_use (data m i) ≠ 0 → in_use e' = 0 →
  repr (set_size (set_elem m i e') (w32 (size_ m - 1))) (delete (ekey (data m i)) Mp).
Proof.
  intros Hr Hi Hu He'. pose proof (pow2_size_pos _ (rp_size _ _ Hr)) as Hts.
  assert (Mp !! ekey (data m i) = Some (edata (data m i))) as Hin by (apply (rp_map _ _ Hr); eauto).
  pose proof (map_size_delete_Some (ekey (data m i)) Mp ltac:(eauto)) as Hsz.
  assert (base.size Mp ≠ 0%nat) as Hne.
  { intros E. apply map_size_empty_inv in E. subst Mp. by rewrite lookup_empty in Hin. }
  assert (∀ j, in_use (upd (data m) i e' j) ≠ 0 → j ≠ i ∧ upd (data m) i e' j = data m j) as Hupd.
  { intros j Hj. destruct (decide (j = i)) as [->|]; [by rewrite upd_eq in Hj|]. by rewrite upd_ne. }
  assert (0 ≤ size_ m - 1 < 2 ^ 32) as Hcount
    by (pose proof (rp_count _ _ Hr); pose proof (rp_full _ _ Hr); lia).
  split; simpl; rewrite ?w32_small by done.
  - apply (rp_size _ _ Hr).
  - apply (rp_ptr _ _ Hr).
  - rewrite (rp_count _ _ Hr), Hsz. lia.
  - pose proof (rp_full _ _ Hr). lia.
  - intros j Hj. destruct (decide (j = i)) as [->|]; [rewrite upd_eq; by left|].
    rewrite upd_ne by done. by apply (rp_flag _ _ Hr).
  - intros j Hj Hj'. destruct (Hupd j Hj') as [_ E]. rewrite E in *. by apply (rp_len _ _ Hr).
  - intros j Hj Hj'. destruct (Hupd j Hj') as [_ E]. rewrite E in *. by apply (rp_chain _ _ Hr).
  - intros j j' Hj Hj' Hu1 Hu2. destruct (Hupd j Hu1) as [_ E1], (Hupd j' Hu2) as [_ E2].
    rewrite E1, E2 in *. by apply (rp_inj _ _ Hr).
  - intros ks v. rewrite lookup_delete_Some, (rp_map _ _ Hr). split.
    + intros (Hks & j & Hj & Hu' & Hk & Hv). exists j. rewrite upd_ne by congruence. done.
    + intros (j & Hj & Hu' & Hk & Hv). destruct (Hupd j Hu') as [Hji E]. rewrite E in *.
      split; [|eauto]. intros Hk'. apply Hji, (rp_inj _ _ Hr); congruence || done.
Qed.

(** C13. [hashmap_remove] deletes the key's entry and returns 0, or returns 1
    and changes nothing when the map has none. *)
Theorem hashmap_remove_correct m Mp k len (s : S) :
  repr m Mp → 0 ≤ len →
  wp (hashmap_remove km m k len) s (λ '(flag, m') s', s' = s ∧
    if decide (is_Some (Mp !! bytes_at km k len))
    then flag = 0 ∧ repr m' (delete (bytes_at km k len) Mp) else flag = 1 ∧ m' = m).
Proof.
  intros Hr Hlen. eapply wp_lookup; [done..| |].
  - intros i Hi Hu Hk Hin. apply wp_ret. split; [done|]. rewrite decide_True by eauto.
    split; [done|]. rewrite <- Hk. by apply repr_delete.
  - intros Hin. apply wp_ret. split; [done|]. rewrite decide_False; [done|].
    rewrite Hin. by intros [? ?].
Qed.

(** [hashmap_remove_and_return_key] deletes the entry too, and returns the
    pointer under which the key was stored. *)
Lemma hashmap_remove_and_return_key_correct m Mp k len (s : S) :
  repr m Mp → 0 ≤ len →
  wp (hashmap_remove_and_return_key km m k len) s (λ '(p, m') s', s' = s ∧
    if decide (is_Some (Mp !! bytes_at km k len))
    then repr m' (delete (bytes_at km k len) Mp) ∧ bytes_at km p len = bytes_at km k len
    else p = 0 ∧ m' = m).
Proof.
  intros Hr Hlen. eapply wp_lookup; [done..| |].
  - intros i Hi Hu Hk Hin. apply wp_bind, wp_elem_at; [apply (rp_ptr _ _ Hr)|done|].
    apply wp_ret. split; [done|]. rewrite decide_True by eauto. split.
    + rewrite <- Hk. by apply repr_delete.
    + pose proof (rp_len _ _ Hr i Hi Hu). rewrite <- Hk. unfold ekey. f_equal.
      apply (f_equal length) in Hk. unfold ekey in Hk. rewrite !length_bytes_at in Hk. lia.
  - intros Hin. apply wp_ret. split; [done|]. rewrite decide_False; [done|].
    rewrite Hin. by intros [? ?].
Qed.

(** ** Insertion into a free slot *)

Lemma repr_insert m Mp i k len v :
  repr m Mp → 0 ≤ i < table_size m → 0 ≤ len < 2 ^ 32 →
  in_chain (table_size m) (bytes_at km k len) i →
  (if in_use (data m i) =? 0
   then Mp !! bytes_at km k len = None ∧ size_ m < table_size m
   else ekey (data m i) = bytes_at km k len) →
  repr (let m' := set_elem m i (Elem k len 1 v) in
        if in_use (data m i) =? 0 then set_size m' (w32 (size_ m + 1)) else m')
    (<[bytes_at km k len:=v]> Mp).
Proof.
  intros Hr Hi Hlen Hch Hcase. pose proof (pow2_size_pos _ (rp_size _ _ Hr)) as Hts.
  set (K := bytes_at km k len) in *. set (e := Elem k len 1 v).
  assert (ekey e = K) as HeK by done.
  assert (∀ j, 0 ≤ j < table_size m → in_use (data m j) ≠ 0 → j ≠ i → ekey (data m j) ≠ K) as Hother.
  { intros j Hj Hu Hne Hk. destruct (Z.eqb_spec (in_use (data m i)) 0) as [Hz|Hz].
    - destruct Hcase as [Hnone _]. assert (Mp !! K = Some (edata (data m j))) as Hs; [|congruence].
      apply (rp_map _ _ Hr). eauto.
    - apply Hne, (rp_inj _ _ Hr); congruence || done. }
  assert (∀ m', (table_size m', data_ptr m', data m') = (table_size m, data_ptr m, upd (data m) i e) →
    size_ m' = Z.of_nat (base.size (<[K:=v]> Mp)) → size_ m' ≤ table_size m →
    repr m' (<[K:=v]> Mp)) as Hmk.
  { intros m' [= Hts' Hptr' Hd'] Hsz Hfull. split; rewrite ?Hts', ?Hptr', ?Hd'.
    - apply (rp_size _ _ Hr).
    - apply (rp_ptr _ _ Hr).
    - done.
    - done.
    - intros j Hj. destruct (decide (j = i)) as [->|]; [rewrite upd_eq; by right|].
      rewrite upd_ne by done. by apply (rp_flag _ _ Hr).
    - intros j Hj. destruct (decide (j = i)) as [->|]; [by rewrite upd_eq|].
      rewrite upd_ne by done. by apply (rp_len _ _ Hr).
    - intros j Hj. destruct (decide (j = i)) as [->|]; [by rewrite upd_eq|].
      rewrite upd_ne by done. by apply (rp_chain _ _ Hr).
    - intros j j' Hj Hj'. destruct (decide (j = i)) as [->|], (decide (j' = i)) as [->|];
        rewrite ?upd_eq, ?upd_ne by done; intros Hu1 Hu2 Hk; [done|..].
      + destruct (Hother j'); congruence || done.
      + destruct (Hother j); congruence || done.
      + by apply (rp_inj _ _ Hr).
    - intros ks w. rewrite lookup_insert_Some, (rp_map _ _ Hr). split.
      + intros [[<- <-]|(Hne & j & Hj & Hu & Hk & Hw)].
        * exists i. rewrite upd_eq. done.
        * exists j. destruct (decide (j = i)) as [->|]; [|by rewrite upd_ne].
          destruct (Z.eqb_spec (in_use (data m i)) 0); congruence.
      + intros (j & Hj & Hu & Hk & Hw). destruct (decide (j = i)) as [->|].
        * rewrite upd_eq in *. by left.
        * rewrite upd_ne in * by done. right. split; [|eauto]. intros ->. by destruct (Hother j). }
  pose proof (rp_count _ _ Hr). pose proof (rp_full _ _ Hr).
  destruct (Z.eqb_spec (in_use (data m i)) 0) as [Hz|Hz].
  - destruct Hcase as [Hnone Hlt]. apply Hmk; simpl; [done| |];
      rewrite w32_small by lia; rewrite ?map_size_insert_None by done; lia.
  - apply Hmk; simpl; [done| |done]. rewrite map_size_insert_Some; [done|].
    exists (edata (data m i)). apply (rp_map _ _ Hr). eauto.
Qed.
End refine.
