(* ===== verification/HashmapPut.v ===== *)
(** Creation, insertion and growth of the hash map: a put stores the entry in
    a free slot of its chain, or doubles the table and moves every entry. *)

From S2P Require Import Prelude CString TlsfInv TlsfHeap TlsfProps Heap Hashmap HashmapProps.

Section put.
Context {S M : Type} `{Allocator S} `{ByteMem M} (km : M).

Notation repr := (repr km).
Notation careful := (surely allocator_ops).
Notation K k len := (bytes_at km k len) (only parsing).

(** ** Choosing a slot *)

(** A slot in which the entry for [ks] may be stored. *)
Definition slot_for (m : hashmap) (Mp : gmap (list Z) Z) (ks : list Z) (i : Z) : Prop :=
  0 ≤ i < table_size m ∧ in_chain (table_size m) ks i ∧
  (if in_use (data m i) =? 0 then Mp !! ks = None ∧ size_ m < table_size m
   else ekey km (data m i) = ks).

Section probe.
Context (m : hashmap) (Mp : gmap (list Z) Z) (k len : Z) (s : S).
Context (Hr : repr m Mp) (Hlen : 0 ≤ len).
Notation ts := (table_size m).
Notation h := (hash_of (bytes_at km k len) ts).
Notation slot d := ((h + d) mod ts).
Notation holds_key e := (negb (in_use e =? 0) && hashmap_match_helper km e k len).

Lemma table_pos : 0 < ts < 2 ^ 32.
Proof. apply pow2_size_pos, (rp_size _ _ _ Hr). Qed.

Lemma hash_slot : h = slot 0.
Proof. pose proof table_pos. unfold hash_of. by rewrite Z.add_0_r, Z.mod_mod by lia. Qed.

Lemma wp_probe_match n d total (Q : Z + Z → S → Prop) :
  (∀ d', d ≤ d' < d + Z.of_nat n → in_use (data m (slot d')) ≠ 0 →
     ekey km (data m (slot d')) = bytes_at km k len → Q (inl (slot d')) s) →
  (∀ total', (∀ d', d ≤ d' < d + Z.of_nat n → holds_key (data m (slot d')) = false) →
     (total' = total + Z.of_nat n ∨ ∃ d', d ≤ d' < d + Z.of_nat n ∧ in_use (data m (slot d')) = 0) →
     Q (inr total') s) →
  wp (probe_match km n m k len (slot d) total) s Q.
Proof.
  pose proof table_pos as Hts. revert d total.
  induction n as [|n IH]; intros d total HQ1 HQ2; simpl; [apply wp_ret, HQ2; [lia|left; lia]|].
  pose proof (slot_range km m Mp Hr (h + d)) as Hi.
  apply wp_bind, wp_elem_at; [apply (rp_ptr _ _ _ Hr)|done|].
  destruct (holds_key (data m (slot d))) eqn:Hk.
  - apply wp_ret. eapply holds_key_iff in Hk as [? ?]; [|done..]. apply HQ1; [lia|done..].
  - apply wp_bind, wp_mod_table; [lia|]. rewrite chain_step by done. apply IH.
    + intros d' Hd'. apply HQ1. lia.
    + intros total' Hno Htot. apply HQ2.
      * intros d' Hd'. destruct (decide (d' = d)) as [->|]; [done|]. apply Hno. lia.
      * destruct Htot as [->|(d' & Hd' & Hu)]; [|right; exists d'; split; [lia|done]].
        destruct (rp_flag _ _ _ Hr _ Hi) as [Hu| ->]; [right|left; lia].
        exists d. split; [lia|done].
Qed.

Lemma wp_probe_empty n d (Q : option Z → S → Prop) :
  (∃ d', d ≤ d' < d + Z.of_nat n ∧ in_use (data m (slot d')) = 0) →
  (∀ d', d ≤ d' < d + Z.of_nat n → in_use (data m (slot d')) = 0 → Q (Some (slot d')) s) →
  wp (probe_empty n m (slot d)) s Q.
Proof.
  pose proof table_pos as Hts. revert d.
  induction n as [|n IH]; intros d (d' & Hd' & Hu) HQ; simpl; [lia|].
  pose proof (slot_range km m Mp Hr (h + d)) as Hi.
  apply wp_bind, wp_elem_at; [apply (rp_ptr _ _ _ Hr)|done|].
  destruct (Z.eqb_spec (in_use (data m (slot d))) 0) as [Hz|Hz].
  - apply wp_ret, HQ; [lia|done].
  - apply wp_bind, wp_mod_table; [lia|]. rewrite chain_step by done. apply IH.
    + exists d'. split; [|done]. assert (d' ≠ d) by (by intros ->). lia.
    + intros d'' Hd''. apply HQ. lia.
Qed.

(** The helper's index is always a slot in which the entry may go. *)
Lemma wp_hash_helper (Q : option Z → S → Prop) :
  (∀ i, slot_for m Mp (bytes_at km k len) i → Q (Some i) s) → Q None s →
  wp (hashmap_hash_helper km m k len) s Q.
Proof.
  intros HQ1 HQ2. pose proof table_pos as Hts. unfold hashmap_hash_helper.
  destruct (Z.leb_spec ts (size_ m)) as [|Hfree]; [by apply wp_ret|].
  apply wp_bind, wp_hash; [lia|]. rewrite hash_slot at 1.
  apply wp_bind, wp_probe_match.
  - intros d Hd Hu Hk. apply wp_ret, HQ1. split; [apply (slot_range km m Mp Hr)|].
    split; [by exists d|]. by destruct (Z.eqb_spec (in_use (data m (slot d))) 0).
  - intros total Hno Htot. destruct (Z.ltb_spec total HASHMAP_MAX_CHAIN_LENGTH) as [Hlt|]; [|by apply wp_ret].
    assert (bytes_at km k len ∉ dom Mp) as Hnone.
    { rewrite elem_of_dom. intros [v Hv]. apply (rp_map _ _ _ Hr) in Hv as (i & Hi & Hu & Hk & _).
      eapply (chain_complete km m Mp); [exact Hr|exact Hlen|exact Hi|done|done|]. intros d Hd. by apply Hno. }
    apply not_elem_of_dom in Hnone. rewrite hash_slot at 1. apply wp_probe_empty.
    + destruct Htot as [->|Hd]; [|exact Hd]. unfold HASHMAP_MAX_CHAIN_LENGTH in Hlt. lia.
    + intros d Hd Hu. apply HQ1. split; [apply (slot_range km m Mp Hr)|].
      split; [by exists d|]. by rewrite Hu.
Qed.

Lemma wp_put_at i v (Q : hashmap → S → Prop) :
  len < 2 ^ 32 → slot_for m Mp (bytes_at km k len) i →
  (∀ m', table_size m' = ts → data_ptr m' = data_ptr m →
     repr m' (<[bytes_at km k len:=v]> Mp) → Q m' s) →
  wp (put_at m i k len v) s Q.
Proof.
  intros Hl (Hi & Hch & Hcase) HQ. apply wp_bind, wp_elem_at; [apply (rp_ptr _ _ _ Hr)|done|].
  apply wp_ret, HQ; [by destruct (_ =? 0)..|]. by apply repr_insert.
Qed.
End probe.

(** ** Running out of memory *)

(** States the heap goes through while the map allocates and releases. *)
Inductive heap_steps : S → S → Prop :=
| hs_refl s : heap_steps s s
| hs_alloc s s1 s2 n p : heap_steps s s1 → alloc n s1 = Done (p, s2) → heap_steps s s2
| hs_release s s1 s2 p : heap_steps s s1 → release p s1 = Done (tt, s2) → heap_steps s s2.

(** The heap reached from [s0] holds the payloads [U] and, apart from them,
    the map's table, at least as large as its slots need. *)
Definition owned (s0 s : S) (U : gmap Z Z) (m : hashmap) : Prop :=
  heap_steps s0 s ∧ ∃ sz, sizeof_element * table_size m ≤ sz ∧
    U !! data_ptr m = None ∧ owns s (<[data_ptr m:=sz]> U).

(** Starting from [s], a request for a table of 2^31 slots (48 GiB) was met. *)
Definition huge (s : S) : Prop :=
  ∃ s1 s2 p, p ≠ 0 ∧ heap_steps s s1 ∧ alloc (sizeof_element * 2 ^ 31) s1 = Done (p, s2).

(** The one way a table cannot double: its size in 32 bits is the largest. *)
Definition limit (s : S) (m : hashmap) : Prop := table_size m = 2 ^ 31 ∨ huge s.

(** [kcalloc]: a fresh payload of at least the size asked for. *)
Lemma wp_kcalloc s0 s U nmemb sz0 (Q : Z → S → Prop) :
  heap_steps s0 s → owns s U → 0 < sz0 * nmemb ≤ 2 ^ 64 - 8 →
  (∀ p sz s', p ≠ 0 → U !! p = None → sz0 * nmemb ≤ sz → alloc (sz0 * nmemb) s = Done (p, s') →
     heap_steps s0 s' → owns s' (<[p:=sz]> U) → Q p s') →
  wp_unless (calloc (ops := careful) nmemb sz0) (calloc nmemb sz0) s Q.
Proof.
  intros Hst Hown Hn HQ. unfold calloc. rewrite w64_small by lia.
  apply (wp_unless_alloc _ _ _ _ U); [done|lia|..].
  - intros s' _. unfold wp_or, guard_. simpl. by destruct (Z.eqb_spec (sz0 * nmemb) 0); [lia|].
  - intros p sz s' Hrun Hp _ Hf Hsz Ho. destruct (Z.eqb_spec p 0); [lia|].
    apply wp_unless_ret, (HQ p sz); [done..| |done]. eapply hs_alloc; [exact Hst|exact Hrun].
Qed.

(** [kcalloc] for a table. *)
Lemma wp_calloc s0 s U n (Q : Z → S → Prop) :
  heap_steps s0 s → owns s U → 0 < n < 2 ^ 32 →
  (∀ p sz s', p ≠ 0 → U !! p = None → sizeof_element * n ≤ sz →
     heap_steps s0 s' → (n = 2 ^ 31 → huge s0) → owns s' (<[p:=sz]> U) → Q p s') →
  wp_unless (calloc (ops := careful) n sizeof_element) (calloc n sizeof_element) s Q.
Proof.
  intros Hst Hown Hn HQ. eapply wp_kcalloc; [done..|unfold sizeof_element; lia|].
  intros p sz s' Hp Hf Hsz Hrun Hst' Ho. apply (HQ p sz); [done..| |done]. intros ->. by exists s, s', p.
Qed.

(** ** Creation *)

Lemma pow2_test n : 0 ≤ n < 2 ^ 32 →
  (0 =? n) || negb (Z.land n (n - 1) =? 0) = false ↔ pow2_size n.
Proof.
  intros Hn. rewrite orb_false_iff, Z.eqb_neq, negb_false_iff, Z.eqb_eq. split.
  - intros [Hn0 Hland]. exists (Z.log2 n). pose proof (Z.log2_spec n ltac:(lia)) as [Hlo Hhi].
    pose proof (Z.log2_nonneg n). split; [split; [done|apply Z.log2_lt_pow2; lia]|].
    destruct (decide (n = 2 ^ Z.log2 n)) as [|Hne]; [done|exfalso].
    assert (Z.log2 (n - 1) = Z.log2 n) as Hlog by (apply Z.log2_unique; lia).
    assert (Z.testbit (Z.land n (n - 1)) (Z.log2 n) = true) as Hbit.
    { rewrite Z.land_spec, Z.bit_log2 by lia. rewrite <- Hlog. apply Z.bit_log2.
      assert (1 ≤ 2 ^ Z.log2 n) by (change 1 with (2 ^ 0); apply Z.pow_le_mono_r; lia). lia. }
    by rewrite Hland, Z.bits_0 in Hbit.
  - intros (k & Hk & ->). assert (0 < 2 ^ k) by (apply Z.pow_pos_nonneg; lia).
    split; [lia|]. rewrite Z.sub_1_r, <- Z.ones_equiv, Z.land_ones by lia. apply Z.mod_same. lia.
Qed.

Lemma repr_blank n p : pow2_size n → p ≠ 0 → repr (Hashmap n 0 p (λ _, blank_elem)) ∅.
Proof.
  intros Hn Hp. split; simpl; try done.
  - pose proof (pow2_size_pos n Hn). lia.
  - intros i _. by left.
  - intros ks v. rewrite lookup_empty. split; [done|]. by intros (i & _ & Hi & _).
Qed.

Lemma wp_hashmap_create s0 s U n (Q : Z * hashmap → S → Prop) :
  heap_steps s0 s → owns s U → 0 ≤ n < 2 ^ 32 →
  (pow2_size n → ∀ m s', table_size m = n → repr m ∅ → owned s0 s' U m →
     (limit s0 m → huge s0) → Q (0, m) s') →
  (¬ pow2_size n → ∀ m, Q (1, m) s) →
  wp_unless (hashmap_create (ops := careful) n) (hashmap_create n) s Q.
Proof.
  intros Hst Hown Hn HQ0 HQ1. unfold hashmap_create.
  destruct ((0 =? n) || _) eqn:Htest.
  - apply wp_unless_ret, HQ1. rewrite <- pow2_test by done. by rewrite Htest.
  - apply pow2_test in Htest; [|done]. pose proof (pow2_size_pos n Htest).
    apply wp_unless_bind. eapply wp_calloc; [done..|lia|]. intros p sz s' Hp Hf Hsz Hst' Hhuge Ho.
    destruct (Z.eqb_spec p 0); [done|]. apply wp_unless_ret, HQ0; [done..|by apply repr_blank| |].
    + split; [done|]. by exists sz.
    + by intros [?|?]; [apply Hhuge|].
Qed.

(** ** Growth *)

Lemma repr_no_entries m Mp :
  repr m Mp → (∀ i, 0 ≤ i < table_size m → in_use (data m i) = 0) → Mp = ∅.
Proof.
  intros Hr Hfree. apply map_empty. intros ks. destruct (Mp !! ks) as [v|] eqn:E; [|done].
  apply (rp_map _ _ _ Hr) in E as (i & Hi & Hu & _). by destruct (Hu (Hfree i Hi)).
Qed.

(** Moving one entry keeps the union of the two maps. *)
Lemma move_entry (Mp1 Mp2 : gmap (list Z) Z) ks v :
  Mp1 !! ks = Some v → Mp1 ##ₘ Mp2 →
  delete ks Mp1 ∪ <[ks:=v]> Mp2 = Mp1 ∪ Mp2 ∧ delete ks Mp1 ##ₘ <[ks:=v]> Mp2.
Proof.
  intros Hks Hdisj. split.
  - rewrite <- insert_union_r by apply lookup_delete_eq. rewrite insert_union_l.
    by rewrite insert_delete_id.
  - apply map_disjoint_insert_r. split; [apply lookup_delete_eq|].
    by apply map_disjoint_delete_l.
Qed.

(** What a put promises: on success the entry is stored; on failure (the table
    cannot grow any more) some entries may be gone and memory may be lost. *)
Definition put_post (s0 : S) (U : gmap Z Z) (m : hashmap) (Mp : gmap (list Z) Z) (ks : list Z) (v : Z)
    (r : Z * hashmap) (s' : S) : Prop :=
  (r.1 = 0 ∧ table_size m ≤ table_size r.2 ∧ repr r.2 (<[ks:=v]> Mp) ∧ owned s0 s' U r.2 ∧
     (limit s0 r.2 → limit s0 m)) ∨
  (r.1 = 1 ∧ limit s0 m ∧ ∃ Mp' U', Mp' ⊆ Mp ∧ repr r.2 Mp' ∧ U ⊆ U' ∧ owned s0 s' U' r.2).

(** [put] meets the promise on tables of at least [lo] slots; [put'] is the
    same over the heap that stops when exhausted. *)
Definition put_ok (s0 : S) (lo : Z) (put' put : hashmap → Z → Z → Z → ST S (Z * hashmap)) : Prop :=
  ∀ m Mp U k len v s, repr m Mp → 0 ≤ len < 2 ^ 32 → lo ≤ table_size m → owned s0 s U m →
    wp_unless (put' m k len v) (put m k len v) s (put_post s0 U m Mp (bytes_at km k len) v).

Section rehash.
Context (s0 : S) (put' put : hashmap → Z → Z → Z → ST S (Z * hashmap)).
Context (ts p : Z) (U : gmap Z Z) (Mp : gmap (list Z) Z).
Context (Hput : put_ok s0 (2 * ts) put' put).

(** The state of a move from the table [m] at [p] to [nh]: the entries are
    split between the two, and the slots of [m] before [i] are empty. *)
Record moving (i : Z) (m nh : hashmap) (s : S) : Prop := {
  mv_old : ∃ Mp1 Mp2, repr m Mp1 ∧ repr nh Mp2 ∧ Mp1 ##ₘ Mp2 ∧ Mp1 ∪ Mp2 = Mp;
  mv_same : table_size m = ts ∧ data_ptr m = p;
  mv_free j : 0 ≤ j < i → in_use (data m j) = 0;
  mv_size : 2 * ts ≤ table_size nh;
  mv_owned : owned s0 s U nh;
  mv_limit : limit s0 nh → huge s0;
}.

Lemma moving_skip i m nh s : moving i m nh s → in_use (data m i) = 0 → moving (i + 1) m nh s.
Proof.
  intros Hmv Hu. split; try apply Hmv. intros j Hj. destruct (decide (j = i)) as [->|]; [done|].
  apply (mv_free _ _ _ _ Hmv). lia.
Qed.

(** What a move ends in. *)
Definition moved (r : Z * hashmap * hashmap) (s : S) : Prop :=
  let '(flag, m, nh) := r in
  table_size m = ts ∧ data_ptr m = p ∧
  ((flag = 0 ∧ 2 * ts ≤ table_size nh ∧ repr nh Mp ∧ owned s0 s U nh ∧ (limit s0 nh → huge s0)) ∨
   (flag = 1 ∧ huge s0 ∧ ∃ Mp' U', Mp' ⊆ Mp ∧ repr m Mp' ∧ U ⊆ U' ∧ owned s0 s U' nh)).

Lemma wp_move n i m nh s :
  moving i m nh s → 0 ≤ i → i + Z.of_nat n = ts →
  let l := seqZ i (Z.of_nat n) in
  wp_unless (iterate_pairs_loop l m (hashmap_rehash_iterator put') nh)
    (iterate_pairs_loop l m (hashmap_rehash_iterator put) nh) s moved.
Proof.
  revert i m nh s. induction n as [|n IH]; intros i m nh s Hmv Hi Hn.
  - simpl. destruct Hmv as [(Mp1 & Mp2 & Hr1 & Hr2 & _ & HMp) [Hts Hp] Hfree Hsz Hown Hlim].
    assert (Mp1 = ∅) as -> by (apply (repr_no_entries m); [done|intros; apply Hfree; lia]).
    rewrite (left_id_L ∅ (∪)) in HMp. rewrite HMp in Hr2. apply wp_unless_ret. split; [done|]. split; [done|]. by left.
  - rewrite Nat2Z.inj_succ, seqZ_cons, <- Z.add_1_r, Z.pred_succ by lia. simpl.
    pose proof (mv_same _ _ _ _ Hmv) as [Hts Hp].
    destruct (mv_old _ _ _ _ Hmv) as (Mp1 & Mp2 & Hr1 & Hr2 & Hdisj & HMp).
    apply wp_unless_step, wp_elem_at; [apply (rp_ptr _ _ _ Hr1)|lia|].
    destruct (Z.eqb_spec (in_use (data m i)) 0) as [Hz|Hz]; simpl.
    { apply IH; [by apply moving_skip|lia..]. }
    assert (Mp1 !! ekey km (data m i) = Some (edata (data m i))) as Hin.
    { apply (rp_map _ _ _ Hr1). exists i. split; [lia|done]. }
    unfold hashmap_rehash_iterator at 1. apply wp_unless_bind, wp_unless_bind.
    eapply wp_unless_mono; [eapply Hput; [exact Hr2| |apply (mv_size _ _ _ _ Hmv)|apply (mv_owned _ _ _ _ Hmv)]|].
    { apply (rp_len _ _ _ Hr1); [lia|done]. }
    intros [flag nh'] s' [(Hflag & Hsz' & Hr2' & Hown' & Hlim)|(Hflag & Hlim & Mp' & U' & Hsub & Hr2' & HU & Hown')];
      simpl in *; subst flag.
    + apply wp_unless_ret. simpl. apply IH; [|lia..].
      destruct (move_entry Mp1 Mp2 (ekey km (data m i)) (edata (data m i)) Hin Hdisj) as [HMp' Hdisj'].
      split; [| |intros j Hj|pose proof (mv_size _ _ _ _ Hmv); lia|done|].
      * eexists _, _. split; [apply (repr_delete km m Mp1 i); [done|lia|done|done]|].
        split; [exact Hr2'|]. split; [done|]. exact (eq_trans HMp' HMp).
      * done.
      * simpl. unfold upd. destruct (Z.eqb_spec j i); [done|]. apply (mv_free _ _ _ _ Hmv). lia.
      * intros Hl. by apply (mv_limit _ _ _ _ Hmv), Hlim.
    + apply wp_unless_ret. simpl. apply wp_unless_ret. split; [done|]. split; [done|]. right. split; [done|].
      split; [by apply (mv_limit _ _ _ _ Hmv)|]. exists Mp1, U'. split; [|done]. rewrite <- HMp. by apply map_union_subseteq_l.
Qed.
End rehash.

(** A failed move leaves the old table owned, with the new one lost. *)
Lemma owned_back s0 s U U' p sz m nh :
  data_ptr m = p → sizeof_element * table_size m ≤ sz → U !! p = None →
  <[p:=sz]> U ⊆ U' → owned s0 s U' nh → ∃ U'', U ⊆ U'' ∧ owned s0 s U'' m.
Proof.
  intros Hp Hsz HU Hsub (Hst & sz' & _ & Hnh & Hown).
  assert (<[data_ptr nh:=sz']> U' !! p = Some sz) as Hlook.
  { rewrite lookup_insert_Some. right. assert (U' !! p = Some sz) as Hl.
    { eapply lookup_weaken; [apply lookup_insert_eq|exact Hsub]. }
    split; [congruence|done]. }
  exists (delete p (<[data_ptr nh:=sz']> U')). split.
  - apply map_subseteq_spec. intros a x Ha. rewrite lookup_delete_ne by congruence.
    assert (U' !! a = Some x) as Ha'.
    { eapply lookup_weaken; [|exact Hsub]. rewrite lookup_insert_ne; [done|congruence]. }
    rewrite lookup_insert_ne; [done|congruence].
  - split; [done|]. exists sz. rewrite Hp. split; [done|]. split; [apply lookup_delete_eq|].
    by rewrite insert_delete_id.
Qed.

Lemma wp_rehash s0 put' put m Mp U s :
  put_ok s0 (2 * table_size m) put' put → repr m Mp → owned s0 s U m →
  wp_unless (hashmap_rehash_helper (ops := careful) put' m) (hashmap_rehash_helper put m) s (λ r s',
    (r.1 = 0 ∧ 2 * table_size m ≤ table_size r.2 ∧ repr r.2 Mp ∧ owned s0 s' U r.2 ∧ (limit s0 r.2 → huge s0)) ∨
    (r.1 = 1 ∧ limit s0 m ∧ ∃ Mp' U', Mp' ⊆ Mp ∧ repr r.2 Mp' ∧ U ⊆ U' ∧ owned s0 s' U' r.2)).
Proof.
  intros Hput Hr (Hst & sz & Hsz & HU & Hown). pose proof (pow2_size_pos _ (rp_size _ _ _ Hr)) as Hts.
  unfold hashmap_rehash_helper. apply wp_unless_bind.
  eapply wp_hashmap_create; [done..|apply w32_range| |].
  - intros Hpow nh s1 Hnh Hr2 Hown2 Hlim. simpl.
    assert (table_size nh = 2 * table_size m) as Hnh'.
    { rewrite Hnh. apply w32_small. destruct (rp_size _ _ _ Hr) as (k & Hk & E).
      destruct (decide (k = 31)) as [->|]; [|].
      - apply pow2_size_pos in Hpow. rewrite E in Hpow. by destruct Hpow.
      - assert (2 ^ k < 2 ^ 31) by (apply Z.pow_lt_mono_r; lia). lia. }
    pose proof (wp_move s0 put' put (table_size m) (data_ptr m) (<[data_ptr m:=sz]> U) Mp Hput
      (Z.to_nat (table_size m)) 0 m nh s1) as Hmove. rewrite Z2Nat.id in Hmove by lia.
    apply wp_unless_bind. eapply wp_unless_mono; [apply Hmove; [|lia..]|].
    { split; [exists Mp, ∅|done|lia|lia|done|done]. split; [done|]. split; [done|].
      split; [apply map_disjoint_empty_r|apply (right_id_L ∅ (∪))]. }
    intros [[flag m'] nh'] s2 (Hts' & Hp' & [(-> & Hsz' & Hr' & Hown' & Hlim')|(-> & Hlim' & Mp' & U' & HM & Hr' & HU' & Hown')]).
    + simpl. apply wp_unless_step. unfold hashmap_destroy. rewrite Hp'.
      destruct (Z.eqb_spec (data_ptr m) 0) as [Hz|]; [by destruct (rp_ptr _ _ _ Hr)|].
      destruct Hown' as (Hst' & sz' & Hszn & Hn & Hown').
      assert (data_ptr nh' ≠ data_ptr m) as Hne.
      { intros E. rewrite E, lookup_insert_eq in Hn. done. }
      apply wp_bind. eapply wp_mono; [eapply wp_run, (release_spec _ _ _ (λ _ s', owns s' _) Hown')|].
      { rewrite lookup_insert_ne, lookup_insert_eq by done. done. }
      { intros s' Ho. exact Ho. }
      intros [] s3 [Hrun Ho]. apply wp_ret, wp_unless_ret. left. simpl. split; [done|]. split; [done|].
      split; [done|]. split; [|done]. split; [by eapply hs_release|]. exists sz'. split; [done|].
      rewrite lookup_insert_ne in Hn by done. split; [done|].
      rewrite insert_insert_ne in Ho by done. by rewrite delete_insert_id in Ho by (by rewrite lookup_insert_ne).
    + simpl. apply wp_unless_ret. right. split; [done|]. simpl.
      destruct (owned_back s0 s2 U U' (data_ptr m) sz m' nh') as (U'' & HU'' & Ho);
        try done; [by rewrite Hts'|].
      split; [by right|]. by exists Mp', U''.
  - intros Hnp m'. apply wp_unless_ret. right. split; [done|]. split.
    { left. destruct (rp_size _ _ _ Hr) as (k & Hk & E). destruct (decide (k = 31)) as [->|]; [done|].
      destruct Hnp. rewrite E. exists (k + 1). split; [lia|].
      rewrite <- (Z.pow_succ_r 2 k) by lia. apply w32_small. split; [apply Z.pow_nonneg; lia|].
      apply Z.pow_lt_mono_r; lia. }
    exists Mp, U. simpl.
    split; [done|]. split; [done|]. split; [done|]. split; [done|]. by exists sz.
Qed.

(** ** Insertion *)

Lemma put_pow_le (f : nat) ts : 2 ^ (32 - Z.of_nat (Datatypes.S f)) ≤ ts → 0 < ts →
  2 ^ (32 - Z.of_nat f) ≤ 2 * ts.
Proof.
  intros Hf Hts. destruct (Z.le_gt_cases 1 (32 - Z.of_nat f)).
  - replace (32 - Z.of_nat f) with (Z.succ (32 - Z.of_nat (Datatypes.S f))) by lia.
    rewrite Z.pow_succ_r by lia. lia.
  - assert (2 ^ (32 - Z.of_nat f) ≤ 2 ^ 0) by (apply Z.pow_le_mono_r; lia). lia.
Qed.

(** [f] levels of recursion are enough for tables of [2 ^ (32 - f)] slots. *)
Lemma put_ok_fuel s0 f : put_ok s0 (2 ^ (32 - Z.of_nat f)) (hashmap_put (ops := careful) km f) (hashmap_put km f).
Proof.
  induction f as [|f IH]; intros m Mp U k len v s Hr Hlen Hlo Hown;
    pose proof (pow2_size_pos _ (rp_size _ _ _ Hr)) as Hts;
    [change (2 ^ (32 - Z.of_nat 0)) with (2 ^ 32) in Hlo; lia|].
  cbn [hashmap_put]. apply wp_unless_step. apply (wp_hash_helper m Mp k len s Hr); [lia|..].
  - intros i Hslot. apply wp_unless_step. eapply (wp_put_at m Mp k len s Hr); [lia|lia|done|].
    intros m' Hts' Hp' Hr'. apply wp_unless_ret. left. cbn [fst snd]. unfold owned, limit in *.
    rewrite Hts', Hp'. split; [done|]. split; [lia|]. split; [exact Hr'|]. by split.
  - apply wp_unless_bind. eapply wp_unless_mono; [apply (wp_rehash s0 _ _ m Mp U s); [|done..]|].
    { intros m1 ???????? Hlo1 ?. apply IH; [done..| |done].
      pose proof (put_pow_le f (table_size m) Hlo). lia. }
    intros [flag m1] s1 [(Hf & Hsz & Hr1 & Ho1 & Hlim)|(Hf & Hlim & Mp' & U' & HM & Hr1 & HU & Ho1)]; simpl in *; subst flag.
    + simpl. eapply wp_unless_mono.
      { apply (IH m1 Mp U k len v s1 Hr1); [done| |done]. pose proof (put_pow_le f (table_size m) Hlo). lia. }
      intros [flag m2] s2 [(Hf & Hsz2 & Hr2 & Ho2 & Hlim2)|(Hf & Hlim2 & Hrest)]; simpl in *.
      * left. simpl. split_and!; [done|lia|done|done|]. intros Hl. right. by apply Hlim, Hlim2.
      * right. split; [done|]. split; [right; by apply Hlim|]. exact Hrest.
    + apply wp_unless_ret. right. simpl. split; [done|]. split; [done|]. by exists Mp', U'.
Qed.

(** C11. [hashmap_put] terminates on every map, within 33 nested calls, and on
    success the map holds exactly the old entries with the key's value
    replaced or added, in a table the heap owns, whether or not the table had
    to grow; everything else on the heap stays owned.  It fails only at the
    32-bit limit of 2^31 slots, losing at most entries of the map, and has
    undefined behaviour only where a request of its own was refused: over a
    heap that stops instead of returning null, it is never undefined. *)
Theorem hashmap_put_correct m Mp U sz k len v (s : S) :
  repr m Mp → 0 ≤ len < 2 ^ 32 →
  sizeof_element * table_size m ≤ sz → U !! data_ptr m = None → owns s (<[data_ptr m:=sz]> U) →
  unless_exhausted (λ ops, hashmap_put (ops := ops) km 33 m k len v) s (put_post s U m Mp (bytes_at km k len) v).
Proof.
  intros Hr Hlen Hsz HU Hown. pose proof (pow2_size_pos _ (rp_size _ _ _ Hr)).
  assert (owned s s U m) as Ho by (split; [apply hs_refl|by exists sz]).
  assert (2 ^ (32 - Z.of_nat 33) ≤ table_size m) as Hlo by (change (2 ^ (32 - Z.of_nat 33)) with 0; lia).
  exact (put_ok_fuel s 33 m Mp U k len v s Hr Hlen Hlo Ho).
Qed.

(** [hashmap_create] accepts exactly the powers of two; the new map is
    empty, in a fresh allocation that holds its slots. *)
Theorem hashmap_create_correct n U (s : S) :
  owns s U → 0 ≤ n < 2 ^ 32 →
  unless_exhausted (λ ops, hashmap_create (ops := ops) n) s (λ '(flag, m) s',
    (flag = 0 ∧ pow2_size n ∧ table_size m = n ∧ repr m ∅ ∧ owned s s' U m) ∨
    (flag = 1 ∧ ¬ pow2_size n)).
Proof.
  intros Hown Hn. eapply wp_hashmap_create; [apply hs_refl|done|done| |].
  - intros Hp m s' Hts Hr Ho _. left. done.
  - intros Hp m. by right.
Qed.

(** ** The pointers stored in a map *)

(** Every entry of [m] satisfies [P] of its key pointer, length and value. *)
Definition elems_ok (P : Z → Z → Z → Prop) (m : hashmap) : Prop :=
  ∀ i, 0 ≤ i < table_size m → in_use (data m i) ≠ 0 →
    P (key (data m i)) (key_len (data m i)) (edata (data m i)).

Lemma wlp_elem_at m i (s : S) (Q : element → S → Prop) :
  (0 ≤ i < table_size m → Q (data m i) s) → wlp (elem_at m i) s Q.
Proof.
  intros HQ. apply wlp_bind, wlp_guard. intros Hg. rewrite !andb_true_iff in Hg. apply wlp_ret, HQ. lia.
Qed.

Lemma elems_ok_set (P : Z → Z → Z → Prop) m i e :
  elems_ok P m → (in_use e ≠ 0 → P (key e) (key_len e) (edata e)) → elems_ok P (set_elem m i e).
Proof.
  intros HP He j Hj. simpl. unfold upd. destruct (j =? i); [exact He|by apply HP].
Qed.

Section elems.
Context (P : Z → Z → Z → Prop).
Context (put : hashmap → Z → Z → Z → ST S (Z * hashmap)).
Context (Hput : ∀ m k len v s, elems_ok P m → P k len v → wlp (put m k len v) s (λ r _, elems_ok P r.2)).

Lemma wlp_pairs_elems l m nh s :
  elems_ok P m → elems_ok P nh → Forall (λ i, 0 ≤ i < table_size m) l →
  wlp (iterate_pairs_loop l m (hashmap_rehash_iterator put) nh) s
    (λ '(_, m', nh') _, elems_ok P m' ∧ elems_ok P nh').
Proof.
  revert m nh s. induction l as [|i l IH]; intros m nh s Hm Hnh Hl; simpl; [by apply wlp_ret|].
  apply Forall_cons in Hl as [Hi Hl]. apply wlp_bind, wlp_elem_at. intros _.
  destruct (Z.eqb_spec (in_use (data m i)) 0) as [|Hu]; simpl; [by apply IH|].
  apply wlp_bind, wlp_bind. eapply wlp_mono; [apply Hput; [done|by apply Hm]|].
  intros [temp nh'] s' Hnh'. apply wlp_ret. destruct (0 <? temp); simpl; [by apply wlp_ret|].
  apply IH; [|done..]. by apply elems_ok_set.
Qed.

Lemma wlp_rehash_elems m (s : S) :
  elems_ok P m → wlp (hashmap_rehash_helper put m) s (λ r _, elems_ok P r.2).
Proof.
  intros Hm. unfold hashmap_rehash_helper. apply wlp_bind.
  eapply (wlp_mono _ _ (λ r _, elems_ok P r.2)).
  - unfold hashmap_create. case_match; [apply wlp_ret; by intros i ? []|].
    apply wlp_bind, wlp_any. intros p s'. case_match; apply wlp_ret; by intros i ? [].
  - intros [flag nh] s1 Hnh. simpl. case_match; [by apply wlp_ret|]. apply wlp_bind.
    eapply wlp_mono; [apply wlp_pairs_elems; [done..|apply Forall_seqZ; lia]|].
    intros [[flag' m'] nh'] s2 [Hm' Hnh']. case_match; [by apply wlp_ret|].
    apply wlp_bind, wlp_any. intros _ s3. by apply wlp_ret.
Qed.
End elems.

(** A put stores no pointer but its own. *)
Lemma wlp_put_elems P fuel m k len v (s : S) :
  elems_ok P m → P k len v → wlp (hashmap_put km fuel m k len v) s (λ r _, elems_ok P r.2).
Proof.
  intros Hm Hk. revert m k len v s Hm Hk. induction fuel as [|fuel IH]; intros m k len v s Hm Hk; [done|].
  cbn [hashmap_put]. apply wlp_bind, wlp_any. intros [index|] s1.
  - apply wlp_bind, wlp_bind, wlp_elem_at. intros _. do 2 apply wlp_ret. simpl.
    pose proof (elems_ok_set P m index (Elem k len 1 v) Hm (λ _, Hk)) as Hset. by case_match.
  - apply wlp_bind. eapply wlp_mono; [apply wlp_rehash_elems; [exact IH|done]|].
    intros [flag m'] s2 Hm'. case_match; [by apply wlp_ret|by apply IH].
Qed.
End put.

(** ** Iteration *)

Section iterate.
Context {S M : Type} `{Allocator S} `{ByteMem M} (km : M).

(** The values in the slots of [l], with their keys. *)
Definition entries (m : hashmap) (l : list Z) : list (list Z * Z) :=
  (λ i, (ekey km (data m i), edata (data m i))) <$> filter (λ i, in_use (data m i) ≠ 0) l.

Lemma entries_map m Mp : repr km m Mp → entries m (seqZ 0 (table_size m)) ≡ₚ map_to_list Mp.
Proof.
  intros Hr. apply NoDup_Permutation; [|apply NoDup_map_to_list|].
  - apply NoDup_fmap_2_strong; [|apply NoDup_filter, NoDup_seqZ].
    intros i j Hi Hj [= Hk _]. apply list_elem_of_filter in Hi as [Hi Hil], Hj as [Hj Hjl].
    apply elem_of_seqZ in Hil, Hjl. apply (rp_inj _ _ _ Hr); lia || done.
  - intros [ks v]. rewrite elem_of_map_to_list, (rp_map _ _ _ Hr). unfold entries.
    rewrite list_elem_of_fmap. split.
    + intros (i & [= -> ->] & Hi). apply list_elem_of_filter in Hi as [Hi Hil].
      apply elem_of_seqZ in Hil. exists i. split; [lia|done].
    + intros (i & Hi & Hu & <- & <-). exists i. split; [done|].
      apply list_elem_of_filter. split; [done|]. apply elem_of_seqZ. lia.
Qed.

(** Call [g] on the values in turn until it returns 0. *)
Fixpoint run_until {C} (g : C → Z → Z * C) (ctx : C) (vs : list Z) : Z * C :=
  match vs with
  | [] => (0, ctx)
  | v :: vs => let '(r, ctx) := g ctx v in if r =? 0 then (1, ctx) else run_until g ctx vs
  end.

Lemma wp_iterate_loop {C} (g : C → Z → Z * C) m Mp l ctx (s : S) :
  repr km m Mp → Forall (λ i, 0 ≤ i < table_size m) l →
  wp (iterate_loop l m (λ ctx v, mret (g ctx v)) ctx) s
     (λ r s', s' = s ∧ r = run_until g ctx (entries m l).*2).
Proof.
  intros Hr Hl. revert ctx. induction l as [|i l IH]; intros ctx; simpl; [by apply wp_ret|].
  apply Forall_cons in Hl as [Hi Hl].
  apply wp_bind, wp_elem_at; [apply (rp_ptr _ _ _ Hr)|done|]. unfold entries.
  destruct (Z.eqb_spec (in_use (data m i)) 0) as [Hz|Hz]; simpl.
  - rewrite filter_cons_False by (intros Hn; by destruct Hn). by apply IH.
  - rewrite filter_cons_True by done. simpl. apply wp_bind, wp_ret.
    destruct (g ctx (edata (data m i))) as [r ctx']. destruct (r =? 0); [by apply wp_ret|]. by apply IH.
Qed.

(** [hashmap_iterate] calls the function once for every entry of the map,
    in some order, and stops early exactly when it returns 0. *)
Theorem hashmap_iterate_correct {C} (g : C → Z → Z * C) m Mp ctx (s : S) :
  repr km m Mp →
  ∃ vs, vs ≡ₚ (map_to_list Mp).*2 ∧
    hashmap_iterate m (λ ctx v, mret (g ctx v)) ctx s = Done (run_until g ctx vs, s).
Proof.
  intros Hr. exists (entries m (seqZ 0 (table_size m))).*2. split.
  - apply fmap_Permutation. by apply entries_map.
  - pose proof (wp_iterate_loop g m Mp (seqZ 0 (table_size m)) ctx s Hr) as Hwp.
    destruct (wp_done _ _ _ (Hwp ltac:(apply Forall_seqZ; lia))) as (r & s' & Hrun & -> & ->). exact Hrun.
Qed.
End iterate.

(** ** Witnesses: a one-slot table in the kernel heap *)

Definition no_keys : bmem := BMem (λ _, 0).
Definition tiny (p : Z) : hashmap := Hashmap 1 0 p (λ _, blank_elem).
Definition tiny_put (p : Z) : hashmap := Hashmap 1 1 p (upd (λ _, blank_elem) 0 (Elem 16 3 1 77)).

Lemma pow2_1 : pow2_size 1.
Proof. exists 0. split; [lia|done]. Qed.

Lemma tiny_repr p : p ≠ 0 → repr no_keys (tiny p) ∅.
Proof. apply repr_blank, pow2_1. Qed.

Lemma tiny_slot p : slot_for no_keys (tiny p) ∅ (bytes_at no_keys 16 3) 0.
Proof.
  split; [simpl; lia|]. split; [|done]. exists 0. split; [lia|].
  change (table_size (tiny p)) with 1. by rewrite Z.mod_1_r.
Qed.

Lemma tiny_put_repr p : p ≠ 0 → repr no_keys (tiny_put p) (<[bytes_at no_keys 16 3:=77]> ∅).
Proof.
  intros Hp. destruct (tiny_slot p) as (Hi & Hch & Hcase).
  exact (repr_insert no_keys (tiny p) ∅ 0 16 3 77 (tiny_repr p Hp) Hi ltac:(lia) Hch Hcase).
Qed.

(** A kernel heap that owns the table. *)
Lemma tiny_heap : ∃ (h : heap) p sz U, p ≠ 0 ∧ sizeof_element * 1 ≤ sz ∧
  U !! p = None ∧ owns h (<[p:=sz]> U).
Proof.
  destruct example_live as (s & B & a & sz & Hinv & Ha).
  destruct (inv_bound _ _ _ _ _ Hinv Ha) as (b & _ & _ & _ & Hbsz & _).
  assert (owns (Heap s 4096 0) (payloads (used_map B))) as Ho.
  { by exists B. }
  exists (Heap s 4096 0), (a + 16), sz, (delete (a + 16) (payloads (used_map B))).
  assert (payloads (used_map B) !! (a + 16) = Some sz) as Hl.
  { rewrite lookup_payloads. by replace (a + 16 - 16) with a by lia. }
  rewrite insert_delete_id by exact Hl. split; [pose proof (owns_nonnull _ _ _ _ Ho Hl); lia|].
  split; [unfold sizeof_element; lia|]. split; [apply lookup_delete_eq|exact Ho].
Qed.

Example hashmap_put_correct_witness : ∃ (h : heap) p U, owns h U ∧
  unless_exhausted (λ ops, hashmap_put (ops := ops) no_keys 33 (tiny p) 16 3 77) h
    (put_post no_keys h (delete p U) (tiny p) ∅ (bytes_at no_keys 16 3) 77).
Proof.
  destruct tiny_heap as (h & p & sz & U & Hp & Hsz & HU & Ho).
  exists h, p, (<[p:=sz]> U). split; [exact Ho|]. rewrite delete_insert_id by exact HU.
  apply (hashmap_put_correct no_keys (tiny p) ∅ U sz 16 3 77 h); [by apply tiny_repr|lia|done..].
Defined.

Example hashmap_create_correct_witness : ∃ (h : heap) U, owns h U ∧
  unless_exhausted (λ ops, hashmap_create (ops := ops) 16) h (λ '(flag, m) h',
    (flag = 0 ∧ pow2_size 16 ∧ table_size m = 16 ∧ repr no_keys m ∅ ∧ owned h h' U m) ∨
    (flag = 1 ∧ ¬ pow2_size 16)).
Proof.
  destruct tiny_heap as (h & p & sz & U & _ & _ & _ & Ho).
  exists h, (<[p:=sz]> U). split; [exact Ho|].
  apply (hashmap_create_correct no_keys 16 _ h Ho). lia.
Defined.

Example hashmap_iterate_correct_witness :
  ∃ vs, vs ≡ₚ (map_to_list (<[bytes_at no_keys 16 3:=77]> (∅ : gmap (list Z) Z))).*2 ∧
    hashmap_iterate (tiny_put 4096) (λ ctx v, mret (1, v :: ctx)) [] (Heap blank 0 0) =
    Done (run_until (λ ctx v, (1, v :: ctx)) [] vs, Heap blank 0 0).
Proof.
  apply (hashmap_iterate_correct no_keys (λ ctx v, (1, v :: ctx)) (tiny_put 4096) _ []).
  by apply tiny_put_repr.
Defined.

Example hashmap_get_correct_witness :
  wp (hashmap_get no_keys (tiny_put 4096) 16 3) (Heap blank 0 0) (λ v s',
    s' = Heap blank 0 0 ∧ v = default 0 (<[bytes_at no_keys 16 3:=77]> (∅ : gmap (list Z) Z) !! bytes_at no_keys 16 3)).
Proof. apply (hashmap_get_correct no_keys (tiny_put 4096)); [by apply tiny_put_repr|lia]. Defined.

Example hashmap_remove_correct_witness :
  wp (hashmap_remove no_keys (tiny_put 4096) 16 3) (Heap blank 0 0) (λ '(flag, m') s',
    s' = Heap blank 0 0 ∧
    if decide (is_Some (<[bytes_at no_keys 16 3:=77]> (∅ : gmap (list Z) Z) !! bytes_at no_keys 16 3))
    then flag = 0 ∧ repr no_keys m' (delete (bytes_at no_keys 16 3) (<[bytes_at no_keys 16 3:=77]> ∅))
    else flag = 1 ∧ m' = tiny_put 4096).
Proof. apply (hashmap_remove_correct no_keys (tiny_put 4096)); [by apply tiny_put_repr|lia]. Defined.
