(* ===== verification/Queue.v ===== *)
(** sys/include/sys/queue.h: the doubly linked tail queue, with its pointers
    to [first] and [next] cells. *)

From S2P Require Import Prelude.

(** ** State *)

(** What a [struct type **] of the macros can point to: the [first] field of a
    queue head, or the [next] field of an element. *)
Inductive cell := FirstOf (head : Z) | NextOf (elm : Z).

#[export] Instance cell_eq_dec : EqDecision cell.
Proof. solve_decision. Defined.

(** The heads, and one entry field of every element ([0] is null). *)
Record queues := Queues {
  first : Z → Z;
  last : Z → cell;
  next : Z → Z;
  prev : Z → cell;
}.

Definition load (q : queues) (c : cell) : Z :=
  match c with FirstOf h => first q h | NextOf e => next q e end.

(** [*c = v] *)
Definition store (q : queues) (c : cell) (v : Z) : queues :=
  match c with
  | FirstOf h => Queues (upd (first q) h v) (last q) (next q) (prev q)
  | NextOf e => Queues (first q) (last q) (upd (next q) e v) (prev q)
  end.

Definition set_last (q : queues) (h : Z) (c : cell) : queues :=
  Queues (first q) (upd (last q) h c) (next q) (prev q).
Definition set_prev (q : queues) (e : Z) (c : cell) : queues :=
  Queues (first q) (last q) (next q) (upd (prev q) e c).

(** ** Operations *)

Definition TAILQ_FIRST (q : queues) (head : Z) : Z := first q head.
Definition TAILQ_NEXT (q : queues) (elm : Z) : Z := next q elm.
Definition TAILQ_EMPTY (q : queues) (head : Z) : bool := TAILQ_FIRST q head =? 0.

(** [*(((struct headname * )c)->last)]: the word after the cell [c], read as a
    pointer to a cell.  After [first] comes [last], after [next] comes
    [prev]. *)
Definition through_last (q : queues) (c : cell) : Z :=
  match c with
  | FirstOf h => load q (last q h)
  | NextOf e => load q (prev q e)
  end.

Definition TAILQ_LAST (q : queues) (head : Z) : Z := through_last q (last q head).
Definition TAILQ_PREV (q : queues) (elm : Z) : Z := through_last q (prev q elm).

Definition TAILQ_INIT (q : queues) (head : Z) : queues :=
  set_last (store q (FirstOf head) 0) head (FirstOf head).

Definition TAILQ_INSERT_HEAD (q : queues) (head elm : Z) : queues :=
  let q := store q (NextOf elm) (first q head) in
  let q := if negb (next q elm =? 0) then set_prev q (first q head) (NextOf elm)
           else set_last q head (NextOf elm) in
  let q := store q (FirstOf head) elm in
  set_prev q elm (FirstOf head).

Definition TAILQ_INSERT_TAIL (q : queues) (head elm : Z) : queues :=
  let q := store q (NextOf elm) 0 in
  let q := set_prev q elm (last q head) in
  let q := store q (last q head) elm in
  set_last q head (NextOf elm).

(** The elements the loop macros visit, in order; the body may not change
    the queue.  [None] when [fuel] elements did not reach the end. *)
Fixpoint foreach_from (fuel : nat) (step : Z → Z) (var : Z) : option (list Z) :=
  match fuel with
  | O => None
  | S fuel => if var =? 0 then Some [] else l ← foreach_from fuel step (step var); Some (var :: l)
  end.
Definition TAILQ_FOREACH_SAFE (fuel : nat) (q : queues) (head : Z) : option (list Z) :=
  foreach_from fuel (TAILQ_NEXT q) (TAILQ_FIRST q head).
Definition TAILQ_FOREACH_REVERSE (fuel : nat) (q : queues) (head : Z) : option (list Z) :=
  foreach_from fuel (TAILQ_PREV q) (TAILQ_LAST q head).

(** ** Specification *)

(** Following the cells from [c] leads through the elements [l] to the cell
    [e]. *)
Fixpoint seg (q : queues) (c : cell) (l : list Z) (e : cell) : Prop :=
  match l with
  | [] => e = c
  | x :: l => x ≠ 0 ∧ load q c = x ∧ prev q x = c ∧ seg q (NextOf x) l e
  end.

(** The queue at [head] holds the elements [l]. *)
Record queue_of (q : queues) (head : Z) (l : list Z) : Prop := {
  qo_seg : seg q (FirstOf head) l (last q head);
  qo_end : load q (last q head) = 0;
  qo_nodup : NoDup l;
}.

(** ** Lemmas *)

Lemma load_store q c v c' : load (store q c v) c' = if decide (c' = c) then v else load q c'.
Proof.
  destruct c as [h|e], c' as [h'|e']; simpl; unfold upd;
    [destruct (Z.eqb_spec h' h)|..|destruct (Z.eqb_spec e' e)];
    try case_decide; congruence.
Qed.

Lemma prev_store q c v : prev (store q c v) = prev q.
Proof. by destruct c. Qed.
Lemma last_store q c v : last (store q c v) = last q.
Proof. by destruct c. Qed.

Lemma seg_app q c l1 l2 e : seg q c (l1 ++ l2) e ↔ ∃ c', seg q c l1 c' ∧ seg q c' l2 e.
Proof.
  revert c. induction l1 as [|x l1 IH]; intros c; simpl.
  - split; [by exists c|]. by intros (c' & -> & ?).
  - setoid_rewrite IH. split.
    + intros (? & ? & ? & c' & ? & ?). by exists c'.
    + intros (c' & (? & ? & ? & ?) & ?). split_and!; try done. by exists c'.
Qed.

Lemma seg_end q c l e : seg q c l e → e = c ∧ l = [] ∨ ∃ x, x ∈ l ∧ e = NextOf x.
Proof.
  revert c. induction l as [|x l IH]; intros c; simpl; [by left|].
  intros (_ & _ & _ & Hs). right. destruct (IH _ Hs) as [[-> _]|(y & Hy & ->)].
  - exists x. split; [left|done].
  - exists y. split; [by right|done].
Qed.

(** A segment only depends on the cells before its end and on the [prev]
    fields of its elements. *)
Lemma seg_frame q q' c l e :
  seg q c l e → NoDup l → (∀ y, c = NextOf y → y ∉ l) →
  (∀ c', c' = c ∨ (∃ y, y ∈ l ∧ c' = NextOf y) → c' ≠ e → load q' c' = load q c') →
  (∀ x, x ∈ l → prev q' x = prev q x) → seg q' c l e.
Proof.
  revert c. induction l as [|x l IH]; intros c; simpl; [done|].
  intros (Hx & Hc & Hp & Hs) [Hxl Hnd]%NoDup_cons Hcl Hload Hprev.
  assert (c ≠ e) as Hce.
  { intros ->. destruct (seg_end _ _ _ _ Hs) as [[-> _]|(y & Hy & ->)];
      (eapply Hcl; [done|]); [left|by right]. }
  split; [done|]. split; [rewrite Hload; [done|by left|done]|].
  split; [rewrite Hprev by left; done|]. apply IH; [done|done| | |].
  - by intros y [= <-].
  - intros c' Hc'. apply Hload. right. destruct Hc' as [->|(y & Hy & ->)]; [by exists x; split; [left|]|].
    exists y. split; [by right|done].
  - intros y Hy. apply Hprev. by right.
Qed.

Lemma queue_of_frame q q' h l :
  queue_of q h l → last q' h = last q h → first q' h = first q h →
  (∀ x, x ∈ l → next q' x = next q x ∧ prev q' x = prev q x) → queue_of q' h l.
Proof.
  intros [Hs He Hnd] Hlast Hfirst Hl. split; [| |done]; rewrite Hlast.
  - eapply seg_frame; [exact Hs|done|done| |].
    + intros c [->|(y & Hy & ->)] _; [done|]. by apply Hl.
    + intros x Hx. by apply Hl.
  - rewrite <- He. destruct (seg_end _ _ _ _ Hs) as [[-> _]|(x & Hx & ->)]; [done|]. by apply Hl.
Qed.

Lemma seg_first q h l e : seg q (FirstOf h) l e → load q e = 0 → first q h = default 0 (head l).
Proof. destruct l; simpl; [by intros ->|by intros (_ & ? & _)]. Qed.

Lemma seg_nonnull q c l e x : seg q c l e → x ∈ l → x ≠ 0.
Proof.
  revert c. induction l as [|y l IH]; intros c; [by intros _ []%not_elem_of_nil|].
  intros (? & _ & _ & Hs) [->|Hx]%elem_of_cons; [done|]. by eapply IH.
Qed.

(** ** Theorems *)

Lemma load_set_prev q e c c' : load (set_prev q e c) c' = load q c'.
Proof. by destruct c'. Qed.
Lemma load_set_last q h c c' : load (set_last q h c) c' = load q c'.
Proof. by destruct c'. Qed.

Lemma queue_init q head : queue_of (TAILQ_INIT q head) head [].
Proof. split; simpl; unfold upd; rewrite ?Z.eqb_refl; simpl; rewrite ?Z.eqb_refl; [done|apply upd_eq|apply NoDup_nil_2]. Qed.

(** The end of a queue is a cell of its own. *)
Lemma queue_end q h l x : queue_of q h l → x ∉ l → last q h ≠ NextOf x.
Proof.
  intros [Hs _ _] Hx E. rewrite E in Hs.
  destruct (seg_end _ _ _ _ Hs) as [[? _]|(y & Hy & [= ->])]; done.
Qed.

Section insert_tail.
Context (q : queues) (head x : Z).
Context (Hend : last q head ≠ NextOf x).
Notation q' := (TAILQ_INSERT_TAIL q head x).

Lemma tail_load c : load q' c =
  if decide (c = last q head) then x else if decide (c = NextOf x) then 0 else load q c.
Proof. unfold TAILQ_INSERT_TAIL. by rewrite load_set_last, load_store, load_set_prev, load_store. Qed.

Lemma tail_prev y : prev q' y = if decide (y = x) then last q head else prev q y.
Proof.
  unfold TAILQ_INSERT_TAIL. simpl. rewrite prev_store. simpl. unfold upd.
  destruct (Z.eqb_spec y x); by case_decide.
Qed.

Lemma tail_last h : last q' h = if decide (h = head) then NextOf x else last q h.
Proof.
  unfold TAILQ_INSERT_TAIL. simpl. unfold upd. rewrite last_store. simpl.
  destruct (Z.eqb_spec h head); by case_decide.
Qed.

Lemma queue_insert_tail l : queue_of q head l → x ≠ 0 → x ∉ l → queue_of q' head (l ++ [x]).
Proof.
  intros [Hs He Hnd] Hx Hxl. split.
  - rewrite tail_last, decide_True by done. apply seg_app. exists (last q head). split.
    + eapply seg_frame; [exact Hs|done|done| |].
      * intros c Hc Hne. rewrite tail_load, decide_False by done.
        destruct Hc as [->|(y & Hy & ->)]; [done|]. rewrite decide_False; [done|]. congruence.
      * intros y Hy. rewrite tail_prev, decide_False; [done|]. congruence.
    + cbn [seg]. rewrite tail_load, tail_prev, !decide_True by done. done.
  - rewrite tail_last, decide_True, tail_load, decide_False, decide_True by done. done.
  - apply NoDup_app. split; [done|]. split; [|apply NoDup_singleton].
    intros y Hy ->%list_elem_of_singleton. done.
Qed.

Lemma queue_insert_tail_other l h : queue_of q h l → h ≠ head → x ∉ l →
  (∀ y, y ∈ l → last q head ≠ NextOf y) → (∀ h', last q head = FirstOf h' → h' = head) →
  queue_of q' h l.
Proof.
  intros Hq Hne Hxl Hlast Hfirst. eapply queue_of_frame; [exact Hq|by rewrite tail_last, decide_False| |].
  - change (load q' (FirstOf h) = load q (FirstOf h)). rewrite tail_load, !decide_False; [done|done|].
    intros E. by destruct Hne; apply Hfirst.
  - intros y Hy. rewrite tail_prev, decide_False by congruence. split; [|done].
    change (load q' (NextOf y) = load q (NextOf y)). rewrite tail_load, !decide_False; [done|congruence|].
    intros E. by apply (Hlast y).
Qed.
End insert_tail.

Section insert_head.
Context (q : queues) (head x : Z).
Notation q' := (TAILQ_INSERT_HEAD q head x).

Lemma queue_insert_head l : queue_of q head l → x ≠ 0 → x ∉ l → queue_of q' head (x :: l).
Proof.
  intros [Hs He Hnd] Hx Hxl. pose proof (seg_first _ _ _ _ Hs He) as Hf.
  unfold TAILQ_INSERT_HEAD. simpl. rewrite upd_eq, Hf. destruct l as [|y l]; simpl in *.
  - split; [|simpl; rewrite upd_eq; simpl; by rewrite upd_eq|by apply NoDup_singleton].
    simpl. rewrite !upd_eq. done.
  - destruct Hs as (Hy & _ & Hpy & Hs). apply NoDup_cons in Hnd as [Hyl Hnd].
    apply not_elem_of_cons in Hxl as [Hxy Hxl].
    destruct (Z.eqb_spec y 0); [done|]. simpl. split; simpl.
    + rewrite !upd_eq, !(upd_ne _ x), !upd_eq by done. split_and!; try done.
      eapply seg_frame; [exact Hs|done|by intros z [= <-]| |].
      * intros c Hc _. assert (∃ z, c = NextOf z ∧ z ≠ x) as (z & -> & Hz).
        { destruct Hc as [->|(z & Hz & ->)]; eexists; (split; [done|]); congruence. }
        simpl. by rewrite upd_ne.
      * intros z Hz. simpl. rewrite !upd_ne; [done|congruence..].
    + rewrite <- He. destruct (seg_end _ _ _ _ Hs) as [[-> _]|(z & Hz & ->)]; simpl; rewrite upd_ne; congruence.
    + apply NoDup_cons. split; [by apply not_elem_of_cons|]. by apply NoDup_cons.
Qed.
End insert_head.

Lemma foreach_seg q c l e fuel :
  seg q c l e → load q e = 0 → (length l < fuel)%nat →
  foreach_from fuel (TAILQ_NEXT q) (load q c) = Some l.
Proof.
  revert c fuel. induction l as [|x l IH]; intros c [|fuel] Hs He Hf; simpl in *; try lia.
  - subst e. by rewrite He.
  - destruct Hs as (Hx & -> & _ & Hs). destruct (Z.eqb_spec x 0); [done|].
    pose proof (IH (NextOf x) fuel Hs He ltac:(lia)) as Hrec. simpl in Hrec.
    change (TAILQ_NEXT q x) with (next q x). by rewrite Hrec.
Qed.

(** Walking back from a cell visits the elements before it in reverse. *)
Lemma foreach_back q h l e fuel :
  seg q (FirstOf h) l e → load q (last q h) = 0 → (length l < fuel)%nat →
  foreach_from fuel (TAILQ_PREV q) (through_last q e) = Some (reverse l).
Proof.
  intros Hs He. revert e fuel Hs. induction l as [|x l IH] using rev_ind; intros e [|fuel] Hs Hf;
    rewrite ?length_app in Hf; simpl in *; try lia.
  - subst e. simpl. by rewrite He.
  - apply seg_app in Hs as (c & Hs & Hx & Hc & Hp & Hend). simpl in Hend. subst e.
    rewrite reverse_snoc. simpl.
    rewrite Hp, Hc. destruct (Z.eqb_spec x 0); [done|]. change (TAILQ_PREV q x) with (through_last q (prev q x)). rewrite Hp.
    by rewrite (IH c fuel Hs) by lia.
Qed.

(** ** Theorems *)

(** The tail queue macros implement a list: after [TAILQ_INSERT_TAIL] the
    forward loop visits the old elements and then the new one, after
    [TAILQ_INSERT_HEAD] the new one comes first, and the backward loop, which
    goes through the [last] and [prev] cells, visits them in reverse. *)
Theorem tailq_loops q head l x fuel :
  queue_of q head l → x ≠ 0 → x ∉ l → (S (length l) < fuel)%nat →
  TAILQ_FOREACH_SAFE fuel (TAILQ_INSERT_TAIL q head x) head = Some (l ++ [x]) ∧
  TAILQ_FOREACH_REVERSE fuel (TAILQ_INSERT_TAIL q head x) head = Some (x :: reverse l) ∧
  TAILQ_FOREACH_SAFE fuel (TAILQ_INSERT_HEAD q head x) head = Some (x :: l) ∧
  TAILQ_FOREACH_REVERSE fuel (TAILQ_INSERT_HEAD q head x) head = Some (reverse l ++ [x]).
Proof.
  intros Hq Hx Hxl Hf.
  assert (∀ q' l', queue_of q' head l' → (length l' < fuel)%nat →
    TAILQ_FOREACH_SAFE fuel q' head = Some l' ∧ TAILQ_FOREACH_REVERSE fuel q' head = Some (reverse l')) as Hall.
  { intros q' l' [Hs He _] Hl. split; [by apply (foreach_seg q' (FirstOf head) l' (last q' head))|].
    by apply (foreach_back q' head). }
  destruct (Hall _ _ (queue_insert_tail q head x (queue_end _ _ _ _ Hq Hxl) l Hq Hx Hxl)) as [-> ->].
  { rewrite length_app. simpl. lia. }
  destruct (Hall _ _ (queue_insert_head q head x l Hq Hx Hxl)) as [-> ->]; [simpl; lia|].
  by rewrite reverse_snoc, reverse_cons.
Qed.

Definition no_queues : queues := Queues (λ _, 0) (λ h, FirstOf h) (λ _, 0) (λ _, FirstOf 0).

Example tailq_loops_witness :
  let q := TAILQ_INSERT_TAIL (TAILQ_INIT no_queues 100) 100 7 in
  queue_of q 100 [7] ∧
  TAILQ_FOREACH_SAFE 5 (TAILQ_INSERT_TAIL q 100 9) 100 = Some ([7] ++ [9]) ∧
  TAILQ_FOREACH_REVERSE 5 (TAILQ_INSERT_TAIL q 100 9) 100 = Some (9 :: reverse [7]) ∧
  TAILQ_FOREACH_SAFE 5 (TAILQ_INSERT_HEAD q 100 9) 100 = Some (9 :: [7]) ∧
  TAILQ_FOREACH_REVERSE 5 (TAILQ_INSERT_HEAD q 100 9) 100 = Some (reverse [7] ++ [9]).
Proof.
  intros q. assert (queue_of q 100 [7]) as Hq.
  { apply (queue_insert_tail (TAILQ_INIT no_queues 100) 100 7) with (l := []);
      [done|apply queue_init|done|apply not_elem_of_nil]. }
  split; [exact Hq|]. apply (tailq_loops q 100 [7] 9 5 Hq); [done|set_solver|simpl; lia].
Defined.
