(* ===== verification/Vmm.v ===== *)
(** sys/mm/vmm.c: four-level page tables over the frame allocator. *)

From S2P Require Import Prelude CString Bitmap Pmm.

#[local] Arguments Z.testbit : simpl never.

(** ** State *)

(** [word] is the memory behind the direct map, as 64-bit words at their
    virtual addresses; [hhdm] is the offset in the boot loader's response and
    [tlb] the addresses flushed so far. *)
Record vmm := Vmm {
  pm : pmm;
  word : Z → Z;
  cr3 : Z;
  old_pml4 : Z;
  hhdm : Z;
  tlb : list Z;
}.

Notation V := (ST vmm).

Definition PTE_ADDR_MASK : Z := 0x000FFFFFFFFFF000.
Definition PTE_PRESENT : Z := 1.
Definition PTE_WRITABLE : Z := 2.
Definition PTE_USER : Z := 4.
Definition PTE_NX : Z := 2 ^ 63.
Definition PTE_GET_ADDR (value : Z) : Z := Z.land value PTE_ADDR_MASK.
Definition VIRT_TO_PT_INDEX (virt : Z) : Z := Z.land (Z.shiftr virt 12) 0x1FF.

Definition set_word (f : Z → Z) (s : vmm) : vmm :=
  Vmm (pm s) f (cr3 s) (old_pml4 s) (hhdm s) (tlb s).

Definition on_pm {A} (m : ST pmm A) : V A := λ s,
  match m (pm s) with
  | Done (a, p) => Done (a, Vmm p (word s) (cr3 s) (old_pml4 s) (hhdm s) (tlb s))
  | Halt => Halt
  | Undef => Undef
  | NoFuel => NoFuel
  end.

(** [table[index]] and its assignment; the pointer may not be null. *)
Definition read_entry (table index : Z) : V Z :=
  guard_ (negb (table =? 0)) ;; gets (λ s, word s (table + 8 * index)).
Definition write_entry (table index v : Z) : V unit :=
  guard_ (negb (table =? 0)) ;; modify (λ s, set_word (upd (word s) (table + 8 * index) v) s).

Definition flush_tlb_single (virt : Z) : V unit :=
  modify (λ s, Vmm (pm s) (word s) (cr3 s) (old_pml4 s) (hhdm s) (virt :: tlb s)).

Definition phys_to_virt (phys : Z) : V Z := gets (λ s, w64 (phys + hhdm s)).

(** ** Operations *)

Section with_shift.
Context `{ShiftSem}.

Definition get_next_level (top_level index : Z) (alloc : bool) : V Z :=
  e ← read_entry top_level index;
  if negb (Z.land e PTE_PRESENT =? 0) then phys_to_virt (PTE_GET_ADDR e)
  else if negb alloc then mret 0
  else
    next_level ← on_pm (pmm_alloc 1);
    write_entry top_level index
      (Z.lor (Z.lor (Z.lor next_level PTE_PRESENT) PTE_WRITABLE) PTE_NX) ;;
    phys_to_virt next_level.

Definition get_page_table (pml4 virt : Z) (alloc : bool) : V Z :=
  let pml4_index := Z.land (Z.shiftr virt 39) 0x1FF in
  let pdpt_index := Z.land (Z.shiftr virt 30) 0x1FF in
  let pd_index := Z.land (Z.shiftr virt 21) 0x1FF in
  pdpt ← get_next_level pml4 pml4_index alloc;
  if pdpt =? 0 then mret 0
  else
    pd ← get_next_level pdpt pdpt_index alloc;
    if pd =? 0 then mret 0
    else get_next_level pd pd_index alloc.

Definition vmm_map_page (pml4 virt phys flags : Z) : V unit :=
  page_table ← get_page_table pml4 virt true;
  write_entry page_table (VIRT_TO_PT_INDEX virt) (Z.lor phys flags) ;;
  flush_tlb_single virt.

Definition vmm_unmap_page (pml4 virt : Z) : V unit :=
  page_table ← get_page_table pml4 virt false;
  if page_table =? 0 then mret tt
  else write_entry page_table (VIRT_TO_PT_INDEX virt) 0 ;; flush_tlb_single virt.

Definition vmm_alloc_pages (pages : Z) : V Z :=
  ptr ← on_pm (pmm_alloc pages); phys_to_virt ptr.

Definition vmm_get_pml4 : V Z :=
  cr3_val ← gets cr3; phys_to_virt cr3_val.

(** The 512 of [memzero] counts bytes. *)
Definition vmm_make_pml4 : V Z :=
  old ← gets old_pml4;
  (if old =? 0 then
     p ← vmm_get_pml4;
     modify (λ s, Vmm (pm s) (word s) (cr3 s) p (hhdm s) (tlb s))
   else mret tt) ;;
  new_pml4 ← vmm_alloc_pages 1;
  modify (λ s, set_word (memzero (word s) new_pml4 512) s) ;;
  for_each (seqZ 256 256) (λ i,
    old ← gets old_pml4;
    e ← read_entry old i;
    write_entry new_pml4 i e) ;;
  mret new_pml4.

Definition vmm_get_phys (virt : Z) : V Z :=
  let virt := ALIGN_DOWN virt 0x1000 in
  pml4 ← vmm_get_pml4;
  page_table ← get_page_table pml4 virt true;
  pte_value ← read_entry page_table (VIRT_TO_PT_INDEX virt);
  mret (PTE_GET_ADDR pte_value).

End with_shift.

(** ** The processor's view *)

(** The table reached from [t] through the indices of a path. *)
Fixpoint table_at (w : Z → Z) (off t : Z) (path : list Z) : option Z :=
  match path with
  | [] => Some t
  | i :: path =>
      let e := w (t + 8 * i) in
      if Z.testbit e 0 then table_at w off (w64 (PTE_GET_ADDR e + off)) path else None
  end.

(** The indices of a virtual address, and its page-table entry. *)
Definition path_of (virt : Z) : list Z :=
  [Z.land (Z.shiftr virt 39) 0x1FF; Z.land (Z.shiftr virt 30) 0x1FF; Z.land (Z.shiftr virt 21) 0x1FF].

(** The entry that translates [virt], when the page is present. *)
Definition translate (w : Z → Z) (off pml4 virt : Z) : option Z :=
  t ← table_at w off pml4 (path_of virt);
  let e := w (t + 8 * VIRT_TO_PT_INDEX virt) in
  if Z.testbit e 0 then Some e else None.

Definition index (i : Z) : Prop := 0 ≤ i < 512.
Definition path_ok (q : list Z) : Prop := (length q ≤ 3)%nat ∧ Forall index q.

(** The tables below [pml4] are pages, none reached along two paths. *)
Record tree (w : Z → Z) (off pml4 : Z) : Prop := {
  tr_off : off mod 4096 = 0;
  tr_root : pml4 mod 4096 = 0;
  tr_nonnull q t : path_ok q → table_at w off pml4 q = Some t → t ≠ 0;
  tr_inj q q' t : path_ok q → path_ok q' →
    table_at w off pml4 q = Some t → table_at w off pml4 q' = Some t → q = q';
}.

(** ** Lemmas on entries *)

Lemma mask_bit i : 0 ≤ i → Z.testbit PTE_ADDR_MASK i = (12 <=? i) && (i <? 52).
Proof.
  intros Hi. change PTE_ADDR_MASK with (Z.shiftl (Z.ones 40) 12).
  rewrite Z.shiftl_spec by done. destruct (Z.leb_spec 12 i).
  - rewrite Z.testbit_ones by lia. destruct (Z.leb_spec 0 (i - 12)), (Z.ltb_spec (i - 12) 40), (Z.ltb_spec i 52); done || lia.
  - by rewrite Z.testbit_neg_r by lia.
Qed.

Lemma page_bit p i : p mod 4096 = 0 → i < 12 → Z.testbit p i = false.
Proof.
  intros Hp Hi. destruct (Z.lt_ge_cases i 0); [by apply Z.testbit_neg_r|].
  rewrite <- (Z.mod_pow2_bits_low p 12) by lia. change (2 ^ 12) with 4096. by rewrite Hp, Z.bits_0.
Qed.

Lemma addr_mod e : PTE_GET_ADDR e mod 4096 = 0.
Proof.
  apply Z.bits_inj_0. intros i. change 4096 with (2 ^ 12).
  destruct (Z.lt_ge_cases i 0); [by apply Z.testbit_neg_r|]. destruct (Z.lt_ge_cases i 12).
  - rewrite Z.mod_pow2_bits_low by lia. unfold PTE_GET_ADDR. rewrite Z.land_spec, mask_bit by done.
    destruct (Z.leb_spec 12 i); [lia|]. apply andb_false_r.
  - by apply Z.mod_pow2_bits_high; lia.
Qed.

Lemma present_bit e : Z.land e PTE_PRESENT =? 0 = negb (Z.testbit e 0).
Proof.
  unfold PTE_PRESENT. change 1 with (Z.ones 1). rewrite Z.land_ones by lia. change (2 ^ 1) with 2.
  rewrite Z.bit0_odd, Zmod_odd. by destruct (Z.odd e).
Qed.

(** The entry for a fresh table: present, and pointing at the frame. *)
Definition table_entry (p : Z) : Z := Z.lor (Z.lor (Z.lor p PTE_PRESENT) PTE_WRITABLE) PTE_NX.

Lemma table_entry_spec p : 0 ≤ p < 2 ^ 52 → p mod 4096 = 0 →
  Z.testbit (table_entry p) 0 = true ∧ PTE_GET_ADDR (table_entry p) = p.
Proof.
  intros Hp Hm. split.
  - unfold table_entry. rewrite !Z.lor_spec. change (Z.testbit PTE_PRESENT 0) with true.
    by rewrite orb_true_r.
  - apply Z.bits_inj'. intros i Hi. unfold PTE_GET_ADDR, table_entry.
    rewrite Z.land_spec, !Z.lor_spec, mask_bit by done. unfold PTE_NX. rewrite Z.pow2_bits_eqb by lia.
    destruct (Z.leb_spec 12 i).
    + assert (Z.testbit PTE_PRESENT i = false ∧ Z.testbit PTE_WRITABLE i = false) as [-> ->].
      { split; (apply (testbit_high _ 2); [done|lia]). }
      rewrite !orb_false_r, andb_true_l. destruct (Z.ltb_spec i 52).
      * destruct (Z.eqb_spec 63 i); [lia|]. by rewrite orb_false_r, andb_true_r.
      * rewrite andb_false_r. symmetry. apply (testbit_high _ 52); lia.
    + rewrite andb_false_l, andb_false_r. symmetry. by apply page_bit.
Qed.

Lemma index_land x : index (Z.land x 0x1FF).
Proof. change 0x1FF with (Z.ones 9). rewrite Z.land_ones by lia. apply Z.mod_pos_bound. lia. Qed.

(** ** Lemmas on the tree *)

Lemma slot_inj t t' i j : t mod 4096 = 0 → t' mod 4096 = 0 → index i → index j →
  t + 8 * i = t' + 8 * j → t = t' ∧ i = j.
Proof.
  unfold index. intros Ht Ht' Hi Hj E.
  pose proof (Z.div_mod t 4096). pose proof (Z.div_mod t' 4096). lia.
Qed.

Lemma w64_page p off : p mod 4096 = 0 → off mod 4096 = 0 → w64 (p + off) mod 4096 = 0.
Proof.
  intros Hp Ho. unfold w64. change (2 ^ 64) with (4096 * 2 ^ 52).
  rewrite Z.rem_mul_r by done. rewrite Z.mul_comm, Z.mod_add by done. rewrite Z.mod_mod by done.
  rewrite Z.add_mod, Hp, Ho by done. done.
Qed.

Lemma table_at_snoc w off t q j :
  table_at w off t (q ++ [j]) =
  t' ← table_at w off t q;
  if Z.testbit (w (t' + 8 * j)) 0 then Some (w64 (PTE_GET_ADDR (w (t' + 8 * j)) + off)) else None.
Proof. revert t. induction q as [|i q IH]; intros t; simpl; [done|]. destruct (Z.testbit (w (t + 8 * i)) 0); [apply IH|done]. Qed.

Lemma path_ok_snoc q j : path_ok (q ++ [j]) ↔ (length q ≤ 2)%nat ∧ Forall index q ∧ index j.
Proof. unfold path_ok. rewrite length_app, Forall_app, Forall_singleton. simpl. split; intros; split_and!; try tauto; lia. Qed.

Lemma path_ok_prefix q : Forall index q → (length q ≤ 2)%nat → path_ok q.
Proof. intros. split; [lia|done]. Qed.

Lemma table_mod w off pml4 q t : tree w off pml4 → table_at w off pml4 q = Some t → t mod 4096 = 0.
Proof.
  intros Ht. destruct q as [|j q _] using rev_ind; [intros [= <-]; apply (tr_root _ _ _ Ht)|].
  rewrite table_at_snoc. destruct (table_at w off pml4 q) as [t'|]; [simpl|done].
  destruct (Z.testbit _ 0); [|done]. intros [= <-]. apply w64_page; [apply addr_mod|apply (tr_off _ _ _ Ht)].
Qed.

Lemma path_of_ok virt : path_ok (path_of virt).
Proof. split; [simpl; lia|]. repeat constructor; apply index_land. Qed.

Section write.
Context (w : Z → Z) (off pml4 : Z) (Ht : tree w off pml4).
Context (q0 : list Z) (t0 i0 v : Z).
Context (Hq0 : table_at w off pml4 q0 = Some t0) (Hok : path_ok q0) (Hi0 : index i0).
Notation w' := (upd w (t0 + 8 * i0) v).

(** The entry changes only for the path and index it was written under. *)
Lemma write_other q t j : path_ok q → table_at w off pml4 q = Some t → index j →
  (q, j) ≠ (q0, i0) → w' (t + 8 * j) = w (t + 8 * j).
Proof.
  intros Hq Hqt Hj Hne. apply upd_ne. intros E.
  destruct (slot_inj t t0 j i0) as [-> ->]; [by eapply table_mod|by eapply table_mod|done..|].
  apply Hne. f_equal. eapply (tr_inj _ _ _ Ht); [done|done|exact Hqt|exact Hq0].
Qed.

(** A write into a last-level table changes no table. *)
Lemma table_at_leaf q : length q0 = 3%nat → path_ok q → table_at w' off pml4 q = table_at w off pml4 q.
Proof.
  intros Hlen. induction q as [|j q IH] using rev_ind; [done|]. intros [Hq [Hi Hj]]%path_ok_snoc.
  pose proof (path_ok_prefix q Hi Hq) as Hqok. rewrite !table_at_snoc, IH by done.
  destruct (table_at w off pml4 q) as [t|] eqn:E; [simpl|done].
  rewrite (write_other q t j Hqok E Hj); [done|]. intros [= -> _]. lia.
Qed.

Lemma tree_leaf : length q0 = 3%nat → tree w' off pml4.
Proof.
  intros Hlen. split; [apply (tr_off _ _ _ Ht)|apply (tr_root _ _ _ Ht)| |].
  - intros q t Hq. rewrite table_at_leaf by done. by apply (tr_nonnull _ _ _ Ht).
  - intros q q' t Hq Hq'. rewrite !table_at_leaf by done. by apply (tr_inj _ _ _ Ht).
Qed.

(** Linking a page of zeros under an absent entry adds one table. *)
Section link.
Context (f : Z).
Context (Hlen : (length q0 ≤ 2)%nat) (Habs : Z.testbit (w (t0 + 8 * i0)) 0 = false).
Context (Hpres : Z.testbit v 0 = true) (Hf : w64 (PTE_GET_ADDR v + off) = f) (Hf0 : f ≠ 0).
Context (Hnew : ∀ q, path_ok q → table_at w off pml4 q ≠ Some f).
Context (Hzero : ∀ j, index j → w (f + 8 * j) = 0).

Lemma link_zero j : index j → w' (f + 8 * j) = 0.
Proof.
  intros Hj. rewrite upd_ne by (intros E; destruct (slot_inj f t0 j i0) as [-> _];
    [rewrite <- Hf; apply w64_page; [apply addr_mod|apply (tr_off _ _ _ Ht)]|by eapply table_mod|done..|];
    by apply (Hnew q0)). by apply Hzero.
Qed.

Lemma link_absent : table_at w off pml4 (q0 ++ [i0]) = None.
Proof. rewrite table_at_snoc, Hq0. simpl. by rewrite Habs. Qed.

Lemma table_at_link q : path_ok q →
  table_at w' off pml4 q = if decide (q = q0 ++ [i0]) then Some f else table_at w off pml4 q.
Proof.
  induction q as [|j q IH] using rev_ind.
  { intros _. simpl. by rewrite decide_False by (by intros []%eq_sym%app_nil). }
  intros [Hq [Hi Hj]]%path_ok_snoc. pose proof (path_ok_prefix q Hi Hq) as Hqok.
  rewrite !table_at_snoc, IH by done. case_decide as E1.
  - simpl. rewrite link_zero by done. simpl. case_decide as E2.
    + apply app_inj_tail in E2 as [-> ->]. destruct q0; simpl in *; apply (f_equal length) in E1;
        simpl in E1; rewrite ?length_app in E1; simpl in E1; lia.
    + by rewrite E1, link_absent.
  - destruct (table_at w off pml4 q) as [t|] eqn:E; simpl.
    + case_decide as E2.
      * apply app_inj_tail in E2 as [-> ->]. assert (t = t0) as -> by congruence.
        rewrite upd_eq, Hpres. by rewrite Hf.
      * rewrite (write_other q t j Hqok E Hj); [done|]. congruence.
    + case_decide as E2; [|done]. apply app_inj_tail in E2 as [-> ->]. congruence.
Qed.

Lemma tree_link : tree w' off pml4.
Proof.
  assert (path_ok (q0 ++ [i0])) as Hok' by (apply path_ok_snoc; split_and!; [done|apply Hok|done]).
  split; [apply (tr_off _ _ _ Ht)|apply (tr_root _ _ _ Ht)| |].
  - intros q t Hq. rewrite table_at_link by done. case_decide; [by intros [= <-]|].
    by apply (tr_nonnull _ _ _ Ht).
  - intros q q' t Hq Hq'. rewrite !table_at_link by done. repeat case_decide; subst; try done.
    + intros [= <-] Hx. by destruct (Hnew q').
    + intros Hx [= <-]. by destruct (Hnew q).
    + by apply (tr_inj _ _ _ Ht).
Qed.

Lemma translate_link virt : translate w' off pml4 virt = translate w off pml4 virt.
Proof.
  unfold translate. rewrite table_at_link by apply path_of_ok. case_decide as E.
  - rewrite E, link_absent. simpl. by rewrite link_zero by apply index_land.
  - destruct (table_at w off pml4 (path_of virt)) as [t|] eqn:Et; [simpl|done].
    rewrite (write_other (path_of virt) t); [done|apply path_of_ok|done|apply index_land|].
    intros [= Hp _]. rewrite <- Hp in Hlen. simpl in Hlen. lia.
Qed.
End link.
End write.

(** A concrete path is short and within the tables. *)
Ltac short_path := split; [simpl; lia|]; simpl;
  first [apply Forall_nil_2|rewrite !Forall_cons; split_and!; try done; apply Forall_nil_2].

(** ** Symbolic execution *)

Section run.
Context `{ShiftSem}.

(** The next calls of [pmm_alloc(1)] return the frames [l]. *)
Fixpoint hands_out (p : pmm) (l : list Z) : Prop :=
  match l with
  | [] => True
  | f :: l => ∃ p', pmm_alloc 1 p = Done (f, p') ∧ hands_out p' l
  end.

Definition view (off p : Z) : Z := w64 (p + off).

(** A frame fit to become a page table: aligned, within the physical address
    space, full of zeros and not a table of the tree yet. *)
Record fresh_table (w : Z → Z) (off pml4 p : Z) : Prop := {
  ft_range : 0 ≤ p < 2 ^ 52;
  ft_page : p mod 4096 = 0;
  ft_nonnull : view off p ≠ 0;
  ft_new q : path_ok q → table_at w off pml4 q ≠ Some (view off p);
  ft_zero j : index j → w (view off p + 8 * j) = 0;
}.

Record ready (s : vmm) (pml4 : Z) (l : list Z) : Prop := {
  rd_tree : tree (word s) (hhdm s) pml4;
  rd_frames : hands_out (pm s) l;
  rd_nodup : NoDup l;
  rd_fresh p : p ∈ l → fresh_table (word s) (hhdm s) pml4 p;
}.

(** Every translation is the same, and so is the rest of the state. *)
Record same_maps (pml4 : Z) (s s' : vmm) : Prop := {
  sm_hhdm : hhdm s' = hhdm s;
  sm_cr3 : cr3 s' = cr3 s;
  sm_old : old_pml4 s' = old_pml4 s;
  sm_tlb : tlb s' = tlb s;
  sm_translate virt : translate (word s') (hhdm s) pml4 virt = translate (word s) (hhdm s) pml4 virt;
}.

Lemma same_maps_refl pml4 s : same_maps pml4 s s.
Proof. by split. Qed.

Lemma same_maps_trans pml4 s1 s2 s3 : same_maps pml4 s1 s2 → same_maps pml4 s2 s3 → same_maps pml4 s1 s3.
Proof.
  intros [E1 ? ? ? T1] [E2 ? ? ? T2]. split; congruence.
Qed.

Lemma wp_on_pm {A} (m : ST pmm A) s (Q : A → vmm → Prop) :
  wp m (pm s) (λ a p, Q a (Vmm p (word s) (cr3 s) (old_pml4 s) (hhdm s) (tlb s))) → wp (on_pm m) s Q.
Proof. unfold wp, on_pm. by destruct (m (pm s)) as [[a p]| | |]. Qed.

Lemma wp_read_entry t i s (Q : Z → vmm → Prop) :
  t ≠ 0 → Q (word s (t + 8 * i)) s → wp (read_entry t i) s Q.
Proof.
  intros Ht HQ. apply wp_bind, wp_guard; [by destruct (Z.eqb_spec t 0)|]. by apply wp_gets.
Qed.

Lemma wp_write_entry t i v s (Q : unit → vmm → Prop) :
  t ≠ 0 → Q tt (set_word (upd (word s) (t + 8 * i) v) s) → wp (write_entry t i v) s Q.
Proof.
  intros Ht HQ. apply wp_bind, wp_guard; [by destruct (Z.eqb_spec t 0)|]. by apply wp_modify.
Qed.

Lemma view_inj off p p' : 0 ≤ p < 2 ^ 52 → 0 ≤ p' < 2 ^ 52 → view off p = view off p' → p = p'.
Proof.
  unfold view, w64. intros Hp Hp' E.
  pose proof (Z.div_mod (p + off) (2 ^ 64)). pose proof (Z.div_mod (p' + off) (2 ^ 64)). lia.
Qed.

(** Linking the first frame keeps the others fit. *)
Lemma fresh_link w off pml4 q0 t0 i0 p p' (f := view off p) :
  tree w off pml4 → table_at w off pml4 q0 = Some t0 → path_ok (q0 ++ [i0]) →
  Z.testbit (w (t0 + 8 * i0)) 0 = false →
  fresh_table w off pml4 p → fresh_table w off pml4 p' → p ≠ p' →
  fresh_table (upd w (t0 + 8 * i0) (table_entry p)) off pml4 p'.
Proof.
  intros Ht Hq0 Hok0 Habs Hp Hp' Hne. destruct (proj1 (path_ok_snoc _ _) Hok0) as (Hlen & Hall & Hi0).
  pose proof (path_ok_prefix q0 Hall Hlen) as Hok.
  destruct (table_entry_spec p (ft_range _ _ _ _ Hp) (ft_page _ _ _ _ Hp)) as [Hpres Haddr].
  split; [apply (ft_range _ _ _ _ Hp')|apply (ft_page _ _ _ _ Hp')|apply (ft_nonnull _ _ _ _ Hp')| |].
  - intros q Hq. rewrite (table_at_link w off pml4 Ht q0 t0 i0 _ Hq0 Hok Hi0 f) by
      (try done; try (rewrite Haddr; done); apply Hp).
    case_decide; [|by apply (ft_new _ _ _ _ Hp')].
    intros [= E]. apply Hne. eapply view_inj; [apply Hp|apply Hp'|exact E].
  - intros j Hj. rewrite upd_ne; [by apply (ft_zero _ _ _ _ Hp')|]. intros E.
    destruct (slot_inj (view off p') t0 j i0) as [Ev _]; [|by eapply table_mod|done..|].
    + apply w64_page; [apply Hp'|apply (tr_off _ _ _ Ht)].
    + apply (ft_new _ _ _ _ Hp' q0 Hok). by rewrite Ev.
Qed.

(** Descending one level with allocation. *)
Lemma wp_next_level s pml4 l q0 t0 i0 (Q : Z → vmm → Prop) :
  ready s pml4 l → l ≠ [] → table_at (word s) (hhdm s) pml4 q0 = Some t0 → path_ok (q0 ++ [i0]) →
  (∀ t' s' l', table_at (word s') (hhdm s) pml4 (q0 ++ [i0]) = Some t' → t' ≠ 0 →
     same_maps pml4 s s' → ready s' pml4 l' → (length l ≤ S (length l'))%nat → Q t' s') →
  wp (get_next_level t0 i0 true) s Q.
Proof.
  intros Hr Hl Hq0 Hok0 HQ. pose proof (rd_tree _ _ _ Hr) as Ht.
  destruct (proj1 (path_ok_snoc _ _) Hok0) as (Hlen & Hall & Hi0).
  pose proof (path_ok_prefix q0 Hall Hlen) as Hok.
  apply wp_bind, wp_read_entry; [by eapply (tr_nonnull _ _ _ Ht q0)|]. rewrite present_bit.
  destruct (Z.testbit (word s (t0 + 8 * i0)) 0) eqn:Hbit; simpl.
  - assert (table_at (word s) (hhdm s) pml4 (q0 ++ [i0]) =
      Some (w64 (PTE_GET_ADDR (word s (t0 + 8 * i0)) + hhdm s))) as Hq by (rewrite table_at_snoc, Hq0; simpl; by rewrite Hbit).
    apply wp_gets. eapply HQ; [exact Hq|by eapply (tr_nonnull _ _ _ Ht (q0 ++ [i0]))|apply same_maps_refl|exact Hr|lia].
  - destruct l as [|p l]; [done|]. destruct (rd_frames _ _ _ Hr) as (pm' & Hrun & Hrest).
    pose proof (rd_fresh _ _ _ Hr p ltac:(left)) as Hp.
    pose proof (rd_nodup _ _ _ Hr) as [Hpl Hnd]%NoDup_cons.
    destruct (table_entry_spec p (ft_range _ _ _ _ Hp) (ft_page _ _ _ _ Hp)) as [Hpres Haddr].
    assert (w64 (PTE_GET_ADDR (table_entry p) + hhdm s) = view (hhdm s) p) as Hview by (by rewrite Haddr).
    apply wp_bind, wp_on_pm. eapply wp_intro; [exact Hrun|].
    apply wp_bind, wp_write_entry; [by eapply (tr_nonnull _ _ _ Ht q0)|]. apply wp_gets.
    apply (HQ _ _ l); simpl.
    + rewrite (table_at_link (word s) (hhdm s) pml4 Ht q0 t0 i0 _ Hq0 Hok Hi0 (view (hhdm s) p)) by (done || apply Hp).
      by rewrite decide_True.
    + apply Hp.
    + split; try done. intros virt. simpl.
      apply (translate_link (word s) (hhdm s) pml4 Ht q0 t0 i0 _ Hq0 Hok Hi0 (view (hhdm s) p)); done || apply Hp.
    + split; simpl; [|done|done|].
      * apply (tree_link (word s) (hhdm s) pml4 Ht q0 t0 i0 _ Hq0 Hok Hi0 (view (hhdm s) p)); done || apply Hp.
      * intros p' Hp'. apply (fresh_link _ _ _ q0 t0 i0 p p'); try done; [|congruence].
        apply (rd_fresh _ _ _ Hr). by right.
    + lia.
Qed.

Lemma wp_get_page_table s pml4 l virt (Q : Z → vmm → Prop) :
  ready s pml4 l → (3 ≤ length l)%nat →
  (∀ t s', table_at (word s') (hhdm s) pml4 (path_of virt) = Some t → t ≠ 0 →
     same_maps pml4 s s' → tree (word s') (hhdm s) pml4 → Q t s') →
  wp (get_page_table pml4 virt true) s Q.
Proof.
  intros Hr Hl HQ. pose proof (path_of_ok virt) as Hok. unfold path_of in Hok.
  set (i4 := Z.land (Z.shiftr virt 39) 0x1FF) in *. set (i3 := Z.land (Z.shiftr virt 30) 0x1FF) in *.
  set (i2 := Z.land (Z.shiftr virt 21) 0x1FF) in *.
  destruct Hok as [_ Hok]. rewrite !Forall_cons in Hok. destruct Hok as (Hi4 & Hi3 & Hi2 & _).
  unfold get_page_table. fold i4 i3 i2. apply wp_bind.
  eapply (wp_next_level s pml4 l []); [done|destruct l; simpl in *; [lia|done]|done|short_path|].
  intros t1 s1 l1 Ht1 Hn1 Hs1 Hr1 Hl1. simpl app in Ht1. destruct (Z.eqb_spec t1 0); [done|].
  assert (hhdm s1 = hhdm s) as Hh1 by apply Hs1.
  apply wp_bind. eapply (wp_next_level s1 pml4 l1 [i4]); [done|destruct l1; simpl in *; [lia|done]|by rewrite Hh1|
    short_path|].
  intros t2 s2 l2 Ht2 Hn2 Hs2 Hr2 Hl2. simpl app in Ht2. destruct (Z.eqb_spec t2 0); [done|].
  assert (hhdm s2 = hhdm s) as Hh2 by (rewrite <- Hh1; apply Hs2).
  eapply (wp_next_level s2 pml4 l2 [i4; i3]); [done|destruct l2; simpl in *; [lia|done]|rewrite Hh2, <- Hh1; exact Ht2|
    short_path|].
  intros t3 s3 l3 Ht3 Hn3 Hs3 Hr3 _. apply HQ; [by rewrite <- Hh2|done| |].
  - eapply same_maps_trans; [exact Hs1|]. by eapply same_maps_trans.
  - pose proof (rd_tree _ _ _ Hr3) as Ht. by rewrite (sm_hhdm _ _ _ Hs3), Hh2 in Ht.
Qed.

(** Descending without allocation only reads. *)
Lemma wp_next_level_find s pml4 q0 t0 i0 (Q : Z → vmm → Prop) :
  tree (word s) (hhdm s) pml4 → table_at (word s) (hhdm s) pml4 q0 = Some t0 → path_ok (q0 ++ [i0]) →
  (∀ t', table_at (word s) (hhdm s) pml4 (q0 ++ [i0]) = Some t' → t' ≠ 0 → Q t' s) →
  (table_at (word s) (hhdm s) pml4 (q0 ++ [i0]) = None → Q 0 s) →
  wp (get_next_level t0 i0 false) s Q.
Proof.
  intros Ht Hq0 Hok0 HQ1 HQ2. destruct (proj1 (path_ok_snoc _ _) Hok0) as (Hlen & Hall & Hi0).
  pose proof (path_ok_prefix q0 Hall Hlen) as Hok. rewrite table_at_snoc, Hq0 in HQ1, HQ2. simpl in *.
  apply wp_bind, wp_read_entry; [by eapply (tr_nonnull _ _ _ Ht q0)|]. rewrite present_bit.
  destruct (Z.testbit (word s (t0 + 8 * i0)) 0) eqn:Hbit; simpl.
  - apply wp_gets, HQ1; [done|]. eapply (tr_nonnull _ _ _ Ht); [exact Hok0|].
    rewrite table_at_snoc, Hq0. simpl. by rewrite Hbit.
  - by apply wp_ret, HQ2.
Qed.

Lemma wp_get_page_table_find s pml4 virt (Q : Z → vmm → Prop) :
  tree (word s) (hhdm s) pml4 →
  (∀ t, table_at (word s) (hhdm s) pml4 (path_of virt) = Some t → t ≠ 0 → Q t s) →
  (table_at (word s) (hhdm s) pml4 (path_of virt) = None → Q 0 s) →
  wp (get_page_table pml4 virt false) s Q.
Proof.
  intros Ht HQ1 HQ2. pose proof (path_of_ok virt) as Hok. unfold path_of in *.
  set (i4 := Z.land (Z.shiftr virt 39) 0x1FF) in *. set (i3 := Z.land (Z.shiftr virt 30) 0x1FF) in *.
  set (i2 := Z.land (Z.shiftr virt 21) 0x1FF) in *.
  destruct Hok as [_ Hok]. rewrite !Forall_cons in Hok. destruct Hok as (Hi4 & Hi3 & Hi2 & _).
  unfold get_page_table. fold i4 i3 i2.
  assert (∀ q r, table_at (word s) (hhdm s) pml4 q = None → table_at (word s) (hhdm s) pml4 (q ++ r) = None) as Hnone.
  { intros q r Hq. induction r as [|i r IH] using rev_ind; [by rewrite app_nil_r|].
    by rewrite app_assoc, table_at_snoc, IH. }
  apply wp_bind, (wp_next_level_find s pml4 []); [done|done|short_path| |].
  2:{ intros Hno. apply wp_ret, HQ2, (Hnone [i4] [i3; i2] Hno). }
  intros t1 Ht1 Hn1. destruct (Z.eqb_spec t1 0); [done|].
  apply wp_bind, (wp_next_level_find s pml4 [i4]); [done|done|short_path| |].
  2:{ intros Hno. apply wp_ret, HQ2, (Hnone [i4; i3] [i2] Hno). }
  intros t2 Ht2 Hn2. destruct (Z.eqb_spec t2 0); [done|].
  by apply (wp_next_level_find s pml4 [i4; i3]); [|done|short_path|..].
Qed.

(** ** Theorems *)

(** The 36 bits of an address that select its page. *)
Definition page_number (virt : Z) : Z := (virt / 4096) mod 2 ^ 36.

Lemma index_mod x k : 0 ≤ k → Z.land (Z.shiftr x k) 0x1FF = (x / 2 ^ k) mod 512.
Proof.
  intros Hk. change 0x1FF with (Z.ones 9). rewrite Z.land_ones, Z.shiftr_div_pow2 by lia. done.
Qed.

Lemma page_number_path v v' :
  page_number v = page_number v' ↔
  path_of v = path_of v' ∧ VIRT_TO_PT_INDEX v = VIRT_TO_PT_INDEX v'.
Proof.
  assert (∀ x, page_number x = (x / 2 ^ 12) mod 512 + 512 * ((x / 2 ^ 21) mod 512 +
    512 * ((x / 2 ^ 30) mod 512 + 512 * ((x / 2 ^ 39) mod 512)))) as Hdec.
  { intros x. unfold page_number. change (2 ^ 21) with (4096 * 512). change (2 ^ 30) with (4096 * 512 * 512).
    change (2 ^ 39) with (4096 * 512 * 512 * 512). change (2 ^ 12) with 4096.
    rewrite <- !Z.div_div by lia. set (n := x / 4096).
    change (2 ^ 36) with (512 * (512 * (512 * 512))). rewrite !Z.rem_mul_r by lia. done. }
  unfold path_of, VIRT_TO_PT_INDEX. rewrite !index_mod by lia. rewrite !Hdec.
  pose proof (λ a, Z.mod_pos_bound (a) 512 ltac:(lia)) as Hb.
  pose proof (Hb (v / 2 ^ 12)). pose proof (Hb (v / 2 ^ 21)). pose proof (Hb (v / 2 ^ 30)). pose proof (Hb (v / 2 ^ 39)).
  pose proof (Hb (v' / 2 ^ 12)). pose proof (Hb (v' / 2 ^ 21)). pose proof (Hb (v' / 2 ^ 30)). pose proof (Hb (v' / 2 ^ 39)).
  split.
  - intros E. assert ((v / 2 ^ 12) mod 512 = (v' / 2 ^ 12) mod 512) as -> by lia.
    assert ((v / 2 ^ 21) mod 512 = (v' / 2 ^ 21) mod 512) as -> by lia.
    assert ((v / 2 ^ 30) mod 512 = (v' / 2 ^ 30) mod 512) as -> by lia.
    by assert ((v / 2 ^ 39) mod 512 = (v' / 2 ^ 39) mod 512) as -> by lia.
  - intros [[= -> -> ->] ->]. done.
Qed.

(** Writing a last-level entry changes the translation of its page only. *)
Lemma translate_write w off pml4 virt t e v :
  tree w off pml4 → table_at w off pml4 (path_of virt) = Some t →
  translate (upd w (t + 8 * VIRT_TO_PT_INDEX virt) e) off pml4 v =
  if decide (page_number v = page_number virt)
  then if Z.testbit e 0 then Some e else None else translate w off pml4 v.
Proof.
  intros Ht Hq. unfold translate.
  rewrite (table_at_leaf w off pml4 Ht (path_of virt) t _ e Hq) by (apply path_of_ok || apply index_land || done).
  case_decide as E; rewrite page_number_path in E.
  - destruct E as [-> ->]. rewrite Hq. simpl. by rewrite upd_eq.
  - destruct (table_at w off pml4 (path_of v)) as [t'|] eqn:Et; [simpl|done].
    rewrite (write_other w off pml4 Ht (path_of virt) t _ e Hq) with (q := path_of v);
      try apply path_of_ok; try apply index_land; try done.
    intros [= E1 E2 E3 E4]. apply E. unfold path_of. by rewrite E1, E2, E3.
Qed.

Lemma wp_vmm_map_page s pml4 l virt phys flags (Q : unit → vmm → Prop) :
  ready s pml4 l → (3 ≤ length l)%nat →
  (∀ s', tree (word s') (hhdm s') pml4 → hhdm s' = hhdm s → cr3 s' = cr3 s → tlb s' = virt :: tlb s →
    (∀ v, translate (word s') (hhdm s') pml4 v =
      if decide (page_number v = page_number virt)
      then if Z.testbit (Z.lor phys flags) 0 then Some (Z.lor phys flags) else None
      else translate (word s) (hhdm s) pml4 v) → Q tt s') →
  wp (vmm_map_page pml4 virt phys flags) s Q.
Proof.
  intros Hr Hl HQ. apply wp_bind. eapply wp_get_page_table; [done..|].
  intros t s' Ht Hn Hs Htree. apply wp_bind, wp_write_entry; [done|]. apply wp_modify, HQ; simpl;
    rewrite ?(sm_hhdm _ _ _ Hs), ?(sm_tlb _ _ _ Hs); [|done|by apply Hs|done|].
  - eapply tree_leaf; [done|exact Ht|apply path_of_ok|apply index_land|done].
  - intros v. rewrite (translate_write _ _ _ virt) by done. by rewrite (sm_translate _ _ _ Hs).
Qed.

(** C19. [vmm_map_page] makes the processor translate exactly the page of
    [virt] with the entry [phys | flags]: the tables on the way are found or
    linked in, every other address keeps its translation, the tables still
    form a tree and the page's stale translation is flushed.  This needs the
    frame allocator to hand out up to three page frames full of zeros. *)
Theorem vmm_map_page_correct s pml4 l virt phys flags :
  ready s pml4 l → (3 ≤ length l)%nat →
  wp (vmm_map_page pml4 virt phys flags) s (λ _ s',
    tree (word s') (hhdm s') pml4 ∧ hhdm s' = hhdm s ∧ tlb s' = virt :: tlb s ∧
    ∀ v, translate (word s') (hhdm s') pml4 v =
      if decide (page_number v = page_number virt)
      then if Z.testbit (Z.lor phys flags) 0 then Some (Z.lor phys flags) else None
      else translate (word s) (hhdm s) pml4 v).
Proof. intros Hr Hl. eapply wp_vmm_map_page; [done..|]. intros s' ? ? ? ? ?. by split_and!. Qed.

(** C20. [vmm_unmap_page] removes the translation of exactly the page of
    [virt], without allocating, and flushes it if its table exists. *)
Theorem vmm_unmap_page_correct s pml4 virt :
  tree (word s) (hhdm s) pml4 →
  wp (vmm_unmap_page pml4 virt) s (λ _ s',
    tree (word s') (hhdm s') pml4 ∧ pm s' = pm s ∧ hhdm s' = hhdm s ∧
    tlb s' = (if decide (is_Some (table_at (word s) (hhdm s) pml4 (path_of virt)))
              then virt :: tlb s else tlb s) ∧
    ∀ v, translate (word s') (hhdm s') pml4 v =
      if decide (page_number v = page_number virt) then None
      else translate (word s) (hhdm s) pml4 v).
Proof.
  intros Ht. apply wp_bind, wp_get_page_table_find; [done|..].
  - intros t Hq Hn. destruct (Z.eqb_spec t 0); [done|].
    apply wp_bind, wp_write_entry; [done|]. apply wp_modify. simpl. rewrite decide_True by eauto.
    split_and!; [|done..|].
    + eapply tree_leaf; [done|exact Hq|apply path_of_ok|apply index_land|done].
    + intros v. by rewrite (translate_write _ _ _ virt).
  - intros Hno. apply wp_ret. rewrite decide_False by (rewrite Hno; by intros [? ?]).
    split_and!; try done. intros v. case_decide as E; [|done].
    apply page_number_path in E as [E _]. unfold translate. by rewrite E, Hno.
Qed.

(** [ALIGN_DOWN(virt, 0x1000)] selects the same page. *)
Lemma align_down_page virt : 0 ≤ virt < 2 ^ 64 →
  ALIGN_DOWN virt 0x1000 = virt - virt mod 4096.
Proof.
  intros Hv. unfold ALIGN_DOWN. apply Z.bits_inj'. intros i Hi. unfold not64.
  rewrite Z.land_spec, w64_testbit, Z.lnot_spec by done.
  change (w64 (4096 - 1)) with (Z.ones 12).
  replace (virt - virt mod 4096) with (Z.shiftl (Z.shiftr virt 12) 12).
  2:{ rewrite Z.shiftl_mul_pow2, Z.shiftr_div_pow2 by lia. change (2 ^ 12) with 4096.
      pose proof (Z.div_mod virt 4096). lia. }
  rewrite Z.shiftl_spec by done. destruct (Z.lt_ge_cases i 12).
  - rewrite Z.testbit_ones_nonneg by lia. destruct (Z.ltb_spec i 12); [|lia].
    rewrite (Z.testbit_neg_r _ (i - 12)) by lia. simpl. by rewrite !andb_false_r.
  - rewrite Z.testbit_ones_nonneg by lia. destruct (Z.ltb_spec i 12); [lia|].
    rewrite Z.shiftr_spec by lia. replace (i - 12 + 12) with i by lia. simpl. rewrite andb_true_r.
    destruct (Z.ltb_spec i 64); [by rewrite andb_true_r|]. simpl. rewrite andb_false_r.
    symmetry. apply (testbit_high _ 64); lia.
Qed.

(** Descending through tables that exist, allocation allowed or not. *)
Lemma wp_next_level_present s pml4 q0 t0 i0 t alloc (Q : Z → vmm → Prop) :
  tree (word s) (hhdm s) pml4 → table_at (word s) (hhdm s) pml4 q0 = Some t0 → path_ok (q0 ++ [i0]) →
  table_at (word s) (hhdm s) pml4 (q0 ++ [i0]) = Some t → Q t s →
  wp (get_next_level t0 i0 alloc) s Q.
Proof.
  intros Ht Hq0 Hok0 Hq HQ. destruct (proj1 (path_ok_snoc _ _) Hok0) as (Hlen & Hall & _).
  rewrite table_at_snoc, Hq0 in Hq. simpl in Hq.
  apply wp_bind, wp_read_entry; [eapply (tr_nonnull _ _ _ Ht q0); [by apply path_ok_prefix|done]|].
  rewrite present_bit. destruct (Z.testbit (word s (t0 + 8 * i0)) 0); [|done]. injection Hq as <-.
  by apply wp_gets.
Qed.

Lemma wp_get_page_table_present s pml4 virt t alloc (Q : Z → vmm → Prop) :
  tree (word s) (hhdm s) pml4 → table_at (word s) (hhdm s) pml4 (path_of virt) = Some t → Q t s →
  wp (get_page_table pml4 virt alloc) s Q.
Proof.
  intros Ht Hq HQ. pose proof (path_of_ok virt) as Hok. unfold path_of in *.
  unfold get_page_table. set (i4 := Z.land (Z.shiftr virt 39) 0x1FF) in *.
  set (i3 := Z.land (Z.shiftr virt 30) 0x1FF) in *. set (i2 := Z.land (Z.shiftr virt 21) 0x1FF) in *.
  destruct Hok as [_ Hok]. rewrite !Forall_cons in Hok. destruct Hok as (Hi4 & Hi3 & Hi2 & _).
  destruct (table_at (word s) (hhdm s) pml4 [i4; i3]) as [t2|] eqn:H2.
  2:{ change [i4; i3; i2] with ([i4; i3] ++ [i2]) in Hq. by rewrite table_at_snoc, H2 in Hq. }
  destruct (table_at (word s) (hhdm s) pml4 [i4]) as [t1|] eqn:H1.
  2:{ change [i4; i3] with ([i4] ++ [i3]) in H2. by rewrite table_at_snoc, H1 in H2. }
  apply wp_bind. eapply (wp_next_level_present s pml4 []); [done|done|short_path|exact H1|].
  destruct (Z.eqb_spec t1 0) as [E|].
  { by destruct (tr_nonnull _ _ _ Ht [i4] t1 ltac:(short_path) H1). }
  apply wp_bind. eapply (wp_next_level_present s pml4 [i4]); [done|done|short_path|exact H2|].
  destruct (Z.eqb_spec t2 0) as [E|].
  { by destruct (tr_nonnull _ _ _ Ht [i4; i3] t2 ltac:(short_path) H2). }
  by eapply (wp_next_level_present s pml4 [i4; i3]); [done|done|short_path|exact Hq|].
Qed.

(** [vmm_get_phys] of a mapped address returns the frame address of its
    page (not the address inside the page) and allocates nothing when the
    three tables exist. *)
Theorem vmm_get_phys_correct s virt e :
  let pml4 := view (hhdm s) (cr3 s) in
  tree (word s) (hhdm s) pml4 → 0 ≤ virt < 2 ^ 64 →
  translate (word s) (hhdm s) pml4 virt = Some e →
  wp (vmm_get_phys virt) s (λ p s', p = PTE_GET_ADDR e ∧ s' = s).
Proof.
  intros pml4 Ht Hv He. set (v := ALIGN_DOWN virt 0x1000).
  assert (page_number v = page_number virt) as Hpage.
  { unfold page_number, v. rewrite align_down_page by done. f_equal.
    pose proof (Z.div_mod virt 4096). pose proof (Z.mod_pos_bound virt 4096).
    symmetry. apply (Z.div_unique _ _ _ 0); lia. }
  apply page_number_path in Hpage as [Hpath Hidx]. unfold translate in He. rewrite <- Hpath in He.
  destruct (table_at (word s) (hhdm s) pml4 (path_of v)) as [t|] eqn:Hq; [simpl in He|done].
  destruct (Z.testbit _ 0) in He; [|done]. injection He as <-.
  assert (t ≠ 0) by (eapply (tr_nonnull _ _ _ Ht); [apply path_of_ok|exact Hq]).
  apply wp_bind, wp_bind, wp_gets, wp_gets. fold pml4. apply wp_bind.
  eapply wp_get_page_table_present; [exact Ht|exact Hq|].
  apply wp_bind, wp_read_entry; [done|]. apply wp_ret. by rewrite <- Hidx.
Qed.

(** Tables outside the page of [t] look the same after writes to it. *)
Lemma table_at_outside w w' off o t q1 q t1 :
  tree w off o → t mod 4096 = 0 → (∀ q, path_ok q → table_at w off o q ≠ Some t) →
  (∀ a, a < t ∨ t + 4096 ≤ a → w' a = w a) →
  table_at w off o q1 = Some t1 → path_ok (q1 ++ q) → table_at w' off t1 q = table_at w off t1 q.
Proof.
  intros Ht Hpage Hnew Hout. revert q1 t1. induction q as [|i q IH]; intros q1 t1 Hq1 Hok; simpl; [done|].
  assert (path_ok (q1 ++ [i])) as Hok1.
  { destruct Hok as [Hlen Hall]. rewrite length_app in Hlen. simpl in Hlen.
    apply Forall_app in Hall as [Hall [Hi _]%Forall_cons].
    split; [rewrite length_app; simpl; lia|]. by rewrite Forall_app, Forall_singleton. }
  destruct (proj1 (path_ok_snoc _ _) Hok1) as (Hlen & Hall & Hi).
  rewrite (Hout (t1 + 8 * i)).
  - destruct (Z.testbit (w (t1 + 8 * i)) 0) eqn:Hb; [|done]. apply (IH (q1 ++ [i])); [|by rewrite <- app_assoc].
    rewrite table_at_snoc, Hq1. simpl. by rewrite Hb.
  - pose proof (table_mod _ _ _ _ _ Ht Hq1). assert (t1 ≠ t).
    { intros ->. by apply (Hnew q1); [apply path_ok_prefix|]. }
    unfold index in Hi. pose proof (Z.div_mod t 4096). pose proof (Z.div_mod t1 4096). lia.
Qed.

Lemma upper_index virt : 2 ^ 47 ≤ virt mod 2 ^ 48 → 256 ≤ Z.land (Z.shiftr virt 39) 0x1FF < 512.
Proof.
  intros Hv. rewrite index_mod by lia. pose proof (Z.mod_pos_bound (virt / 2 ^ 39) 512).
  change (2 ^ 48) with (2 ^ 39 * 512) in Hv. rewrite Z.rem_mul_r in Hv by lia.
  pose proof (Z.mod_pos_bound virt (2 ^ 39)). lia.
Qed.

(** The copy loop of [vmm_make_pml4]. *)
Lemma wp_copy_upper s o t (Q : unit → vmm → Prop) :
  o mod 4096 = 0 → t mod 4096 = 0 → o ≠ t → o ≠ 0 → t ≠ 0 → old_pml4 s = o →
  (∀ w', (∀ i, 256 ≤ i < 512 → w' (t + 8 * i) = word s (o + 8 * i)) →
     (∀ a, a < t + 2048 ∨ t + 4096 ≤ a → w' a = word s a) → Q tt (set_word w' s)) →
  wp (for_each (seqZ 256 256) (λ i,
    old ← gets old_pml4; e ← read_entry old i; write_entry t i e)) s Q.
Proof.
  intros Ho Ht Hne Ho0 Ht0 Hold HQ. eapply wp_mono; [apply (wp_for_each (λ l s', ∃ w', s' = set_word w' s ∧
    (∀ i, i ∈ l → w' (t + 8 * i) = word s (o + 8 * i)) ∧
    (∀ a, (∀ i, i ∈ l → a ≠ t + 8 * i) → w' a = word s a)))|].
  - exists (word s). split; [by destruct s|]. split; [|done]. by intros i []%not_elem_of_nil.
  - intros l i s1 (w' & -> & Hin & Hout) Hpre.
    assert (∀ j, j ∈ l ++ [i] → 256 ≤ j < 512) as Hall.
    { intros j Hj. destruct Hpre as [r Hr]. assert (j ∈ seqZ 256 256) as Hjs by (rewrite Hr; set_solver).
      apply elem_of_seqZ in Hjs. lia. }
    assert (i ∉ l) as Hil.
    { destruct Hpre as [r Hr]. pose proof (NoDup_seqZ 256 256) as Hnd. rewrite Hr in Hnd.
      apply NoDup_app in Hnd as [Hnd _]. apply NoDup_app in Hnd as (_ & Hnd & _).
      intros Hi. apply (Hnd i Hi). by left. }
    pose proof (Hall i ltac:(set_solver)) as Hi.
    apply wp_bind, wp_gets. simpl. rewrite Hold. apply wp_bind, wp_read_entry; [done|].
    apply wp_write_entry; [done|]. eexists. split; [reflexivity|]. simpl. split.
    + intros j [Hj| ->%list_elem_of_singleton]%elem_of_app.
      * rewrite upd_ne; [by apply Hin|]. intros E. assert (j = i) as -> by lia. done.
      * rewrite upd_eq. apply Hout. intros k Hk E.
        destruct (slot_inj o t i k); unfold index; try done; try lia.
        pose proof (Hall k ltac:(set_solver)). lia.
    + intros a Ha. rewrite upd_ne by (apply Ha; set_solver). apply Hout. intros j Hj. apply Ha. set_solver.
  - intros [] s' (w' & -> & Hin & Hout). apply HQ.
    + intros i Hi. apply Hin, elem_of_seqZ. lia.
    + intros a Ha. apply Hout. intros i Hi%elem_of_seqZ. lia.
Qed.

(** A new top-level table [view (hhdm s) p] beside the one at [o]. *)
Record fresh_root (s : vmm) (o p : Z) (s' : vmm) : Prop := {
  fr_old : old_pml4 s' = o;
  fr_hhdm : hhdm s' = hhdm s;
  fr_upper i : 256 ≤ i < 512 → word s' (view (hhdm s) p + 8 * i) = word s (o + 8 * i);
  fr_low i : 0 ≤ i < 512 → word_ld8 (word s') (view (hhdm s) p + i) = 0;
  fr_middle i : 64 ≤ i < 256 → word s' (view (hhdm s) p + 8 * i) = word s (view (hhdm s) p + 8 * i);
  fr_outside a : a < view (hhdm s) p ∨ view (hhdm s) p + 4096 ≤ a → word s' a = word s a;
}.

(** Pages do not overlap. *)
Lemma page_apart t t' : t mod 4096 = 0 → t' mod 4096 = 0 → t ≠ t' → t + 4096 ≤ t' ∨ t' + 4096 ≤ t.
Proof. intros Ht Ht' Hne. pose proof (Z.div_mod t 4096). pose proof (Z.div_mod t' 4096). lia. Qed.

(** The other frames stay fit for use. *)
Lemma ready_outside s s' o p l :
  ready s o (p :: l) → hhdm s' = hhdm s → hands_out (pm s') l →
  (∀ a, a < view (hhdm s) p ∨ view (hhdm s) p + 4096 ≤ a → word s' a = word s a) → ready s' o l.
Proof.
  intros Hr Hh Hl Hout. pose proof (rd_tree _ _ _ Hr) as Ht. pose proof (rd_fresh _ _ _ Hr p ltac:(left)) as Hp.
  assert (view (hhdm s) p mod 4096 = 0) as Hpm by (apply w64_page; [apply Hp|apply Ht]).
  assert (∀ q, path_ok q → table_at (word s') (hhdm s) o q = table_at (word s) (hhdm s) o q) as Htab.
  { intros q Hq. apply (table_at_outside (word s) (word s') (hhdm s) o (view (hhdm s) p) [] q o); try done.
    intros q'. apply (ft_new _ _ _ _ Hp). }
  pose proof (rd_nodup _ _ _ Hr) as [Hpl Hnd]%NoDup_cons. split; rewrite ?Hh; [|done|done|].
  - split; [apply Ht..| |].
    + intros q t Hq. rewrite Htab by done. by apply (tr_nonnull _ _ _ Ht).
    + intros q q' t Hq Hq'. rewrite !Htab by done. by apply (tr_inj _ _ _ Ht).
  - intros p' Hp'. pose proof (rd_fresh _ _ _ Hr p' ltac:(by right)) as Hf. split; [apply Hf..| |].
    + intros q Hq. rewrite Htab by done. by apply (ft_new _ _ _ _ Hf).
    + intros i Hi. rewrite Hout; [by apply (ft_zero _ _ _ _ Hf)|].
      destruct (page_apart (view (hhdm s) p) (view (hhdm s) p')) as [?|?]; unfold index in Hi; try lia.
      * apply w64_page; [apply Hf|apply Ht].
      * intros E. apply view_inj in E; [congruence|apply Hp|apply Hf].
Qed.

Lemma wp_fresh_root s l p (o := if old_pml4 s =? 0 then view (hhdm s) (cr3 s) else old_pml4 s) (Q : Z → vmm → Prop) :
  ready s o (p :: l) → (∀ s', fresh_root s o p s' → ready s' o l → Q (view (hhdm s) p) s') → wp vmm_make_pml4 s Q.
Proof.
  intros Hr HQ. pose proof (rd_tree _ _ _ Hr) as Htree. destruct (rd_frames _ _ _ Hr) as (pm' & Hrun & Hrest).
  pose proof (rd_fresh _ _ _ Hr p ltac:(left)) as Hp.
  assert (o ≠ 0) as Ho0 by (apply (tr_nonnull _ _ _ Htree []); [short_path|done]).
  set (t := view (hhdm s) p) in *.
  assert (t mod 4096 = 0) as Htm by (apply w64_page; [apply Hp|apply (tr_off _ _ _ Htree)]).
  assert (o ≠ t) as Hot by (intros E; apply (ft_new _ _ _ _ Hp []); [short_path|simpl; by f_equal]).
  apply wp_bind, wp_gets, wp_bind.
  assert (∀ Q : unit → vmm → Prop, Q tt (Vmm (pm s) (word s) (cr3 s) o (hhdm s) (tlb s)) →
    wp (if old_pml4 s =? 0 then p ← vmm_get_pml4; modify (λ s, Vmm (pm s) (word s) (cr3 s) p (hhdm s) (tlb s))
        else mret tt) s Q) as Hpro.
  { intros Q' HQ'. unfold o in HQ'. destruct (old_pml4 s =? 0).
    - by apply wp_bind, wp_bind, wp_gets, wp_gets, wp_modify.
    - apply wp_ret. by destruct s. }
  apply Hpro. apply wp_bind, wp_bind, wp_on_pm. eapply wp_intro; [exact Hrun|]. apply wp_gets. simpl.
  apply wp_bind, wp_modify, wp_bind. fold (view (hhdm s) p). fold t.
  assert (t mod 8 = 0) as Ht8 by (pose proof (Z.div_mod t 4096); apply Z.mod_divide; [done|]; exists (512 * (t / 4096)); lia).
  apply (wp_copy_upper _ o t); [apply (tr_root _ _ _ Htree)|done|done|done|apply Hp|done|].
  intros w' Hup Hout. apply wp_ret. simpl in *.
  assert (∀ a, a < t ∨ t + 4096 ≤ a → w' a = word s a) as Houtside.
  { intros a Ha. rewrite Hout by lia. apply memzero_outside; [done|lia|lia]. }
  apply HQ; [|by apply (ready_outside s _ o p l Hr)]. split; [done..| | | |exact Houtside]; fold t.
  - intros i Hi. simpl. rewrite Hup by done. apply memzero_outside; [done|lia|].
    pose proof (page_apart t o Htm (tr_root _ _ _ Htree) (not_eq_sym Hot)). lia.
  - intros i Hi. unfold word_ld8. simpl. rewrite Hout.
    + change (ld8 (memzero (word s) t 512) (t + i) = 0). rewrite memzero_ld8 by lia.
      destruct (Z.leb_spec t (t + i)), (Z.ltb_spec (t + i) (t + 512)); done || lia.
    + unfold word_base. pose proof (Z.mod_pos_bound (t + i) 8). lia.
  - intros i Hi. simpl. rewrite Hout by lia. apply memzero_outside; [done|lia|lia].
Qed.

(** A table with the upper entries of [o] translates the upper half as [o]. *)
Lemma upper_translate w off o t virt :
  (∀ i, 256 ≤ i < 512 → w (t + 8 * i) = w (o + 8 * i)) → 2 ^ 47 ≤ virt mod 2 ^ 48 →
  translate w off t virt = translate w off o virt.
Proof.
  intros Hup Hv. pose proof (upper_index virt Hv) as Hi. unfold translate, path_of. cbn [table_at]. by rewrite Hup.
Qed.

(** Translations from [o] do not see a page outside its tree. *)
Lemma translate_outside s s' o p l virt :
  ready s o (p :: l) → (∀ a, a < view (hhdm s) p ∨ view (hhdm s) p + 4096 ≤ a → word s' a = word s a) →
  translate (word s') (hhdm s) o virt = translate (word s) (hhdm s) o virt.
Proof.
  intros Hr Hout. pose proof (rd_tree _ _ _ Hr) as Ht. pose proof (rd_fresh _ _ _ Hr p ltac:(left)) as Hp.
  assert (view (hhdm s) p mod 4096 = 0) as Hpm by (apply w64_page; [apply Hp|apply Ht]).
  unfold translate.
  rewrite (table_at_outside (word s) (word s') (hhdm s) o (view (hhdm s) p) [] (path_of virt) o);
    [|done..|intros q; apply (ft_new _ _ _ _ Hp)|done|done|apply path_of_ok].
  destruct (table_at (word s) (hhdm s) o (path_of virt)) as [t3|] eqn:E; [simpl|done].
  rewrite Hout; [done|].
  assert (t3 ≠ view (hhdm s) p) by (intros ->; by apply (ft_new _ _ _ _ Hp (path_of virt)); [apply path_of_ok|]).
  pose proof (index_land (Z.shiftr virt 12)) as Hj. unfold index in Hj. fold (VIRT_TO_PT_INDEX virt) in Hj.
  destruct (page_apart t3 (view (hhdm s) p)); [by eapply table_mod|done|done|lia..].
Qed.

Lemma wp_vmm_make_pml4 s l p (o := if old_pml4 s =? 0 then view (hhdm s) (cr3 s) else old_pml4 s) :
  ready s o (p :: l) →
  wp vmm_make_pml4 s (λ t s',
    t = view (hhdm s) p ∧ old_pml4 s' = o ∧ hhdm s' = hhdm s ∧
    (∀ virt, 2 ^ 47 ≤ virt mod 2 ^ 48 →
      translate (word s') (hhdm s) t virt = translate (word s) (hhdm s) o virt) ∧
    (∀ i, 0 ≤ i < 512 → word_ld8 (word s') (t + i) = 0) ∧
    (∀ i, 64 ≤ i < 256 → word s' (t + 8 * i) = word s (t + 8 * i))).
Proof.
  intros Hr. eapply wp_fresh_root; [exact Hr|]. intros s' [Hold Hh Hup Hlow Hmid Hout] Hr'.
  split_and!; [done..| |done|done]. intros virt Hv. fold o in Hup, Hr.
  rewrite <- (translate_outside s s' o p l virt Hr Hout). apply upper_translate; [|done].
  intros i Hi. rewrite Hup by done. symmetry. apply Hout.
  pose proof (rd_tree _ _ _ Hr) as Ht. pose proof (rd_fresh _ _ _ Hr p ltac:(left)) as Hp.
  destruct (page_apart o (view (hhdm s) p)); [apply Ht|apply w64_page; [apply Hp|apply Ht]| |lia..].
  intros E. apply (ft_new _ _ _ _ Hp []); [short_path|simpl; by f_equal].
Qed.

(** [vmm_make_pml4] returns a new top-level table whose upper half (the
    kernel's half) translates as in the old one.  Of the lower half only the
    first 64 entries are cleared: the other 192 keep what the frame held. *)
Theorem vmm_make_pml4_correct s l p (o := if old_pml4 s =? 0 then view (hhdm s) (cr3 s) else old_pml4 s) :
  ready s o (p :: l) →
  wp vmm_make_pml4 s (λ t s',
    t = view (hhdm s) p ∧ old_pml4 s' = o ∧ hhdm s' = hhdm s ∧
    (∀ virt, 2 ^ 47 ≤ virt mod 2 ^ 48 →
      translate (word s') (hhdm s) t virt = translate (word s) (hhdm s) o virt) ∧
    (∀ i, 0 ≤ i < 512 → word_ld8 (word s') (t + i) = 0) ∧
    (∀ i, 64 ≤ i < 256 → word s' (t + 8 * i) = word s (t + 8 * i))).
Proof. apply wp_vmm_make_pml4. Qed.
End run.

(** ** Witnesses: an empty address space over the sample memory map *)

Definition sample_hhdm : Z := 0xFFFF800000000000.
Definition sample_pml4 : Z := view sample_hhdm 0x200000.
Definition sample_vmm : vmm := Vmm (sample (λ _, 0)) (λ _, 0) 0x200000 0 sample_hhdm [].

Lemma zero_table_at off t q : table_at (λ _, 0) off t q = if decide (q = []) then Some t else None.
Proof. by destruct q. Qed.

Lemma sample_tree : tree (word sample_vmm) sample_hhdm sample_pml4.
Proof.
  split; [done|done| |]; simpl; setoid_rewrite zero_table_at.
  - intros q t _. case_decide; [|done]. by intros [= <-].
  - intros q q' t _ _. repeat case_decide; naive_solver.
Qed.

Lemma sample_ready : ready sample_vmm sample_pml4 [0x1000; 0x2000; 0x3000].
Proof.
  split; [apply sample_tree| | |].
  - simpl. do 3 (eexists; split; [reflexivity|]). done.
  - by apply (bool_decide_unpack _).
  - intros p Hp. assert (p = 0x1000 ∨ p = 0x2000 ∨ p = 0x3000) as Hp' by set_solver.
    split; [lia|by destruct Hp' as [->|[->| ->]]|by destruct Hp' as [->|[->| ->]]| |done].
    intros q _. simpl. rewrite zero_table_at. case_decide; [|done].
    destruct Hp' as [->|[->| ->]]; intros [= E]; vm_compute in E; discriminate.
Qed.

Example vmm_map_page_correct_witness :
  wp (vmm_map_page sample_pml4 0x400000 0x5000 3) sample_vmm (λ _ s',
    tree (word s') (hhdm s') sample_pml4 ∧ hhdm s' = hhdm sample_vmm ∧ tlb s' = 0x400000 :: tlb sample_vmm ∧
    ∀ v, translate (word s') (hhdm s') sample_pml4 v =
      if decide (page_number v = page_number 0x400000)
      then if Z.testbit (Z.lor 0x5000 3) 0 then Some (Z.lor 0x5000 3) else None
      else translate (word sample_vmm) (hhdm sample_vmm) sample_pml4 v).
Proof.
  apply (vmm_map_page_correct sample_vmm sample_pml4 [0x1000; 0x2000; 0x3000]); [apply sample_ready|simpl; lia].
Defined.

Example vmm_unmap_page_correct_witness :
  wp (vmm_unmap_page sample_pml4 0x400000) sample_vmm (λ _ s',
    tree (word s') (hhdm s') sample_pml4 ∧ pm s' = pm sample_vmm ∧ hhdm s' = hhdm sample_vmm ∧
    tlb s' = (if decide (is_Some (table_at (word sample_vmm) (hhdm sample_vmm) sample_pml4 (path_of 0x400000)))
              then 0x400000 :: tlb sample_vmm else tlb sample_vmm) ∧
    ∀ v, translate (word s') (hhdm s') sample_pml4 v =
      if decide (page_number v = page_number 0x400000) then None
      else translate (word sample_vmm) (hhdm sample_vmm) sample_pml4 v).
Proof. apply (vmm_unmap_page_correct sample_vmm sample_pml4 0x400000). apply sample_tree. Defined.

Example vmm_get_phys_correct_witness : ∃ s,
  translate (word s) (hhdm s) (view (hhdm s) (cr3 s)) 0x400123 = Some 0x5003 ∧
  wp (vmm_get_phys 0x400123) s (λ p s', p = PTE_GET_ADDR 0x5003 ∧ s' = s).
Proof.
  destruct (wp_done (vmm_map_page sample_pml4 0x400000 0x5000 3) sample_vmm (λ _ s',
    tree (word s') (hhdm s') (view (hhdm s') (cr3 s')) ∧
    translate (word s') (hhdm s') (view (hhdm s') (cr3 s')) 0x400123 = Some 0x5003))
    as (_ & s & _ & Ht & Htr).
  { eapply (wp_vmm_map_page sample_vmm sample_pml4 [0x1000; 0x2000; 0x3000]); [apply sample_ready|simpl; lia|].
    intros s' Ht Hh Hc _ Htr. rewrite Hc. rewrite Hh in *. split; [exact Ht|].
    change (view (hhdm sample_vmm) (cr3 sample_vmm)) with sample_pml4. rewrite Htr. by rewrite decide_True. }
  exists s. split; [exact Htr|]. apply (vmm_get_phys_correct s 0x400123 0x5003 Ht); [lia|exact Htr].
Defined.

Example vmm_make_pml4_correct_witness :
  wp vmm_make_pml4 sample_vmm (λ t s',
    t = view (hhdm sample_vmm) 0x1000 ∧ old_pml4 s' = sample_pml4 ∧ hhdm s' = hhdm sample_vmm ∧
    (∀ virt, 2 ^ 47 ≤ virt mod 2 ^ 48 →
      translate (word s') (hhdm sample_vmm) t virt =
      translate (word sample_vmm) (hhdm sample_vmm) sample_pml4 virt) ∧
    (∀ i, 0 ≤ i < 512 → word_ld8 (word s') (t + i) = 0) ∧
    (∀ i, 64 ≤ i < 256 → word s' (t + 8 * i) = word sample_vmm (t + 8 * i))).
Proof. apply (vmm_make_pml4_correct sample_vmm [0x2000; 0x3000] 0x1000). apply sample_ready. Defined.

(** ** What goes wrong: frames are linked in without being cleared *)

(** A frame that still holds a word which looks like an entry maps a page
    nobody asked for. *)
Example vmm_map_page_stale_frame :
  let dirty := Vmm (sample (λ _, 0)) (upd (λ _, 0) (sample_hhdm + 0x3000 + 8 * 7) 0x9003)
                   0x200000 0 sample_hhdm [] in
  translate (word dirty) sample_hhdm sample_pml4 0x407000 = None ∧
  match vmm_map_page sample_pml4 0x400000 0x5000 3 dirty with
  | Done (_, s') => translate (word s') sample_hhdm sample_pml4 0x407000 = Some 0x9003
  | _ => False
  end.
Proof. vm_compute. split; reflexivity. Qed.
