(* ===== verification/Frames.v ===== *)
(** How mm/pmm.c, mm/vmm.c and mm/heap.c share the physical frames. *)

From S2P Require Import Prelude CString Bitmap Pmm Heap Vmm.

Section frames.
Context `{ShiftSem}.

(** ** Specification *)

(** The allocator runs, over at least 32 frames. *)
Record frames_ok (s : pmm) (bm : Z → Z) (n : Z) : Prop := {
  fo_running : running s bm n;
  fo_bytes : 4 ≤ n;
  fo_limit : n * 8 * PAGE_SIZE < 2 ^ 64;
}.
(** The first frames are used, or free. *)
Definition low_used (bm : Z → Z) : Prop := ∀ i, 1 ≤ i < 8 → bit_at bm i = true.
Definition low_free (bm : Z → Z) : Prop := ∀ i, 1 ≤ i < 8 → bit_at bm i = false.

(** Making [k] address spaces one after the other. *)
Fixpoint make_tables (k : nat) : ST vmm (list Z) :=
  match k with
  | O => mret []
  | S k => t ← vmm_make_pml4; l ← make_tables k; mret (t :: l)
  end.

(** ** Lemmas *)

(** Frames 8 to 31 always seem free. *)
Lemma seems_free_8 bm i : 8 ≤ i < 32 → seems_free bm i.
Proof. intros Hi. unfold seems_free. rewrite bitmap_test_bit_spec by lia. by destruct (Z.ltb_spec i 8); [lia|]. Qed.

Lemma seems_free_low bm i : 1 ≤ i < 8 → seems_free bm i ↔ bit_at bm i = false.
Proof.
  intros Hi. unfold seems_free. rewrite bitmap_test_bit_spec by lia. destruct (Z.ltb_spec i 8); [|lia].
  by destruct (bit_at bm i).
Qed.

(** One frame, when the first seven are used: the eighth, used or not. *)
Lemma wp_alloc_eighth s bm n (Q : Z → pmm → Prop) :
  frames_ok s bm n → low_used bm →
  (∀ bm', frames_ok (set_bitmap bm' s) bm' n → low_used bm' → Q 0x8000 (set_bitmap bm' s)) →
  wp (pmm_alloc 1) s Q.
Proof.
  intros [Hr Hn Hlim] Hlow HQ.
  assert (run_at bm n 1 8) as H8 by (split_and!; [lia|lia|intros i Hi; apply seems_free_8; lia]).
  eapply wp_pmm_alloc; [exact Hr|lia|lia|exact Hlim|by exists 8|].
  intros r bm' (Hr1 & Hrn & Hall) Hfirst Hrun Hbits. assert (r = 8) as ->.
  { specialize (Hfirst 8 H8). destruct (decide (r = 8)) as [|Hne]; [done|]. exfalso.
    assert (seems_free bm r) as Hs by (apply Hall; lia). apply seems_free_low in Hs; [|lia]. by rewrite Hlow in Hs by lia. }
  apply HQ; [by split|]. intros i Hi. rewrite Hbits, Hlow by done. apply orb_true_r.
Qed.

(** The pages of the heap, when the first seven frames are free. *)
Lemma wp_alloc_first s bm n frames (Q : Z → pmm → Prop) :
  frames_ok s bm n → low_free bm → 8 ≤ frames ≤ 30 →
  (∀ bm', frames_ok (set_bitmap bm' s) bm' n → low_used bm' → Q 0x1000 (set_bitmap bm' s)) →
  wp (pmm_alloc frames) s Q.
Proof.
  intros [Hr Hn Hlim] Hlow Hf HQ.
  assert (run_at bm n frames 1) as H1.
  { split_and!; [lia|lia|]. intros i Hi. destruct (decide (i < 8)); [apply seems_free_low; [lia|]; apply Hlow; lia|apply seems_free_8; lia]. }
  eapply wp_pmm_alloc; [exact Hr|lia|lia|exact Hlim|by exists 1|].
  intros r bm' (Hr1 & _) Hfirst Hrun Hbits. assert (r = 1) as -> by (specialize (Hfirst 1 H1); lia).
  apply HQ; [by split|]. intros i Hi. rewrite Hbits. by rewrite bool_decide_true by lia.
Qed.

(** The table [vmm_make_pml4] copies from. *)
Definition source (s : vmm) : Z := if old_pml4 s =? 0 then view (hhdm s) (cr3 s) else old_pml4 s.

(** Address spaces can be made: the frames, the direct map and the source
    table. *)
Record tables_ok (s : vmm) (n : Z) : Prop := {
  to_frames : ∃ bm, frames_ok (pm s) bm n ∧ low_used bm;
  to_source : source s ≠ 0;
  to_table : view (hhdm s) 0x8000 ≠ 0;
}.

Lemma wp_copy_any o t s (Q : unit → vmm → Prop) :
  o ≠ 0 → t ≠ 0 → old_pml4 s = o → (∀ w', Q tt (set_word w' s)) →
  wp (for_each (seqZ 256 256) (λ i, old ← gets old_pml4; e ← read_entry old i; write_entry t i e)) s Q.
Proof.
  intros Ho Ht Hold HQ. eapply wp_mono; [apply (wp_for_each (λ _ s', ∃ w', s' = set_word w' s))|].
  - exists (word s). by destruct s.
  - intros l i s1 (w' & ->) _. apply wp_bind, wp_gets, wp_bind, wp_bind, wp_nonnull; [simpl; congruence|].
    apply wp_gets, wp_bind, wp_nonnull; [exact Ht|]. apply wp_modify. by eexists.
  - intros [] s' (w' & ->). apply HQ.
Qed.

Lemma wp_make_eighth s n (Q : Z → vmm → Prop) :
  tables_ok s n → (∀ s', tables_ok s' n → hhdm s' = hhdm s → Q (view (hhdm s) 0x8000) s') → wp vmm_make_pml4 s Q.
Proof.
  intros [(bm & Hf & Hlow) Ho Ht] HQ. apply wp_bind, wp_gets, wp_bind.
  assert (∀ Q : unit → vmm → Prop, Q tt (Vmm (pm s) (word s) (cr3 s) (source s) (hhdm s) (tlb s)) →
    wp (if old_pml4 s =? 0 then p ← vmm_get_pml4; modify (λ s, Vmm (pm s) (word s) (cr3 s) p (hhdm s) (tlb s))
        else mret tt) s Q) as Hpro.
  { intros Q' HQ'. unfold source in HQ'. destruct (old_pml4 s =? 0).
    - by apply wp_bind, wp_bind, wp_gets, wp_gets, wp_modify.
    - apply wp_ret. by destruct s. }
  apply Hpro. apply wp_bind, wp_bind, wp_on_pm. eapply wp_alloc_eighth; [exact Hf|exact Hlow|].
  intros bm' Hf' Hlow'. apply wp_gets. simpl. apply wp_bind, wp_modify, wp_bind.
  apply (wp_copy_any (source s)); [exact Ho|exact Ht|reflexivity|]. intros w'. apply wp_ret.
  apply HQ; [|reflexivity]. split; [exists bm'; by split| |exact Ht].
  unfold source at 1. simpl. by rewrite (proj2 (Z.eqb_neq _ _) Ho).
Qed.

(** ** Page tables in any memory *)

(** Memory ends below the direct map's image of the upper half: no word looks
    like a page-table entry whose table the direct map would put at null, and
    the bitmap has a bit for every frame. *)
Record vm_ok (off : Z) (v : vmm) : Prop := {
  vo_frames : ∃ bm n, running (pm v) bm n ∧ 1 ≤ n ≤ 2 ^ 31;
  vo_hhdm : hhdm v = off;
  vo_root : view off (cr3 v) ≠ 0;
  vo_entries a : view off (PTE_GET_ADDR (word v a)) ≠ 0;
}.

Section any_memory.
Context (off : Z) (Hpos : 0 < off) (Halign : off mod 8 = 0) (Htop : off + 2 ^ 47 ≤ 2 ^ 64).

Lemma frame_mapped r : 0 ≤ r < 2 ^ 34 → view off (PAGE_SIZE * r) = PAGE_SIZE * r + off.
Proof using Hpos Htop. intros Hr. change PAGE_SIZE with 4096. apply w64_small. lia. Qed.

Lemma vm_ok_word v w :
  vm_ok off v → (∀ a, view off (PTE_GET_ADDR (w a)) ≠ 0) → vm_ok off (set_word w v).
Proof. intros [Hf Hh Hr _] Hw. by split. Qed.

Lemma entry_null : view off (PTE_GET_ADDR 0) ≠ 0.
Proof using Hpos Htop. change (PTE_GET_ADDR 0) with 0. unfold view. rewrite w64_small; lia. Qed.

Lemma wp_alloc_frame v (Q : Z → vmm → Prop) :
  vm_ok off v → (∀ r v', 0 ≤ r < 2 ^ 34 → vm_ok off v' → old_pml4 v' = old_pml4 v → Q (PAGE_SIZE * r) v') →
  wp (on_pm (pmm_alloc 1)) v Q.
Proof.
  intros [(bm & n & Hrun & Hn) Hh Hr He] HQ. apply wp_on_pm.
  eapply wp_pmm_alloc_one; [exact Hrun|lia|change PAGE_SIZE with 4096; lia|].
  intros r bm' Hin Hrun'. apply HQ; [lia| |done]. split; [|done..]. exists bm', n. by split.
Qed.

(** A walk never meets a null table, whatever the entries hold. *)
Lemma wp_next_level_any t i v (Q : Z → vmm → Prop) :
  vm_ok off v → t ≠ 0 → (∀ t' v', t' ≠ 0 → vm_ok off v' → Q t' v') → wp (get_next_level t i true) v Q.
Proof using Hpos Htop.
  intros Hv Ht HQ. pose proof Hv as [_ Hh _ He]. apply wp_bind, wp_read_entry; [done|].
  destruct (negb _); [apply wp_gets, HQ; [rewrite Hh; apply He|done]|]. simpl.
  apply wp_bind, wp_alloc_frame; [exact Hv|]. intros r v1 Hr Hv1 _. apply wp_bind, wp_write_entry; [done|].
  apply wp_gets, HQ; simpl.
  - rewrite (vo_hhdm _ _ Hv1). change (view off (PAGE_SIZE * r) ≠ 0). rewrite frame_mapped by done. change PAGE_SIZE with 4096. lia.
  - apply vm_ok_word; [done|]. intros a. unfold upd. destruct (a =? _); [|apply (vo_entries _ _ Hv1)].
    fold (table_entry (PAGE_SIZE * r)). change PAGE_SIZE with 4096 in *.
    rewrite (proj2 (table_entry_spec (4096 * r) ltac:(lia) ltac:(rewrite Z.mul_comm; apply Z.mod_mul; lia))).
    change (view off (PAGE_SIZE * r) ≠ 0). rewrite frame_mapped by done. change PAGE_SIZE with 4096. lia.
Qed.

Lemma completes_get_phys virt : completes (vm_ok off) (vmm_get_phys virt).
Proof using Hpos Htop.
  intros v Hv. unfold vmm_get_phys, vmm_get_pml4. apply wp_bind, wp_bind, wp_gets, wp_gets. rewrite (vo_hhdm _ _ Hv).
  unfold get_page_table. apply wp_bind, wp_bind, wp_next_level_any; [exact Hv|apply (vo_root _ _ Hv)|]. intros t1 v1 Ht1 Hv1.
  destruct (Z.eqb_spec t1 0); [done|]. apply wp_bind, wp_next_level_any; [done..|]. intros t2 v2 Ht2 Hv2.
  destruct (Z.eqb_spec t2 0); [done|]. apply wp_next_level_any; [done..|]. intros t3 v3 Ht3 Hv3.
  apply wp_bind, wp_read_entry; [done|]. by apply wp_ret.
Qed.

(** Zeroing whole words leaves null entries. *)
Lemma memzero_entry w t n a :
  t mod 8 = 0 → n mod 8 = 0 → 0 ≤ n → memzero w t n a = w a ∨ PTE_GET_ADDR (memzero w t n a) = 0.
Proof.
  intros Ht Hn Hn0. destruct (decide (a mod 8 = 0)) as [Ha|Ha].
  2:{ left. unfold memzero. induction (seqZ 0 n) as [|i l IH] using rev_ind; [done|]. rewrite foldl_app. simpl.
      unfold word_st8. rewrite upd_ne; [exact IH|]. unfold word_base. intros E. apply Ha. rewrite E, Zminus_mod_idemp_r.
      by rewrite Z.sub_diag. }
  destruct (decide (t ≤ a < t + n)) as [Hin|Hout]; [right|left; apply memzero_outside; [done|lia|lia]].
  apply Z.bits_inj_0. intros i. unfold PTE_GET_ADDR. destruct (Z.lt_ge_cases i 0); [by apply Z.testbit_neg_r|].
  rewrite Z.land_spec, mask_bit by done. destruct (Z.ltb_spec i 52); [|by rewrite andb_false_r, andb_false_r].
  pose proof (Z.div_mod i 8 ltac:(lia)) as Hi. pose proof (Z.mod_pos_bound i 8 ltac:(lia)).
  assert (0 ≤ i / 8 < 8) as Hd by (split; [apply Z.div_pos; lia|apply Z.div_lt_upper_bound; lia]).
  pose proof (memzero_ld8 w t n (a + i / 8) Hn0) as Hb.
  assert (a + i / 8 < t + n) as Hlt.
  { pose proof (Z.div_mod a 8). pose proof (Z.div_mod t 8). pose proof (Z.div_mod n 8). lia. }
  destruct (Z.leb_spec t (a + i / 8)), (Z.ltb_spec (a + i / 8) (t + n)); try lia. simpl in Hb.
  change (word_ld8 (memzero w t n) (a + i / 8) = 0) in Hb. unfold word_ld8, word_base, byte_shift in Hb.
  assert ((a + i / 8) mod 8 = i / 8) as Hm by (rewrite Z.add_mod, Ha, Z.add_0_l, Z.mod_mod, Z.mod_small by lia; lia).
  rewrite Hm in Hb. replace (a + i / 8 - i / 8) with a in Hb by lia.
  apply (f_equal (λ x, Z.testbit x (i mod 8))) in Hb. change 256 with (2 ^ 8) in Hb.
  rewrite Z.mod_pow2_bits_low, Z.bits_0 in Hb by lia. rewrite <- Z.shiftr_div_pow2, Z.shiftr_spec in Hb by lia.
  replace i with (i mod 8 + 8 * (i / 8)) at 1 by lia. by rewrite Hb.
Qed.

(** A page table can be made at any time. *)
Lemma completes_make_pml4 : completes (vm_ok off) vmm_make_pml4.
Proof using Hpos Halign Htop.
  set (I := λ v, vm_ok off v ∧ old_pml4 v ≠ 0). intros v Hv. apply wp_bind, wp_gets, wp_bind.
  assert (∀ Q : unit → vmm → Prop, (∀ v', I v' → Q tt v') →
    wp (if old_pml4 v =? 0 then p ← vmm_get_pml4; modify (λ s, Vmm (pm s) (word s) (cr3 s) p (hhdm s) (tlb s))
        else mret tt) v Q) as Hpro.
  { intros Q HQ. destruct (Z.eqb_spec (old_pml4 v) 0); [|by apply wp_ret, HQ].
    apply wp_bind, wp_bind, wp_gets, wp_gets, wp_modify, HQ. destruct Hv as [Hf Hh Hr He]. split; [by split|].
    simpl. by rewrite Hh. }
  apply Hpro. clear v Hv Hpro. intros v [Hv Hold]. apply wp_bind. unfold vmm_alloc_pages.
  apply wp_bind, wp_alloc_frame; [exact Hv|]. intros r v1 Hr Hv1 Hold1. apply wp_gets. rewrite (vo_hhdm _ _ Hv1).
  change (w64 (PAGE_SIZE * r + off)) with (view off (PAGE_SIZE * r)). rewrite frame_mapped by done.
  change PAGE_SIZE with 4096. set (t := 4096 * r + off). assert (t mod 8 = 0) as Ht.
  { unfold t. replace (4096 * r + off) with (off + (512 * r) * 8) by ring. by rewrite Z.mod_add. }
  apply wp_bind, wp_modify.
  match goal with |- wp (?c ≫= ?k) ?x ?Q => assert (completes I (c ≫= k)) as Hc; [|assert (I x) as Hx] end.
  - apply completes_bind; [|intros _; apply completes_ret]. apply completes_for_each. intros i _ x [Hx Hxo].
    apply wp_bind, wp_gets, wp_bind, wp_read_entry; [done|]. apply wp_write_entry; [lia|]. split; [|exact Hxo].
    apply vm_ok_word; [done|]. intros a. unfold upd. destruct (a =? _); apply (vo_entries _ _ Hx).
  - split; [|simpl; congruence]. apply vm_ok_word; [done|]. intros a.
    destruct (memzero_entry (word v1) t 512 a) as [->| ->]; [done|done|lia|apply (vo_entries _ _ Hv1)|apply entry_null].
  - eapply wp_mono; [exact (Hc _ Hx)|]. by intros ? ? [? _].
Qed.
End any_memory.

(** ** Properties *)

(** C21. Once the first seven frames are used, [vmm_make_pml4] returns the same
    frame, the eighth, for every address space: however many are made, they
    are one page table. *)
Theorem address_spaces_alias s n k :
  tables_ok s n → wp (make_tables k) s (λ l _, l = replicate k (view (hhdm s) 0x8000)).
Proof.
  revert s. induction k as [|k IH]; intros s Hs; [by apply wp_ret|].
  apply wp_bind. eapply wp_make_eighth; [exact Hs|]. intros s' Hs' Hh. apply wp_bind.
  eapply wp_mono; [apply (IH s' Hs')|]. intros l s2 ->. apply wp_ret. by rewrite Hh.
Qed.

(** On a machine whose first frames are free, the pages of the heap are
    frames 1 to 30, and the page table of the next address space is frame 8,
    in the middle of the heap. *)
Theorem table_inside_heap s bm n :
  frames_ok (pm s) bm n → low_free bm → source s ≠ 0 → 0 < hhdm s → hhdm s + 0x1000 + HEAP_SIZE_PAGES * 4096 < 2 ^ 64 →
  wp (heap ← vmm_alloc_pages HEAP_SIZE_PAGES; t ← vmm_make_pml4; mret (heap, t)) s (λ r _,
    r = (hhdm s + 0x1000, hhdm s + 0x8000) ∧ r.1 ≤ r.2 ∧ r.2 + 4096 ≤ r.1 + HEAP_SIZE_PAGES * 4096).
Proof.
  intros Hf Hlow Ho Hh Hlim. unfold HEAP_SIZE_PAGES in *.
  apply wp_bind, wp_bind, wp_on_pm. eapply wp_alloc_first; [exact Hf|exact Hlow|lia|]. intros bm' Hf' Hlow'. apply wp_gets.
  assert (view (hhdm s) 0x8000 = hhdm s + 0x8000) as Hv by (unfold view; rewrite w64_small; lia).
  apply wp_bind. eapply (wp_make_eighth _ n).
  - split; [by exists bm'|exact Ho|]. simpl. rewrite Hv. lia.
  - intros s' _ _. apply wp_ret. simpl. rewrite Hv, w64_small by lia. split; [f_equal; lia|lia].
Qed.
End frames.

(** ** Witnesses *)

Definition low_bitmap (used : bool) : Z → Z := λ k, if (k =? 0) && used then 0xFF else 0.
Definition low_vmm (used : bool) : vmm := Vmm (sample (low_bitmap used)) (λ _, 0) 0x200000 0 sample_hhdm [].

Lemma low_frames_ok used : frames_ok (sample (low_bitmap used)) (low_bitmap used) 4096.
Proof. split; [apply sample_running|lia|]. change PAGE_SIZE with 4096. lia. Qed.

Lemma low_bits used i : 1 ≤ i < 8 → bit_at (low_bitmap used) i = used.
Proof.
  intros Hi. assert (i = 1 ∨ i = 2 ∨ i = 3 ∨ i = 4 ∨ i = 5 ∨ i = 6 ∨ i = 7) as [->|[->|[->|[->|[->|[->| ->]]]]]] by lia; by destruct used.
Qed.

Example address_spaces_alias_witness :
  wp (make_tables 3) (low_vmm true) (λ l _, l = [0xFFFF800000008000; 0xFFFF800000008000; 0xFFFF800000008000]).
Proof.
  apply (address_spaces_alias (low_vmm true) 4096 3). split; [|vm_compute; discriminate|vm_compute; discriminate].
  exists (low_bitmap true). split; [apply low_frames_ok|]. intros i Hi. by apply low_bits.
Defined.

Example table_inside_heap_witness :
  wp (heap ← vmm_alloc_pages HEAP_SIZE_PAGES; t ← vmm_make_pml4; mret (heap, t)) (low_vmm false) (λ r _,
    r = (0xFFFF800000001000, 0xFFFF800000008000) ∧ r.1 ≤ r.2 ∧ r.2 + 4096 ≤ r.1 + HEAP_SIZE_PAGES * 4096).
Proof.
  apply (table_inside_heap (low_vmm false) (low_bitmap false) 4096); [apply low_frames_ok| |vm_compute; discriminate|vm_compute; reflexivity|vm_compute; reflexivity].
  intros i Hi. by apply low_bits.
Defined.
