(* ===== verification/Io.v ===== *)
(** sys/amd64/io.c and the volatile accesses of the drivers: devices seen
    through port and memory-mapped reads and writes. *)

From S2P Require Import Prelude.

(** ** Devices *)

Inductive space := Port | Mmio.

(** A machine's devices, with states [D]: reading may change the state, and a
    read of [n] bytes gives an [n]-byte value.  Nothing else is assumed, so a
    theorem holds for every device unless it names what the device does. *)
Class Device (D : Type) := {
  dev_in : space → Z → Z → D → Z * D;
  dev_out : space → Z → Z → Z → D → D;
  dev_in_range : ∀ sp a n d, 0 ≤ n → 0 ≤ (dev_in sp a n d).1 < 2 ^ (8 * n);
}.

Section io.
Context {D : Type} `{Device D}.

Definition io_in (sp : space) (a n : Z) : ST D Z := λ d, Done (dev_in sp a n d).
Definition io_out (sp : space) (a n v : Z) : ST D unit := λ d, Done (tt, dev_out sp a n v d).

(** ** Port access *)

Definition inb (port : Z) : ST D Z := io_in Port (w16 port) 1.
Definition outb (port data : Z) : ST D unit := io_out Port (w16 port) 1 (w8 data).
Definition outw (port data : Z) : ST D unit := io_out Port (w16 port) 2 (w16 data).
Definition inw (port : Z) : ST D Z := io_in Port (w16 port) 2.
Definition outl (port data : Z) : ST D unit := io_out Port (w16 port) 4 (w32 data).
Definition inl_ (port : Z) : ST D Z := io_in Port (w16 port) 4.
Definition io_wait : ST D unit := io_out Port 0x80 1 0.

(** ** Memory-mapped registers, by width *)

Definition mmio_read32 (a : Z) : ST D Z := io_in Mmio (w64 a) 4.
Definition mmio_write32 (a v : Z) : ST D unit := io_out Mmio (w64 a) 4 (w32 v).
Definition mmio_read64 (a : Z) : ST D Z := io_in Mmio (w64 a) 8.
Definition mmio_write64 (a v : Z) : ST D unit := io_out Mmio (w64 a) 8 (w64 v).

Lemma wp_io_in sp a n d (Q : Z → D → Prop) :
  0 ≤ n → (∀ v d', dev_in sp a n d = (v, d') → 0 ≤ v < 2 ^ (8 * n) → Q v d') → wp (io_in sp a n) d Q.
Proof.
  intros Hn HQ. unfold wp, io_in. pose proof (dev_in_range sp a n d Hn) as Hv.
  destruct (dev_in sp a n d) as [v d']. by apply HQ.
Qed.

Lemma wp_io_out sp a n v d (Q : unit → D → Prop) :
  Q tt (dev_out sp a n v d) → wp (io_out sp a n v) d Q.
Proof. done. Qed.

(** An access to a device always completes. *)
Lemma completes_io_in sp a n : completes (λ _, True) (io_in sp a n).
Proof. intros d _. unfold wp, io_in. by destruct (dev_in sp a n d). Qed.

Lemma completes_io_out sp a n v : completes (λ _, True) (io_out sp a n v).
Proof. done. Qed.
End io.

#[export] Hint Extern 1 (completes _ (inb _)) => apply completes_io_in : completes.
#[export] Hint Extern 1 (completes _ (inw _)) => apply completes_io_in : completes.
#[export] Hint Extern 1 (completes _ (inl_ _)) => apply completes_io_in : completes.
#[export] Hint Extern 1 (completes _ (outb _ _)) => apply completes_io_out : completes.
#[export] Hint Extern 1 (completes _ (outw _ _)) => apply completes_io_out : completes.
#[export] Hint Extern 1 (completes _ (outl _ _)) => apply completes_io_out : completes.
#[export] Hint Extern 1 (completes _ (mmio_read32 _)) => apply completes_io_in : completes.
#[export] Hint Extern 1 (completes _ (mmio_write32 _ _)) => apply completes_io_out : completes.
#[export] Hint Extern 1 (completes _ (mmio_read64 _)) => apply completes_io_in : completes.
#[export] Hint Extern 1 (completes _ (mmio_write64 _ _)) => apply completes_io_out : completes.

(** ** A device that answers from a script and records every access *)

Inductive event := In (sp : space) (a n v : Z) | Out (sp : space) (a n v : Z).

Record recorder := Recorder { script : nat → Z; events : list event }.

#[export] Program Instance recorder_device : Device recorder := {|
  dev_in sp a n d :=
    let v := script d 0%nat mod 2 ^ (8 * n) in
    (v, Recorder (λ i, script d (S i)) (In sp a n v :: events d));
  dev_out sp a n v d := Recorder (script d) (Out sp a n v :: events d);
|}.
Next Obligation. intros. simpl. apply Z.mod_pos_bound, Z.pow_pos_nonneg; lia. Qed.
