(* ===== verification/Acpi.v ===== *)
(** sys/acpi/acpi.c: finding ACPI tables, and the interrupt routing entries of
    the MADT. *)

From S2P Require Import Prelude CString.

(** ** Tables in memory *)

(** Field offsets of the packed structures of acpi/def.h. *)
Definition sizeof_acpi_header : Z := 36.
Definition sizeof_acpi_madt : Z := 44.
Definition off_length : Z := 4.
Definition off_lapic_addr : Z := 36.

Definition APIC_TYPE_IO_APIC : Z := 1.
Definition APIC_TYPE_INTERRUPT_OVERRIDE : Z := 2.

(** The file's variables ([0] is null). *)
Record acpi := Acpi {
  rsdt : Z;
  madt : Z;
  rsdt_entry_count : Z;
  g_ioapic_mmio_base : Z;
  g_lapic_mmio_base : Z;
}.

Section acpi.
(** Physical memory through the direct map, and the map's offset. *)
Context {M : Type} `{ByteMem M} (m : M) (hhdm : Z).

Notation A := (ST acpi).

Definition ld16 (a : Z) : Z := ld8 m a + 256 * ld8 m (a + 1).
Definition ld32 (a : Z) : Z := ld16 a + 65536 * ld16 (a + 2).

(** [apic_header->type] and [apic_header->length]. *)
Definition apic_type (cur : Z) : Z := ld8 m cur.
Definition apic_length (cur : Z) : Z := ld8 m (cur + 1).

(** [ioapic->io_apic_addr]; [source] and [interrupt] of an override. *)
Definition io_apic_addr (cur : Z) : Z := ld32 (cur + 4).
Definition override_source (cur : Z) : Z := ld8 m (cur + 3).
Definition override_interrupt (cur : Z) : Z := ld32 (cur + 4).

(** ** Operations *)

Fixpoint parse_loop (fuel : nat) (cur end_ : Z) : A unit :=
  match fuel with
  | O => no_fuel
  | S fuel =>
      if cur <? end_ then
        (if apic_type cur =? APIC_TYPE_IO_APIC then
           modify (λ s, Acpi (rsdt s) (madt s) (rsdt_entry_count s) (io_apic_addr cur) (g_lapic_mmio_base s))
         else mret tt) ;;
        parse_loop fuel (cur + apic_length cur) end_
      else mret tt
  end.

Definition parse_madt (fuel : nat) : A unit :=
  t ← gets madt;
  guard_ (negb (t =? 0)) ;;
  modify (λ s, Acpi (rsdt s) (madt s) (rsdt_entry_count s) (g_ioapic_mmio_base s) (ld32 (t + off_lapic_addr))) ;;
  parse_loop fuel (t + sizeof_acpi_madt) (t + ld32 (t + off_length)).

(** [char] is signed here; the sum is kept in a byte. *)
Definition do_checksum (header : Z) : bool :=
  let sum := foldl (λ sum i, w8 (sum + ld8 m (header + i))) 0 (seqZ 0 (ld32 (header + off_length))) in
  sum mod 0x100 =? 0.

(** [rsdt->tables[i] + VMM_HIGHER_HALF]. *)
Definition table_of (t i : Z) : Z := w64 (ld32 (t + sizeof_acpi_header + 4 * i) + hhdm).

Fixpoint query_loop (l : list Z) (fuel : nat) (t query : Z) : A Z :=
  match l with
  | [] => mret 0
  | i :: l =>
      let current := table_of t i in
      len ← from_option mret no_fuel (strlen fuel m query);
      if memcmp m current query len =? 0
      then mret (if do_checksum current then current else 0)
      else query_loop l fuel t query
  end.

Definition acpi_query (fuel : nat) (query : Z) : A Z :=
  t ← gets rsdt;
  n ← gets rsdt_entry_count;
  guard_ (negb (t =? 0) || (n =? 0)) ;;
  query_loop (seqZ 0 n) fuel t query.

Fixpoint remap_loop (fuel : nat) (irq cur end_ : Z) : A Z :=
  match fuel with
  | O => no_fuel
  | S fuel =>
      if cur <? end_ then
        if (apic_type cur =? APIC_TYPE_INTERRUPT_OVERRIDE) && (override_source cur =? irq)
        then mret (w16 (override_interrupt cur))
        else remap_loop fuel irq (cur + apic_length cur) end_
      else mret irq
  end.

Definition acpi_remap_irq (fuel : nat) (irq : Z) : A Z :=
  t ← gets madt;
  guard_ (negb (t =? 0)) ;;
  remap_loop fuel irq (t + sizeof_acpi_madt) (t + ld32 (t + off_length)).

(** [rsdp] is the pointer in the boot loader's response, whose [rsdtaddr] lies
    at offset 16; [apic_str] is the string literal of the query. *)
Definition acpi_init (fuel : nat) (rsdp apic_str : Z) : A unit :=
  guard_ (negb (rsdp =? 0)) ;;
  let t := w64 (ld32 (rsdp + 16) + hhdm) in
  modify (λ s, Acpi t (madt s) (w64 (ld32 (t + off_length) - sizeof_acpi_header) / 4)
                    (g_ioapic_mmio_base s) (g_lapic_mmio_base s)) ;;
  p ← acpi_query fuel apic_str;
  modify (λ s, Acpi (rsdt s) p (rsdt_entry_count s) (g_ioapic_mmio_base s) (g_lapic_mmio_base s)) ;;
  assert_ (negb (p =? 0)) ;;
  parse_madt fuel.

(** ** Specification *)

(** The entries that start at [cur] and fill the table up to [end_] exactly,
    none of them empty. *)
Inductive entries : Z → Z → list Z → Prop :=
| entries_nil cur : entries cur cur []
| entries_cons cur end_ l : 0 < apic_length cur → cur + apic_length cur ≤ end_ →
    entries (cur + apic_length cur) end_ l → entries cur end_ (cur :: l).

(** The override that applies to [irq], if any. *)
Definition override_of (l : list Z) (irq : Z) : option Z :=
  head (filter (λ c, apic_type c = APIC_TYPE_INTERRUPT_OVERRIDE ∧ override_source c = irq) l).

(** The I/O APIC entries. *)
Definition io_apics (l : list Z) : list Z := filter (λ c, apic_type c = APIC_TYPE_IO_APIC) l.

(** ** Lemmas *)

Lemma entries_le cur end_ l : entries cur end_ l → cur ≤ end_.
Proof. induction 1; lia. Qed.

(** Every entry takes at least one byte. *)
Lemma entries_length cur end_ l : entries cur end_ l → zlen l ≤ end_ - cur.
Proof. induction 1; simpl; lia. Qed.

Lemma wp_remap_loop fuel irq cur end_ l s (Q : Z → acpi → Prop) :
  entries cur end_ l → (length l < fuel)%nat →
  Q (match override_of l irq with Some c => w16 (override_interrupt c) | None => irq end) s →
  wp (remap_loop fuel irq cur end_) s Q.
Proof.
  intros He. revert fuel. induction He as [cur|cur end_ l Hlen Hle He IH]; intros [|fuel] Hf HQ;
    simpl in *; try lia.
  - rewrite Z.ltb_irrefl. by apply wp_ret.
  - destruct (Z.ltb_spec cur end_); [|lia]. unfold override_of in *.
    destruct (Z.eqb_spec (apic_type cur) APIC_TYPE_INTERRUPT_OVERRIDE),
      (Z.eqb_spec (override_source cur) irq); simpl;
      try (rewrite filter_cons_False in HQ by tauto; apply IH; [lia|done]).
    rewrite filter_cons_True in HQ by (split; done). apply wp_ret. exact HQ.
Qed.

Lemma wp_parse_loop fuel cur end_ l s (Q : unit → acpi → Prop) :
  entries cur end_ l → (length l < fuel)%nat →
  Q tt (Acpi (rsdt s) (madt s) (rsdt_entry_count s)
         (match list.last (io_apics l) with Some c => io_apic_addr c | None => g_ioapic_mmio_base s end)
         (g_lapic_mmio_base s)) →
  wp (parse_loop fuel cur end_) s Q.
Proof.
  intros He. revert fuel s. induction He as [cur|cur end_ l Hlen Hle He IH]; intros [|fuel] s Hf HQ;
    simpl in *; try lia.
  - rewrite Z.ltb_irrefl. apply wp_ret. by destruct s.
  - destruct (Z.ltb_spec cur end_); [|lia]. unfold io_apics in *. apply wp_bind.
    destruct (Z.eqb_spec (apic_type cur) APIC_TYPE_IO_APIC).
    + rewrite filter_cons_True in HQ by done. apply wp_modify, IH; [lia|]. simpl.
      revert HQ. rewrite last_cons. by destruct (list.last _).
    + rewrite filter_cons_False in HQ by done. apply wp_ret, IH; [lia|done].
Qed.

Lemma checksum_spec header :
  do_checksum header = true ↔
  foldr Z.add 0 (bytes_at m header (ld32 (header + off_length))) mod 256 = 0.
Proof.
  unfold do_checksum, bytes_at. rewrite Z.eqb_eq.
  assert (∀ l z, foldl (λ sum i, w8 (sum + ld8 m (header + i))) z l mod 256 =
    (z + foldr Z.add 0 ((λ i, ld8 m (header + i)) <$> l)) mod 256) as Hl; [|by rewrite Hl].
  induction l as [|i l IH]; intros z; simpl; [by rewrite Z.add_0_r|].
  rewrite IH. unfold w8. change (2 ^ 8) with 256. rewrite Z.add_mod_idemp_l by lia. by rewrite Z.add_assoc.
Qed.

Lemma wp_query_loop l fuel t query q s (Q : Z → acpi → Prop) :
  is_cstr m query q → (length q < fuel)%nat →
  Q (match head (filter (λ i, bytes_at m (table_of t i) (zlen q) = q) l) with
     | Some i => if do_checksum (table_of t i) then table_of t i else 0
     | None => 0
     end) s →
  wp (query_loop l fuel t query) s Q.
Proof.
  intros Hq Hf. induction l as [|i l IH]; simpl; [done|]. rewrite (strlen_cstr fuel m query q) by done. simpl.
  intros HQ. apply wp_bind, wp_ret. destruct (Z.eqb_spec (memcmp m (table_of t i) query (zlen q)) 0) as [E|E].
  - apply memcmp_0 in E. destruct Hq as (Hq & _ & _). rewrite Hq in E.
    rewrite filter_cons_True in HQ by done. apply wp_ret. exact HQ.
  - apply IH. rewrite filter_cons_False in HQ; [done|]. intros E'. apply E, memcmp_0. rewrite E'.
    by destruct Hq.
Qed.

(** ** Start-up *)

Definition APIC : list Z := [65; 80; 73; 67].

(** The table at [t] and its number of entries, the MADT as the first table
    with the signature, and the variables after start-up. *)
Definition rsdt_of (rsdp : Z) : Z := w64 (ld32 (rsdp + 16) + hhdm).
Definition entry_count (t : Z) : Z := w64 (ld32 (t + off_length) - sizeof_acpi_header) / 4.
Definition first_apic (t : Z) : option Z :=
  head (filter (λ p, bytes_at m p 4 = APIC) (table_of t <$> seqZ 0 (entry_count t))).
Definition initialised (s : acpi) (t p : Z) (l : list Z) : acpi :=
  Acpi t p (entry_count t)
       (match list.last (io_apics l) with Some c => io_apic_addr c | None => g_ioapic_mmio_base s end)
       (ld32 (p + off_lapic_addr)).

Lemma head_filter_fmap (f : Z → Z) (P : Z → Prop) `{∀ x, Decision (P x)} l :
  head (filter P (f <$> l)) = f <$> head (filter (λ i, P (f i)) l).
Proof.
  induction l as [|i l IH]; simpl; [done|]. destruct (decide (P (f i))) as [Hp|Hp].
  - by rewrite !filter_cons_True.
  - by rewrite !filter_cons_False.
Qed.

(** What the query for the MADT returns. *)
Definition found (t : Z) : Z :=
  match first_apic t with Some p => if do_checksum p then p else 0 | None => 0 end.

(** The same for any signature [q]. *)
Definition found_as (q : list Z) (t : Z) : Z :=
  match head (filter (λ p, bytes_at m p (zlen q) = q) (table_of t <$> seqZ 0 (entry_count t))) with
  | Some p => if do_checksum p then p else 0
  | None => 0
  end.

Lemma wp_acpi_query fuel query q s (Q : Z → acpi → Prop) :
  rsdt s ≠ 0 → rsdt_entry_count s = entry_count (rsdt s) → is_cstr m query q → (length q < fuel)%nat →
  Q (found_as q (rsdt s)) s → wp (acpi_query fuel query) s Q.
Proof.
  intros Ht Hn Ha Hf HQ.
  apply wp_bind, wp_gets, wp_bind, wp_gets, wp_bind, wp_guard; [by destruct (Z.eqb_spec (rsdt s) 0)|].
  apply (wp_query_loop _ _ _ _ q); [done..|]. revert HQ. unfold found_as. rewrite head_filter_fmap, Hn. by destruct (head _).
Qed.

Lemma acpi_query_found fuel query s :
  rsdt s ≠ 0 → rsdt_entry_count s = entry_count (rsdt s) → is_cstr m query APIC → (4 < fuel)%nat →
  acpi_query fuel query s = Done (found (rsdt s), s).
Proof.
  intros Ht Hn Ha Hf. assert (wp (acpi_query fuel query) s (λ r s', r = found (rsdt s) ∧ s' = s)) as Hw.
  - by apply (wp_acpi_query _ _ APIC).
  - apply wp_done in Hw as (? & ? & -> & -> & ->). done.
Qed.

Lemma acpi_init_eq fuel rsdp apic_str s (t := rsdt_of rsdp) :
  rsdp ≠ 0 → t ≠ 0 → is_cstr m apic_str APIC → (4 < fuel)%nat →
  acpi_init fuel rsdp apic_str s = (assert_ (negb (found t =? 0)) ;; parse_madt fuel)
    (Acpi t (found t) (entry_count t) (g_ioapic_mmio_base s) (g_lapic_mmio_base s)).
Proof.
  intros Hr Ht Ha Hf. unfold acpi_init, guard_. destruct (Z.eqb_spec rsdp 0); [done|].
  pose proof (acpi_query_found fuel apic_str
    (Acpi t (madt s) (entry_count t) (g_ioapic_mmio_base s) (g_lapic_mmio_base s)) Ht eq_refl Ha Hf) as Hq.
  unfold mbind, ST_bind, modify in *. simpl. fold (rsdt_of rsdp). fold t. fold (entry_count t).
  by rewrite Hq.
Qed.

Lemma wp_remap_irq fuel irq l s (Q : Z → acpi → Prop) (t := madt s) :
  t ≠ 0 → entries (t + sizeof_acpi_madt) (t + ld32 (t + off_length)) l → (length l < fuel)%nat →
  Q (match override_of l irq with Some c => w16 (override_interrupt c) | None => irq end) s →
  wp (acpi_remap_irq fuel irq) s Q.
Proof.
  intros Ht He Hl HQ. apply wp_bind, wp_gets, wp_bind, wp_guard; [simpl; fold t; by destruct (Z.eqb_spec t 0)|].
  by apply (wp_remap_loop _ _ _ _ l).
Qed.

Lemma wp_acpi_init fuel rsdp apic_str s p l (t := rsdt_of rsdp) (Q : unit → acpi → Prop) :
  rsdp ≠ 0 → t ≠ 0 → is_cstr m apic_str APIC → (4 < fuel)%nat →
  first_apic t = Some p → do_checksum p = true → p ≠ 0 →
  entries (p + sizeof_acpi_madt) (p + ld32 (p + off_length)) l → (length l < fuel)%nat →
  Q tt (initialised s t p l) → wp (acpi_init fuel rsdp apic_str) s Q.
Proof.
  intros Hr Ht Ha Hf Hp Hsum Hp0 He Hl HQ. unfold wp. rewrite (acpi_init_eq fuel rsdp apic_str s Hr Ht Ha Hf).
  fold t. unfold found. rewrite Hp, Hsum.
  apply (wp_bind (assert_ _) (λ _, parse_madt fuel)), wp_assert; [by destruct (Z.eqb_spec p 0)|].
  apply wp_bind, wp_gets, wp_bind, wp_guard; [simpl; by destruct (Z.eqb_spec p 0)|].
  apply wp_bind, wp_modify, (wp_parse_loop _ _ _ l); [done..|]. exact HQ.
Qed.

(** C23. Start-up takes the first table signed APIC as the MADT: with a sound
    checksum the variables describe its last I/O APIC entry and its local APIC
    address, and afterwards an interrupt line is remapped by the first
    override naming it, or not at all; without such a table, or with a wrong
    checksum, the kernel halts. *)
Theorem acpi_init_correct fuel rsdp apic_str s (t := rsdt_of rsdp) :
  rsdp ≠ 0 → t ≠ 0 → is_cstr m apic_str APIC → (4 < fuel)%nat →
  match first_apic t with
  | Some p =>
      if bool_decide (foldr Z.add 0 (bytes_at m p (ld32 (p + off_length))) mod 256 = 0 ∧ p ≠ 0) then
        ∀ l, entries (p + sizeof_acpi_madt) (p + ld32 (p + off_length)) l → (length l < fuel)%nat →
        wp (acpi_init fuel rsdp apic_str) s (λ _ s', s' = initialised s t p l ∧
          ∀ irq, wp (acpi_remap_irq fuel irq) s' (λ r s'', s'' = s' ∧
            r = match override_of l irq with Some c => w16 (override_interrupt c) | None => irq end))
      else acpi_init fuel rsdp apic_str s = Halt
  | None => acpi_init fuel rsdp apic_str s = Halt
  end.
Proof.
  intros Hr Ht Ha Hf. pose proof (acpi_init_eq fuel rsdp apic_str s Hr Ht Ha Hf) as Hi.
  fold t in Hi. unfold found in Hi. destruct (first_apic t) as [p|] eqn:Hfirst; [|done]. case_bool_decide as Hp.
  - destruct Hp as [Hsum Hp]. apply checksum_spec in Hsum. intros l He Hl.
    apply (wp_acpi_init _ _ _ _ p l); try done. split; [done|]. intros irq. by apply (wp_remap_irq _ _ l).
  - rewrite Hi. destruct (do_checksum p) eqn:E; [|done]. destruct (Z.eqb_spec p 0) as [->|Hp0]; [done|].
    by destruct Hp; rewrite <- checksum_spec.
Qed.
End acpi.

(** ** Witness *)

(** A direct map at offset 0 with the RSDP at 16, the RSDT at 64 with one
    entry, and at 128 a MADT of an I/O APIC and an override of IRQ 0 to
    interrupt 2; the literal lies at 8. *)
Definition acpi_image : list Z :=
  repeat 0 8 ++ [65; 80; 73; 67; 0; 0; 0; 0] ++
  repeat 0 16 ++ [64; 0; 0; 0] ++ repeat 0 28 ++
  repeat 0 4 ++ [40; 0; 0; 0] ++ repeat 0 28 ++ [128; 0; 0; 0] ++ repeat 0 24 ++
  [65; 80; 73; 67; 66; 0; 0; 0] ++ [0; 234] ++ repeat 0 26 ++ [0; 0; 224; 254; 0; 0; 0; 0] ++
  [1; 12; 0; 0; 0; 0; 192; 254; 0; 0; 0; 0] ++ [2; 10; 0; 0; 2; 0; 0; 0; 0; 0].
Definition acpi_mem : bmem := BMem (λ a, nth (Z.to_nat a) acpi_image 0).

Example acpi_init_correct_witness :
  first_apic acpi_mem 0 (rsdt_of acpi_mem 0 16) = Some 128 ∧
  wp (acpi_init acpi_mem 0 5 16 8) (Acpi 0 0 0 0 0) (λ _ s', s' = Acpi 64 128 1 0xFEC00000 0xFEE00000 ∧
    ∀ irq, wp (acpi_remap_irq acpi_mem 5 irq) s' (λ r s'', s'' = s' ∧ r = if irq =? 0 then 2 else irq)).
Proof.
  split; [vm_compute; reflexivity|].
  assert (is_cstr acpi_mem 8 APIC) as Ha.
  { split; [vm_compute; reflexivity|]. split; [|vm_compute; reflexivity].
    intros Hin. repeat (apply elem_of_cons in Hin as [Hin|Hin]; [lia|]). by apply elem_of_nil in Hin. }
  assert (entries acpi_mem (128 + sizeof_acpi_madt) (128 + ld32 acpi_mem (128 + off_length)) [172; 184]) as He.
  { constructor; [vm_compute; reflexivity|vm_compute; discriminate|].
    constructor; [vm_compute; reflexivity|vm_compute; discriminate|]. apply entries_nil. }
  assert (rsdt_of acpi_mem 0 16 ≠ 0) as Ht by (vm_compute; discriminate).
  pose proof (acpi_init_correct acpi_mem 0 5 16 8 (Acpi 0 0 0 0 0)) as Hok. cbv zeta in Hok.
  specialize (Hok ltac:(discriminate) Ht Ha ltac:(repeat constructor)).
  assert (first_apic acpi_mem 0 (rsdt_of acpi_mem 0 16) = Some 128) as Hf by (vm_compute; reflexivity).
  rewrite Hf, bool_decide_true in Hok by (split; [vm_compute; reflexivity|lia]).
  apply (wp_mono _ _ _ _ (Hok [172; 184] He ltac:(simpl; lia))).
  intros _ s' [-> Hr]. split; [vm_compute; reflexivity|]. intros irq. eapply wp_mono; [apply Hr|].
  intros r s'' [-> ->]. split; [done|]. unfold override_of.
  destruct (Z.eqb_spec irq 0) as [->|Hne]; [vm_compute; reflexivity|].
  rewrite filter_cons_False by (vm_compute; intros [? _]; discriminate).
  rewrite filter_cons_False; [done|]. intros [_ Hs]. apply Hne. rewrite <- Hs. vm_compute. reflexivity.
Defined.
