(* ===== verification/Interrupts.v ===== *)
(** sys/amd64/idt.c, interrupts.c and ioapic.c: interrupt gates, vectors, and
    the routing of device interrupts through the I/O APIC. *)

From S2P Require Import Prelude CString Io Acpi.

(** ** State *)

(** [idt_gate_descriptor_t], field by field. *)
Record gate := Gate {
  isr_low16 : Z; cs : Z; ist : Z; zero : Z; attr : Z; zero1 : Z; dpl : Z; p : Z;
  isr_mid16 : Z; isr_high32 : Z; reserved : Z;
}.

Definition IDT_TRAP_GATE_FLAGS : Z := 0x8F.
Definition IDT_INT_GATE_FLAGS : Z := 0x8E.
Definition IDT_INT_GATE_USER : Z := 0xEE.

Definition IOREGSEL : Z := 0x00.
Definition IOWIN : Z := 0x10.
Definition IOAPICVER : Z := 0x01.
Definition IOREDTBL : Z := 0x10.

(** The table, the next free vector (the static of [alloc_int_vector]), the
    ACPI variables and the devices. *)
Record intr (D : Type) := Intr {
  idt : Z → gate;
  next_vector : Z;
  acpi_vars : acpi;
  devices : D;
}.
Arguments Intr {D} _ _ _ _.
Arguments idt {D} _ _.
Arguments next_vector {D} _.
Arguments acpi_vars {D} _.
Arguments devices {D} _.

Section interrupts.
Context {D M : Type} `{Device D} `{ByteMem M} (m : M) (hhdm : Z).

Notation I := (ST (intr D)).

Definition on_dev {A} (c : ST D A) : I A := λ s,
  match c (devices s) with
  | Done (a, d) => Done (a, Intr (idt s) (next_vector s) (acpi_vars s) d)
  | Halt => Halt
  | Undef => Undef
  | NoFuel => NoFuel
  end.

Definition on_acpi {A} (c : ST acpi A) : I A := λ s,
  match c (acpi_vars s) with
  | Done (a, v) => Done (a, Intr (idt s) (next_vector s) v (devices s))
  | Halt => Halt
  | Undef => Undef
  | NoFuel => NoFuel
  end.

(** ** Interrupt gates *)

Definition make_gate (isr flags : Z) : gate :=
  let addr := isr in
  Gate (Z.land addr 0xFFFF) 0x28 0 0 (flags mod 16) 0 3 1
       (Z.land (Z.shiftr addr 16) 0xFFFF) (w32 (Z.shiftr addr 32)) 0.

Definition idt_set_desc (vector isr flags : Z) : I unit :=
  modify (λ s, Intr (upd (idt s) (w8 vector) (make_gate isr (w8 flags))) (next_vector s) (acpi_vars s) (devices s)).

Definition register_interrupt (vector isr : Z) : I unit := idt_set_desc vector isr IDT_INT_GATE_FLAGS.
Definition register_exception (vector isr : Z) : I unit := idt_set_desc vector isr IDT_TRAP_GATE_FLAGS.

Definition alloc_int_vector : I Z :=
  v ← gets next_vector;
  if 255 <=? v then mret 0
  else
    modify (λ s, Intr (idt s) (w8 (v + 1)) (acpi_vars s) (devices s)) ;;
    mret v.

(** ** The I/O APIC *)

Definition ioapic_base : I Z := gets (λ s, w64 (g_ioapic_mmio_base (acpi_vars s) + hhdm)).

Definition ioapic_read (reg : Z) : I Z :=
  base ← ioapic_base;
  on_dev (mmio_write32 base (w8 reg)) ;;
  on_dev (mmio_read32 (base + IOWIN)).

Definition ioapic_write (reg value : Z) : I unit :=
  base ← ioapic_base;
  on_dev (mmio_write32 base (w8 reg)) ;;
  on_dev (mmio_write32 (base + IOWIN) value).

Definition ioapic_set_entry (index data : Z) : I unit :=
  ioapic_write (IOREDTBL + index * 2) (w32 data) ;;
  ioapic_write (IOREDTBL + index * 2 + 1) (w32 (Z.shiftr data 32)).

Definition ioapic_init : I unit :=
  ver ← ioapic_read IOAPICVER;
  let max_redirection_entries := Z.land (Z.shiftr ver 16) 0xFF + 1 in
  for_each (seqZ 0 max_redirection_entries) (λ i, ioapic_set_entry (w8 i) (Z.shiftl 1 16)).

Definition register_irq (fuel : nat) (irq isr : Z) : I unit :=
  register_interrupt (0x20 + irq) isr ;;
  gsi ← on_acpi (acpi_remap_irq m fuel irq);
  ioapic_set_entry (w8 gsi) (0x20 + irq).

(** ** The processor's reading of a gate *)

(** The sixteen bytes of a gate as two words, bit-fields packed from the low
    bit up as the compiler lays them out. *)
Definition gate_word0 (g : gate) : Z :=
  isr_low16 g + 2 ^ 16 * cs g + 2 ^ 32 * (ist g + 2 ^ 2 * zero g) +
  2 ^ 40 * (attr g + 2 ^ 4 * zero1 g + 2 ^ 5 * dpl g + 2 ^ 7 * p g) + 2 ^ 48 * isr_mid16 g.
Definition gate_word1 (g : gate) : Z := isr_high32 g + 2 ^ 32 * reserved g.

(** The architecture's 64-bit gate: where it jumps, through which selector,
    with which stack, type and privilege. *)
Record handler := Handler {
  h_offset : Z; h_selector : Z; h_ist : Z; h_type : Z; h_dpl : Z; h_present : bool;
}.
Definition bits (x lo n : Z) : Z := (x / 2 ^ lo) mod 2 ^ n.
Definition decode_gate (w0 w1 : Z) : handler :=
  Handler (bits w0 0 16 + 2 ^ 16 * bits w0 48 16 + 2 ^ 32 * bits w1 0 32)
          (bits w0 16 16) (bits w0 32 3) (bits w0 40 4) (bits w0 45 2) (bits w0 47 1 =? 1).

(** ** The I/O APIC's behaviour *)

(** Documented behaviour of an I/O APIC at [b]: a register is selected through
    IOREGSEL and accessed through IOWIN; redirection entries keep the written
    value apart from the two read-only status bits. *)
Record ioapic_at (b : Z) (sel : D → Z) (ireg : D → Z → Z) : Prop := {
  ia_select d r : 0 ≤ r < 256 → let d' := dev_out Mmio b 4 r d in sel d' = r ∧ ∀ k, ireg d' k = ireg d k;
  ia_write d v : 16 ≤ sel d < 256 → 0 ≤ v < 2 ^ 32 → Z.land v 0x5000 = 0 →
    let d' := dev_out Mmio (w64 (b + 16)) 4 v d in sel d' = sel d ∧ ∀ k, ireg d' k = upd (ireg d) (sel d) v k;
  ia_read d : let '(v, d') := dev_in Mmio (w64 (b + 16)) 4 d in
    v = ireg d (sel d) ∧ sel d' = sel d ∧ ∀ k, ireg d' k = ireg d k;
}.

(** ** Lemmas *)

Lemma wp_on_dev {A} (c : ST D A) s (Q : A → intr D → Prop) :
  wp c (devices s) (λ a d, Q a (Intr (idt s) (next_vector s) (acpi_vars s) d)) → wp (on_dev c) s Q.
Proof. unfold wp, on_dev. by destruct (c (devices s)) as [[a d]| | |]. Qed.

Lemma preserves_on_dev {A B} (f : intr D → B) (c : ST D A) :
  (∀ d s, f (Intr (idt s) (next_vector s) (acpi_vars s) d) = f s) → preserves f (on_dev c).
Proof. intros Hf s. unfold wlp, on_dev. destruct (c (devices s)) as [[a d]| | |]; [apply Hf|done..]. Qed.

Lemma preserves_on_acpi {A B} (f : intr D → B) (c : ST acpi A) :
  (∀ v s, f (Intr (idt s) (next_vector s) v (devices s)) = f s) → preserves f (on_acpi c).
Proof. intros Hf s. unfold wlp, on_acpi. destruct (c (acpi_vars s)) as [[a v]| | |]; [apply Hf|done..]. Qed.

Lemma wp_on_acpi {A} (c : ST acpi A) s (Q : A → intr D → Prop) :
  wp c (acpi_vars s) (λ a v, Q a (Intr (idt s) (next_vector s) v (devices s))) → wp (on_acpi c) s Q.
Proof. unfold wp, on_acpi. by destruct (c (acpi_vars s)) as [[a v]| | |]. Qed.

(** Code that uses the devices in an invariant that does not mention them. *)
Lemma completes_on_dev {A} (I : intr D → Prop) (c : ST D A) :
  (∀ d s, I s → I (Intr (idt s) (next_vector s) (acpi_vars s) d)) → completes (λ _, True) c → completes I (on_dev c).
Proof.
  intros HI Hc s Hs. apply wp_on_dev. eapply wp_mono; [by apply (Hc (devices s))|]. intros a d _. by apply HI.
Qed.

Section any_ioapic.
Context (I : intr D → Prop) (HI : ∀ d s, I s → I (Intr (idt s) (next_vector s) (acpi_vars s) d)).

Lemma completes_ioapic_write reg v : completes I (ioapic_write reg v).
Proof using HI. unfold ioapic_write, ioapic_base. eauto 10 using completes_on_dev with completes. Qed.

Lemma completes_ioapic_set_entry index data : completes I (ioapic_set_entry index data).
Proof using HI. pose proof completes_ioapic_write. unfold ioapic_set_entry. eauto with completes. Qed.

Lemma completes_ioapic_init : completes I ioapic_init.
Proof using HI.
  unfold ioapic_init, ioapic_read, ioapic_base. apply completes_bind; [eauto 10 using completes_on_dev with completes|].
  intros ver. apply completes_for_each. intros i _. apply completes_ioapic_set_entry.
Qed.
End any_ioapic.

Lemma wp_register_irq fuel irq isr s l (t := madt (acpi_vars s)) (Q : unit → intr D → Prop) :
  t ≠ 0 → entries m (t + 44) (t + ld32 m (t + 4)) l → (length l < fuel)%nat →
  (∀ g d, Q tt (Intr g (next_vector s) (acpi_vars s) d)) →
  wp (register_irq fuel irq isr) s Q.
Proof.
  intros Ht He Hf HQ. apply wp_bind, wp_modify, wp_bind, wp_on_acpi, (wp_remap_irq m fuel irq l); [done..|].
  set (J := λ x : intr D, next_vector x = next_vector s ∧ acpi_vars x = acpi_vars s).
  match goal with |- wp (ioapic_set_entry ?i ?v) ?x _ =>
    eapply wp_mono; [apply (completes_ioapic_set_entry J ltac:(by intros d y [? ?]) i v x); by split|] end.
  intros [] [g n v d] [Hn Hv]. simpl in *. subst n v. apply HQ.
Qed.

Section ioapic.
Context (b : Z) (sel : D → Z) (ireg : D → Z → Z).
Context (Hia : ioapic_at b sel ireg).

(** Same vectors and ACPI variables, redirection registers [f]. *)
Record ioapic_state (s : intr D) (f : Z → Z) (s' : intr D) : Prop := {
  is_idt : idt s' = idt s;
  is_vector : next_vector s' = next_vector s;
  is_acpi : acpi_vars s' = acpi_vars s;
  is_regs r : ireg (devices s') r = f r;
}.

Definition based (s : intr D) : Prop := w64 (g_ioapic_mmio_base (acpi_vars s) + hhdm) = b.

Lemma base_w64 s : based s → w64 b = b.
Proof. intros <-. unfold w64. by rewrite Z.mod_mod. Qed.

Lemma wp_ioapic_read reg s (Q : Z → intr D → Prop) :
  based s → 0 ≤ reg < 256 →
  (∀ s', ioapic_state s (ireg (devices s)) s' → Q (ireg (devices s) reg) s') →
  wp (ioapic_read reg) s Q.
Proof.
  intros Hb Hr HQ. apply wp_bind, wp_gets. rewrite Hb. unfold w8. rewrite Z.mod_small by done.
  apply wp_bind, wp_on_dev, wp_io_out. rewrite (base_w64 s Hb). simpl. unfold w32.
  rewrite Z.mod_small by lia. destruct (ia_select _ _ _ Hia (devices s) reg Hr) as [Hsel Hreg].
  apply wp_on_dev. simpl. apply wp_io_in; [lia|]. intros v d' Hin _. simpl.
  pose proof (ia_read _ _ _ Hia (dev_out Mmio b 4 reg (devices s))) as Hread.
  unfold IOWIN in Hin. rewrite Hin in Hread. destruct Hread as (-> & _ & Hreg'). rewrite Hsel, Hreg.
  apply HQ. split; try done. intros r. simpl. by rewrite Hreg', Hreg.
Qed.

Lemma wp_ioapic_write reg v s (Q : unit → intr D → Prop) :
  based s → 16 ≤ reg < 256 → 0 ≤ v < 2 ^ 32 → Z.land v 0x5000 = 0 →
  (∀ s', ioapic_state s (upd (ireg (devices s)) reg v) s' → Q tt s') →
  wp (ioapic_write reg v) s Q.
Proof.
  intros Hb Hr Hv Hro HQ. apply wp_bind, wp_gets. rewrite Hb. unfold w8. rewrite Z.mod_small by lia.
  apply wp_bind, wp_on_dev, wp_io_out. rewrite (base_w64 s Hb). simpl. unfold w32.
  rewrite Z.mod_small by lia. destruct (ia_select _ _ _ Hia (devices s) reg ltac:(lia)) as [Hsel Hreg].
  apply wp_on_dev, wp_io_out. simpl. unfold w32. rewrite Z.mod_small by done.
  destruct (ia_write _ _ _ Hia (dev_out Mmio b 4 reg (devices s)) v) as [_ Hreg']; [by rewrite Hsel|done|done|].
  apply HQ. split; try done. intros r. simpl. unfold IOWIN. rewrite Hreg', Hsel. unfold upd. by rewrite Hreg.
Qed.

Lemma based_state s f s' : ioapic_state s f s' → based s → based s'.
Proof. intros Hs. unfold based. by rewrite (is_acpi _ _ _ Hs). Qed.

Lemma wp_ioapic_set_entry index data s (Q : unit → intr D → Prop) :
  based s → 0 ≤ index < 120 → 0 ≤ data < 2 ^ 32 → Z.land data 0x5000 = 0 →
  (∀ s', ioapic_state s (upd (upd (ireg (devices s)) (16 + 2 * index) data) (16 + 2 * index + 1) 0) s' → Q tt s') →
  wp (ioapic_set_entry index data) s Q.
Proof.
  intros Hb Hi Hd Hro HQ. unfold ioapic_set_entry, IOREDTBL. rewrite (Z.mul_comm index).
  rewrite (w32_small data) by done. rewrite Z.shiftr_div_pow2, (Z.div_small data) by lia.
  change (w32 0) with 0. apply wp_bind, wp_ioapic_write; [done|lia|done|done|].
  intros s1 Hs1. apply wp_ioapic_write; [by eapply based_state|lia|lia|done|].
  intros s2 Hs2. apply HQ. destruct Hs1 as [? ? ? Hr1], Hs2 as [? ? ? Hr2]. split; try congruence.
  intros r. rewrite Hr2. unfold upd. destruct (r =? 16 + 2 * index + 1); [done|]. by rewrite Hr1.
Qed.
End ioapic.
End interrupts.

(** ** Theorems *)

Lemma bits_field low f high lo n x :
  0 ≤ lo → 0 ≤ n → 0 ≤ low < 2 ^ lo → 0 ≤ f < 2 ^ n → x = low + 2 ^ lo * (f + 2 ^ n * high) → bits x lo n = f.
Proof.
  intros Hlo Hn Hl Hf ->. unfold bits.
  rewrite (Z.mul_comm (2 ^ lo)), Z.div_add by lia. rewrite (Z.div_small low) by done.
  rewrite Z.add_0_l, (Z.mul_comm (2 ^ n)), Z.mod_add by lia. by apply Z.mod_small.
Qed.

(** Reading back the gate of a 64-bit address. *)
Lemma decode_make_gate isr flags : 0 ≤ isr < 2 ^ 64 →
  decode_gate (gate_word0 (make_gate isr flags)) (gate_word1 (make_gate isr flags)) =
  Handler isr 0x28 0 (flags mod 16) 3 true.
Proof.
  intros Hi. unfold decode_gate, gate_word0, gate_word1, make_gate.
  cbn [isr_low16 cs ist zero attr zero1 dpl p isr_mid16 isr_high32 reserved].
  change 0xFFFF with (Z.ones 16). rewrite !Z.land_ones, !Z.shiftr_div_pow2 by lia.
  rewrite (w32_small (isr / 2 ^ 32)) by (split; [apply Z.div_pos; lia|apply Z.div_lt_upper_bound; lia]).
  set (lo := isr mod 2 ^ 16). set (mid := (isr / 2 ^ 16) mod 2 ^ 16). set (hi := isr / 2 ^ 32).
  assert (isr = lo + 2 ^ 16 * mid + 2 ^ 32 * hi) as Hisr.
  { subst lo mid hi. change (2 ^ 32) with (2 ^ 16 * 2 ^ 16). rewrite <- Z.div_div by lia.
    pose proof (Z.div_mod isr (2 ^ 16)). pose proof (Z.div_mod (isr / 2 ^ 16) (2 ^ 16)). lia. }
  assert (0 ≤ lo < 2 ^ 16) by (apply Z.mod_pos_bound; lia).
  assert (0 ≤ mid < 2 ^ 16) by (apply Z.mod_pos_bound; lia).
  assert (0 ≤ hi < 2 ^ 32) by (split; [apply Z.div_pos; lia|apply Z.div_lt_upper_bound; lia]).
  pose proof (Z.mod_pos_bound flags 16 ltac:(lia)) as Hf. set (ty := flags mod 16) in *.
  clearbody lo mid hi ty.
  f_equal.
  - rewrite (bits_field 0 lo (40 + 2 ^ 24 * (ty + 2 ^ 5 * (3 + 2 ^ 2 * (1 + 2 * mid))))) by lia.
    rewrite (bits_field (lo + 2 ^ 16 * (40 + 2 ^ 24 * (ty + 2 ^ 5 * (3 + 2 ^ 2)))) mid 0) by lia.
    rewrite (bits_field 0 hi 0) by lia. lia.
  - apply (bits_field lo 40 (2 ^ 8 * (ty + 2 ^ 5 * (3 + 2 ^ 2 * (1 + 2 * mid))))); lia.
  - apply (bits_field (lo + 2 ^ 16 * 40) 0 (2 ^ 5 * (ty + 2 ^ 5 * (3 + 2 ^ 2 * (1 + 2 * mid))))); lia.
  - apply (bits_field (lo + 2 ^ 16 * 40) ty (2 * (3 + 2 ^ 2 * (1 + 2 * mid)))); lia.
  - apply (bits_field (lo + 2 ^ 16 * 40 + 2 ^ 40 * ty) 3 (1 + 2 * mid)); lia.
  - apply Z.eqb_eq, (bits_field (lo + 2 ^ 16 * 40 + 2 ^ 40 * (ty + 2 ^ 5 * 3)) 1 mid); lia.
Qed.

Section theorems.
Context {D M : Type} `{Device D} `{ByteMem M} (m : M) (hhdm : Z).

Definition handler_of (s : intr D) (v : Z) : handler := decode_gate (gate_word0 (idt s v)) (gate_word1 (idt s v)).

(** What [register_interrupt] and [register_exception] store is what the
    processor reads back: the gate of the vector jumps to exactly the given
    64-bit address with interrupts masked (or not, for exceptions), on the
    same stack, and it is open to user mode (privilege 3) whatever flags are
    used; the other 255 gates do not change. *)
Theorem gate_roundtrip (s : intr D) vector isr :
  0 ≤ isr < 2 ^ 64 → 0 ≤ vector < 256 →
  wp (register_interrupt vector isr) s (λ _ s', ∀ v,
    handler_of s' v = if decide (v = vector) then Handler isr 0x28 0 0xE 3 true else handler_of s v) ∧
  wp (register_exception vector isr) s (λ _ s', ∀ v,
    handler_of s' v = if decide (v = vector) then Handler isr 0x28 0 0xF 3 true else handler_of s v).
Proof.
  intros Hi Hv. split; apply wp_modify; intros v; unfold handler_of; simpl; unfold w8;
    rewrite (Z.mod_small vector) by done;
    (case_decide as E; [subst v; rewrite upd_eq; by apply decode_make_gate|by rewrite upd_ne]).
Qed.

Section routing.
Context (b : Z) (sel : D → Z) (ireg : D → Z → Z).
Context (Hia : ioapic_at b sel ireg).

(** [ioapic_init] masks every redirection entry the version register
    announces, and touches no other register. *)
Theorem ioapic_init_masks (s : intr D) (n := Z.land (Z.shiftr (ireg (devices s) 1) 16) 0xFF + 1) :
  w64 (g_ioapic_mmio_base (acpi_vars s) + hhdm) = b → n ≤ 120 →
  wp (ioapic_init hhdm) s (λ _ s', idt s' = idt s ∧ ∀ r,
    ireg (devices s') r =
      if decide (16 ≤ r < 16 + 2 * n) then (if Z.even r then 65536 else 0) else ireg (devices s) r).
Proof.
  intros Hb Hn. apply wp_bind, (wp_ioapic_read hhdm b sel ireg Hia); [done|done|].
  intros s0 Hs0. change IOAPICVER with 1. fold n.
  assert (0 < n) by (unfold n; pose proof (proj2 (Z.land_nonneg (Z.shiftr (ireg (devices s) 1) 16) 0xFF)); lia).
  eapply wp_mono; [apply (wp_for_each (λ l s', idt s' = idt s ∧ acpi_vars s' = acpi_vars s ∧ ∀ r,
    ireg (devices s') r = if decide (16 ≤ r < 16 + 2 * zlen l) then (if Z.even r then 65536 else 0)
                          else ireg (devices s) r))|].
  - split; [apply Hs0|]. split; [apply Hs0|]. intros r. rewrite decide_False by (simpl; lia). apply Hs0.
  - intros l i s1 (Hidt & Hacpi & Hr) [k Hk].
    assert (i = zlen l) as ->.
    { assert (seqZ 0 n !! length l = Some i) as Hl by (rewrite Hk, <- app_assoc; by apply list_lookup_middle).
      apply lookup_seqZ in Hl. lia. }
    assert (zlen l < n) as Hlt.
    { apply (f_equal length) in Hk. rewrite length_seqZ, !length_app in Hk. simpl in Hk. lia. }
    unfold w8. rewrite Z.mod_small by lia. change (Z.shiftl 1 16) with 65536.
    apply (wp_ioapic_set_entry hhdm b sel ireg Hia); [unfold based; by rewrite Hacpi|lia|lia|done|].
    intros s2 [Hi2 _ Ha2 Hr2]. split; [congruence|]. split; [congruence|]. intros r. rewrite Hr2, length_app.
    simpl. unfold upd. destruct (Z.eqb_spec r (16 + 2 * zlen l + 1)) as [->|].
    + rewrite decide_True by lia. rewrite Z.add_1_r, Z.even_succ, Z.odd_add, Z.odd_mul. done.
    + destruct (Z.eqb_spec r (16 + 2 * zlen l)) as [->|].
      * rewrite decide_True by lia. by rewrite Z.even_add, Z.even_mul.
      * rewrite Hr. repeat case_decide; done || lia.
  - intros [] s1 (Hidt & _ & Hr). split; [done|]. intros r. rewrite Hr, length_seqZ. by rewrite Z2Nat.id by lia.
Qed.

(** C22. [register_irq] routes a legacy interrupt end to end: the redirection
    entry of the interrupt's global number (after the MADT's overrides) is
    unmasked and delivers vector [0x20 + irq], whose gate jumps to the given
    handler; no other gate and no other redirection entry changes. *)
Theorem register_irq_routes (s : intr D) fuel irq isr l gsi (t := madt (acpi_vars s)) :
  gsi = match override_of m l irq with Some c => w16 (override_interrupt m c) | None => irq end →
  w64 (g_ioapic_mmio_base (acpi_vars s) + hhdm) = b →
  t ≠ 0 → entries m (t + 44) (t + ld32 m (t + 4)) l → (length l < fuel)%nat →
  0 ≤ irq < 224 → 0 ≤ isr < 2 ^ 64 → gsi < 120 →
  wp (register_irq m hhdm fuel irq isr) s (λ _ s',
    ireg (devices s') (16 + 2 * gsi) = 32 + irq ∧ ireg (devices s') (16 + 2 * gsi + 1) = 0 ∧
    (∀ r, r ≠ 16 + 2 * gsi → r ≠ 16 + 2 * gsi + 1 → ireg (devices s') r = ireg (devices s) r) ∧
    ∀ v, handler_of s' v = if decide (v = 32 + irq) then Handler isr 0x28 0 0xE 3 true else handler_of s v).
Proof.
  intros Hg Hb Ht Hl Hf Hirq Hisr Hgsi. apply wp_bind, wp_modify. apply wp_bind, wp_on_acpi.
  apply wp_bind, wp_gets, wp_bind, wp_guard; [simpl; fold t; by destruct (Z.eqb_spec t 0)|]. simpl. fold t.
  eapply wp_remap_loop; [done|done|]. rewrite <- Hg.
  assert (0 ≤ gsi) as Hgsi0 by (rewrite Hg; destruct (override_of m l irq); [apply Z.mod_pos_bound; lia|lia]).
  unfold w8 at 1. rewrite (Z.mod_small gsi) by lia.
  apply (wp_ioapic_set_entry hhdm b sel ireg Hia); [done|lia|simpl; lia| |].
  - change 0x5000 with (2 ^ 12 + 2 ^ 14). apply Z.bits_inj_0. intros i. rewrite Z.land_spec.
    destruct (Z.lt_ge_cases i 8).
    + destruct (Z.lt_ge_cases i 0); [by rewrite (Z.testbit_neg_r _ i)|].
      assert (Z.testbit (2 ^ 12 + 2 ^ 14) i = false) as ->; [|apply andb_false_r].
      rewrite <- (Z.mod_pow2_bits_low _ 8) by lia. change ((2 ^ 12 + 2 ^ 14) mod 2 ^ 8) with 0. apply Z.bits_0.
    + rewrite (testbit_high _ 8); [done|simpl; lia|lia].
  - intros s' [Hidt _ _ Hr]. simpl in *. split_and!.
    + rewrite Hr, upd_ne, upd_eq by lia. done.
    + by rewrite Hr, upd_eq.
    + intros r Hr1 Hr2. by rewrite Hr, !upd_ne.
    + intros v. unfold handler_of. rewrite Hidt. simpl. unfold w8. rewrite (Z.mod_small (32 + irq)) by lia.
      case_decide as E; [subst v; rewrite upd_eq; by apply decode_make_gate|by rewrite upd_ne].
Qed.
End routing.

(** Vectors are handed out once each, then the allocator answers 0. *)
Lemma alloc_int_vector_correct (s : intr D) :
  wp alloc_int_vector s (λ v s',
    if decide (next_vector s < 255) then v = next_vector s ∧ next_vector s' = w8 (next_vector s + 1)
    else v = 0 ∧ s' = s).
Proof.
  apply wp_bind, wp_gets. case_decide; destruct (Z.leb_spec 255 (next_vector s)); try lia.
  - by apply wp_bind, wp_modify, wp_ret.
  - by apply wp_ret.
Qed.
End theorems.

(** ** Witnesses: an I/O APIC model *)

Record chip := Chip { c_sel : Z; c_reg : Z → Z }.
Definition chip_base : Z := 0xFFFF8000FEC00000.

#[export] Program Instance chip_device : Device chip := {|
  dev_in sp a n d := (if (a =? chip_base + 16) && (n =? 4) then c_reg d (c_sel d) mod 2 ^ 32 else 0, d);
  dev_out sp a n v d :=
    if a =? chip_base then Chip v (c_reg d)
    else if a =? chip_base + 16 then Chip (c_sel d) (upd (c_reg d) (c_sel d) v) else d;
|}.
Next Obligation.
  intros sp a n d Hn. simpl. assert (0 < 2 ^ (8 * n)) by (apply Z.pow_pos_nonneg; lia).
  destruct (a =? _); simpl; [|lia]. destruct (Z.eqb_spec n 4) as [->|]; [|lia].
  apply Z.mod_pos_bound. lia.
Qed.

Definition chip_ireg (d : chip) (r : Z) : Z := c_reg d r mod 2 ^ 32.

Lemma chip_ioapic : ioapic_at chip_base c_sel chip_ireg.
Proof.
  split; unfold chip_ireg; [done| |done]. intros d v Hs Hv _. split; [done|]. intros k.
  change (c_reg (dev_out Mmio (w64 (chip_base + 16)) 4 v d) k) with (upd (c_reg d) (c_sel d) v k).
  unfold upd. destruct (k =? c_sel d); [by apply Z.mod_small|done].
Qed.

(** A MADT at 4096 with one override: interrupt 11 is number 20. *)
Definition madt_sample : bmem := BMem (λ a,
  if a =? 4096 + 4 then 54 else if a =? 4096 + 44 then 2 else if a =? 4096 + 45 then 10
  else if a =? 4096 + 47 then 11 else if a =? 4096 + 48 then 20 else 0).

Definition no_gates : Z → gate := λ _, Gate 0 0 0 0 0 0 0 0 0 0 0.
Definition chip_sample : intr chip :=
  Intr no_gates 0x81 (Acpi 0 4096 0 0xFEC00000 0) (Chip 0 (λ r, if r =? 1 then 0x170011 else 7)).

Lemma madt_sample_entries : entries madt_sample (4096 + 44) (4096 + ld32 madt_sample (4096 + 4)) [4140].
Proof.
  change (4096 + ld32 madt_sample (4096 + 4)) with 4150. apply entries_cons; [done|done|].
  change (4140 + apic_length madt_sample 4140) with 4150. apply entries_nil.
Qed.

Example gate_roundtrip_witness :
  wp (register_interrupt 0x21 0xFFFFFFFF80001234) chip_sample (λ _ s', ∀ v,
    handler_of s' v = if decide (v = 0x21) then Handler 0xFFFFFFFF80001234 0x28 0 0xE 3 true else handler_of chip_sample v) ∧
  wp (register_exception 0x21 0xFFFFFFFF80001234) chip_sample (λ _ s', ∀ v,
    handler_of s' v = if decide (v = 0x21) then Handler 0xFFFFFFFF80001234 0x28 0 0xF 3 true else handler_of chip_sample v).
Proof. apply (gate_roundtrip chip_sample 0x21 0xFFFFFFFF80001234); lia. Defined.

Example ioapic_init_masks_witness :
  wp (ioapic_init 0xFFFF800000000000) chip_sample (λ _ s', idt s' = idt chip_sample ∧ ∀ r,
    chip_ireg (devices s') r =
      if decide (16 ≤ r < 16 + 2 * 24) then (if Z.even r then 65536 else 0) else chip_ireg (devices chip_sample) r).
Proof.
  apply (ioapic_init_masks 0xFFFF800000000000 chip_base c_sel chip_ireg chip_ioapic chip_sample);
    [reflexivity|vm_compute; discriminate].
Defined.

Example register_irq_routes_witness :
  wp (register_irq madt_sample 0xFFFF800000000000 2 11 0xFFFFFFFF80001234) chip_sample (λ _ s',
    chip_ireg (devices s') (16 + 2 * 20) = 32 + 11 ∧ chip_ireg (devices s') (16 + 2 * 20 + 1) = 0 ∧
    (∀ r, r ≠ 16 + 2 * 20 → r ≠ 16 + 2 * 20 + 1 → chip_ireg (devices s') r = chip_ireg (devices chip_sample) r) ∧
    ∀ v, handler_of s' v = if decide (v = 32 + 11) then Handler 0xFFFFFFFF80001234 0x28 0 0xE 3 true
                           else handler_of chip_sample v).
Proof.
  apply (register_irq_routes madt_sample 0xFFFF800000000000 chip_base c_sel chip_ireg chip_ioapic
           chip_sample 2 11 0xFFFFFFFF80001234 [4140] 20);
    [reflexivity|reflexivity|discriminate|apply madt_sample_entries|simpl; lia|lia|lia|reflexivity].
Defined.
