(* ===== verification/Pci.v ===== *)
(** sys/dev/pci/pci.c: the PCI configuration space behind two ports, and the
    search for a device. *)

From S2P Require Import Prelude TlsfRoom Heap Io.

(** ** State *)

(** [pci_device_t]; [bars] lists the six base address registers. *)
Record pci_device := PciDevice {
  irq_line : Z; bars : list Z; bus : Z; slot : Z; func : Z; msi_cap : Z;
}.
Definition sizeof_pci_device : Z := 64.

Definition CONFIG_ADDRESS : Z := 0xCF8.
Definition CONFIG_DATA : Z := 0xCFC.

Definition COMBINE_WORD (word_low word_high : Z) : Z := Z.lor (w64 (Z.shiftl word_high 16)) word_low.

(** The heap, the device records at their addresses, and the ports. *)
Record pci (S D : Type) := Pci { pheap : S; records : Z → pci_device; ports : D }.
Arguments Pci {S D} _ _ _.
Arguments pheap {S D} _.
Arguments records {S D} _ _.
Arguments ports {S D} _.

Section pci.
Context {S D : Type} `{Allocator S} `{Device D}.

Notation P := (ST (pci S D)).

Definition on_ports {A} (c : ST D A) : P A := λ s,
  match c (ports s) with
  | Done (a, d) => Done (a, Pci (pheap s) (records s) d)
  | Halt => Halt
  | Undef => Undef
  | NoFuel => NoFuel
  end.

Definition on_heap {A} (c : ST S A) : P A := λ s,
  match c (pheap s) with
  | Done (a, h) => Done (a, Pci h (records s) (ports s))
  | Halt => Halt
  | Undef => Undef
  | NoFuel => NoFuel
  end.

(** ** Configuration space *)

(** [(1 << 31) | (bus << 16) | (slot << 11) | (func << 8) | (offset & 0xFC)] *)
Definition config_addr (bus slot func offset : Z) : Z :=
  w32 (Z.lor (Z.lor (Z.lor (Z.lor (2 ^ 31) (w32 (Z.shiftl bus 16))) (w32 (Z.shiftl slot 11)))
    (w32 (Z.shiftl func 8))) (Z.land offset 0xFC)).

(** The word at [offset] of a 32-bit register's value. *)
Definition select_word (v offset : Z) : Z :=
  w16 (Z.land (Z.shiftr v (Z.land offset 2 * 8)) 0xFFFF).

Definition config_readw (bus slot func offset : Z) : P Z :=
  on_ports (outl CONFIG_ADDRESS (config_addr bus slot func offset)) ;;
  v ← on_ports (inl_ CONFIG_DATA);
  mret (select_word v offset).

Definition config_writew (bus slot func offset value : Z) : P unit :=
  on_ports (outl CONFIG_ADDRESS (config_addr bus slot func offset)) ;;
  on_ports (outl CONFIG_DATA value).

Definition read_irq_line (bus slot func : Z) : P Z :=
  v ← config_readw bus slot func 0x3C; mret (Z.land v 0xFF).
Definition read_vendor (bus slot func : Z) : P Z := config_readw bus slot func 0x0.
Definition read_device_id (bus slot func : Z) : P Z := config_readw bus slot func 0x2.
Definition read_class (bus slot func : Z) : P Z :=
  v ← config_readw bus slot func 0xA; mret (w8 (Z.shiftr v 8)).
Definition read_subclass (bus slot func : Z) : P Z :=
  v ← config_readw bus slot func 0xA; mret (Z.land v 0xFF).
Definition read_status (bus slot func : Z) : P Z := config_readw bus slot func 0x6.
Definition read_prog_if (bus slot func : Z) : P Z :=
  v ← config_readw bus slot func 0x8; mret (w8 (Z.shiftr v 8)).
Definition read_cap_ptr (bus slot func : Z) : P Z :=
  v ← config_readw bus slot func 0x34; mret (w8 v).

Definition get_bar0 (bus slot func : Z) : P Z :=
  lo ← config_readw bus slot func 0x10; hi ← config_readw bus slot func 0x12;
  mret (w32 (COMBINE_WORD lo hi)).
Definition get_bar1 (bus slot func : Z) : P Z :=
  lo ← config_readw bus slot func 0x14; hi ← config_readw bus slot func 0x16;
  mret (w32 (COMBINE_WORD lo hi)).
Definition get_bar2 (bus slot func : Z) : P Z :=
  lo ← config_readw bus slot func 0x18; hi ← config_readw bus slot func 0x1A;
  mret (w32 (COMBINE_WORD lo hi)).
Definition get_bar3 (bus slot func : Z) : P Z :=
  lo ← config_readw bus slot func 0x1C; hi ← config_readw bus slot func 0x1E;
  mret (w32 (COMBINE_WORD lo hi)).
Definition get_bar4 (bus slot func : Z) : P Z :=
  lo ← config_readw bus slot func 0x20; hi ← config_readw bus slot func 0x22;
  mret (w32 (COMBINE_WORD lo hi)).
Definition get_bar5 (bus slot func : Z) : P Z :=
  lo ← config_readw bus slot func 0x24; hi ← config_readw bus slot func 0x26;
  mret (w32 (COMBINE_WORD lo hi)).

(** ** Devices *)

(** [dev] is the address of the record to fill. *)
Definition init_dev (dev bus slot func : Z) : P unit :=
  guard_ (negb (dev =? 0)) ;;
  irq ← read_irq_line bus slot func;
  b0 ← get_bar0 bus slot func;
  b1 ← get_bar1 bus slot func;
  b2 ← get_bar2 bus slot func;
  b3 ← get_bar3 bus slot func;
  b4 ← get_bar4 bus slot func;
  b5 ← get_bar5 bus slot func;
  modify (λ s, Pci (pheap s)
    (upd (records s) dev (PciDevice irq [b0; b1; b2; b3; b4; b5] bus slot func 0)) (ports s)).

Definition pci_enable_bus_mastering (dev : Z) : P unit :=
  guard_ (negb (dev =? 0)) ;;
  d ← gets (λ s, records s dev);
  val ← config_readw (bus d) (slot d) (func d) 0x4;
  config_writew (bus d) (slot d) (func d) 0x4 (w16 (Z.lor (Z.lor val (Z.shiftl 1 2)) (Z.shiftl 1 0))).

(** The three nested loops visit these functions in this order. *)
Definition all_functions : list (Z * Z * Z) :=
  bus ← seqZ 0 5; slot ← seqZ 0 32; func ← seqZ 0 8; [(bus, slot, func)].

Fixpoint search (l : list (Z * Z * Z)) (test : Z → Z → Z → P bool) (dev : Z) : P Z :=
  match l with
  | [] =>
      (if dev =? 0 then mret tt else on_heap (release dev)) ;;
      mret 0
  | (bus, slot, func) :: l =>
      found ← test bus slot func;
      if (found : bool) then init_dev dev bus slot func ;; mret dev
      else search l test dev
  end.

(** [&&] reads the vendor only when the device matches. *)
Definition pci_find (vendor_id device_id : Z) : P Z :=
  dev ← on_heap (alloc sizeof_pci_device);
  search all_functions (λ bus slot func,
    d ← read_device_id bus slot func;
    if d =? device_id then
      v ← read_vendor bus slot func;
      mret (v =? vendor_id)
    else mret false) dev.

(** [interface] is a signed byte: [-1] never matches. *)
Definition pci_find_any (class_id subclass_id interface : Z) : P Z :=
  dev ← on_heap (alloc sizeof_pci_device);
  search all_functions (λ bus slot func,
    c ← read_class bus slot func;
    if c =? class_id then
      sc ← read_subclass bus slot func;
      if sc =? subclass_id then
        i ← read_prog_if bus slot func;
        mret ((i =? interface) && (-1 <? interface))
      else mret false
    else mret false) dev.

(** ** The configuration mechanism *)

(** Documented behaviour of configuration mechanism 1: CONFIG_ADDRESS latches
    an address, CONFIG_DATA reads the register it selects, and reads change
    nothing.  [cfg d a] is the register selected by the latched value [a]. *)
Record pci_host (latch : D → Z) (cfg : D → Z → Z) : Prop := {
  ph_latch d a : let d' := dev_out Port CONFIG_ADDRESS 4 a d in latch d' = a ∧ ∀ k, cfg d' k = cfg d k;
  ph_read d : let '(v, d') := dev_in Port CONFIG_DATA 4 d in
    v = cfg d (latch d) ∧ ∀ k, cfg d' k = cfg d k;
}.

(** The word and byte fields of a function's registers. *)
Definition cfg_word (c : Z → Z) (bus slot func offset : Z) : Z :=
  select_word (c (config_addr bus slot func offset)) offset.
Definition cfg_bar (c : Z → Z) (bus slot func n : Z) : Z :=
  w32 (COMBINE_WORD (cfg_word c bus slot func (0x10 + 4 * n)) (cfg_word c bus slot func (0x12 + 4 * n))).
Definition device_of (c : Z → Z) (bus slot func : Z) : pci_device :=
  PciDevice (Z.land (cfg_word c bus slot func 0x3C) 0xFF)
    (cfg_bar c bus slot func <$> seqZ 0 6) bus slot func 0.

(** ** Lemmas *)

Lemma wp_on_ports {A} (c : ST D A) s (Q : A → pci S D → Prop) :
  wp c (ports s) (λ a d, Q a (Pci (pheap s) (records s) d)) → wp (on_ports c) s Q.
Proof. unfold wp, on_ports. by destruct (c (ports s)) as [[a d]| | |]. Qed.

Lemma wp_pci_enable_bus_mastering dev s (Q : unit → pci S D → Prop) :
  dev ≠ 0 → (∀ d, Q tt (Pci (pheap s) (records s) d)) → wp (pci_enable_bus_mastering dev) s Q.
Proof.
  intros Hd HQ. apply wp_bind, wp_nonnull; [done|].
  assert (∀ A (c : ST D A), completes (λ _, True) c → completes (λ x, ∃ d, x = Pci (pheap s) (records s) d) (on_ports c)) as Hp.
  { intros A c Hc x [d ->]. apply wp_on_ports. eapply wp_mono; [by apply (Hc d)|]. intros a d' _. by exists d'. }
  eapply wp_mono; [apply (completes_bind (λ x, ∃ d, x = Pci (pheap s) (records s) d)); [apply completes_gets| |]|].
  - intros r. unfold config_readw, config_writew. eauto 20 with completes.
  - exists (ports s). by destruct s.
  - intros [] x [d ->]. apply HQ.
Qed.

Section host.
Context (latch : D → Z) (cfg : D → Z → Z) (Hhost : pci_host latch cfg).

(** Only the latch may differ. *)
Record scanned (c : Z → Z) (s s' : pci S D) : Prop := {
  sc_heap : pheap s' = pheap s;
  sc_records : records s' = records s;
  sc_cfg k : cfg (ports s') k = c k;
}.

Lemma wp_config_readw c bus slot func offset s (Q : Z → pci S D → Prop) :
  (∀ k, cfg (ports s) k = c k) →
  (∀ s', scanned c s s' → Q (cfg_word c bus slot func offset) s') →
  wp (config_readw bus slot func offset) s Q.
Proof.
  intros Hc HQ. apply wp_bind, wp_on_ports, wp_io_out. change (w16 CONFIG_ADDRESS) with CONFIG_ADDRESS.
  assert (w32 (config_addr bus slot func offset) = config_addr bus slot func offset) as ->.
  { apply Z.mod_mod. lia. }
  destruct (ph_latch _ _ Hhost (ports s) (config_addr bus slot func offset)) as [Hl Hk].
  apply wp_bind, wp_on_ports. simpl. change (w16 CONFIG_DATA) with CONFIG_DATA.
  apply wp_io_in; [lia|]. intros v d' Hin _.
  pose proof (ph_read _ _ Hhost (dev_out Port CONFIG_ADDRESS 4 (config_addr bus slot func offset) (ports s))) as Hr.
  change (w16 CONFIG_DATA) with CONFIG_DATA in Hin. rewrite Hin in Hr. destruct Hr as [-> Hk']. apply wp_ret. rewrite Hl, Hk, Hc. apply HQ.
  split; try done. intros k. simpl. by rewrite Hk', Hk.
Qed.

Lemma scanned_trans c s1 s2 s3 : scanned c s1 s2 → scanned c s2 s3 → scanned c s1 s3.
Proof. intros [] []. split; congruence. Qed.

(** The two words of a base address register. *)
Lemma wp_get_bar c n bus slot func s (Q : Z → pci S D → Prop) f :
  (f = λ b s fn, lo ← config_readw b s fn (0x10 + 4 * n); hi ← config_readw b s fn (0x12 + 4 * n);
                 mret (w32 (COMBINE_WORD lo hi))) →
  (∀ k, cfg (ports s) k = c k) →
  (∀ s', scanned c s s' → Q (cfg_bar c bus slot func n) s') → wp (f bus slot func) s Q.
Proof.
  intros -> Hc HQ. apply wp_bind. eapply wp_config_readw; [exact Hc|]. intros s1 Hs1.
  apply wp_bind. eapply wp_config_readw; [apply Hs1|]. intros s2 Hs2.
  apply wp_ret, HQ. by eapply scanned_trans.
Qed.

Lemma wp_init_dev c dev bus slot func s (Q : unit → pci S D → Prop) :
  dev ≠ 0 → (∀ k, cfg (ports s) k = c k) →
  (∀ s', pheap s' = pheap s → records s' = upd (records s) dev (device_of c bus slot func) →
     (∀ k, cfg (ports s') k = c k) → Q tt s') →
  wp (init_dev dev bus slot func) s Q.
Proof.
  intros Hd Hc HQ. apply wp_bind, wp_guard; [by destruct (Z.eqb_spec dev 0)|].
  apply wp_bind, wp_bind. eapply wp_config_readw; [exact Hc|]. intros s0 Hs0. apply wp_ret.
  apply wp_bind, (wp_get_bar c 0); [done|apply Hs0|]. intros s1 Hs1.
  apply wp_bind, (wp_get_bar c 1); [done|apply Hs1|]. intros s2 Hs2.
  apply wp_bind, (wp_get_bar c 2); [done|apply Hs2|]. intros s3 Hs3.
  apply wp_bind, (wp_get_bar c 3); [done|apply Hs3|]. intros s4 Hs4.
  apply wp_bind, (wp_get_bar c 4); [done|apply Hs4|]. intros s5 Hs5.
  apply wp_bind, (wp_get_bar c 5); [done|apply Hs5|]. intros s6 Hs6.
  assert (scanned c s s6) as [Hh Hr Hk] by (do 6 (eapply scanned_trans; [eassumption|]); by split; try apply Hs6).
  apply wp_modify, HQ; simpl; [done|by rewrite Hr|done].
Qed.

Lemma wp_on_heap {A} (h : ST S A) (s : pci S D) (Q : A → pci S D → Prop) :
  wp h (pheap s) (λ a h', Q a (Pci h' (records s) (ports s))) → wp (on_heap h) s Q.
Proof. unfold wp, on_heap. by destruct (h (pheap s)) as [[a h']| | |]. Qed.

(** What a search that hits, or does not, ends in; the heap has room for [l]
    still. *)
Definition search_post (c : Z → Z) (U : gmap Z Z) (l : list Z) (s : pci S D) (hit : option (Z * Z * Z))
    (r : Z) (s' : pci S D) : Prop :=
  (∀ k, cfg (ports s') k = c k) ∧
  match hit with
  | Some (bus, slot, func) => r ≠ 0 ∧ U !! r = None ∧
      (∃ sz, sizeof_pci_device ≤ sz ∧ room (pheap s') (<[r:=sz]> U) l) ∧
      records s' = upd (records s) r (device_of c bus slot func)
  | None => r = 0 ∧ room (pheap s') U l ∧ records s' = records s
  end.

Section search.
Context (c : Z → Z) (T : Z * Z * Z → Prop) `{∀ x, Decision (T x)} (test : Z → Z → Z → P bool).
Context (Htest : ∀ bus slot func s (Q : bool → pci S D → Prop), (∀ k, cfg (ports s) k = c k) →
  (∀ s', scanned c s s' → Q (bool_decide (T (bus, slot, func))) s') → wp (test bus slot func) s Q).

(** The loop with the record at [dev]. *)
Lemma wp_search fs dev sz U l s0 s :
  dev ≠ 0 → U !! dev = None → sizeof_pci_device ≤ sz → room (pheap s) (<[dev:=sz]> U) l →
  records s = records s0 → (∀ k, cfg (ports s) k = c k) →
  wp (search fs test dev) s (search_post c U l s0 (head (filter T fs))).
Proof.
  intros Hd Hf Hsz Hr Hrec Hc. revert s Hr Hrec Hc. induction fs as [|[[bus slot] func] fs IH]; intros s Hr Hrec Hc.
  - simpl. destruct (Z.eqb_spec dev 0) as [|_]; [done|]. apply wp_bind, wp_on_heap.
    eapply room_release; [exact Hr|rewrite lookup_insert_eq; eauto|]. intros h' Hr'. apply wp_ret.
    rewrite delete_insert_id in Hr' by done. by split.
  - simpl. apply wp_bind, Htest; [exact Hc|]. intros s1 [Hh Hr1 Hk]. case_bool_decide as Hm.
    + rewrite filter_cons_True by done. simpl. apply wp_bind. eapply wp_init_dev; [exact Hd|exact Hk|]. intros s2 Hh2 Hr2 Hk2.
      apply wp_ret. split; [exact Hk2|]. split_and!; [done|done| |by rewrite Hr2, Hr1, Hrec].
      exists sz. split; [done|]. by rewrite Hh2, Hh.
    + rewrite filter_cons_False by done. apply IH; [by rewrite Hh|by rewrite Hr1|done].
Qed.

Lemma wp_find s U l :
  room (pheap s) U (sizeof_pci_device :: l) → (∀ k, cfg (ports s) k = c k) →
  wp (dev ← on_heap (alloc sizeof_pci_device); search all_functions test dev) s
    (search_post c U l s (head (filter T all_functions))).
Proof.
  intros Hr Hc. apply wp_bind, wp_on_heap. eapply room_alloc; [exact Hr|].
  intros p sz h' Hp _ Hf Hsz Hr'. apply (wp_search _ _ sz); try done. lia.
Qed.
End search.

(** The first function that answers to a vendor and a device. *)
Definition matching (c : Z → Z) (vendor device : Z) : option (Z * Z * Z) :=
  head (filter (λ '(bus, slot, func),
    cfg_word c bus slot func 2 = device ∧ cfg_word c bus slot func 0 = vendor) all_functions).

Lemma wp_pci_find s U l vendor device (c := cfg (ports s)) :
  room (pheap s) U (sizeof_pci_device :: l) →
  wp (pci_find vendor device) s (search_post c U l s (matching c vendor device)).
Proof.
  intros Hr. unfold pci_find. apply wp_find; [|exact Hr|by intros k]. intros bus slot func s1 Q Hc HQ.
  apply wp_bind. unfold read_device_id. apply (wp_config_readw c); [exact Hc|]. intros s2 Hs2.
  destruct (Z.eqb_spec (cfg_word c bus slot func 2) device) as [E|E].
  - apply wp_bind. unfold read_vendor. apply (wp_config_readw c); [apply Hs2|]. intros s3 Hs3. apply wp_ret.
    replace (cfg_word c bus slot func 0 =? vendor) with
      (bool_decide (cfg_word c bus slot func 2 = device ∧ cfg_word c bus slot func 0 = vendor)).
    + apply HQ. by eapply scanned_trans.
    + destruct (Z.eqb_spec (cfg_word c bus slot func 0) vendor); [by apply bool_decide_true|].
      apply bool_decide_false. tauto.
  - apply wp_ret. replace false with
      (bool_decide (cfg_word c bus slot func 2 = device ∧ cfg_word c bus slot func 0 = vendor))
      by (apply bool_decide_false; tauto).
    by apply HQ.
Qed.

(** C24. Over hardware that implements configuration mechanism 1, [pci_find]
    returns a fresh record of the first function, in bus, slot, function
    order, whose device and vendor words match, with its interrupt line and
    six base addresses; when there is none it returns null and frees the
    record.  The heap has to have room for the record. *)
Theorem pci_find_correct s U l vendor device (c := cfg (ports s)) :
  room (pheap s) U (sizeof_pci_device :: l) →
  wp (pci_find vendor device) s
    (search_post c U l s (head (filter (λ '(bus, slot, func),
      cfg_word c bus slot func 2 = device ∧ cfg_word c bus slot func 0 = vendor) all_functions))).
Proof.
  apply wp_pci_find.
Qed.

(** The class search returns the first function whose class, subclass and
    programming interface all match. *)
Lemma pci_find_any_correct s U l class subclass interface (c := cfg (ports s)) :
  room (pheap s) U (sizeof_pci_device :: l) →
  wp (pci_find_any class subclass interface) s
    (search_post c U l s (head (filter (λ '(bus, slot, func),
      w8 (Z.shiftr (cfg_word c bus slot func 0xA) 8) = class ∧
      Z.land (cfg_word c bus slot func 0xA) 0xFF = subclass ∧
      w8 (Z.shiftr (cfg_word c bus slot func 0x8) 8) = interface ∧ -1 < interface) all_functions))).
Proof.
  intros Hr. unfold pci_find_any. apply wp_find; [|exact Hr|by intros k].
  intros bus slot func s1 Q Hc HQ. unfold read_class, read_subclass, read_prog_if.
  apply wp_bind, wp_bind, (wp_config_readw c); [exact Hc|]. intros s2 Hs2. apply wp_ret.
  destruct (Z.eqb_spec (w8 (Z.shiftr (cfg_word c bus slot func 0xA) 8)) class) as [E1|E1].
  2:{ apply wp_ret. rewrite <- (bool_decide_false (w8 (Z.shiftr (cfg_word c bus slot func 0xA) 8) = class ∧
      Z.land (cfg_word c bus slot func 0xA) 0xFF = subclass ∧
      w8 (Z.shiftr (cfg_word c bus slot func 0x8) 8) = interface ∧ -1 < interface)) by (intros (? & _); done). by apply HQ. }
  apply wp_bind, wp_bind, (wp_config_readw c); [apply Hs2|]. intros s3 Hs3. apply wp_ret.
  pose proof (scanned_trans c _ _ _ Hs2 Hs3) as Hs13.
  destruct (Z.eqb_spec (Z.land (cfg_word c bus slot func 0xA) 0xFF) subclass) as [E2|E2].
  2:{ apply wp_ret. rewrite <- (bool_decide_false (w8 (Z.shiftr (cfg_word c bus slot func 0xA) 8) = class ∧
      Z.land (cfg_word c bus slot func 0xA) 0xFF = subclass ∧
      w8 (Z.shiftr (cfg_word c bus slot func 0x8) 8) = interface ∧ -1 < interface)) by (intros (_ & ? & _); done). by apply HQ. }
  apply wp_bind, wp_bind, (wp_config_readw c); [apply Hs3|]. intros s4 Hs4. apply wp_ret, wp_ret.
  pose proof (scanned_trans c _ _ _ Hs13 Hs4) as Hs14. specialize (HQ _ Hs14). revert HQ.
  case_bool_decide as Hm; destruct (Z.eqb_spec (w8 (Z.shiftr (cfg_word c bus slot func 0x8) 8)) interface),
    (Z.ltb_spec (-1) interface); intros; simpl; (done || (exfalso; (destruct Hm as (_ & _ & ? & ?) || apply Hm; repeat split); lia)).
Qed.

(** Asking for any interface with [-1] finds nothing. *)
Lemma pci_find_any_wildcard s U l class subclass :
  room (pheap s) U (sizeof_pci_device :: l) →
  wp (pci_find_any class subclass (-1)) s (λ r s', r = 0 ∧ room (pheap s') U l ∧ records s' = records s).
Proof.
  intros Hr. pose proof (pci_find_any_correct s U l class subclass (-1) Hr) as Hwp.
  assert (∀ (P : Z * Z * Z → Prop) `{∀ x, Decision (P x)} fs, (∀ x, ¬ P x) → filter P fs = []) as Hnil.
  { intros P ? fs HP. induction fs as [|x fs IH]; [done|]. by rewrite filter_cons_False. }
  rewrite Hnil in Hwp; [eapply wp_mono; [exact Hwp|by intros r s' [_ ?]]|]. intros [[bus slot] func] (_ & _ & _ & Hlt). lia.
Qed.
End host.
End pci.

(** ** Witness: a host bridge model *)

Record bridge := Bridge { b_latch : Z; b_reg : Z → Z }.

#[export] Program Instance bridge_device : Device bridge := {|
  dev_in sp a n d := (if (a =? CONFIG_DATA) && (n =? 4) then b_reg d (b_latch d) mod 2 ^ 32 else 0, d);
  dev_out sp a n v d := if a =? CONFIG_ADDRESS then Bridge v (b_reg d) else d;
|}.
Next Obligation.
  intros sp a n d Hn. simpl. assert (0 < 2 ^ (8 * n)) by (apply Z.pow_pos_nonneg; lia).
  destruct (a =? _); simpl; [|lia]. destruct (Z.eqb_spec n 4) as [->|]; [|lia].
  apply Z.mod_pos_bound. lia.
Qed.

Definition bridge_cfg (d : bridge) (k : Z) : Z := b_reg d k mod 2 ^ 32.

Lemma bridge_host : pci_host b_latch bridge_cfg.
Proof. by split. Qed.

(** An RTL8139 at bus 0, slot 3. *)
Definition bridge_sample : bridge := Bridge 0 (λ k,
  if k =? config_addr 0 3 0 0 then 0x813910EC else if k =? config_addr 0 3 0 0x10 then 0xC001 else 0).

Example pci_find_correct_witness : ∃ s : pci heap bridge, room (pheap s) ∅ [sizeof_pci_device] ∧
  wp (pci_find 0x10EC 0x8139) s (λ r s', r ≠ 0 ∧ slot (records s' r) = 3 ∧ nth 0 (bars (records s' r)) 0 = 0xC001).
Proof.
  destruct (fresh_heap [sizeof_pci_device]) as [h Hr]; [vm_compute; reflexivity|].
  set (s := Pci h (λ _, PciDevice 0 [] 0 0 0 0) bridge_sample). exists s. split; [exact Hr|].
  eapply wp_mono; [apply (pci_find_correct b_latch bridge_cfg bridge_host s ∅ [] 0x10EC 0x8139 Hr)|].
  assert (head (filter (λ '(bus, slot, func), cfg_word (bridge_cfg bridge_sample) bus slot func 2 = 0x8139 ∧
    cfg_word (bridge_cfg bridge_sample) bus slot func 0 = 0x10EC) all_functions) = Some (0, 3, 0)) as E by (vm_compute; reflexivity).
  change (bridge_cfg (ports s)) with (bridge_cfg bridge_sample). rewrite E. intros r s' (_ & Hr0 & _ & _ & Hrec). rewrite Hrec, upd_eq. split; [exact Hr0|]. split; [reflexivity|vm_compute; reflexivity].
Defined.
