(* ===== verification/Mutex.v ===== *)
(** sys/sync/mutex.c: the spin lock, alone and under interleaving. *)

From S2P Require Import Prelude.

(** ** Operations on the lock byte *)

(** [__atomic_test_and_set]: the old value as a flag, and the byte set. *)
Definition test_and_set : ST Z bool := λ lock, Done (negb (lock =? 0), 1).

(** The loop of [mutex_acquire], run for at most [fuel] iterations. *)
Fixpoint mutex_acquire (fuel : nat) : ST Z unit :=
  match fuel with
  | O => no_fuel
  | S fuel => busy ← test_and_set; if (busy : bool) then mutex_acquire fuel else mret tt
  end.

Definition mutex_release : ST Z unit := λ _, Done (tt, 0).

(** ** Interleaving *)

(** Where a core is in [mutex_acquire(&lock); ...; mutex_release(&lock);]. *)
Inductive phase := Outside | Acquiring | Inside.

#[export] Instance phase_eq_dec : EqDecision phase.
Proof. solve_decision. Defined.

Record system := System { lock : Z; cores : list phase }.

(** The atomic steps of core [i]: calling [mutex_acquire], one iteration of its
    loop, and [mutex_release]. *)
Inductive step (i : nat) : system → system → Prop :=
| step_call l cs :
    cs !! i = Some Outside → step i (System l cs) (System l (<[i:=Acquiring]> cs))
| step_iteration l cs (busy : bool) l' :
    cs !! i = Some Acquiring → test_and_set l = Done (busy, l') →
    step i (System l cs) (System l' (<[i:=if busy then Acquiring else Inside]> cs))
| step_release l cs l' :
    cs !! i = Some Inside → mutex_release l = Done (tt, l') →
    step i (System l cs) (System l' (<[i:=Outside]> cs)).

Definition any_step (s s' : system) : Prop := ∃ i, step i s s'.

(** [n] cores, none of which has touched the zero-initialised lock. *)
Definition boot (n : nat) : system := System 0 (replicate n Outside).

(** The number of cores between acquire and release. *)
Definition inside (s : system) : nat := length (filter (.= Inside) (cores s)).

(** ** The invariant *)

(** The lock byte counts the cores inside. *)
Definition lock_inv (s : system) : Prop := lock s = Z.of_nat (inside s) ∧ (inside s ≤ 1)%nat.

Definition weight (p : phase) : nat := match p with Inside => 1 | _ => 0 end.

Lemma inside_insert l cs i p p' :
  cs !! i = Some p → (inside (System l (<[i:=p']> cs)) + weight p = inside (System l cs) + weight p')%nat.
Proof.
  unfold inside. simpl. revert i. induction cs as [|c cs IH]; intros [|i] Hi; simplify_eq/=.
  - rewrite !filter_cons. destruct p, p'; repeat case_decide; simpl; done || lia.
  - specialize (IH i Hi). rewrite !filter_cons. case_decide; simpl; lia.
Qed.

Lemma lock_inv_step s s' : any_step s s' → lock_inv s → lock_inv s'.
Proof.
  intros [i Hstep] [Hl Hn].
  destruct Hstep as [l cs Hi|l cs busy l' Hi Hb|l cs l' Hi Hr].
  - pose proof (inside_insert l cs i _ Acquiring Hi) as Hc. unfold weight in Hc. simpl in *.
    unfold lock_inv. simpl. lia.
  - injection Hb as <- <-. pose proof (inside_insert 1 cs i _ (if negb (l =? 0) then Acquiring else Inside) Hi) as Hc.
    unfold weight in Hc. unfold lock_inv in *. unfold inside in *. simpl in *. destruct (Z.eqb_spec l 0); simpl in *; lia.
  - injection Hr as <-. pose proof (inside_insert 0 cs i _ Outside Hi) as Hc. unfold weight in Hc. simpl in *.
    unfold lock_inv, inside in *. simpl in *. lia.
Qed.

Lemma lock_inv_boot n : lock_inv (boot n).
Proof. assert (inside (boot n) = 0%nat) as Hz by (induction n as [|n IH]; [done|exact IH]). unfold lock_inv. by rewrite Hz; split; [|lia]. Qed.

Lemma lock_inv_reachable n s : rtc any_step (boot n) s → lock_inv s.
Proof.
  intros Hr. pose proof (lock_inv_boot n) as Hinv. induction Hr as [|s1 s2 s3 Hs _ IH]; [done|].
  apply IH. by apply (lock_inv_step s1).
Qed.

Lemma inside_two l cs i j :
  i ≠ j → cs !! i = Some Inside → cs !! j = Some Inside → (2 ≤ inside (System l cs))%nat.
Proof.
  intros Hne Hi Hj. pose proof (inside_insert l cs i _ Outside Hi) as H1.
  pose proof (inside_insert l (<[i:=Outside]> cs) j Inside Outside) as H2.
  rewrite list_lookup_insert_ne in H2 by done. specialize (H2 Hj). unfold weight in *. simpl in *. lia.
Qed.

Lemma inside_some l cs : (0 < inside (System l cs))%nat → ∃ i, cs !! i = Some Inside.
Proof.
  unfold inside. simpl. induction cs as [|c cs IH]; simpl; [lia|]. rewrite filter_cons. case_decide as Hc.
  - intros _. exists 0%nat. by subst.
  - intros Hp. destruct (IH Hp) as [i Hi]. by exists (S i).
Qed.

(** ** Theorems *)


(** No deadlock: from every reachable state in which a core is acquiring,
    some schedule of at most two steps lets that core in. *)
Theorem mutex_progress n s i :
  rtc any_step (boot n) s → cores s !! i = Some Acquiring →
  ∃ k s', (k ≤ 2)%nat ∧ nsteps any_step k s s' ∧ cores s' !! i = Some Inside.
Proof.
  intros Hr Hi. destruct (lock_inv_reachable n s Hr) as [Hl Hn]. destruct s as [l cs]. simpl in *.
  assert (∀ cs : list phase, cs !! i = Some Acquiring → any_step (System 0 cs) (System 1 (<[i:=Inside]> cs))) as Henter.
  { intros cs' Hi'. exists i. by apply (step_iteration i 0 cs' false 1). }
  assert (∀ cs : list phase, cs !! i = Some Acquiring → <[i:=Inside]> cs !! i = Some Inside) as Hget.
  { intros cs' Hi'. apply list_lookup_insert_eq. by eapply lookup_lt_Some. }
  destruct (decide (l = 0)) as [->|Hl0].
  - exists 1%nat, (System 1 (<[i:=Inside]> cs)). split; [lia|]. split; [|by apply Hget].
    by apply nsteps_once, Henter.
  - destruct (inside_some l cs) as [j Hj]; [lia|]. assert (i ≠ j) by (intros ->; congruence).
    assert (<[j:=Outside]> cs !! i = Some Acquiring) as Hi' by (by rewrite list_lookup_insert_ne).
    exists 2%nat, (System 1 (<[i:=Inside]> (<[j:=Outside]> cs))). split; [lia|]. split; [|by apply Hget].
    eapply nsteps_l; [|by apply nsteps_once, Henter]. exists j. by apply step_release.
Qed.

(** On its own a core takes a free lock at once and waits forever for one that
    is held, also by itself. *)
Lemma mutex_acquire_alone fuel l :
  mutex_acquire (S fuel) l = if l =? 0 then Done (tt, 1) else NoFuel.
Proof.
  revert l. induction fuel as [|fuel IH]; intros l.
  - unfold mutex_acquire, mbind, ST_bind, test_and_set. by destruct (l =? 0).
  - change (mutex_acquire (S (S fuel)) l) with
      ((if negb (l =? 0) then mutex_acquire (S fuel) else mret tt) 1).
    destruct (l =? 0); [done|]. apply (IH 1).
Qed.

(** ** Witnesses: two cores, the second one waiting *)

Definition contended : system := System 1 [Inside; Acquiring].

Lemma contended_reachable : rtc any_step (boot 2) contended.
Proof.
  eapply rtc_l; [exists 0%nat; by apply step_call|].
  eapply rtc_l; [exists 0%nat; by apply (step_iteration 0 0 [Acquiring; Outside] false 1)|].
  apply rtc_once. exists 1%nat. by apply (step_call 1 1 [Inside; Outside]).
Qed.


Example mutex_progress_witness :
  ∃ k s', (k ≤ 2)%nat ∧ nsteps any_step k contended s' ∧ cores s' !! 1%nat = Some Inside.
Proof. apply (mutex_progress 2 contended 1 contended_reachable). done. Defined.
