(* ===== verification/Cpu.v ===== *)
(** sys/amd64/lapic.c, cpu.c, sys/dev/timer/hpet.c and [this_core] of
    sys/amd64/smp.c: the cores, their local APICs, and time. *)

From S2P Require Import Prelude CString Io Acpi Interrupts Mutex.

(** ** State *)

Definition LAPIC_ID : Z := 0x20.
Definition LAPIC_EOI : Z := 0xB0.
Definition LAPIC_LDR : Z := 0xD0.
Definition LAPIC_SVR : Z := 0xF0.
Definition LAPIC_TIMER : Z := 0x320.
Definition LAPIC_TICR : Z := 0x380.
Definition LAPIC_TCCR : Z := 0x390.
Definition LAPIC_TDCR : Z := 0x3E0.
Definition LAPIC_ALL_INCLUDING_SELF : Z := 2.

Definition HPET_REG_CAP : Z := 0x0.
Definition HPET_REG_CONF : Z := 0x10.
Definition HPET_REG_COUNTER : Z := 0xF0.
(** The offset of [base.base] in [acpi_hpet_t]. *)
Definition off_hpet_base : Z := 44.

Definition P_EXEC_CRITICAL : Z := 1.
Definition P_IRQ : Z := 2.

(** [cpu_core_t], without the head of its run queue. *)
Record core := Core {
  lapic_freq : Z;
  lapic_id : Z;
  flags : Z;
  core_lock : Z;
  gdt : Z;
  gdtr : Z;
  tss : Z;
  running_process : Z;
}.

(** The interrupt state, the statics of the four files, and the core list. *)
Record cpu (D : Type) := Cpu {
  irqs : intr D;
  timer_vector : Z;
  goto_vector : Z;
  hpet_base : Z;
  hpet_period : Z;
  sleep_lock : Z;
  this_core_lock : Z;
  goto_vec_lock : Z;
  cpu_count : Z;
  corelist : Z → core;
}.
Arguments Cpu {D} _ _ _ _ _ _ _ _ _ _.
Arguments irqs {D} _.
Arguments timer_vector {D} _.
Arguments goto_vector {D} _.
Arguments hpet_base {D} _.
Arguments hpet_period {D} _.
Arguments sleep_lock {D} _.
Arguments this_core_lock {D} _.
Arguments goto_vec_lock {D} _.
Arguments cpu_count {D} _.
Arguments corelist {D} _ _.

Section cpu.
Context {D M : Type} `{Device D} `{ByteMem M} (m : M) (hhdm : Z).

Notation K := (ST (cpu D)).

Definition set_irqs (i : intr D) (s : cpu D) : cpu D :=
  Cpu i (timer_vector s) (goto_vector s) (hpet_base s) (hpet_period s) (sleep_lock s) (this_core_lock s)
    (goto_vec_lock s) (cpu_count s) (corelist s).
Definition set_vectors (t g : Z) (s : cpu D) : cpu D :=
  Cpu (irqs s) t g (hpet_base s) (hpet_period s) (sleep_lock s) (this_core_lock s)
    (goto_vec_lock s) (cpu_count s) (corelist s).
Definition set_hpet (b p : Z) (s : cpu D) : cpu D :=
  Cpu (irqs s) (timer_vector s) (goto_vector s) b p (sleep_lock s) (this_core_lock s)
    (goto_vec_lock s) (cpu_count s) (corelist s).
Definition set_sleep_lock (l : Z) (s : cpu D) : cpu D :=
  Cpu (irqs s) (timer_vector s) (goto_vector s) (hpet_base s) (hpet_period s) l (this_core_lock s)
    (goto_vec_lock s) (cpu_count s) (corelist s).
Definition set_this_core_lock (l : Z) (s : cpu D) : cpu D :=
  Cpu (irqs s) (timer_vector s) (goto_vector s) (hpet_base s) (hpet_period s) (sleep_lock s) l
    (goto_vec_lock s) (cpu_count s) (corelist s).
Definition set_goto_vec_lock (l : Z) (s : cpu D) : cpu D :=
  Cpu (irqs s) (timer_vector s) (goto_vector s) (hpet_base s) (hpet_period s) (sleep_lock s) (this_core_lock s)
    l (cpu_count s) (corelist s).
Definition set_core (i : Z) (c : core) (s : cpu D) : cpu D :=
  Cpu (irqs s) (timer_vector s) (goto_vector s) (hpet_base s) (hpet_period s) (sleep_lock s) (this_core_lock s)
    (goto_vec_lock s) (cpu_count s) (upd (corelist s) i c).

(** Fields of a core. *)
Definition with_freq (f : Z) (c : core) : core :=
  Core f (lapic_id c) (flags c) (core_lock c) (gdt c) (gdtr c) (tss c) (running_process c).
Definition with_flags (f : Z) (c : core) : core :=
  Core (lapic_freq c) (lapic_id c) f (core_lock c) (gdt c) (gdtr c) (tss c) (running_process c).
Definition with_lock (l : Z) (c : core) : core :=
  Core (lapic_freq c) (lapic_id c) (flags c) l (gdt c) (gdtr c) (tss c) (running_process c).
Definition with_running (p : Z) (c : core) : core :=
  Core (lapic_freq c) (lapic_id c) (flags c) (core_lock c) (gdt c) (gdtr c) (tss c) p.

Definition on_irqs {A} (c : ST (intr D) A) : K A := zoom irqs set_irqs c.
Definition on_device {A} (c : ST D A) : K A := on_irqs (on_dev c).

(** ** The local APIC *)

Definition lapic_base : K Z := gets (λ s, w64 (g_lapic_mmio_base (acpi_vars (irqs s)) + hhdm)).
Definition lapic_write (reg value : Z) : K unit :=
  base ← lapic_base; on_device (mmio_write32 (base + reg) value).
Definition lapic_read (reg : Z) : K Z :=
  base ← lapic_base; on_device (mmio_read32 (base + reg)).

Definition lapic_send_eoi : K unit := lapic_write LAPIC_EOI 0.
Definition lapic_get_timer_vector : K Z := gets timer_vector.
Definition lapic_get_goto_vector : K Z := gets goto_vector.
Definition lapic_read_id : K Z := id ← lapic_read LAPIC_ID; mret (Z.shiftr id 24).

(** The body is empty. *)
Definition lapic_send_ipi (id vector shorthand : Z) : K unit := mret tt.

(** [timer_isr] is the address of [__lapic_timer_isr]. *)
Definition lapic_init (timer_isr : Z) : K unit :=
  g ← gets goto_vector;
  t ← gets timer_vector;
  (if (g =? 0) && (t =? 0) then
     g ← on_irqs alloc_int_vector;
     modify (λ s, set_vectors (timer_vector s) g s) ;;
     t ← on_irqs alloc_int_vector;
     modify (λ s, set_vectors t (goto_vector s) s) ;;
     on_irqs (register_interrupt t timer_isr)
   else mret tt) ;;
  lapic_write LAPIC_LDR 0x01000000 ;;
  lapic_write LAPIC_SVR (Z.lor (Z.shiftl 1 8) 0xFF).

(** ** Cores *)

(** The index of the core in [g_corelist]; [None] is the null pointer. *)
Fixpoint this_core_loop (l : list Z) : K (option Z) :=
  match l with
  | [] => mret None
  | i :: l =>
      id ← lapic_read_id;
      c ← gets (λ s, corelist s i);
      if lapic_id c =? id then mret (Some i) else this_core_loop l
  end.

Definition this_core (fuel : nat) : K (option Z) :=
  zoom this_core_lock set_this_core_lock (mutex_acquire fuel) ;;
  n ← gets cpu_count;
  r ← this_core_loop (seqZ 0 n);
  zoom this_core_lock set_this_core_lock mutex_release ;;
  mret r.

(** A dereference of what [this_core] returned. *)
Definition some_core (r : option Z) : K Z := from_option mret undef r.

(** [core->lock] of core [i]. *)
Definition on_core_lock (i : Z) (c : ST Z unit) : K unit :=
  zoom (λ s, core_lock (corelist s i)) (λ l s, set_core i (with_lock l (corelist s i)) s) c.

Definition core_set_flags (fuel : nat) (f : Z) : K unit :=
  r ← this_core fuel;
  i ← some_core r;
  on_core_lock i (mutex_acquire fuel) ;;
  modify (λ s, set_core i (with_flags (Z.lor (flags (corelist s i)) f) (corelist s i)) s) ;;
  on_core_lock i mutex_release.

Definition core_clear_flags (fuel : nat) (f : Z) : K unit :=
  r ← this_core fuel;
  i ← some_core r;
  on_core_lock i (mutex_acquire fuel) ;;
  modify (λ s, set_core i (with_flags (w16 (Z.land (flags (corelist s i)) (Z.lnot f))) (corelist s i)) s) ;;
  on_core_lock i mutex_release.

Definition irq_enter (fuel : nat) : K unit := core_set_flags fuel P_IRQ.
Definition irq_exit (fuel : nat) : K unit := core_clear_flags fuel P_IRQ.
Definition critical_enter (fuel : nat) : K unit := core_set_flags fuel P_EXEC_CRITICAL.
Definition critical_exit (fuel : nat) : K unit := core_clear_flags fuel P_EXEC_CRITICAL.

Definition amd64_for_each_core (fuel : nat) (kroutine : Z) : K unit :=
  zoom goto_vec_lock set_goto_vec_lock (mutex_acquire fuel) ;;
  v ← lapic_get_goto_vector;
  on_irqs (register_interrupt v kroutine) ;;
  lapic_send_ipi 0 v LAPIC_ALL_INCLUDING_SELF ;;
  zoom goto_vec_lock set_goto_vec_lock mutex_release.

(** ** Time *)

Definition hpet_read (reg : Z) : K Z :=
  b ← gets hpet_base; on_device (mmio_read64 (b + reg)).
Definition hpet_write (reg val : Z) : K unit :=
  b ← gets hpet_base; on_device (mmio_write64 (b + reg) val).

(** [hpet_str] is the string literal; [hlt] is reached with interrupts still
    disabled, and stops the core. *)
Definition hpet_init (fuel : nat) (hpet_str : Z) : K unit :=
  hpet ← on_irqs (on_acpi (acpi_query m hhdm fuel hpet_str));
  (if hpet =? 0 then halt else mret tt) ;;
  modify (λ s, set_hpet (w64 (ld32 m (hpet + off_hpet_base) + 2 ^ 32 * ld32 m (hpet + off_hpet_base + 4) + hhdm))
                        (hpet_period s) s) ;;
  cap ← hpet_read HPET_REG_CAP;
  let reg_count := Z.land (Z.shiftr cap 8) 0x1F + 1 in
  (if reg_count <? 2 then halt
   else cap ← hpet_read HPET_REG_CAP; if Z.shiftr cap 32 =? 0 then halt else mret tt) ;;
  cap ← hpet_read HPET_REG_CAP;
  modify (λ s, set_hpet (hpet_base s) (Z.shiftr cap 32) s) ;;
  hpet_write HPET_REG_COUNTER 0 ;;
  conf ← hpet_read HPET_REG_CONF;
  hpet_write HPET_REG_CONF (Z.lor conf 1).

Fixpoint sleep_loop (fuel : nat) (goal : Z) : K unit :=
  match fuel with
  | O => no_fuel
  | S fuel => now ← hpet_read HPET_REG_COUNTER; if now <? goal then sleep_loop fuel goal else mret tt
  end.

Definition hpet_sleep (fuel : nat) (ms : Z) : K unit :=
  zoom sleep_lock set_sleep_lock (mutex_acquire fuel) ;;
  start ← hpet_read HPET_REG_COUNTER;
  period ← gets hpet_period;
  guard_ (negb (period =? 0)) ;;
  sleep_loop fuel (w64 (start + w64 (ms * (1000000000000 / period)))) ;;
  zoom sleep_lock set_sleep_lock mutex_release.

(** ** The scheduler's timer *)

(** C leaves the order of [this_core()] and the register read open; the read
    comes first here. *)
Definition lapic_timer_calibrate (fuel : nat) : K unit :=
  lapic_write LAPIC_TDCR 0x3 ;;
  lapic_write LAPIC_TIMER (Z.lor 0xFF (Z.shiftl 1 16)) ;;
  lapic_write LAPIC_TICR 0xFFFFFFFF ;;
  hpet_sleep fuel 10 ;;
  now ← lapic_read LAPIC_TCCR;
  r ← this_core fuel;
  i ← some_core r;
  modify (λ s, set_core i (with_freq (w32 (0xFFFFFFFF - now) / 10) (corelist s i)) s) ;;
  lapic_write LAPIC_TICR 0 ;;
  lapic_write LAPIC_TICR (Z.shiftl 1 16).

Definition lapic_timer_oneshot (fuel : nat) (ms : Z) : K unit :=
  lapic_write LAPIC_TICR 0 ;;
  lapic_write LAPIC_TIMER (Z.shiftl 1 16) ;;
  t ← lapic_get_timer_vector;
  lapic_write LAPIC_TIMER t ;;
  lapic_write LAPIC_TDCR 3 ;;
  r ← this_core fuel;
  i ← some_core r;
  c ← gets (λ s, corelist s i);
  lapic_write LAPIC_TICR (w64 (lapic_freq c * ms)).
End cpu.

(** Only the interrupt table and the devices changed. *)
Definition moved {D} (c c' : cpu D) : Prop :=
  ∃ g d, c' = set_irqs (Intr g (next_vector (irqs c)) (acpi_vars (irqs c)) d) c.

#[export] Instance moved_preorder D : PreOrder (moved (D := D)).
Proof.
  split.
  - intros [[g n v d] ? ? ? ? ? ? ? ? ?]. by exists g, d.
  - intros c1 c2 c3 (g & d & ->) (g' & d' & ->). by exists g', d'.
Qed.

(** ** What time keeping leaves alone *)

Section steady.
Context {D : Type} `{Device D} (hhdm : Z) {B : Type} (f : cpu D → B).

(** A part [f] of the state without the devices, the two locks and the measured
    frequencies. *)
Record steady : Prop := {
  st_device d s : f (set_irqs (Intr (idt (irqs s)) (next_vector (irqs s)) (acpi_vars (irqs s)) d) s) = f s;
  st_sleep l s : f (set_sleep_lock l s) = f s;
  st_this l s : f (set_this_core_lock l s) = f s;
  st_freq i v s : f (set_core i (with_freq v (corelist s i)) s) = f s;
}.

Context (Hf : steady).

Lemma steady_on_device {A} (c : ST D A) : preserves f (on_device c).
Proof.
  intros s. unfold wlp, on_device, on_irqs, zoom, on_dev.
  destruct (c (devices (irqs s))) as [[a d]| | |]; [apply (st_device Hf)|exact I..].
Qed.

#[local] Hint Resolve steady_on_device : preserves.

Lemma steady_lapic_write r v : preserves f (lapic_write hhdm r v).
Proof. unfold lapic_write, lapic_base. eauto with preserves. Qed.

Lemma steady_lapic_read r : preserves f (lapic_read hhdm r).
Proof. unfold lapic_read, lapic_base. eauto with preserves. Qed.

#[local] Hint Resolve steady_lapic_write steady_lapic_read : preserves.

Lemma steady_this_core fuel : preserves f (this_core hhdm fuel).
Proof.
  assert (∀ c : ST Z unit, preserves f (zoom this_core_lock set_this_core_lock c)) as Hl.
  { intros c. apply preserves_zoom, (st_this Hf). }
  unfold this_core. apply preserves_bind; [auto|intros _]. apply preserves_bind; [eauto with preserves|intros n].
  apply preserves_bind; [|eauto with preserves].
  induction (seqZ 0 n) as [|j l IH]; cbn [this_core_loop]; [eauto with preserves|]. unfold lapic_read_id. eauto 10 with preserves.
Qed.

Lemma steady_hpet_sleep fuel ms : preserves f (hpet_sleep fuel ms).
Proof.
  assert (∀ c : ST Z unit, preserves f (zoom sleep_lock set_sleep_lock c)) as Hl.
  { intros c. apply preserves_zoom, (st_sleep Hf). }
  assert (∀ n goal, preserves f (sleep_loop n goal)) as Hloop.
  { intros n goal. induction n as [|n IH]; cbn [sleep_loop]; unfold hpet_read; eauto with preserves. }
  unfold hpet_sleep, hpet_read. eauto 10 with preserves.
Qed.

#[local] Hint Resolve steady_this_core steady_hpet_sleep : preserves.

Lemma steady_calibrate fuel : preserves f (lapic_timer_calibrate hhdm fuel).
Proof.
  assert (∀ now i, preserves f (modify (λ s, set_core i (with_freq (w32 (0xFFFFFFFF - now) / 10) (corelist s i)) s))) as Hfreq.
  { intros now i. apply preserves_modify. intros s. apply (st_freq Hf). }
  unfold lapic_timer_calibrate, some_core. eauto 15 with preserves.
Qed.

Lemma steady_oneshot fuel ms : preserves f (lapic_timer_oneshot hhdm fuel ms).
Proof. unfold lapic_timer_oneshot, lapic_get_timer_vector, some_core. eauto 15 with preserves. Qed.
End steady.

(** ** The machine's behaviour *)

(** Documented behaviour of a local APIC at [lb] and an HPET at [hb]: the id
    register holds the core's id, the other local APIC registers [lreg] keep
    what is written, and the HPET's counter [cnt] grows, between two of its
    reads by 1 to [jump] ticks and during a local APIC access by at most
    [jump]. *)
Record timers {D} `{Device D} (lb hb : Z) (id : D → Z) (lreg : D → Z → Z) (cnt : D → Z) (jump : Z) : Prop := {
  tm_lapic : 0 ≤ lb ∧ lb + 0x400 < 2 ^ 64;
  tm_hpet : 0 ≤ hb ∧ hb + 0x400 < 2 ^ 64;
  tm_id d : 0 ≤ id d < 256;
  tm_cnt d : 0 ≤ cnt d;
  tm_write d r v : 0 ≤ r < 0x400 → r ≠ LAPIC_ID → 0 ≤ v < 2 ^ 32 →
    let d' := dev_out Mmio (lb + r) 4 v d in
    id d' = id d ∧ (∀ r', lreg d' r' = upd (lreg d) r v r') ∧ cnt d ≤ cnt d' ≤ cnt d + jump;
  tm_read d r v d' : 0 ≤ r < 0x400 → dev_in Mmio (lb + r) 4 d = (v, d') →
    id d' = id d ∧ (∀ r', lreg d' r' = lreg d r') ∧ cnt d ≤ cnt d' ≤ cnt d + jump ∧
    (r = LAPIC_ID → v = id d * 2 ^ 24);
  tm_counter d v d' : dev_in Mmio (hb + HPET_REG_COUNTER) 8 d = (v, d') →
    id d' = id d ∧ (∀ r', lreg d' r' = lreg d r') ∧ cnt d < cnt d' ≤ cnt d + jump ∧ v = cnt d mod 2 ^ 64;
}.

Section timers.
Context {D : Type} `{Device D} (hhdm : Z).
Context (lb hb : Z) (id : D → Z) (lreg : D → Z → Z) (cnt : D → Z) (jump : Z).
Context (Htm : timers lb hb id lreg cnt jump).

Notation K := (ST (cpu D)).
Notation dev s := (devices (irqs s)).

Definition with_dev (d : D) (s : cpu D) : cpu D :=
  set_irqs (Intr (idt (irqs s)) (next_vector (irqs s)) (acpi_vars (irqs s)) d) s.

(** The registers are mapped where the timers are. *)
Record wired (s : cpu D) : Prop := {
  wi_lapic : w64 (g_lapic_mmio_base (acpi_vars (irqs s)) + hhdm) = lb;
  wi_hpet : hpet_base s = hb;
}.

(** Only the devices moved on: the local APIC's registers are now [f]. *)
Record ticked (d0 : D) (f : Z → Z) (d : D) : Prop := {
  ti_id : id d = id d0;
  ti_regs r : lreg d r = f r;
  ti_cnt : cnt d0 ≤ cnt d;
}.

Lemma wired_dev s d : wired s → wired (with_dev d s).
Proof. by intros [? ?]. Qed.

Lemma with_dev_dev s d d' : with_dev d' (with_dev d s) = with_dev d' s.
Proof. done. Qed.

Lemma wp_on_device {A} (c : ST D A) s (Q : A → cpu D → Prop) :
  wp c (dev s) (λ a d, Q a (with_dev d s)) → wp (on_device c) s Q.
Proof. intros HQ. apply wp_zoom, wp_on_dev. exact HQ. Qed.

Lemma completes_on_device {A} (I : cpu D → Prop) (c : ST D A) :
  (∀ d s, I s → I (with_dev d s)) → completes (λ _, True) c → completes I (on_device c).
Proof. intros HI Hc s Hs. apply wp_on_device. eapply wp_mono; [by apply (Hc (dev s))|]. intros a d _. by apply HI. Qed.

Lemma w64_addr b r : 0 ≤ b → b + 0x400 < 2 ^ 64 → 0 ≤ r < 0x400 → w64 (b + r) = b + r.
Proof. intros. apply Z.mod_small. lia. Qed.

Lemma wp_lapic_write r v s (Q : unit → cpu D → Prop) :
  wired s → 0 ≤ r < 0x400 → r ≠ LAPIC_ID →
  (∀ d, ticked (dev s) (upd (lreg (dev s)) r (w32 v)) d → cnt d ≤ cnt (dev s) + jump → Q tt (with_dev d s)) →
  wp (lapic_write hhdm r v) s Q.
Proof.
  intros Hw Hr Hne HQ. apply wp_bind, wp_gets. rewrite (wi_lapic _ Hw).
  destruct (tm_lapic _ _ _ _ _ _ Htm) as [Hlb Hlb']. unfold mmio_write32. rewrite w64_addr by done.
  apply wp_on_device, wp_io_out.
  destruct (tm_write _ _ _ _ _ _ Htm (dev s) r (w32 v) Hr Hne) as (Hid & Hreg & Hc);
    [apply Z.mod_pos_bound; lia|]. apply HQ; [|apply Hc]. split; [exact Hid|exact Hreg|apply Hc].
Qed.

Lemma wp_lapic_read r s (Q : Z → cpu D → Prop) :
  wired s → 0 ≤ r < 0x400 →
  (∀ v d, ticked (dev s) (lreg (dev s)) d → cnt d ≤ cnt (dev s) + jump → 0 ≤ v < 2 ^ 32 →
     (r = LAPIC_ID → v = id (dev s) * 2 ^ 24) → Q v (with_dev d s)) →
  wp (lapic_read hhdm r) s Q.
Proof.
  intros Hw Hr HQ. apply wp_bind, wp_gets. rewrite (wi_lapic _ Hw).
  destruct (tm_lapic _ _ _ _ _ _ Htm) as [Hlb Hlb']. unfold mmio_read32. rewrite w64_addr by done.
  apply wp_on_device, wp_io_in; [lia|]. intros v d Hin Hv.
  destruct (tm_read _ _ _ _ _ _ Htm _ _ _ _ Hr Hin) as (Hid & Hreg & Hc & Hv').
  apply HQ; [split; [exact Hid|exact Hreg|apply Hc]|apply Hc|exact Hv|exact Hv'].
Qed.

Lemma wp_lapic_read_id s (Q : Z → cpu D → Prop) :
  wired s →
  (∀ d, ticked (dev s) (lreg (dev s)) d → cnt d ≤ cnt (dev s) + jump → Q (id (dev s)) (with_dev d s)) →
  wp (lapic_read_id hhdm) s Q.
Proof.
  intros Hw HQ. apply wp_bind, wp_lapic_read; [done|unfold LAPIC_ID; lia|]. intros v d Ht Hc _ Hv. apply wp_ret.
  rewrite (Hv eq_refl), Z.shiftr_div_pow2, Z.div_mul by lia. by apply HQ.
Qed.

Lemma ticked_refl s : ticked (dev s) (lreg (dev s)) (dev s).
Proof. done. Qed.

Lemma ticked_trans d0 d d' : ticked d0 (lreg d0) d → ticked d (lreg d) d' → ticked d0 (lreg d0) d'.
Proof. intros [Hid Hr Hc] [Hid' Hr' Hc']. split; [congruence| |lia]. intros r. by rewrite Hr', Hr. Qed.

(** The core with the executing core's id. *)
Definition core_here (s : cpu D) : option Z :=
  head (filter (λ i, lapic_id (corelist s i) = id (dev s)) (seqZ 0 (cpu_count s))).

Lemma wp_this_core_loop l s (Q : option Z → cpu D → Prop) :
  wired s → 0 ≤ jump →
  (∀ d, ticked (dev s) (lreg (dev s)) d → cnt d ≤ cnt (dev s) + jump * zlen l →
     Q (head (filter (λ i, lapic_id (corelist s i) = id (dev s)) l)) (with_dev d s)) →
  wp (this_core_loop hhdm l) s Q.
Proof.
  intros Hw Hj. revert s Hw. induction l as [|i l IH]; intros s Hw HQ; simpl.
  - apply wp_ret. specialize (HQ _ (ticked_refl s)). destruct s as [[] ? ? ? ? ? ? ? ? ?]. apply HQ. simpl. lia.
  - apply wp_bind, wp_lapic_read_id; [done|]. intros d Ht Hc. apply wp_bind, wp_gets. simpl in *.
    destruct (Z.eqb_spec (lapic_id (corelist s i)) (id (dev s))) as [E|E].
    + rewrite filter_cons_True in HQ by done. apply wp_ret, HQ; [done|nia].
    + rewrite filter_cons_False in HQ by done. apply IH; [by apply wired_dev|]. intros d' Ht' Hc'.
      rewrite with_dev_dev. simpl in *. rewrite (ti_id _ _ _ Ht). apply HQ; [|nia].
      by apply (ticked_trans _ d).
Qed.

Lemma mutex_acquire_free fuel (Q : unit → Z → Prop) : (0 < fuel)%nat → Q tt 1 → wp (mutex_acquire fuel) 0 Q.
Proof. intros Hf HQ. destruct fuel; [lia|]. unfold wp. by rewrite mutex_acquire_alone. Qed.

(** The counter's progress while every core is looked at. *)
Definition lookup_time (s : cpu D) : Z := jump * Z.of_nat (Z.to_nat (cpu_count s)).

Lemma wp_this_core fuel s (Q : option Z → cpu D → Prop) :
  wired s → 0 ≤ jump → this_core_lock s = 0 → (0 < fuel)%nat →
  (∀ d, ticked (dev s) (lreg (dev s)) d → cnt d ≤ cnt (dev s) + lookup_time s → Q (core_here s) (with_dev d s)) →
  wp (this_core hhdm fuel) s Q.
Proof.
  intros Hw Hj Hl Hf HQ. apply wp_bind, wp_zoom. rewrite Hl. apply mutex_acquire_free; [done|].
  apply wp_bind, wp_gets, wp_bind. apply wp_this_core_loop; [by destruct Hw|done|]. intros d Ht Hc.
  apply wp_bind, wp_zoom. eapply wp_intro; [done|]. apply wp_ret.
  rewrite length_seqZ in Hc. specialize (HQ d Ht Hc).
  replace (with_dev d s) with (set_this_core_lock 0 (with_dev d (set_this_core_lock 1 s))) in HQ; [exact HQ|].
  destruct s. simpl in Hl. by subst.
Qed.

Lemma wp_some_core fuel s i (f : Z → K unit) (Q : unit → cpu D → Prop) :
  wired s → 0 ≤ jump → this_core_lock s = 0 → (0 < fuel)%nat → core_here s = Some i →
  (∀ d, ticked (dev s) (lreg (dev s)) d → wp (f i) (with_dev d s) Q) →
  wp (r ← this_core hhdm fuel; i ← some_core r; f i) s Q.
Proof.
  intros Hw Hj Hl Hf Hi HQ. apply wp_bind, wp_this_core; [done..|]. intros d Ht _. rewrite Hi.
  apply wp_bind, wp_ret. by apply HQ.
Qed.

(** ** The HPET at start-up *)

Definition HPET : list Z := [72; 80; 69; 84].

(** Documented behaviour of the HPET while it is set up: the capability
    register never changes, a write sets the counter, and configuring it takes
    no longer than reading it. *)
Record hpet_at (cap : Z) : Prop := {
  ha_cap d : (dev_in Mmio hb 8 d).1 = cap;
  ha_reset d : cnt (dev_out Mmio (hb + HPET_REG_COUNTER) 8 0 d) = 0;
  ha_conf d v : cnt (dev_out Mmio (hb + HPET_REG_CONF) 8 v (dev_in Mmio (hb + HPET_REG_CONF) 8 d).2) ≤ cnt d + jump;
}.

(** At least two timers and a nonzero period. *)
Definition hpet_usable (cap : Z) : Prop := 2 ≤ Z.land (Z.shiftr cap 8) 0x1F + 1 ∧ Z.shiftr cap 32 ≠ 0.

Section hpet.
Context {M : Type} `{ByteMem M} (m : M) (cap : Z) (Hha : hpet_at cap).

Lemma wp_hpet_cap s (Q : Z → cpu D → Prop) :
  hpet_base s = hb → (∀ d, Q cap (with_dev d s)) → wp (hpet_read HPET_REG_CAP) s Q.
Proof.
  intros Hb HQ. apply wp_bind, wp_gets. rewrite Hb.
  destruct (tm_hpet _ _ _ _ _ _ Htm) as [Hhb Hhb']. unfold mmio_read64, HPET_REG_CAP. rewrite Z.add_0_r, w64_small by lia.
  apply wp_on_device, wp_io_in; [lia|]. intros v d Hin _. pose proof (ha_cap _ Hha (dev s)) as Hc. rewrite Hin in Hc.
  simpl in Hc. subst v. apply HQ.
Qed.

(** [p] is the table, which gives the registers' address. *)
Lemma wp_hpet_init fuel str p s (v := acpi_vars (irqs s)) (Q : unit → cpu D → Prop) :
  rsdt v ≠ 0 → rsdt_entry_count v = entry_count m (rsdt v) → is_cstr m str HPET → (4 < fuel)%nat →
  found_as m hhdm HPET (rsdt v) = p → p ≠ 0 →
  hb = w64 (ld32 m (p + off_hpet_base) + 2 ^ 32 * ld32 m (p + off_hpet_base + 4) + hhdm) → hpet_usable cap →
  (∀ d, cnt d ≤ jump → Q tt (set_hpet hb (Z.shiftr cap 32) (with_dev d s))) →
  wp (hpet_init m hhdm fuel str) s Q.
Proof.
  intros Ht Hn Hs Hf Hp Hp0 Hhb [Htimers Hperiod] HQ. destruct (tm_hpet _ _ _ _ _ _ Htm) as [Hhb0 Hhb1].
  apply wp_bind, wp_zoom, wp_on_acpi, (wp_acpi_query _ _ _ _ HPET); [exact Ht|exact Hn|exact Hs|simpl; lia|].
  fold v. rewrite Hp. destruct (Z.eqb_spec p 0); [done|]. apply wp_bind, wp_ret, wp_bind, wp_modify. rewrite <- Hhb.
  apply wp_bind, wp_hpet_cap; [done|]. intros d1. cbv zeta.
  destruct (Z.ltb_spec (Z.land (Z.shiftr cap 8) 0x1F + 1) 2); [lia|].
  apply wp_bind, wp_bind, wp_hpet_cap; [done|]. intros d2. destruct (Z.eqb_spec (Z.shiftr cap 32) 0); [done|]. apply wp_ret.
  apply wp_bind, wp_hpet_cap; [done|]. intros d3. apply wp_bind, wp_modify.
  apply wp_bind, wp_bind, wp_gets. unfold mmio_write64. simpl hpet_base. rewrite (w64_small (hb + HPET_REG_COUNTER)) by (unfold HPET_REG_COUNTER; lia).
  apply wp_on_device, wp_io_out. apply wp_bind, wp_bind, wp_gets. unfold mmio_read64. simpl hpet_base.
  rewrite (w64_small (hb + HPET_REG_CONF)) by (unfold HPET_REG_CONF; lia). change (w64 0) with 0.
  apply wp_on_device, wp_io_in; [lia|]. intros c d4 Hin _. apply wp_bind, wp_gets. unfold mmio_write64. simpl hpet_base.
  rewrite (w64_small (hb + HPET_REG_CONF)) by (unfold HPET_REG_CONF; lia). apply wp_on_device, wp_io_out. simpl in *.
  match goal with |- Q tt (with_dev ?d _) => specialize (HQ d) end.
  match type of HQ with (?x ≤ _ → _) => assert (x ≤ jump) as Hc end.
  - match goal with |- cnt (dev_out _ _ _ ?w _) ≤ _ => pose proof (ha_conf _ Hha (dev_out Mmio (hb + HPET_REG_COUNTER) 8 0 d3) w) as Hc end.
    rewrite Hin, (ha_reset _ Hha) in Hc. exact Hc.
  - exact (HQ Hc).
Qed.
End hpet.

(** The first run of [lapic_init], on the boot processor. *)
Lemma wp_lapic_init_first isr s (Q : unit → cpu D → Prop) :
  next_vector (irqs s) = 0x81 → timer_vector s = 0 → goto_vector s = 0 →
  (∀ g d, Q tt (set_vectors 0x82 0x81 (set_irqs (Intr g 0x83 (acpi_vars (irqs s)) d) s))) →
  wp (lapic_init hhdm isr) s Q.
Proof.
  intros Hn Ht Hg HQ. destruct s as [[gi n v d] t g hb' hp sl tl gl n' cl]. simpl in Hn, Ht, Hg. subst n t g.
  set (c := Cpu (Intr (upd gi 0x82 (make_gate isr IDT_INT_GATE_FLAGS)) 0x83 v d) 0x82 0x81 hb' hp sl tl gl n' cl).
  change (wp (lapic_write hhdm LAPIC_LDR 0x01000000 ;; lapic_write hhdm LAPIC_SVR (Z.lor (Z.shiftl 1 8) 0xFF)) c Q).
  set (I := λ x : cpu D, ∃ d', x = with_dev d' c).
  assert (∀ r w, completes I (lapic_write hhdm r w)) as Hw.
  { intros r w. unfold lapic_write, lapic_base. apply completes_bind; [eauto with completes|]. intros b.
    apply completes_on_device; [|eauto with completes]. intros d2 x [d1 ->]. by exists d2. }
  eapply wp_mono; [apply (completes_bind I _ _ (Hw _ _) (λ _, Hw _ _) c); by exists d|].
  intros [] x [d' ->]. exact (HQ (upd gi 0x82 (make_gate isr IDT_INT_GATE_FLAGS)) d').
Qed.

(** ** Sleeping *)

Lemma wp_hpet_counter s (Q : Z → cpu D → Prop) :
  wired s →
  (∀ d, ticked (dev s) (lreg (dev s)) d → cnt (dev s) < cnt d ≤ cnt (dev s) + jump →
     Q (cnt (dev s) mod 2 ^ 64) (with_dev d s)) →
  wp (hpet_read HPET_REG_COUNTER) s Q.
Proof.
  intros Hw HQ. apply wp_bind, wp_gets. rewrite (wi_hpet _ Hw).
  destruct (tm_hpet _ _ _ _ _ _ Htm) as [Hhb Hhb']. unfold mmio_read64.
  rewrite w64_addr by (unfold HPET_REG_COUNTER; lia).
  apply wp_on_device, wp_io_in; [lia|]. intros v d Hin _.
  destruct (tm_counter _ _ _ _ _ _ Htm _ _ _ Hin) as (Hid & Hreg & Hc & ->).
  apply HQ; [split; [exact Hid|exact Hreg|lia]|exact Hc].
Qed.

(** The loop ends: every reading of the counter is past the previous one. *)
Lemma wp_sleep_loop fuel goal s (Q : unit → cpu D → Prop) :
  wired s → 0 ≤ jump → goal + jump < 2 ^ 64 → cnt (dev s) ≤ goal + jump →
  goal - cnt (dev s) < Z.of_nat fuel → (0 < fuel)%nat →
  (∀ d, ticked (dev s) (lreg (dev s)) d → goal ≤ cnt d ≤ goal + 2 * jump → Q tt (with_dev d s)) →
  wp (sleep_loop fuel goal) s Q.
Proof.
  intros Hw Hj Hgoal. revert s Hw. induction fuel as [|fuel IH]; intros s Hw Hc Hf Hf0 HQ; [lia|].
  pose proof (tm_cnt _ _ _ _ _ _ Htm (dev s)) as Hc0.
  apply wp_bind, wp_hpet_counter; [done|]. intros d Ht Hd. rewrite Z.mod_small by lia.
  destruct (Z.ltb_spec (cnt (dev s)) goal).
  - apply IH; [by apply wired_dev|simpl; lia|simpl; lia|lia|]. intros d' Ht' Hd'. rewrite with_dev_dev.
    apply HQ; [|done]. by apply (ticked_trans _ d).
  - apply wp_ret, HQ; [done|lia].
Qed.

Definition ticks_per_ms (s : cpu D) : Z := 1000000000000 / hpet_period s.

Lemma wp_hpet_sleep fuel ms s (Q : unit → cpu D → Prop) :
  let ticks := ms * ticks_per_ms s in
  wired s → sleep_lock s = 0 → 0 < hpet_period s → 0 ≤ ms → 0 ≤ jump →
  cnt (dev s) + ticks + 2 * jump < 2 ^ 64 → ticks + 1 < Z.of_nat fuel →
  (∀ d, ticked (dev s) (lreg (dev s)) d → cnt (dev s) + ticks ≤ cnt d ≤ cnt (dev s) + ticks + 2 * jump →
     Q tt (with_dev d s)) →
  wp (hpet_sleep fuel ms) s Q.
Proof.
  intros ticks Hw Hl Hp Hms Hj Hc Hf HQ. pose proof (tm_cnt _ _ _ _ _ _ Htm (dev s)) as Hc0.
  assert (0 ≤ ticks) as Ht0 by (apply Z.mul_nonneg_nonneg; [lia|apply Z.div_pos; lia]).
  apply wp_bind, wp_zoom. rewrite Hl. apply mutex_acquire_free; [lia|]. apply wp_bind.
  apply wp_hpet_counter; [by destruct Hw|]. intros d Ht Hd. simpl in Hd.
  apply wp_bind, wp_gets, wp_bind, wp_guard; [simpl; destruct (Z.eqb_spec (hpet_period s) 0); [lia|done]|].
  simpl. fold (ticks_per_ms s). fold ticks. unfold w64. rewrite (Z.mod_small ticks), (Z.mod_small (cnt _)), Z.mod_small by lia.
  apply wp_bind, wp_sleep_loop; [by destruct Hw|lia|simpl; lia..|].
  intros d' Ht' Hd'. simpl in Ht'. eapply wp_zoom, wp_intro; [done|]. rewrite with_dev_dev.
  replace (set_sleep_lock 0 (with_dev d' (set_sleep_lock 1 s))) with (with_dev d' s)
    by (destruct s; simpl in Hl; by subst).
  apply HQ; [|lia]. by apply (ticked_trans _ d).
Qed.

(** ** Arming the timer *)

(** A register write on the way: the rest of the code runs with the register
    set. *)
Lemma wp_lapic_write_then r v s (k : K unit) (Q : unit → cpu D → Prop) :
  wired s → 0 ≤ r < 0x400 → r ≠ LAPIC_ID →
  (∀ d, ticked (dev s) (upd (lreg (dev s)) r (w32 v)) d → cnt d ≤ cnt (dev s) + jump → wp k (with_dev d s) Q) →
  wp (lapic_write hhdm r v ;; k) s Q.
Proof. intros Hw Hr Hne HQ. by apply wp_bind, wp_lapic_write. Qed.

Lemma core_here_set s i c : lapic_id c = lapic_id (corelist s i) → core_here (set_core i c s) = core_here s.
Proof.
  intros Hc. unfold core_here. f_equal. apply list_filter_iff. intros j. simpl. unfold upd.
  destruct (Z.eqb_spec j i) as [->|]; [by rewrite Hc|done].
Qed.

Lemma core_here_dev d s : id d = id (dev s) → core_here (with_dev d s) = core_here s.
Proof. intros Hd. unfold core_here. f_equal. apply list_filter_iff. intros j. simpl. by rewrite Hd. Qed.

(** What calibration leaves: a frequency measured from some counter reading
    [now], and a timer that counts down from 2^16 with its interrupt masked. *)
Lemma wp_lapic_timer_calibrate fuel s i (Q : unit → cpu D → Prop) :
  wired s → this_core_lock s = 0 → sleep_lock s = 0 → core_here s = Some i →
  0 < hpet_period s → 0 ≤ jump →
  cnt (dev s) + 10 * ticks_per_ms s + 5 * jump < 2 ^ 64 → 10 * ticks_per_ms s + 1 < Z.of_nat fuel →
  (∀ d now, 0 ≤ now < 2 ^ 32 → id d = id (dev s) →
     (∀ r, lreg d r = upd (upd (upd (lreg (dev s)) LAPIC_TDCR 3) LAPIC_TIMER 0x100FF) LAPIC_TICR 0x10000 r) →
     Q tt (with_dev d (set_core i (with_freq ((0xFFFFFFFF - now) / 10) (corelist s i)) s))) →
  wp (lapic_timer_calibrate hhdm fuel) s Q.
Proof.
  intros Hw Hl Hsl Hi Hp Hj Hc Hf HQ. unfold lapic_timer_calibrate.
  assert (0 ≤ ticks_per_ms s) as Htp by (apply Z.div_pos; lia).
  apply wp_lapic_write_then; [done|unfold LAPIC_TDCR; lia|done|]. intros d1 [Hi1 Hr1 _] Hc1.
  apply wp_lapic_write_then; [by apply wired_dev|unfold LAPIC_TIMER; lia|done|]. intros d2 [Hi2 Hr2 _] Hc2.
  apply wp_lapic_write_then; [by do 2 apply wired_dev|unfold LAPIC_TICR; lia|done|]. intros d3 [Hi3 Hr3 _] Hc3.
  rewrite !with_dev_dev in *. simpl in *.
  apply wp_bind, wp_hpet_sleep; try done; change (ticks_per_ms (with_dev d3 s)) with (ticks_per_ms s); [by destruct Hw|simpl; lia..|]. intros d4 [Hi4 Hr4 _] _.
  apply wp_bind, wp_lapic_read; [by destruct Hw|unfold LAPIC_TCCR; lia|]. intros now d5 [Hi5 Hr5 _] _ Hnow _.
  rewrite !with_dev_dev in *. simpl in *.
  apply wp_some_core with i; [by destruct Hw|done|done|lia|rewrite core_here_dev; [done|simpl in *; congruence]|].
  intros d6 [Hi6 Hr6 _]. rewrite !with_dev_dev. simpl in *. apply wp_bind, wp_modify. simpl.
  apply wp_lapic_write_then; [by destruct Hw|unfold LAPIC_TICR; lia|done|]. intros d7 [Hi7 Hr7 _] _.
  apply wp_lapic_write; [by destruct Hw|unfold LAPIC_TICR; lia|done|]. intros d8 [Hi8 Hr8 _] _. simpl in *.
  change (set_core i _ (with_dev d6 s)) with
    (with_dev d6 (set_core i (with_freq (w32 (0xFFFFFFFF - now) / 10) (corelist s i)) s)).
  rewrite !with_dev_dev. rewrite w32_small by lia. apply (HQ d8 now); [done|congruence|].
  intros r. rewrite Hr8. unfold upd. rewrite Hr7. unfold upd. rewrite Hr6, Hr5, Hr4, Hr3. unfold upd.
  rewrite Hr2. unfold upd. rewrite Hr1. unfold upd. by destruct (r =? LAPIC_TICR).
Qed.

(** The timer counts down from the frequency times [ms], modulo 2^32, and then
    raises the timer vector once. *)
Lemma wp_lapic_timer_oneshot fuel ms s i (Q : unit → cpu D → Prop) :
  wired s → 0 ≤ jump → this_core_lock s = 0 → core_here s = Some i → (0 < fuel)%nat → 0 ≤ timer_vector s < 256 →
  (∀ d, id d = id (dev s) →
     (∀ r, lreg d r = upd (upd (upd (lreg (dev s)) LAPIC_TIMER (timer_vector s)) LAPIC_TDCR 3) LAPIC_TICR
                          (w32 (w64 (lapic_freq (corelist s i) * ms))) r) →
     Q tt (with_dev d s)) →
  wp (lapic_timer_oneshot hhdm fuel ms) s Q.
Proof.
  intros Hw Hj Hl Hi Hf Hv HQ. unfold lapic_timer_oneshot.
  apply wp_lapic_write_then; [done|unfold LAPIC_TICR; lia|done|]. intros d1 [Hi1 Hr1 _] _.
  apply wp_lapic_write_then; [by apply wired_dev|unfold LAPIC_TIMER; lia|done|]. intros d2 [Hi2 Hr2 _] _.
  apply wp_bind, wp_gets. rewrite !with_dev_dev in *. simpl in *.
  apply wp_lapic_write_then; [by apply wired_dev|unfold LAPIC_TIMER; lia|done|]. intros d3 [Hi3 Hr3 _] _.
  apply wp_lapic_write_then; [by do 2 apply wired_dev|unfold LAPIC_TDCR; lia|done|]. intros d4 [Hi4 Hr4 _] _.
  rewrite !with_dev_dev in *. simpl in *.
  apply wp_some_core with i; [by apply wired_dev|done|done|lia|rewrite core_here_dev; [done|simpl in *; congruence]|].
  intros d5 [Hi5 Hr5 _]. rewrite !with_dev_dev. simpl in *. apply wp_bind, wp_gets.
  apply wp_lapic_write; [by apply wired_dev|unfold LAPIC_TICR; lia|done|]. intros d6 [Hi6 Hr6 _] _. simpl in *.
  rewrite with_dev_dev. apply HQ; [congruence|]. intros r. rewrite Hr6. unfold upd. rewrite Hr5, Hr4. unfold upd.
  rewrite Hr3. unfold upd. rewrite Hr2. unfold upd. rewrite Hr1. unfold upd. rewrite (w32_small (timer_vector s)) by lia.
  by repeat case_match.
Qed.

(** ** Core flags *)

Lemma wp_on_core_lock_acquire fuel i s (Q : unit → cpu D → Prop) :
  core_lock (corelist s i) = 0 → (0 < fuel)%nat → Q tt (set_core i (with_lock 1 (corelist s i)) s) →
  wp (on_core_lock i (mutex_acquire fuel)) s Q.
Proof. intros Hl Hf HQ. apply wp_zoom. rewrite Hl. by apply mutex_acquire_free. Qed.

(** The executing core is number [i], and its locks are free. *)
Record at_core (s : cpu D) (i : Z) : Prop := {
  at_wired : wired s;
  at_lock : this_core_lock s = 0;
  at_here : core_here s = Some i;
  at_core_lock : core_lock (corelist s i) = 0;
}.

(** A change of flags under the core's lock. *)
Lemma wp_change_flags fuel s i (f : Z → Z) (Q : unit → cpu D → Prop) :
  at_core s i → 0 ≤ jump → (0 < fuel)%nat →
  (∀ s', at_core s' i →
     (∀ j, corelist s' j = if j =? i then with_flags (f (flags (corelist s i))) (corelist s i) else corelist s j) →
     Q tt s') →
  wp (r ← this_core hhdm fuel;
      i ← some_core r;
      on_core_lock i (mutex_acquire fuel) ;;
      modify (λ s, set_core i (with_flags (f (flags (corelist s i))) (corelist s i)) s) ;;
      on_core_lock i mutex_release) s Q.
Proof.
  intros [Hw Hl Hi Hc] Hj Hf HQ. apply wp_some_core with i; [done..|]. intros d Ht.
  apply wp_bind, wp_on_core_lock_acquire; [done..|]. apply wp_bind, wp_modify. apply wp_zoom.
  eapply wp_intro; [done|]. apply HQ.
  - split; [by destruct Hw|done| |]; simpl; unfold upd; rewrite ?Z.eqb_refl; [|done].
    rewrite !core_here_set by (simpl; unfold upd; by rewrite ?Z.eqb_refl).
    rewrite core_here_dev; [done|apply Ht].
  - intros j. simpl. unfold upd. rewrite !Z.eqb_refl. simpl. destruct (Z.eqb_spec j i) as [->|]; [|done].
    rewrite <- Hc. by destruct (corelist s i).
Qed.

(** Between [irq_enter] and [irq_exit] the executing core is marked as
    serving an interrupt, a critical section inside it neither sees nor touches
    that mark, and afterwards every core is as it was. *)
Theorem irq_flags_nest fuel s i (x := flags (corelist s i)) :
  at_core s i → 0 ≤ jump → (0 < fuel)%nat → 0 ≤ x < 2 ^ 16 → Z.land x P_IRQ = 0 → Z.land x P_EXEC_CRITICAL = 0 →
  wp (irq_enter hhdm fuel) s (λ _ s1, flags (corelist s1 i) = Z.lor x P_IRQ ∧
    wp (critical_enter hhdm fuel ;; critical_exit hhdm fuel) s1 (λ _ s2,
      (∀ j, corelist s2 j = corelist s1 j) ∧
      wp (irq_exit hhdm fuel) s2 (λ _ s3, ∀ j, corelist s3 j = corelist s j))).
Proof.
  intros Hat Hj Hf Hx Hirq Hcrit.
  assert (∀ y, 0 ≤ y < 4 → 0 ≤ Z.lor x y < 2 ^ 16) as Hbound.
  { intros y Hy. apply (lor_bound 16); lia. }
  apply (wp_change_flags fuel s i (λ g, Z.lor g P_IRQ)); [done..|]. intros s1 Hat1 H1.
  pose proof (H1 i) as H1i. rewrite Z.eqb_refl in H1i. rewrite H1i. split; [done|].
  apply wp_bind, (wp_change_flags fuel s1 i (λ g, Z.lor g P_EXEC_CRITICAL)); [done..|]. intros s2 Hat2 H2.
  apply (wp_change_flags fuel s2 i (λ g, w16 (Z.land g (Z.lnot P_EXEC_CRITICAL)))); [done..|]. intros s3 Hat3 H3.
  assert (∀ j, corelist s3 j = corelist s1 j) as H31.
  { intros j. rewrite H3, (H2 i), Z.eqb_refl. destruct (Z.eqb_spec j i) as [->|Hne].
    - rewrite H1i. simpl. fold x. rewrite lor_lnot by (rewrite Z.land_lor_distr_l; by rewrite Hcrit).
      unfold w16. by rewrite Z.mod_small by (apply Hbound; unfold P_IRQ; lia).
    - rewrite H2. by destruct (Z.eqb_spec j i). }
  split; [done|].
  apply (wp_change_flags fuel s3 i (λ g, w16 (Z.land g (Z.lnot P_IRQ)))); [done..|]. intros s4 _ H4 j.
  rewrite H4, !H31, H1i, H1. simpl. rewrite lor_lnot by done. fold x.
  destruct (Z.eqb_spec j i) as [->|]; [|done]. unfold w16. rewrite Z.mod_small by done.
  by destruct (corelist s i).
Qed.

(** [hpet_sleep] returns after the time it was asked for: at least [ms]
    milliseconds less one counter period have passed on the HPET, and at most
    the counter's progress between two readings too many. *)
Theorem hpet_sleep_waits fuel ms s :
  wired s → sleep_lock s = 0 → 0 < hpet_period s → 0 ≤ ms → 0 ≤ jump →
  cnt (dev s) + ms * ticks_per_ms s + 2 * jump < 2 ^ 64 → ms * ticks_per_ms s + 1 < Z.of_nat fuel →
  wp (hpet_sleep fuel ms) s (λ _ s', ∃ d, s' = with_dev d s ∧ id d = id (dev s) ∧
    (∀ r, lreg d r = lreg (dev s) r) ∧
    ms * (10 ^ 12 - hpet_period s) ≤ (cnt d - cnt (dev s)) * hpet_period s ≤
      ms * 10 ^ 12 + 2 * jump * hpet_period s).
Proof.
  intros Hw Hl Hp Hms Hj Hc Hf. apply wp_hpet_sleep; try done. intros d [Hid Hr _] Hd.
  exists d. split_and!; [done..| |]; unfold ticks_per_ms in *; change (10 ^ 12) with 1000000000000;
    pose proof (Z.div_mod 1000000000000 (hpet_period s)) as Hdm;
    pose proof (Z.mod_pos_bound 1000000000000 (hpet_period s)) as Hmod;
    set (q := 1000000000000 / hpet_period s) in *; nia.
Qed.
End timers.

(** ** Witnesses: a machine with a counter that advances by one *)

Record clock := Clock { k_id : Z; k_reg : Z → Z; k_cnt : N }.

Definition clock_lapic : Z := 0xFFFF8000FEE00000.
Definition clock_hpet : Z := 0xFFFF8000FED00000.

#[export] Program Instance clock_device : Device clock := {|
  dev_in sp a n d :=
    if (a =? clock_hpet + HPET_REG_COUNTER) && (n =? 8)
    then (Z.of_N (k_cnt d) mod 2 ^ 64, Clock (k_id d) (k_reg d) (N.succ (k_cnt d)))
    else if (a =? clock_lapic + LAPIC_ID) && (n =? 4) then (k_id d mod 256 * 2 ^ 24, d) else (0, d);
  dev_out sp a n v d := Clock (k_id d) (upd (k_reg d) (a - clock_lapic) v) (k_cnt d);
|}.
Next Obligation.
  intros sp a n d Hn. simpl. assert (0 < 2 ^ (8 * n)) by (apply Z.pow_pos_nonneg; lia).
  pose proof (Z.mod_pos_bound (Z.of_N (k_cnt d)) (2 ^ 64)). pose proof (Z.mod_pos_bound (k_id d) 256).
  destruct (_ && _) eqn:E; [|clear E; destruct (_ && _) eqn:E; [|simpl; lia]];
    apply andb_prop in E as [_ ->%Z.eqb_eq]; simpl; lia.
Qed.

Lemma clock_timers : timers clock_lapic clock_hpet (λ d, k_id d mod 256) k_reg (λ d, Z.of_N (k_cnt d)) 1.
Proof.
  split; try (unfold clock_lapic, clock_hpet; lia).
  - intros d. apply Z.mod_pos_bound. lia.
  - intros d r v _ _ _. simpl. split; [done|]. split; [|lia]. intros r'. by replace (clock_lapic + r - clock_lapic) with r by lia.
  - intros d r v d' Hr. simpl. destruct (Z.eqb_spec (clock_lapic + r) (clock_hpet + HPET_REG_COUNTER)) as [E|_].
    { unfold clock_lapic, clock_hpet, HPET_REG_COUNTER in E. lia. }
    simpl. rewrite andb_true_r. destruct (Z.eqb_spec (clock_lapic + r) (clock_lapic + LAPIC_ID)); intros [= <- <-];
      split_and!; try done; try lia.
  - intros d v d' Hin. injection Hin as <- <-. split_and!; simpl; done || lia.
Qed.

Definition clock_intr : intr clock :=
  Intr no_gates 0x81 (Acpi 0 0 0 0 0xFEE00000) (Clock 3 (λ _, 0) 1000).
Definition clock_cpu : cpu clock :=
  Cpu clock_intr 0x82 0x81 clock_hpet 1000000000 0 0 0 2 (λ i, Core 0 (if i =? 0 then 1 else 3) 0 0 0 0 0 0).

Lemma clock_wired : wired 0xFFFF800000000000 clock_lapic clock_hpet clock_cpu.
Proof. by split. Qed.

Example hpet_sleep_waits_witness :
  wp (hpet_sleep 2002 2) clock_cpu (λ _ s', ∃ d, s' = with_dev d clock_cpu ∧ k_id d mod 256 = 3 ∧
    (∀ r, k_reg d r = 0) ∧
    2 * (10 ^ 12 - 1000000000) ≤ (Z.of_N (k_cnt d) - 1000) * 1000000000 ≤ 2 * 10 ^ 12 + 2 * 1 * 1000000000).
Proof.
  apply (hpet_sleep_waits 0xFFFF800000000000 clock_lapic clock_hpet _ _ _ 1 clock_timers 2002 2 clock_cpu clock_wired);
    [done|done|lia|lia|vm_compute; reflexivity|vm_compute; reflexivity].
Defined.

Example irq_flags_nest_witness :
  wp (irq_enter 0xFFFF800000000000 1) clock_cpu (λ _ s1, flags (corelist s1 1) = Z.lor 0 P_IRQ ∧
    wp (critical_enter 0xFFFF800000000000 1 ;; critical_exit 0xFFFF800000000000 1) s1 (λ _ s2,
      (∀ j, corelist s2 j = corelist s1 j) ∧
      wp (irq_exit 0xFFFF800000000000 1) s2 (λ _ s3, ∀ j, corelist s3 j = corelist clock_cpu j))).
Proof.
  apply (irq_flags_nest 0xFFFF800000000000 clock_lapic clock_hpet _ _ _ 1 clock_timers 1 clock_cpu 1); [|lia|lia|done..].
  split; [apply clock_wired|done..].
Defined.
