(* ===== verification/Process.v ===== *)
(** sys/sched/process.c: process and thread creation, and process ids. *)

From S2P Require Import Prelude CString TlsfModel TlsfInv TlsfPhys TlsfExtent TlsfHeap TlsfProps TlsfRoom.
From S2P Require Import Bitmap Pmm Heap HeapBytes Vmm Queue.

(** ** State *)

Definition NAME_MAX : Z := 255.
Definition THREAD_STARTUP : Z := 1.

(** [trapframe_t]. *)
Record trapframe := Trapframe {
  rdi : Z; rsi : Z; rbx : Z; rdx : Z; rcx : Z; rax : Z;
  r8 : Z; r9 : Z; r10 : Z; r11 : Z; r12 : Z; r13 : Z; r14 : Z; r15 : Z;
  fs : Z; gs : Z;
  trapno : Z; rip : Z; tf_cs : Z; rflags : Z; rsp : Z; ss : Z;
}.

(** [thread_t] and [process_t], without their queue entries and heads. *)
Record thread := Thread { tf : trapframe; stack_base : Z; thread_flags : Z; parent : Z }.
Record process := Process {
  pname : Z → Z; pid : Z; uid : Z; euid : Z; gid : Z;
  running_thread : Z; thread_count : Z; vaddrsp : Z;
}.
Definition sizeof_thread : Z := 216.
Definition sizeof_process : Z := 328.

(** The kernel heap and page tables, the objects at their addresses, the
    thread queues (the head [threadq_head] of a process under the process's
    address), and the two statics. *)
Record procs := Procs {
  kheap : heap;
  kvm : vmm;
  thread_at : Z → thread;
  process_at : Z → process;
  threadq : queues;
  pid_bitmap : Z;
  pid_bitmap_bytes : Z;
}.

Notation X := (ST procs).

Definition set_kheap (h : heap) (s : procs) : procs :=
  Procs h (kvm s) (thread_at s) (process_at s) (threadq s) (pid_bitmap s) (pid_bitmap_bytes s).
Definition set_kvm (v : vmm) (s : procs) : procs :=
  Procs (kheap s) v (thread_at s) (process_at s) (threadq s) (pid_bitmap s) (pid_bitmap_bytes s).
Definition set_thread (t : Z) (r : thread) (s : procs) : procs :=
  Procs (kheap s) (kvm s) (upd (thread_at s) t r) (process_at s) (threadq s) (pid_bitmap s) (pid_bitmap_bytes s).
Definition set_process (p : Z) (r : process) (s : procs) : procs :=
  Procs (kheap s) (kvm s) (thread_at s) (upd (process_at s) p r) (threadq s) (pid_bitmap s) (pid_bitmap_bytes s).
Definition set_threadq (q : queues) (s : procs) : procs :=
  Procs (kheap s) (kvm s) (thread_at s) (process_at s) q (pid_bitmap s) (pid_bitmap_bytes s).
Definition set_pid_bitmap (b n : Z) (s : procs) : procs :=
  Procs (kheap s) (kvm s) (thread_at s) (process_at s) (threadq s) b n.

Definition on_kheap {A} (c : ST heap A) : X A := zoom kheap set_kheap c.
Definition on_kvm {A} (c : ST vmm A) : X A := zoom kvm set_kvm c.

(** ** Process ids *)

(** The bytes of the bitmap at [pid_bitmap], and their assignment. *)
Definition pid_bits (s : procs) : Z → Z := λ i, word_ld8 (mem (arena (kheap s))) (pid_bitmap s + i).
Definition write_pid_byte (i v : Z) : X unit :=
  p ← gets pid_bitmap;
  guard_ (negb (p =? 0)) ;;
  on_kheap (on_arena (λ _, modify (set_mem (λ m, word_st8 m (p + i) v)))).

Definition init_pid_bitmap : X unit :=
  p ← on_kheap (kmalloc 1);
  modify (λ s, set_pid_bitmap p (pid_bitmap_bytes s) s).

Section with_shift.
Context `{ShiftSem}.

Fixpoint pid_loop (fuel : nat) (i : Z) : X Z :=
  match fuel with
  | O => no_fuel
  | S fuel =>
      bytes ← gets pid_bitmap_bytes;
      (if bytes <? i / 8 then
         p ← gets pid_bitmap;
         modify (λ s, set_pid_bitmap (pid_bitmap s) (bytes + 1) s) ;;
         p ← on_kheap (krealloc p (bytes + 1 + 2));
         modify (λ s, set_pid_bitmap p (pid_bitmap_bytes s) s) ;;
         assert_ (negb (p =? 0))
       else mret tt) ;;
      p ← gets pid_bitmap;
      guard_ (negb (p =? 0)) ;;
      bm ← gets pid_bits;
      if bitmap_test_bit bm i =? 0
      then write_pid_byte (i / 8) (bitmap_set_bit bm i (i / 8)) ;; mret (i32 i)
      else pid_loop fuel (i + 1)
  end.

Definition alloc_pid (fuel : nat) : X Z :=
  p ← gets pid_bitmap;
  (if p =? 0 then init_pid_bitmap else mret tt) ;;
  pid_loop fuel 1.

Definition free_pid (pid : Z) : X unit :=
  assert_ (0 <? pid) ;;
  bm ← gets pid_bits;
  write_pid_byte (pid / 8) (bitmap_unset_bit bm pid (pid / 8)).

(** ** Creation *)

(** A zeroed frame with the segments, the flags, the stack and the entry point
    filled in. *)
Definition entry_frame (base entry : Z) : trapframe :=
  Trapframe 0 0 0 0 0 0 0 0 0 0 0 0 0 0 0 0 0 entry 0x28 0x202 (w64 (base + (0x500 - 1))) 0x30.

Definition process_create_thread (parent entry : Z) : X Z :=
  t ← on_kheap (kmalloc sizeof_thread);
  assert_ (negb (t =? 0)) ;;
  stack ← on_kheap (kmalloc 0x500);
  let base := w64 (stack + 0x500) in
  assert_ (negb (base =? 0)) ;;
  modify (set_thread t (Thread (entry_frame base entry) base 0 parent)) ;;
  mret t.

Section with_memory.
(** The memory the name strings are read from. *)
Context {M : Type} `{ByteMem M} (km : M).

(** The first [n] bytes of the name are replaced by those at [src]. *)
Definition copy_name (old : Z → Z) (src n : Z) : Z → Z :=
  foldl (λ f i, upd f i (ld8 km (src + i))) old (seqZ 0 n).

Definition create_process (fuel : nat) (name user_id group_id entry : Z) : X Z :=
  len ← from_option mret no_fuel (strlen fuel km name);
  assert_ (len <=? NAME_MAX) ;;
  p ← on_kheap (kmalloc sizeof_process);
  assert_ (negb (p =? 0)) ;;
  modify (λ s, set_threadq (TAILQ_INIT (threadq s) p) s) ;;
  modify (λ s, let r := process_at s p in
    set_process p (Process (pname r) (pid r) (uid r) (euid r) (gid r) (running_thread r) 1 (vaddrsp r)) s) ;;
  main_thread ← process_create_thread p entry;
  modify (λ s, set_threadq (TAILQ_INSERT_TAIL (threadq s) p main_thread) s) ;;
  modify (λ s, let r := process_at s p in
    set_process p (Process (pname r) (pid r) user_id user_id group_id main_thread (thread_count r) (vaddrsp r)) s) ;;
  id ← alloc_pid fuel;
  modify (λ s, let r := process_at s p in
    set_process p (Process (pname r) id (uid r) (euid r) (gid r) (running_thread r) (thread_count r) (vaddrsp r)) s) ;;
  space ← on_kvm vmm_make_pml4;
  modify (λ s, let r := process_at s p in
    set_process p (Process (pname r) (pid r) (uid r) (euid r) (gid r) (running_thread r) (thread_count r) space) s) ;;
  len ← from_option mret no_fuel (strlen fuel km name);
  modify (λ s, let r := process_at s p in
    set_process p (Process (copy_name (pname r) name len) (pid r) (uid r) (euid r) (gid r) (running_thread r)
                           (thread_count r) (vaddrsp r)) s) ;;
  mret p.

Definition create_kernel_process (fuel : nat) (name entry : Z) : X Z := create_process fuel name 0 0 entry.
End with_memory.
End with_shift.

(** ** Process ids *)

(** The smallest id from 1 to 7 whose bit is clear, and 8 when there is none. *)
Definition first_free (bm : Z → Z) : Z := default 8 (head (filter (λ i, bit_at bm i = false) (seqZ 1 7))).

Lemma first_free_byte bm bm' : bm' 0 = bm 0 → first_free bm' = first_free bm.
Proof.
  intros E. unfold first_free. f_equal. assert (∀ i, i ∈ seqZ 1 7 → bit_at bm' i = bit_at bm i) as Hb.
  { intros i Hi%elem_of_seqZ. unfold bit_at. by rewrite (Z.div_small i), E by lia. }
  induction (seqZ 1 7) as [|i l IH]; [done|]. rewrite !filter_cons.
  rewrite (Hb i ltac:(left)). case_decide; [done|]. apply IH. intros j Hj. apply Hb. by right.
Qed.

(** The bitmap is a live payload of the heap, which has room for the requests
    [l]. *)
Record pids_ok (s : procs) (V : gmap Z Z) (l : list Z) : Prop := {
  po_room : room (kheap s) V l;
  po_bytes : 1 ≤ pid_bitmap_bytes s;
  po_live : pid_bitmap s ≠ 0 → is_Some (V !! pid_bitmap s);
}.

(** Only the heap's memory changed, and the bitmap reads [bm]. *)
Record pid_step (s : procs) (V : gmap Z Z) (l : list Z) (bm : Z → Z) (s' : procs) : Prop := {
  pp_same : s' = set_kheap (kheap s') s;
  pp_room : room (kheap s') V l;
  pp_bits k : pid_bits s' k = bm k;
}.

Section pids.
Context `{ShiftSem}.

Lemma byte_range bm i : 0 ≤ bitmap_set_bit bm i (i / 8) < 256.
Proof. unfold bitmap_set_bit. rewrite upd_eq. apply Z.mod_pos_bound. lia. Qed.

Lemma wp_write_pid_byte s V l i v (Q : unit → procs → Prop) :
  pids_ok s V l → pid_bitmap s ≠ 0 → 0 ≤ i < 24 → 0 ≤ v < 256 →
  (∀ s', pid_step s V l (upd (pid_bits s) i v) s' → Q tt s') →
  wp (write_pid_byte i v) s Q.
Proof.
  intros [Hr Hb Hl] Hp Hi Hv HQ. destruct (Hl Hp) as [sz Hq].
  destruct (owned_place _ _ _ _ (room_owns _ _ _ Hr) Hq) as (Hq8 & _ & Hsz & _).
  apply wp_bind, wp_gets, wp_bind, wp_guard; [by destruct (Z.eqb_spec (pid_bitmap s) 0)|].
  apply wp_zoom, wp_on_arena, wp_modify. apply HQ. split; [by destruct s| |].
  - exact (room_poked _ _ _ _ _ _ Hr Hq (inside_st8 (pid_bitmap s) sz (pid_bitmap s + i) (λ _, v) Hq8 ltac:(lia))).
  - intros k. unfold pid_bits. cbn [kheap set_kheap arena mem set_mem pid_bitmap].
    change (ld8 (st8 (mem (arena (kheap s))) (pid_bitmap s + i) v) (pid_bitmap s + k) =
      upd (pid_bits s) i v k). rewrite ld8_st8 by done. unfold upd.
    destruct (Z.eqb_spec (pid_bitmap s + k) (pid_bitmap s + i)), (Z.eqb_spec k i); done || lia.
Qed.

Lemma wp_pid_loop fuel s V l i (Q : Z → procs → Prop) :
  pids_ok s V l → pid_bitmap s ≠ 0 → 1 ≤ i ≤ 8 → 8 - i < Z.of_nat fuel →
  (∀ r s', r = default 8 (head (filter (λ i, bit_at (pid_bits s) i = false) (seqZ i (8 - i)))) →
     pid_step s V l (bitmap_set_bit (pid_bits s) r) s' → Q r s') →
  wp (pid_loop fuel i) s Q.
Proof.
  intros Hok Hp. revert i. induction fuel as [|fuel IH]; intros i Hi Hf HQ; [lia|].
  pose proof (po_bytes _ _ _ Hok) as Hb. assert (0 ≤ i / 8 ≤ 1) as Hdiv.
  { split; [apply Z.div_pos; lia|]. change 1 with (15 / 8). apply Z.div_le_mono; lia. }
  apply wp_bind, wp_gets. destruct (Z.ltb_spec (pid_bitmap_bytes s) (i / 8)); [lia|].
  apply wp_bind, wp_ret, wp_bind, wp_gets, wp_bind, wp_guard; [by destruct (Z.eqb_spec (pid_bitmap s) 0)|].
  apply wp_bind, wp_gets. rewrite bitmap_test_bit_spec by lia.
  assert (∀ r, i = r → default 8 (head (filter (λ i, bit_at (pid_bits s) i = false) (seqZ i (8 - i)))) = r →
    wp (write_pid_byte (i / 8) (bitmap_set_bit (pid_bits s) i (i / 8)) ;; mret (i32 i)) s Q) as Hset.
  { intros r -> Hr. apply wp_bind, (wp_write_pid_byte s V l); [done|done|lia|apply byte_range|].
    intros s' [Hs Ho Hk]. apply wp_ret. assert (i32 r = r) as -> by (unfold i32; rewrite Z.mod_small; lia).
    apply HQ; [done|]. split; [done..|]. intros k. rewrite Hk. unfold bitmap_set_bit. rewrite upd_eq. done. }
  destruct (Z.ltb_spec i 8) as [Hlt|Hge].
  - rewrite seqZ_cons in HQ, Hset by lia. replace (Z.pred (8 - i)) with (8 - Z.succ i) in HQ, Hset by lia.
    destruct (bit_at (pid_bits s) i) eqn:Hbit; simpl.
    + rewrite filter_cons_False in HQ by congruence. by apply IH; [lia..|].
    + rewrite filter_cons_True in Hset by done. by apply (Hset i).
  - assert (i = 8) as -> by lia. by apply (Hset 8).
Qed.

(** [alloc_pid] on an allocated bitmap marks and returns the smallest free
    id from 1 to 7; when all of these are taken it returns 8, each time again,
    because bit 8 always tests as clear.  No other bit and nothing else
    changes. *)
Theorem alloc_pid_correct fuel s V :
  pids_ok s V [] → pid_bitmap s ≠ 0 → (7 < fuel)%nat →
  wp (alloc_pid fuel) s (λ r s', r = first_free (pid_bits s) ∧ 1 ≤ r ≤ 8 ∧
    s' = set_kheap (kheap s') s ∧ owns (kheap s') V ∧
    ∀ j, bit_at (pid_bits s') j = (r =? j) || bit_at (pid_bits s) j).
Proof.
  intros Hok Hp Hf. apply wp_bind, wp_gets. destruct (Z.eqb_spec (pid_bitmap s) 0); [done|].
  apply wp_bind, wp_ret, (wp_pid_loop _ s V []); [done|done|lia|lia|]. intros r s' Hr [Hs Ho%room_owns Hk].
  split; [done|]. split.
  - rewrite Hr. destruct (head _) as [i|] eqn:Hh; simpl; [|lia].
    apply head_Some_elem_of, list_elem_of_filter in Hh as [_ Hi%elem_of_seqZ]. lia.
  - split; [done|]. split; [done|]. intros j. rewrite <- bit_at_set. unfold bit_at. by rewrite Hk.
Qed.

(** The requests of [alloc_pid], before [l]. *)
Definition pid_requests (s : procs) (l : list Z) : list Z := if pid_bitmap s =? 0 then 1 :: l else l.

(** Also the first time, when the bitmap is allocated on the way. *)
Lemma wp_alloc_pid fuel s V l (Q : Z → procs → Prop) :
  pids_ok s V (pid_requests s l) → (7 < fuel)%nat →
  (∀ r s' V', 1 ≤ r ≤ 8 → (pid_bitmap s ≠ 0 → r = first_free (pid_bits s)) → V ⊆ V' → pids_ok s' V' l →
     s' = set_pid_bitmap (pid_bitmap s') (pid_bitmap_bytes s) (set_kheap (kheap s') s) → pid_bitmap s' ≠ 0 →
     bit_at (pid_bits s') r = true → Q r s') →
  wp (alloc_pid fuel) s Q.
Proof.
  intros Hok Hf HQ. unfold pid_requests in Hok.
  assert (∀ s1 V1, V ⊆ V1 → pids_ok s1 V1 l → pid_bitmap s1 ≠ 0 →
    s1 = set_pid_bitmap (pid_bitmap s1) (pid_bitmap_bytes s) (set_kheap (kheap s1) s) →
    (pid_bitmap s ≠ 0 → s1 = s) → wp (pid_loop fuel 1) s1 Q) as Hloop.
  { intros s1 V1 HV Hok1 Hp1 Hs1 Hsame. apply (wp_pid_loop _ _ V1 l); [done|done|lia|lia|].
    intros r s2 Hr [Hs2 Ho2 Hk]. apply (HQ r s2 V1).
    - rewrite Hr. destruct (head _) as [i|] eqn:Hh; simpl; [|lia].
      apply head_Some_elem_of, list_elem_of_filter in Hh as [_ Hi%elem_of_seqZ]. lia.
    - intros Hp. by rewrite (Hsame Hp) in Hr.
    - done.
    - rewrite Hs2. destruct Hok1 as [? ? ?]. by split.
    - rewrite Hs2, Hs1. simpl. by rewrite Hs1.
    - by rewrite Hs2.
    - transitivity (bit_at (bitmap_set_bit (pid_bits s1) r) r); [unfold bit_at; by rewrite Hk|].
      by rewrite bit_at_set, Z.eqb_refl. }
  apply wp_bind, wp_gets. destruct (Z.eqb_spec (pid_bitmap s) 0) as [E|E].
  - destruct Hok as [Hr Hb Hl]. apply wp_bind, wp_bind, wp_zoom. eapply wp_kmalloc_room; [exact Hr|].
    intros p sz h _ Hp Hfresh _ Hr'. apply wp_modify.
    apply (Hloop _ (<[p:=sz]> V)); [by apply insert_subseteq| |simpl; lia|done|done].
    split; [done|done|]. simpl. intros _. rewrite lookup_insert_eq. by eexists.
  - apply wp_bind, wp_ret. apply (Hloop s V); [done|done|done| |done]. by destruct s.
Qed.
End pids.

(** Later allocations keep the ids handed out so far. *)
Lemma first_free_keeps s V s' :
  owns (kheap s) V → is_Some (V !! pid_bitmap s) → keeps V (kheap s) (kheap s') → pid_bitmap s' = pid_bitmap s →
  first_free (pid_bits s') = first_free (pid_bits s).
Proof.
  intros Ho [sz Hq] Hk Hp. apply first_free_byte. unfold pid_bits, word_ld8. rewrite Hp. f_equal. f_equal.
  destruct (owned_place _ _ _ _ Ho Hq) as (_ & _ & Hsz & _). apply (Hk _ _ _ Hq).
  apply (payload_base (kheap s) V); [done|done|lia].
Qed.

(** ** The queue of a new process *)

Lemma queue_of_new q p t :
  t ≠ 0 → queue_of (TAILQ_INSERT_TAIL (TAILQ_INIT q p) p t) p [t] ∧
  ∀ h l, queue_of q h l → h ≠ p → t ∉ l → queue_of (TAILQ_INSERT_TAIL (TAILQ_INIT q p) p t) h l.
Proof.
  intros Ht. assert (Queue.last (TAILQ_INIT q p) p = FirstOf p) as Hlast by apply upd_eq.
  assert (Queue.last (TAILQ_INIT q p) p ≠ NextOf t) as Hend by by rewrite Hlast.
  split.
  - apply (queue_insert_tail _ p t Hend []); [apply queue_init|done|apply not_elem_of_nil].
  - intros h l Hq Hne Htl. apply (queue_insert_tail_other _ p t); [|done|done| |].
    + eapply queue_of_frame; [exact Hq|by apply upd_ne|by apply upd_ne|done].
    + intros y _. by rewrite Hlast.
    + intros h'. rewrite Hlast. by intros [= ->].
Qed.

(** ** Creation *)

Lemma wp_process_create_thread s V par entry rest (Q : Z → procs → Prop) :
  room (kheap s) V (sizeof_thread :: 0x500 :: rest) →
  (∀ t stack tsz ssz h, t ≠ 0 → V !! t = None → sizeof_thread ≤ tsz →
     <[t:=tsz]> V !! stack = None → 0x500 ≤ ssz → room h (<[stack:=ssz]> (<[t:=tsz]> V)) rest →
     keeps V (kheap s) h →
     Q t (set_thread t (Thread (entry_frame (stack + 0x500) entry) (stack + 0x500) 0 par) (set_kheap h s))) →
  wp (process_create_thread par entry) s Q.
Proof.
  intros Hr HQ. apply wp_bind, wp_zoom. eapply wp_kmalloc_room; [exact Hr|]. intros t tsz h1 Hk1 Ht Hft Htsz Hr1.
  apply wp_bind, wp_assert; [destruct (Z.eqb_spec t 0); [lia|reflexivity]|].
  apply wp_bind, wp_zoom. eapply wp_kmalloc_room; [exact Hr1|]. intros stack ssz h2 Hk2 Hst Hfs Hssz Hr2.
  destruct (owned_place _ _ stack ssz (room_owns _ _ _ Hr2) (lookup_insert_eq _ _ _)) as (_ & Hs0 & _ & Hend).
  assert (w64 (stack + 0x500) = stack + 0x500) as -> by (apply Z.mod_small; lia).
  apply wp_bind, wp_assert; [destruct (Z.eqb_spec (stack + 0x500) 0); [lia|reflexivity]|].
  apply wp_bind, wp_modify, wp_ret. apply (HQ t stack tsz ssz h2); try assumption; [lia|].
  eapply (keeps_trans V); [|exact Hk1|exact Hk2]. by apply insert_subseteq.
Qed.

Section create.
Context `{ShiftSem} {M : Type} `{ByteMem M} (km : M).

Lemma copy_name_lookup old src n k : 0 ≤ n →
  copy_name km old src n k = if (0 <=? k) && (k <? n) then ld8 km (src + k) else old k.
Proof.
  intros Hn. revert n Hn. apply (natlike_ind (λ n, copy_name km old src n k = _)).
  - unfold copy_name. simpl. by destruct (Z.leb_spec 0 k), (Z.ltb_spec k 0); try lia.
  - intros n Hn IH. rewrite <- Z.add_1_r. unfold copy_name in *. rewrite seqZ_succ, foldl_app by done. simpl. unfold upd at 1.
    rewrite IH. destruct (Z.eqb_spec k n) as [E|E];
      destruct (Z.leb_spec 0 k), (Z.ltb_spec k n), (Z.ltb_spec k (n + 1)); simpl; try lia; try done. by subst k.
Qed.

(** The second half of [create_process]: the id, the address space and the
    name; [R] says what is known of the new address space. *)
Lemma wp_identify fuel name nm p s V rest (R : Z → vmm → Prop) (r0 := process_at s p) (Q : Z → procs → Prop) :
  is_cstr km name nm → (length nm < fuel)%nat → (7 < fuel)%nat → pids_ok s V (pid_requests s rest) →
  wp vmm_make_pml4 (kvm s) R →
  (∀ r s' V' space, R space (kvm s') → 1 ≤ r ≤ 8 → (pid_bitmap s ≠ 0 → r = first_free (pid_bits s)) → V ⊆ V' → pids_ok s' V' rest →
     bit_at (pid_bits s') r = true → thread_at s' = thread_at s → threadq s' = threadq s →
     (∀ q, process_at s' q = if q =? p then
        Process (copy_name km (pname r0) name (zlen nm)) r (uid r0) (euid r0) (gid r0) (running_thread r0)
                (thread_count r0) space
      else process_at s q) → Q p s') →
  wp (id ← alloc_pid fuel;
      modify (λ s, let r := process_at s p in
        set_process p (Process (pname r) id (uid r) (euid r) (gid r) (running_thread r) (thread_count r) (vaddrsp r)) s) ;;
      space ← on_kvm vmm_make_pml4;
      modify (λ s, let r := process_at s p in
        set_process p (Process (pname r) (pid r) (uid r) (euid r) (gid r) (running_thread r) (thread_count r) space) s) ;;
      len ← from_option mret no_fuel (strlen fuel km name);
      modify (λ s, let r := process_at s p in
        set_process p (Process (copy_name km (pname r) name len) (pid r) (uid r) (euid r) (gid r) (running_thread r)
                               (thread_count r) (vaddrsp r)) s) ;;
      mret p) s Q.
Proof.
  intros Hname Hf Hf7 Hok Hready HQ.
  apply wp_bind, (wp_alloc_pid _ _ V rest); [exact Hok|exact Hf7|].
  intros r s3 V3 Hr Hfree HV3 Hok3 Hs3 _ Hbit. clear Hok.
  assert (kvm s3 = kvm s ∧ process_at s3 = process_at s ∧ thread_at s3 = thread_at s ∧ threadq s3 = threadq s)
    as (Hkvm & Hpr & Hth & Htq) by (rewrite Hs3; done).
  clear Hs3. destruct Hok3 as [Ho3 Hb3 Hl3].
  apply wp_bind, wp_modify, wp_bind, wp_zoom.
  eapply wp_mono; [cbn [kvm set_process]; rewrite Hkvm; exact Hready|]. intros space v HR.
  rewrite (strlen_cstr fuel km name nm) by assumption.
  apply wp_bind, wp_modify, wp_bind, wp_ret, wp_bind, wp_modify, wp_ret.
  apply (HQ r _ V3 space); [exact HR|exact Hr|exact Hfree|exact HV3|split; [exact Ho3|exact Hb3|exact Hl3]|exact Hbit|exact Hth|exact Htq|].
  intros q. cbn [process_at set_process set_kvm]. destruct (Z.eqb_spec q p) as [->|Hne].
  - rewrite !upd_eq, Hpr. reflexivity.
  - rewrite !upd_ne, Hpr by exact Hne. reflexivity.
Qed.

(** A name of more than 255 bytes. *)
Lemma create_process_long_name fuel name nm user_id group_id entry s :
  is_cstr km name nm → (length nm < fuel)%nat → NAME_MAX < zlen nm →
  create_process km fuel name user_id group_id entry s = Halt.
Proof.
  intros Hname Hf Hlen. unfold create_process. rewrite (strlen_cstr fuel km name nm) at 1 by done.
  assert ((zlen nm <=? NAME_MAX) = false) as E by (apply Z.leb_gt; lia).
  unfold mbind at 1, ST_bind at 1, mbind at 1, ST_bind at 1. cbn [from_option mret ST_ret]. rewrite E. reflexivity.
Qed.

(** The requests of [create_process], before [rest]. *)
Definition process_requests (s : procs) (rest : list Z) : list Z :=
  sizeof_process :: sizeof_thread :: 0x500 :: pid_requests s rest.

Lemma wp_create_process fuel name nm user_id group_id entry s V rest (R : Z → vmm → Prop) :
  is_cstr km name nm → (length nm < fuel)%nat → (7 < fuel)%nat → pids_ok s V (process_requests s rest) →
  wp vmm_make_pml4 (kvm s) R →
  if bool_decide (zlen nm ≤ NAME_MAX) then
    wp (create_process km fuel name user_id group_id entry) s (λ p s', ∃ t stack V' r space, R space (kvm s') ∧
      p ≠ 0 ∧ t ≠ 0 ∧ V !! p = None ∧ V !! t = None ∧ V !! stack = None ∧ p ≠ t ∧ V ⊆ V' ∧ pids_ok s' V' rest ∧
      is_Some (V' !! p) ∧ is_Some (V' !! t) ∧
      queue_of (threadq s') p [t] ∧ thread_at s' t = Thread (entry_frame (stack + 0x500) entry) (stack + 0x500) 0 p ∧
      (1 ≤ r ≤ 8 ∧ (pid_bitmap s ≠ 0 → r = first_free (pid_bits s))) ∧ bit_at (pid_bits s') r = true ∧
      process_at s' p = Process (copy_name km (pname (process_at s p)) name (zlen nm)) r user_id user_id group_id
                                t 1 space ∧
      (∀ q, q ≠ p → process_at s' q = process_at s q) ∧ (∀ u, u ≠ t → thread_at s' u = thread_at s u) ∧
      (∀ q ts, queue_of (threadq s) q ts → q ≠ p → t ∉ ts → queue_of (threadq s') q ts))
  else create_process km fuel name user_id group_id entry s = Halt.
Proof.
  intros Hname Hf Hf7 [Hr0 Hb Hl] Hready. case_bool_decide as Hlen.
  2:{ apply (create_process_long_name _ _ nm); [exact Hname|exact Hf|lia]. }
  unfold create_process. rewrite (strlen_cstr fuel km name nm) at 1 by done.
  apply wp_bind, wp_ret, wp_bind, wp_assert; [by apply Z.leb_le|].
  apply wp_bind, wp_zoom. eapply wp_kmalloc_room; [exact Hr0|]. intros p psz h1 Hk1 Hp64 Hfp _ Hr1.
  assert (p ≠ 0) as Hp by lia.
  apply wp_bind, wp_assert; [destruct (Z.eqb_spec p 0); [contradiction|reflexivity]|].
  apply wp_bind, wp_modify, wp_bind, wp_modify, wp_bind.
  eapply wp_process_create_thread; [exact Hr1|].
  intros t stack tsz ssz h2 Ht Hft Htsz Hfs Hssz Hr2 Hk2.
  apply wp_bind, wp_modify, wp_bind, wp_modify.
  set (V2 := <[stack:=ssz]> (<[t:=tsz]> (<[p:=psz]> V))) in *.
  apply lookup_insert_None in Hft as [Hft Hpt]. apply lookup_insert_None in Hfs as [Hfs Hts].
  apply lookup_insert_None in Hfs as [Hfs Hps].
  assert (V ⊆ <[p:=psz]> V) as HV1 by (by apply insert_subseteq).
  assert (V ⊆ V2) as HV2.
  { etrans; [exact HV1|]. etrans; [apply (insert_subseteq _ t tsz); by rewrite lookup_insert_ne|].
    apply insert_subseteq. by rewrite !lookup_insert_ne. }
  match goal with |- wp _ ?x _ => set (s1 := x) end.
  assert (kheap s1 = h2 ∧ kvm s1 = kvm s ∧ pid_bitmap s1 = pid_bitmap s ∧ pid_bitmap_bytes s1 = pid_bitmap_bytes s ∧
    threadq s1 = TAILQ_INSERT_TAIL (TAILQ_INIT (threadq s) p) p t ∧
    thread_at s1 = upd (thread_at s) t (Thread (entry_frame (stack + 0x500) entry) (stack + 0x500) 0 p))
    as (Hh1 & Hv1 & Hpb1 & Hpbb1 & Hq1 & Ht1) by (split_and!; reflexivity).
  assert (∀ q, process_at s1 q = if q =? p then
    Process (pname (process_at s p)) (pid (process_at s p)) user_id user_id group_id t 1 (vaddrsp (process_at s p))
    else process_at s q) as Hpr1.
  { intros q. subst s1. cbn [process_at set_process set_threadq set_thread set_kheap].
    destruct (Z.eqb_spec q p) as [->|Hne]; [rewrite !upd_eq; reflexivity|rewrite !upd_ne by exact Hne; reflexivity]. }
  clearbody s1. pose proof (Hpr1 p) as Hp1. rewrite Z.eqb_refl in Hp1.
  apply (wp_identify fuel name nm p s1 V2 rest R); [exact Hname|exact Hf|exact Hf7| | |].
  - unfold pid_requests. split; rewrite ?Hh1, ?Hpb1, ?Hpbb1; [exact Hr2|exact Hb|]. intros Hpid. destruct (Hl Hpid) as [sz Hsz].
    exists sz. by eapply lookup_weaken.
  - rewrite Hv1. exact Hready.
  - rewrite Hp1, Hpb1. intros r s' V3 space HR Hr Hfree HV3 Hok3 Hbit Hth Htq Hpr.
    destruct (queue_of_new (threadq s) p t Ht) as [Hq Hqs].
    exists t, stack, V3, r, space. rewrite Hth, Htq, Hq1, Ht1.
    split_and!; [exact HR|exact Hp|exact Ht|exact Hfp|exact Hft|exact Hfs|exact Hpt|by etrans|exact Hok3| | |exact Hq|apply upd_eq|
      lia|lia| |exact Hbit| | | |exact Hqs].
    + exists psz. eapply lookup_weaken; [|exact HV3]. subst V2.
      rewrite lookup_insert_ne, lookup_insert_ne by congruence. apply lookup_insert_eq.
    + exists tsz. eapply lookup_weaken; [|exact HV3]. subst V2.
      rewrite lookup_insert_ne by congruence. apply lookup_insert_eq.
    + intros Hpid. rewrite (Hfree Hpid). apply (first_free_keeps s V); [by eapply room_owns|by apply Hl| |exact Hpb1].
      rewrite Hh1. apply (keeps_trans V (<[p:=psz]> V) _ h1); [exact HV1|exact Hk1|exact Hk2].
    + rewrite Hpr, Z.eqb_refl. reflexivity.
    + intros q Hq'. rewrite Hpr, Hpr1. destruct (Z.eqb_spec q p); [contradiction|reflexivity].
    + intros u Hu. apply upd_ne. exact Hu.
Qed.


End create.

(** ** Witnesses: a fresh heap and the sample address space *)

(** The name is "idle", at address 16. *)
Definition idle_name : bmem := BMem (λ a,
  if a =? 16 then 105 else if a =? 17 then 100 else if a =? 18 then 108 else if a =? 19 then 101 else 0).
Definition sample_procs (h : heap) : procs :=
  Procs h sample_vmm (λ _, Thread (entry_frame 0 0) 0 0 0) (λ _, Process (λ _, 0) 0 0 0 0 0 0 0) no_queues 0 1.

Lemma idle_cstr : is_cstr idle_name 16 [105; 100; 108; 101].
Proof. split; [reflexivity|]. split; [|reflexivity]. by apply (bool_decide_unpack _). Qed.


Example alloc_pid_correct_witness : ∃ h V p, owns h V ∧ p ≠ 0 ∧
  wp (alloc_pid 8) (set_pid_bitmap p 1 (sample_procs h)) (λ r s', 1 ≤ r ≤ 8 ∧
    ∀ j, bit_at (pid_bits s') j = (r =? j) || bit_at (pid_bits (set_pid_bitmap p 1 (sample_procs h))) j).
Proof.
  destruct (fresh_heap [1]) as (h0 & Hr0); [vm_compute; reflexivity|].
  destruct (room_kmalloc _ _ _ _ Hr0) as (p & sz & h & _ & _ & Hp64 & _ & _ & Hr1). assert (p ≠ 0) as Hp by lia.
  exists h, (<[p:=sz]> ∅), p. split; [by eapply room_owns|]. split; [exact Hp|].
  eapply wp_mono; [apply (alloc_pid_correct 8 (set_pid_bitmap p 1 (sample_procs h)) (<[p:=sz]> ∅))|].
  - split; [exact Hr1|done|]. intros _. exists sz. apply lookup_insert_eq.
  - exact Hp.
  - lia.
  - intros r s' (_ & Hr & _ & _ & Hb). by split.
Defined.

(** ** What goes wrong *)

(** When the stack cannot be allocated the thread is created all the same, on a
    stack based at address 0x500: the assertion tests the null pointer after
    0x500 was added. *)
Example create_thread_null_stack :
  match (heap_init 4096 ;; kmalloc 114688 ;; kmalloc 512) (Heap blank 0 0) with
  | Done (_, h) =>
      match process_create_thread 1 2 (sample_procs h) with
      | Done (t, s) => stack_base (thread_at s t)
      | _ => 0
      end
  | _ => 0
  end = 0x500.
Proof. vm_compute. reflexivity. Qed.

(** The stack pointer starts 0x4FF bytes past the end of the stack. *)
Example create_thread_stack_pointer base entry :
  0 ≤ base → base + 0x4FF < 2 ^ 64 → rsp (entry_frame base entry) = base + 0x4FF.
Proof. intros. apply Z.mod_small. lia. Qed.
