(* ===== verification/Rtl8139.v ===== *)
(** dev/net/rtl8139.c: the network card driver. *)

From S2P Require Import Prelude CString Io Acpi Interrupts Mutex Cpu Pci.
From S2P Require Import TlsfModel TlsfExtent TlsfHeap TlsfProps TlsfRoom Bitmap Pmm Heap HeapBytes Vmm Frames.
From S2P Require Import Process.

(** ** Constants *)

Definition VENDOR_ID : Z := 0x10EC.
Definition DEVICE_ID : Z := 0x8139.

Definition PACKET_SIZE_MAX : Z := 0x600.
Definition PACKET_SIZE_MIN : Z := 0x16.
Definition RX_BUFFER_SIZE : Z := 32768.
Definition TX_BUFFER_SIZE : Z := PACKET_SIZE_MAX.
Definition TX_BUFFER_COUNT : Z := 4.

Definition REG_MAC : Z := 0x00.
Definition REG_MAR0 : Z := 0x08.
Definition REG_MAR4 : Z := 0x12.
Definition REG_TXSTATUS0 : Z := 0x10.
Definition REG_RXBUF : Z := 0x30.
Definition REG_COMMAND : Z := 0x37.
Definition REG_CAPR : Z := 0x38.
Definition REG_IMR : Z := 0x3C.
Definition REG_ISR : Z := 0x3E.
Definition REG_TXCFG : Z := 0x40.
Definition REG_RXCFG : Z := 0x44.
Definition REG_CFG9346 : Z := 0x50.
Definition REG_CONFIG1 : Z := 0x52.
Definition REG_MSR : Z := 0x58.
Definition REG_BMCR : Z := 0x62.

Definition CMD_TX_ENABLE : Z := 0x04.
Definition CMD_RX_ENABLE : Z := 0x08.
Definition CMD_RESET : Z := 0x10.
Definition CFG9346_NONE : Z := 0x00.
Definition CFG9346_EEM : Z := Z.lor 0x40 0x80.
Definition BMCR : Z := Z.lor (Z.lor 0x2000 0x1000) 0x0100.
Definition MSR_LINKB : Z := 0x02.
Definition MSR_SPEED_10 : Z := 0x08.
Definition MSR_RX_FLOW_CONTROL_ENABLE : Z := 0x40.

(** [RXCFG_APM | RXCFG_AM | RXCFG_AB | RXCFG_WRAP_INHIBIT |
    RXCFG_MAX_DMA_UNLIMITED | RXCFG_RBLN_32K | RXCFG_FTH_NONE] *)
Definition RXCFG : Z := Z.lor (Z.lor (Z.lor (Z.lor (Z.lor (Z.lor 0x02 0x04) 0x08) 0x80) 0x0700) 0x1000) 0xE000.
(** [TXCFG_TXRR_ZERO | TXCFG_MAX_DMA_1K | TXCFG_IFG11] *)
Definition TXCFG : Z := Z.lor (Z.lor 0x00 0x600) 0x3000000.

Definition INT_RXOK : Z := 0x01.
(** [INT_RXOK | INT_RXERR | INT_TXOK | INT_TXERR | INT_RX_BUFFER_OVERFLOW |
    INT_LINK_CHANGE | INT_RX_FIFO_OVERFLOW | INT_LENGTH_CHANGE |
    INT_SYSTEM_ERROR] *)
Definition INT_ALL : Z :=
  Z.lor (Z.lor (Z.lor (Z.lor (Z.lor (Z.lor (Z.lor (Z.lor 0x01 0x02) 0x04) 0x08) 0x10) 0x20) 0x40) 0x2000) 0x8000.

Definition TX_STATUS_OWN : Z := 0x2000.

Definition RX_OK : Z := 0x0001.
(** [RX_INVALID_SYMBOL_ERROR | RX_CRC_ERROR | RX_FRAME_ALIGNMENT_ERROR] *)
Definition RX_ERRORS : Z := Z.lor (Z.lor 0x0020 0x0004) 0x0002.

(** ** State *)

(** The kernel heap, the page tables, the cores with the devices, the PCI
    records, and the statics of the driver.  What the card writes by DMA is
    part of the heap's memory. *)
Record nic (D : Type) := Nic {
  nheap : heap;
  nvmm : vmm;
  ncpu : cpu D;
  nrecords : Z → pci_device;
  dev : Z;
  iobase : Z;
  rxbuf : Z;
  txbufs : Z → Z;
  next_txbuf : Z;
  rxbuf_offset : Z;
  packet_buf : Z;
  g_rtl8139_mac_addr : Z → Z;
}.
Arguments Nic {D} _ _ _ _ _ _ _ _ _ _ _ _.
Arguments nheap {D} _.
Arguments nvmm {D} _.
Arguments ncpu {D} _.
Arguments nrecords {D} _ _.
Arguments dev {D} _.
Arguments iobase {D} _.
Arguments rxbuf {D} _.
Arguments txbufs {D} _ _.
Arguments next_txbuf {D} _.
Arguments rxbuf_offset {D} _.
Arguments packet_buf {D} _.
Arguments g_rtl8139_mac_addr {D} _ _.

Section rtl8139.
Context {D M : Type} `{Device D} `{ByteMem M} `{ShiftSem} (m : M) (hhdm : Z).

Notation N := (ST (nic D)).

Definition set_nheap (h : heap) (s : nic D) : nic D :=
  Nic h (nvmm s) (ncpu s) (nrecords s) (dev s) (iobase s) (rxbuf s) (txbufs s) (next_txbuf s) (rxbuf_offset s) (packet_buf s)
    (g_rtl8139_mac_addr s).
Definition set_nvmm (v : vmm) (s : nic D) : nic D :=
  Nic (nheap s) v (ncpu s) (nrecords s) (dev s) (iobase s) (rxbuf s) (txbufs s) (next_txbuf s) (rxbuf_offset s) (packet_buf s)
    (g_rtl8139_mac_addr s).
Definition set_ncpu (c : cpu D) (s : nic D) : nic D :=
  Nic (nheap s) (nvmm s) c (nrecords s) (dev s) (iobase s) (rxbuf s) (txbufs s) (next_txbuf s) (rxbuf_offset s) (packet_buf s)
    (g_rtl8139_mac_addr s).
Definition set_nrecords (r : Z → pci_device) (s : nic D) : nic D :=
  Nic (nheap s) (nvmm s) (ncpu s) r (dev s) (iobase s) (rxbuf s) (txbufs s) (next_txbuf s) (rxbuf_offset s) (packet_buf s)
    (g_rtl8139_mac_addr s).
Definition set_found (d io : Z) (s : nic D) : nic D :=
  Nic (nheap s) (nvmm s) (ncpu s) (nrecords s) d io (rxbuf s) (txbufs s) (next_txbuf s) (rxbuf_offset s) (packet_buf s)
    (g_rtl8139_mac_addr s).
Definition set_rxbuf (p : Z) (s : nic D) : nic D :=
  Nic (nheap s) (nvmm s) (ncpu s) (nrecords s) (dev s) (iobase s) p (txbufs s) (next_txbuf s) (rxbuf_offset s) (packet_buf s)
    (g_rtl8139_mac_addr s).
Definition set_txbuf (i v : Z) (s : nic D) : nic D :=
  Nic (nheap s) (nvmm s) (ncpu s) (nrecords s) (dev s) (iobase s) (rxbuf s) (upd (txbufs s) i v) (next_txbuf s) (rxbuf_offset s)
    (packet_buf s) (g_rtl8139_mac_addr s).
Definition set_next_txbuf (i : Z) (s : nic D) : nic D :=
  Nic (nheap s) (nvmm s) (ncpu s) (nrecords s) (dev s) (iobase s) (rxbuf s) (txbufs s) i (rxbuf_offset s) (packet_buf s)
    (g_rtl8139_mac_addr s).
Definition set_rxbuf_offset (o : Z) (s : nic D) : nic D :=
  Nic (nheap s) (nvmm s) (ncpu s) (nrecords s) (dev s) (iobase s) (rxbuf s) (txbufs s) (next_txbuf s) o (packet_buf s)
    (g_rtl8139_mac_addr s).
Definition set_packet_buf (p : Z) (s : nic D) : nic D :=
  Nic (nheap s) (nvmm s) (ncpu s) (nrecords s) (dev s) (iobase s) (rxbuf s) (txbufs s) (next_txbuf s) (rxbuf_offset s) p
    (g_rtl8139_mac_addr s).
Definition set_mac (i b : Z) (s : nic D) : nic D :=
  Nic (nheap s) (nvmm s) (ncpu s) (nrecords s) (dev s) (iobase s) (rxbuf s) (txbufs s) (next_txbuf s) (rxbuf_offset s)
    (packet_buf s) (upd (g_rtl8139_mac_addr s) i b).

Definition on_nheap {A} (c : ST heap A) : N A := zoom nheap set_nheap c.
Definition on_nvmm {A} (c : ST vmm A) : N A := zoom nvmm set_nvmm c.
Definition on_ncpu {A} (c : ST (cpu D) A) : N A := zoom ncpu set_ncpu c.
Definition on_pci {A} (c : ST (pci heap D) A) : N A :=
  zoom (λ s, Pci (nheap s) (nrecords s) (devices (irqs (ncpu s))))
       (λ p s, let c := ncpu s in let i := irqs c in
               set_nheap (pheap p) (set_nrecords (records p)
                 (set_ncpu (set_irqs (Intr (idt i) (next_vector i) (acpi_vars i) (ports p)) c) s))) c.

(** Access to the card's register [reg]. *)
Definition reg_in {A} (inx : Z → ST D A) (reg : Z) : N A :=
  io ← gets iobase; on_ncpu (on_device (inx (w32 (io + reg)))).
Definition reg_out (outx : Z → Z → ST D unit) (reg v : Z) : N unit :=
  io ← gets iobase; on_ncpu (on_device (outx (w32 (io + reg)) v)).

(** ** Start-up *)

Definition update_mac_addr : N unit :=
  for_each (seqZ 0 6) (λ i, b ← reg_in inb (REG_MAC + i); modify (set_mac i b)).

Definition link_up : N bool :=
  b ← reg_in inb REG_MSR; mret (Z.land b MSR_LINKB =? 0).

Definition get_speed : N Z :=
  msr ← reg_in inw REG_MSR; mret (if Z.land msr MSR_SPEED_10 =? 0 then 100 else 10).

Fixpoint reset_loop (fuel : nat) : N unit :=
  match fuel with
  | O => no_fuel
  | S fuel => b ← reg_in inb REG_COMMAND; if Z.land b CMD_RESET =? 0 then mret tt else reset_loop fuel
  end.

Definition startup_nic (fuel : nat) : N unit :=
  reg_out outb REG_COMMAND CMD_RESET ;;
  reset_loop fuel ;;
  reg_out outb REG_CFG9346 CFG9346_EEM ;;
  reg_out outl REG_MAR0 0xFFFFFFFF ;;
  reg_out outl REG_MAR4 0xFFFFFFFF ;;
  reg_out outb REG_COMMAND (Z.lor CMD_RX_ENABLE CMD_TX_ENABLE) ;;
  reg_out outb REG_CONFIG1 0 ;;
  p ← on_nheap (kmalloc RX_BUFFER_SIZE);
  modify (set_rxbuf p) ;;
  phys ← on_nvmm (vmm_get_phys p);
  reg_out outl REG_RXBUF phys ;;
  reg_out outl REG_BMCR BMCR ;;
  reg_out outb REG_MSR MSR_RX_FLOW_CONTROL_ENABLE ;;
  reg_out outl REG_RXCFG RXCFG ;;
  reg_out outl REG_TXCFG TXCFG ;;
  for_each (seqZ 0 TX_BUFFER_COUNT) (λ i,
    p ← on_nheap (kmalloc TX_BUFFER_SIZE);
    phys ← on_nvmm (vmm_get_phys p);
    modify (set_txbuf i (w8 phys))) ;;
  reg_out outb REG_CFG9346 CFG9346_NONE ;;
  reg_out outw REG_IMR INT_ALL.

(** [isr] is the address of the handler below. *)
Definition rtl8139_init (fuel : nat) (isr : Z) : N unit :=
  d ← on_pci (pci_find VENDOR_ID DEVICE_ID);
  modify (λ s, set_found d (iobase s) s) ;;
  if d =? 0 then mret tt
  else
    on_pci (pci_enable_bus_mastering d) ;;
    r ← gets (λ s, nrecords s d);
    modify (set_found d (Z.land (nth 0 (bars r) 0) 0xFFFFFFFC)) ;;
    startup_nic fuel ;;
    up ← link_up;
    (if (up : bool) then get_speed ;; mret tt else mret tt) ;;
    p ← on_nheap (kmalloc PACKET_SIZE_MAX);
    modify (set_packet_buf p) ;;
    update_mac_addr ;;
    r ← gets (λ s, nrecords s d);
    on_ncpu (on_irqs (register_irq m hhdm fuel (irq_line r) isr)).

Definition init_net (fuel : nat) (isr : Z) : N unit := rtl8139_init fuel isr.

(** ** Reception *)

Definition bad_packet (status len : Z) : bool :=
  (Z.land status RX_OK =? 0) || negb (Z.land status RX_ERRORS =? 0) ||
  (PACKET_SIZE_MAX <=? len) || (len <? PACKET_SIZE_MIN).

Definition next_offset (offset len : Z) : Z := Z.rem (Z.land (offset + len + 4 + 3) (Z.lnot 3)) RX_BUFFER_SIZE.

Definition recieve : N unit :=
  b ← gets rxbuf;
  o ← gets rxbuf_offset;
  let packet := w64 (b + o) in
  guard_ (negb (b =? 0)) ;;
  status ← gets (λ s, ld_le (hmem (nheap s)) packet 2);
  len ← gets (λ s, ld_le (hmem (nheap s)) (packet + 2) 2);
  if bad_packet status len then mret tt
  else
    p ← gets packet_buf;
    guard_ (negb (p =? 0)) ;;
    on_nheap (on_arena (λ _, modify (set_mem (λ m, memcpy m p (packet + 4) (len - 4))))) ;;
    modify (set_rxbuf_offset (next_offset o len)) ;;
    reg_out outw REG_CAPR (next_offset o len - 0x10) ;;
    modify (λ s, set_rxbuf_offset (Z.rem (rxbuf_offset s) RX_BUFFER_SIZE) s).

Fixpoint isr_loop (fuel : nat) : N unit :=
  match fuel with
  | O => no_fuel
  | S fuel =>
      status ← reg_in inw REG_ISR;
      reg_out outw REG_ISR status ;;
      let stat := w8 (Z.land status INT_ALL) in
      if stat =? 0 then mret tt
      else
        (if Z.land status INT_RXOK =? 0 then mret tt else recieve) ;;
        isr_loop fuel
  end.

Definition isr (fuel : nat) : N unit :=
  isr_loop fuel ;;
  reg_out outw REG_ISR 0x5 ;;
  on_ncpu (lapic_send_eoi hhdm).

(** ** Transmission *)

Fixpoint find_txbuf (l : list Z) : N Z :=
  match l with
  | [] => mret (-1)
  | i :: l =>
      n ← gets next_txbuf;
      let candidate := w64 (n + i) mod 4 in
      status ← reg_in inl_ (REG_TXSTATUS0 + candidate * 4);
      if Z.land status TX_STATUS_OWN =? 0 then find_txbuf l else mret candidate
  end.

(** [data] is what the caller's pointer shows from its first byte on;
    [VMM_HIGHER_HALF] is the offset of the direct map. *)
Definition rtl8139_send_packet (data : bmem) (size : Z) : N unit :=
  io ← gets iobase;
  if io =? 0 then mret tt
  else
    hwbuf ← find_txbuf (seqZ 0 TX_BUFFER_COUNT);
    modify (set_next_txbuf (Z.rem (hwbuf + 1) 4)) ;;
    let size := if size <? 60 then 60 else size in
    guard_ ((0 <=? hwbuf) && (hwbuf <? TX_BUFFER_COUNT)) ;;
    phys ← gets (λ s, txbufs s hwbuf);
    let page := ALIGN_DOWN (w64 (phys + hhdm)) 0x1000 in
    guard_ (negb (page =? 0)) ;;
    on_nvmm (modify (λ v, set_word (memzero (word v) page (w64 (TX_BUFFER_SIZE - size))) v)) ;;
    on_nvmm (modify (λ v, set_word (copy_in data page size (word v)) v)) ;;
    reg_out outl (REG_TXSTATUS0 + hwbuf * 4) size.

(** ** Specification *)

(** The buffers are live allocations of the heap, and the offset is that of a
    packet in the ring. *)
Record ring_ok (s : nic D) (V : gmap Z Z) : Prop := {
  ri_owns : owns (nheap s) V;
  ri_rxbuf : ∃ sz, V !! rxbuf s = Some sz ∧ RX_BUFFER_SIZE ≤ sz;
  ri_packet : ∃ sz, V !! packet_buf s = Some sz ∧ PACKET_SIZE_MAX ≤ sz;
  ri_apart : rxbuf s ≠ packet_buf s;
  ri_offset : 0 ≤ rxbuf_offset s < RX_BUFFER_SIZE;
  ri_aligned : rxbuf_offset s mod 4 = 0;
}.

(** The header of the packet at offset [o] of the ring at [rx]. *)
Definition header_bad (rx o : Z) (mem : Z → Z) : bool := bad_packet (ld_le mem (rx + o) 2) (ld_le mem (rx + o + 2) 2).

(** Taking the packet at the offset out of the ring: an error in the header
    leaves it there. *)
Definition take_packet (rx pk : Z) (x : (Z → Z) * Z) : (Z → Z) * Z :=
  let (mem, o) := x in
  let len := ld_le mem (rx + o + 2) 2 in
  if header_bad rx o mem then x
  else (memcpy mem pk (rx + o + 4) (len - 4), 4 * ((o + len + 7) / 4) mod RX_BUFFER_SIZE).

Definition ring (s : nic D) : (Z → Z) * Z := (hmem (nheap s), rxbuf_offset s).

(** ** Lemmas *)

Definition ndev (s : nic D) : D := devices (irqs (ncpu s)).
Definition with_ndev (d : D) (s : nic D) : nic D := set_ncpu (with_dev d (ncpu s)) s.

(** The port of register [reg]. *)
Definition port_of (s : nic D) (reg : Z) : Z := w16 (w32 (iobase s + reg)).

Lemma wp_reg_outw reg v s (Q : unit → nic D → Prop) :
  Q tt (with_ndev (dev_out Port (port_of s reg) 2 (w16 v) (ndev s)) s) → wp (reg_out outw reg v) s Q.
Proof. intros HQ. exact HQ. Qed.

Lemma wp_reg_outl reg v s (Q : unit → nic D → Prop) :
  Q tt (with_ndev (dev_out Port (port_of s reg) 4 (w32 v) (ndev s)) s) → wp (reg_out outl reg v) s Q.
Proof. intros HQ. exact HQ. Qed.

Lemma wp_reg_in n inx reg s (Q : Z → nic D → Prop) :
  (∀ a, inx a = io_in Port (w16 a) n) → 0 ≤ n →
  (∀ v d, dev_in Port (port_of s reg) n (ndev s) = (v, d) → 0 ≤ v < 2 ^ (8 * n) → Q v (with_ndev d s)) →
  wp (reg_in inx reg) s Q.
Proof.
  intros Hin Hn HQ. apply wp_bind, wp_gets. rewrite Hin. apply wp_zoom, wp_zoom.
  pose proof (wp_io_in Port (port_of s reg) n (ndev s) (λ v d, Q v (with_ndev d s)) Hn HQ) as Hwp.
  unfold wp, on_dev, io_in in *. change (devices (irqs (ncpu s))) with (ndev s). unfold port_of in *.
  by destruct (dev_in Port _ n (ndev s)).
Qed.

Lemma next_offset_spec o len : 0 ≤ o → 0 ≤ len → next_offset o len = 4 * ((o + len + 7) / 4) mod RX_BUFFER_SIZE.
Proof.
  intros Ho Hl. unfold next_offset. change (Z.lnot 3) with (Z.lnot (Z.ones 2)). rewrite <- Z.ldiff_land, Z.ldiff_ones_r by lia.
  rewrite Z.shiftl_mul_pow2, Z.shiftr_div_pow2 by lia. change (2 ^ 2) with 4. replace (o + len + 4 + 3) with (o + len + 7) by lia.
  pose proof (Z.div_pos (o + len + 7) 4 ltac:(lia) ltac:(lia)).
  rewrite Z.rem_mod_nonneg by (unfold RX_BUFFER_SIZE; lia). f_equal. lia.
Qed.

Lemma next_offset_ok o len : 0 ≤ o → 0 ≤ len → 0 ≤ next_offset o len < RX_BUFFER_SIZE ∧ next_offset o len mod 4 = 0.
Proof.
  intros Ho Hl. rewrite next_offset_spec by done. unfold RX_BUFFER_SIZE. split; [apply Z.mod_pos_bound; lia|].
  replace 32768 with (4 * 8192) by lia. rewrite Z.mul_mod_distr_l by lia. apply Z.mod_divide; [lia|]. apply Z.divide_factor_l.
Qed.

Lemma ld_le_range (mem : Z → Z) a n : 0 ≤ ld_le mem a n < 2 ^ (8 * Z.of_nat n).
Proof.
  revert a. induction n as [|n IH]; intros a; cbn [ld_le]; [lia|]. pose proof (ld8_range mem a). pose proof (IH (a + 1)).
  replace (8 * Z.of_nat (S n)) with (8 + 8 * Z.of_nat n) by lia. rewrite Z.pow_add_r by lia. lia.
Qed.

Lemma bad_packet_false status len : bad_packet status len = false → 0x16 ≤ len < 0x600.
Proof.
  unfold bad_packet. rewrite !orb_false_iff. intros [[_ Hmax] Hmin].
  apply Z.leb_gt in Hmax. apply Z.ltb_ge in Hmin. split; [exact Hmin|exact Hmax].
Qed.

Lemma inside_memcpy q sz dst src n : q mod 8 = 0 → q ≤ dst → dst + n ≤ q + sz → inside q sz (λ m, memcpy m dst src n).
Proof.
  intros Hq Ha Hn. unfold memcpy. apply (inside_foldl q sz (λ m i, st8 m (dst + i) (ld8 m (src + i)))).
  intros i Hi%elem_of_seqZ. apply (inside_st8 q sz (dst + i) (λ m, ld8 m (src + i))); lia.
Qed.

(** The state after [recieve]. *)
Record received (s : nic D) (V : gmap Z Z) (s' : nic D) : Prop := {
  rc_ok : ring_ok s' V;
  rc_ring : ring s' = take_packet (rxbuf s) (packet_buf s) (ring s);
  rc_bufs : rxbuf s' = rxbuf s ∧ packet_buf s' = packet_buf s ∧ iobase s' = iobase s;
  rc_keeps : keeps (delete (packet_buf s) V) (nheap s) (nheap s');
  rc_dev : ndev s' = if header_bad (rxbuf s) (rxbuf_offset s) (hmem (nheap s)) then ndev s
                     else dev_out Port (port_of s REG_CAPR) 2 (w16 (rxbuf_offset s' - 0x10)) (ndev s);
}.

Lemma wp_recieve s V (Q : unit → nic D → Prop) :
  ring_ok s V → (∀ s', received s V s' → Q tt s') → wp recieve s Q.
Proof.
  intros [Ho (rsz & Hr & Hrs) (psz & Hp & Hps) Hne Hoff Hal] HQ. unfold RX_BUFFER_SIZE, PACKET_SIZE_MAX in *.
  destruct (owned_place _ _ _ _ Ho Hr) as (_ & Hr0 & _ & Hr64). destruct (owned_place _ _ _ _ Ho Hp) as (Hp8 & Hp0 & _).
  unfold recieve. apply wp_bind, wp_gets, wp_bind, wp_gets, wp_bind, wp_nonnull; [lia|].
  apply wp_bind, wp_gets, wp_bind, wp_gets. rewrite w64_small by lia. fold (header_bad (rxbuf s) (rxbuf_offset s) (hmem (nheap s))).
  destruct (header_bad (rxbuf s) (rxbuf_offset s) (hmem (nheap s))) eqn:Hbad.
  - apply wp_ret, HQ. split; [|unfold take_packet, ring; by rewrite Hbad|done|apply keeps_refl|by rewrite Hbad].
    split; [exact Ho|by exists rsz|by exists psz|exact Hne|exact Hoff|exact Hal].
  - pose proof (bad_packet_false _ _ Hbad) as Hlen. set (len := ld_le (hmem (nheap s)) (rxbuf s + rxbuf_offset s + 2) 2) in *.
    apply wp_bind, wp_gets, wp_bind, wp_nonnull; [lia|].
    apply wp_bind. apply (wp_intro _ _ tt (set_nheap (poked (λ m, memcpy m (packet_buf s) (rxbuf s + rxbuf_offset s + 4) (len - 4)) (nheap s)) s));
      [reflexivity|]. apply wp_bind, wp_modify, wp_bind, wp_reg_outw.
    match goal with |- wp _ ?x _ => set (s3 := x) end. apply wp_modify.
    pose proof (inside_memcpy (packet_buf s) psz (packet_buf s) (rxbuf s + rxbuf_offset s + 4) (len - 4) Hp8 ltac:(lia) ltac:(lia)) as Hin.
    destruct (next_offset_ok (rxbuf_offset s) len ltac:(lia) ltac:(lia)) as [Hn1 Hn2].
    assert (Z.rem (next_offset (rxbuf_offset s) len) RX_BUFFER_SIZE = next_offset (rxbuf_offset s) len) as Hrem by (by apply Z.rem_small).
    assert (set_rxbuf_offset (Z.rem (rxbuf_offset s3) RX_BUFFER_SIZE) s3 = s3) as ->.
    { change (rxbuf_offset s3) with (next_offset (rxbuf_offset s) len). rewrite Hrem. reflexivity. }
    subst s3. apply HQ. split.
    + split; cbn [nheap rxbuf packet_buf rxbuf_offset set_nheap set_rxbuf_offset with_ndev set_ncpu];
        [exact (owns_poked _ _ _ _ _ Ho Hp Hin)|by exists rsz|by exists psz|exact Hne|exact Hn1|exact Hn2].
    + unfold take_packet, ring. rewrite Hbad. fold len. f_equal. apply next_offset_spec; lia.
    + done.
    + exact (keeps_poked _ _ (delete (packet_buf s) V) _ _ _ Ho Hp Hin ltac:(apply delete_subseteq) ltac:(apply lookup_delete_eq)).
    + rewrite Hbad. reflexivity.
Qed.

(** ** Start-up *)

(** Documented behaviour of the command register at port [p]: after a reset is
    requested it shows the reset bit at most [patience] times in a row; [left]
    counts how often it still may. *)
Record resets (p : Z) (left : D → nat) (patience : nat) : Prop := {
  rs_write d : (left (dev_out Port p 1 CMD_RESET d) ≤ patience)%nat;
  rs_read d : let '(v, d') := dev_in Port p 1 d in Z.land v CMD_RESET = 0 ∨ (left d' < left d)%nat;
}.

(** The I/O base of the function [x], from its first base address register. *)
Definition io_of (c : Z → Z) (x : Z * Z * Z) : Z :=
  let '(bus, slot, func) := x in Z.land (cfg_bar c bus slot func 0) 0xFFFFFFFC.
Definition card_of (c : Z → Z) : option (Z * Z * Z) := matching c VENDOR_ID DEVICE_ID.

(** What the driver requests of the heap. *)
Definition net_requests (rest : list Z) : list Z :=
  sizeof_pci_device :: RX_BUFFER_SIZE :: TX_BUFFER_SIZE :: TX_BUFFER_SIZE :: TX_BUFFER_SIZE :: TX_BUFFER_SIZE ::
  PACKET_SIZE_MAX :: rest.

(** A run that allocates, uses the devices and walks the page tables: [V] and
    then [V'] is what the heap has handed out, with room for [l] and [l']. *)
Record goes (off : Z) (s : nic D) (V : gmap Z Z) (s' : nic D) (V' : gmap Z Z) (l' : list Z) : Prop := {
  go_room : room (nheap s') V' l';
  go_grow : V ⊆ V';
  go_vm : vm_ok off (nvmm s');
  go_cpu : moved (ncpu s) (ncpu s');
  go_same : iobase s' = iobase s ∧ dev s' = dev s ∧ rxbuf_offset s' = rxbuf_offset s ∧ nrecords s' = nrecords s;
}.

Section startup.
Context (off : Z) (Hpos : 0 < off) (Htop : off + 2 ^ 47 ≤ 2 ^ 64).

Lemma moved_with_dev (d : D) c : moved c (with_dev d c).
Proof. by exists (idt (irqs c)), d. Qed.

Lemma wp_reg_out_any outx reg v s (Q : unit → nic D → Prop) :
  completes (λ _, True) (outx (w32 (iobase s + reg)) v) → (∀ d, Q tt (with_ndev d s)) → wp (reg_out outx reg v) s Q.
Proof.
  intros Hc HQ. apply wp_bind, wp_gets, wp_zoom, wp_on_device. eapply wp_mono; [by apply (Hc (devices (irqs (ncpu s))))|].
  intros [] d _. apply HQ.
Qed.

Lemma wp_reg_in_any inx reg s (Q : Z → nic D → Prop) :
  completes (λ _, True) (inx (w32 (iobase s + reg))) → (∀ v d, Q v (with_ndev d s)) → wp (reg_in inx reg) s Q.
Proof.
  intros Hc HQ. apply wp_bind, wp_gets, wp_zoom, wp_on_device. eapply wp_mono; [by apply (Hc (devices (irqs (ncpu s))))|].
  intros v d _. apply HQ.
Qed.

Lemma wp_reset_loop left patience fuel s (Q : unit → nic D → Prop) :
  resets (port_of s REG_COMMAND) left patience → (left (ndev s) < fuel)%nat → (∀ d, Q tt (with_ndev d s)) →
  wp (reset_loop fuel) s Q.
Proof.
  intros Hr. revert s Hr. induction fuel as [|fuel IH]; intros s Hr Hf HQ; [lia|]. cbn [reset_loop].
  apply wp_bind, (wp_reg_in 1); [done|lia|]. intros v d Hin _. pose proof (rs_read _ _ _ Hr (ndev s)) as Hv. rewrite Hin in Hv.
  destruct (Z.eqb_spec (Z.land v CMD_RESET) 0) as [E|E]; [by apply wp_ret|].
  destruct Hv as [|Hv]; [done|]. apply IH; [exact Hr|unfold ndev, with_ndev; simpl; lia|]. intros d'. apply HQ.
Qed.

Lemma goes_refl s V l : room (nheap s) V l → vm_ok off (nvmm s) → goes off s V s V l.
Proof. by split. Qed.

Lemma goes_trans s V s1 V1 l1 s2 V2 l2 : goes off s V s1 V1 l1 → goes off s1 V1 s2 V2 l2 → goes off s V s2 V2 l2.
Proof.
  intros [_ Hg _ Hc (He1 & He2 & He3 & He4)] [Hr Hg' Hv' Hc' (Hd1 & Hd2 & Hd3 & Hd4)].
  split; [done|by etrans|done|by etrans|]. by split_and!; etrans.
Qed.

Lemma goes_ndev s V l d : room (nheap s) V l → vm_ok off (nvmm s) → goes off s V (with_ndev d s) V l.
Proof. intros Hr Hv. split; [done..|apply moved_with_dev|done]. Qed.

(** The driver allocates a buffer, and looks up its frame. *)
Lemma wp_nic_kmalloc n s V l (Q : Z → nic D → Prop) :
  room (nheap s) V (n :: l) → vm_ok off (nvmm s) →
  (∀ p sz h, V !! p = None → n ≤ sz → goes off s V (set_nheap h s) (<[p:=sz]> V) l → Q p (set_nheap h s)) →
  wp (on_nheap (kmalloc n)) s Q.
Proof.
  intros Hr Hv HQ. apply wp_zoom. eapply wp_kmalloc_room; [exact Hr|]. intros p sz h _ _ Hf Hsz Hr1.
  apply (HQ p sz); [done..|]. split; [exact Hr1|by apply insert_subseteq|exact Hv|reflexivity|done].
Qed.

Lemma wp_nic_phys p s (Q : Z → nic D → Prop) :
  vm_ok off (nvmm s) → (∀ phys v, vm_ok off v → Q phys (set_nvmm v s)) → wp (on_nvmm (vmm_get_phys p)) s Q.
Proof using Hpos Htop.
  intros Hv HQ. apply wp_zoom. eapply wp_mono; [by apply (completes_get_phys off Hpos Htop p)|]. intros phys v Hv1. by apply HQ.
Qed.

(** The transmit buffers. *)
Lemma wp_tx_buffers l0 s V l (Q : unit → nic D → Prop) :
  room (nheap s) V (replicate (length l0) TX_BUFFER_SIZE ++ l) → vm_ok off (nvmm s) →
  (∀ s' V', goes off s V s' V' l → rxbuf s' = rxbuf s → Q tt s') →
  wp (for_each l0 (λ i, p ← on_nheap (kmalloc TX_BUFFER_SIZE); phys ← on_nvmm (vmm_get_phys p); modify (set_txbuf i (w8 phys))))
    s Q.
Proof using Hpos Htop.
  revert s V. induction l0 as [|i l0 IH]; intros s V Hr Hv HQ; cbn [for_each].
  - apply wp_ret. by apply (HQ s V); [apply goes_refl|].
  - apply wp_bind, wp_bind. eapply wp_nic_kmalloc; [exact Hr|done|]. intros p sz h _ _ Hg.
    apply wp_bind, wp_nic_phys; [apply Hg|]. intros phys v Hv1. apply wp_modify, (IH _ (<[p:=sz]> V)); [apply Hg|exact Hv1|].
    intros s' V' Hg' Hrx. apply (HQ s' V'); [|exact Hrx]. eapply goes_trans; [|exact Hg'].
    destruct Hg as [? ? _ ? ?]. by split.
Qed.

Lemma wp_startup_nic left patience fuel s V l (Q : unit → nic D → Prop) :
  resets (port_of s REG_COMMAND) left patience → (patience < fuel)%nat →
  room (nheap s) V (RX_BUFFER_SIZE :: TX_BUFFER_SIZE :: TX_BUFFER_SIZE :: TX_BUFFER_SIZE :: TX_BUFFER_SIZE :: l) →
  vm_ok off (nvmm s) →
  (∀ s' V' sz, goes off s V s' V' l → V' !! rxbuf s' = Some sz → RX_BUFFER_SIZE ≤ sz → Q tt s') →
  wp (startup_nic fuel) s Q.
Proof using Hpos Htop.
  intros Hrs Hf Hr Hv HQ. unfold startup_nic.
  apply wp_bind. apply (wp_intro _ _ tt (with_ndev (dev_out Port (port_of s REG_COMMAND) 1 (w8 CMD_RESET) (ndev s)) s)); [reflexivity|].
  apply wp_bind, (wp_reset_loop left patience); [exact Hrs| |].
  { pose proof (rs_write _ _ _ Hrs (ndev s)) as Hw. unfold ndev, with_ndev in *. simpl in *. change (w8 CMD_RESET) with CMD_RESET. lia. }
  intros d1. do 5 (apply wp_bind, wp_reg_out_any; [eauto with completes|intros ?]).
  match goal with |- wp _ (with_ndev ?d _) _ => change (wp ?c (with_ndev d _) ?R) with (wp c (with_ndev d s) R) end.
  apply wp_bind. eapply wp_nic_kmalloc; [exact Hr|exact Hv|]. intros p sz h _ Hsz Hg.
  apply wp_bind, wp_modify, wp_bind, wp_nic_phys; [exact Hv|]. intros phys v Hv1.
  do 5 (apply wp_bind, wp_reg_out_any; [eauto with completes|intros ?]).
  apply wp_bind. eapply wp_tx_buffers; [apply Hg|exact Hv1|]. intros s' V' Hg' Hrx.
  apply wp_bind, wp_reg_out_any; [eauto with completes|intros d']. apply wp_reg_out_any; [eauto with completes|intros d''].
  destruct Hg as [_ Hgr _ _ _], Hg' as [Hr' Hgr' Hv' Hc' Hs'].
  apply (HQ _ V' sz); [|cbn [rxbuf with_ndev set_ncpu]; rewrite Hrx; eapply lookup_weaken; [apply lookup_insert_eq|exact Hgr']|exact Hsz].
  split; [exact Hr'|by etrans|exact Hv'| |exact Hs'].
  etrans; [|apply moved_with_dev]. etrans; [|apply moved_with_dev]. etrans; [|exact Hc']. apply (moved_with_dev _ (ncpu s)).
Qed.

Lemma wp_link_up s (k : unit → N unit) (Q : unit → nic D → Prop) :
  (∀ d, wp (k tt) (with_ndev d s) Q) →
  wp (up ← link_up; (if (up : bool) then get_speed ;; mret tt else mret tt) ≫= k) s Q.
Proof.
  intros HQ. apply wp_bind, wp_bind, wp_reg_in_any; [eauto with completes|]. intros v d. apply wp_ret.
  destruct (_ =? _); apply wp_bind; [|by apply wp_ret]. apply wp_bind, wp_bind, wp_reg_in_any; [eauto with completes|]. intros v' d'.
  apply wp_ret, wp_ret. exact (HQ d').
Qed.

Lemma wp_update_mac s (Q : unit → nic D → Prop) :
  (∀ d f, Q tt (set_ncpu (with_dev d (ncpu s)) (Nic (nheap s) (nvmm s) (ncpu s) (nrecords s) (dev s) (iobase s) (rxbuf s)
     (txbufs s) (next_txbuf s) (rxbuf_offset s) (packet_buf s) f))) →
  wp update_mac_addr s Q.
Proof.
  unfold update_mac_addr. generalize (seqZ 0 6). intros l0. revert s. induction l0 as [|i l0 IH]; intros s HQ; cbn [for_each].
  - apply wp_ret. specialize (HQ (ndev s) (g_rtl8139_mac_addr s)). unfold set_ncpu, with_dev, set_irqs, ndev in HQ.
    by destruct s as [? ? [[] ? ? ? ? ? ? ? ? ?] ? ? ? ? ? ? ? ? ?].
  - apply wp_bind, wp_bind, wp_reg_in_any; [eauto with completes|]. intros v d. apply wp_modify, IH. intros d' f. apply HQ.
Qed.

(** What the driver has after a successful start-up: the card's registers at
    [io], the receive ring and the packet buffer. *)
Record attached (io : Z) (s : nic D) (V : gmap Z Z) : Prop := {
  at_io : iobase s = io;
  at_dev : dev s ≠ 0;
  at_rxbuf : ∃ sz, V !! rxbuf s = Some sz ∧ RX_BUFFER_SIZE ≤ sz;
  at_packet : ∃ sz, V !! packet_buf s = Some sz ∧ PACKET_SIZE_MAX ≤ sz;
  at_apart : rxbuf s ≠ packet_buf s;
}.

(** The driver, with a card or without. *)
Record net_started (c : Z → Z) (l : list Z) (s : nic D) (V : gmap Z Z) (s' : nic D) (V' : gmap Z Z) : Prop := {
  ns_room : room (nheap s') V' l;
  ns_grow : V ⊆ V';
  ns_vm : vm_ok off (nvmm s');
  ns_cpu : moved (ncpu s) (ncpu s');
  ns_offset : rxbuf_offset s' = rxbuf_offset s;
  ns_card : match card_of c with Some x => attached (io_of c x) s' V' | None => dev s' = 0 end;
}.

Lemma room_skips h V k l : room h V (k ++ l) → room h V l.
Proof. induction k as [|n k IH]; [done|]. intros Hr. by apply IH, (room_skip h V n). Qed.

Lemma wp_rtl8139_init latch cfg left patience fuel isr s V l es (c := cfg (ndev s)) (t := madt (acpi_vars (irqs (ncpu s))))
    (Q : unit → nic D → Prop) :
  pci_host latch cfg →
  (∀ x, card_of c = Some x → resets (w16 (w32 (io_of c x + REG_COMMAND))) left patience) → (patience < fuel)%nat →
  room (nheap s) V (net_requests l) → vm_ok off (nvmm s) →
  t ≠ 0 → Acpi.entries m (t + 44) (t + ld32 m (t + 4)) es → (length es < fuel)%nat →
  (∀ s' V', net_started c l s V s' V' → Q tt s') →
  wp (rtl8139_init fuel isr) s Q.
Proof using Hpos Htop.
  intros Hhost Hrs Hf Hr Hv Ht Hes Hef HQ. unfold rtl8139_init. apply wp_bind, wp_zoom.
  eapply wp_mono; [apply (wp_pci_find latch cfg Hhost _ V); exact Hr|]. intros d p [_ Hhit].
  apply wp_bind, wp_modify. change (matching _ VENDOR_ID DEVICE_ID) with (card_of c) in Hhit.
  assert (∀ d0, moved (ncpu s) (with_dev d0 (ncpu s))) as Hmv by (intros; apply moved_with_dev).
  destruct (card_of c) as [[[bus slot] func]|] eqn:Hcard.
  2:{ destruct Hhit as (-> & Hr1 & _). apply wp_ret, (HQ _ V). split; [|done|exact Hv|apply Hmv|done|by rewrite Hcard].
      exact (room_skips _ _ [_; _; _; _; _; _] _ Hr1). }
  destruct Hhit as (Hd & Hfresh & (sz & _ & Hr1) & Hrec). rewrite (proj2 (Z.eqb_neq d 0) Hd).
  apply wp_bind, wp_zoom, wp_pci_enable_bus_mastering; [exact Hd|]. intros d1. cbn [nrecords set_nrecords set_nheap set_ncpu set_found pheap records ports].
  apply wp_bind, wp_gets. cbn [nrecords set_nrecords set_nheap set_ncpu set_found]. rewrite Hrec, upd_eq.
  apply wp_bind, wp_modify. change (Z.land (nth 0 (bars (device_of c bus slot func)) 0) 0xFFFFFFFC) with (io_of c (bus, slot, func)).
  apply wp_bind. eapply wp_startup_nic; [exact (Hrs _ eq_refl)|exact Hf|exact Hr1|exact Hv|].
  intros s1 V1 rsz [Hr2 Hg2 Hv2 Hm2 (Hio & Hdev & Hoff & Hrecs)] Hrx Hrsz.
  apply wp_link_up. intros d2.
  apply wp_bind. eapply wp_nic_kmalloc; [exact Hr2|exact Hv2|]. intros pk psz h Hpk Hpsz [Hr3 Hg3 _ _ _].
  apply wp_bind, wp_modify, wp_bind, wp_update_mac. intros d3 f. apply wp_bind, wp_gets, wp_zoom, wp_zoom.
  assert (acpi_vars (irqs (ncpu s1)) = acpi_vars (irqs (ncpu s))) as Hacpi by (destruct Hm2 as (g & d0 & ->); reflexivity).
  apply (wp_register_irq m hhdm fuel _ isr _ es).
  - simpl. rewrite Hacpi. exact Ht.
  - simpl. rewrite Hacpi. exact Hes.
  - exact Hef.
  - intros g d0. apply (HQ _ (<[pk:=psz]> V1)). destruct Hm2 as (g1 & d4 & Hm2). split; [exact Hr3|exact (transitivity (insert_subseteq _ _ _ Hfresh) (transitivity Hg2 Hg3))|exact Hv2| |exact Hoff|].
    + simpl. rewrite Hm2. by eexists _, _.
    + rewrite Hcard. split; simpl.
      * exact Hio.
      * rewrite Hdev. exact Hd.
      * exists rsz. split; [|exact Hrsz]. eapply lookup_weaken; [exact Hrx|exact Hg3].
      * exists psz. split; [apply lookup_insert_eq|exact Hpsz].
      * intros E. rewrite E in Hrx. congruence.
Qed.
End startup.

(** ** The types of the statics *)

(** Every static of the driver holds a value of its C type, and the indices are
    in range. *)
Record typed (s : nic D) : Prop := {
  ty_iobase : 0 ≤ iobase s < 2 ^ 32;
  ty_txbufs i : 0 ≤ txbufs s i < 2 ^ 8;
  ty_next : 0 ≤ next_txbuf s < TX_BUFFER_COUNT;
  ty_offset : 0 ≤ rxbuf_offset s < RX_BUFFER_SIZE;
  ty_mac i : 0 ≤ g_rtl8139_mac_addr s i < 2 ^ 8;
}.

Lemma typed_on_ncpu {A} (c : ST (cpu D) A) : maintains typed (on_ncpu c).
Proof. apply maintains_zoom. intros t s []. by split. Qed.
Lemma typed_on_nheap {A} (c : ST heap A) : maintains typed (on_nheap c).
Proof. apply maintains_zoom. intros t s []. by split. Qed.
Lemma typed_on_nvmm {A} (c : ST vmm A) : maintains typed (on_nvmm c).
Proof. apply maintains_zoom. intros t s []. by split. Qed.
Lemma typed_on_pci {A} (c : ST (pci heap D) A) : maintains typed (on_pci c).
Proof. apply maintains_zoom. intros t s []. by split. Qed.

#[local] Hint Resolve typed_on_ncpu typed_on_nheap typed_on_nvmm typed_on_pci : preserves.

Lemma typed_reg_in {A} (inx : Z → ST D A) reg : maintains typed (reg_in inx reg).
Proof. unfold reg_in. eauto with preserves. Qed.
Lemma typed_reg_out outx reg v : maintains typed (reg_out outx reg v).
Proof. unfold reg_out. eauto with preserves. Qed.

#[local] Hint Resolve typed_reg_in typed_reg_out : preserves.

Lemma typed_startup fuel : maintains typed (startup_nic fuel).
Proof.
  assert (∀ f, maintains typed (reset_loop f)) as Hreset by (induction f; cbn [reset_loop]; eauto with preserves).
  assert (∀ p, maintains typed (modify (set_rxbuf p))) as Hrx by (intros p; apply maintains_modify; intros s []; by split).
  assert (maintains typed (for_each (seqZ 0 TX_BUFFER_COUNT) (λ i,
    p ← on_nheap (kmalloc TX_BUFFER_SIZE); phys ← on_nvmm (vmm_get_phys p); modify (set_txbuf i (w8 phys))))) as Htx.
  { apply maintains_for_each. intros i _. do 2 (apply maintains_bind; [eauto with preserves|intros ?]).
    apply maintains_modify. intros s []. split; try done. intros j. simpl. unfold upd. destruct (j =? i); [|done].
    apply Z.mod_pos_bound. lia. }
  unfold startup_nic. eauto 30 with preserves.
Qed.

Lemma typed_mac : maintains typed update_mac_addr.
Proof.
  apply maintains_for_each. intros i _. apply (maintains_bind_value _ (λ b, 0 ≤ b < 2 ^ 8)).
  - intros s Hs. pose proof (wp_reg_in 1 inb (REG_MAC + i) s (λ b s', 0 ≤ b < 2 ^ 8 ∧ typed s')) as Hwp.
    assert (wp (reg_in inb (REG_MAC + i)) s (λ b s', 0 ≤ b < 2 ^ 8 ∧ typed s')) as Hb.
    { apply Hwp; [done|lia|]. intros v d _ Hv. split; [exact Hv|]. destruct Hs. by split. }
    unfold wp, wlp in *. by destruct (reg_in inb (REG_MAC + i) s) as [[b s']| | |].
  - intros b Hb. apply maintains_modify. intros s []. split; try done. intros j. simpl. unfold upd. by destruct (j =? i).
Qed.

Lemma typed_init fuel isr : maintains typed (rtl8139_init fuel isr).
Proof.
  unfold rtl8139_init. apply maintains_bind; [apply typed_on_pci|intros d].
  apply maintains_bind; [apply maintains_modify; intros s []; by split|intros _].
  apply maintains_if; [apply maintains_ret|]. apply maintains_bind; [apply typed_on_pci|intros _].
  apply maintains_bind; [apply maintains_gets|intros r]. apply maintains_bind.
  { apply maintains_modify. intros s []. split; try done. simpl. split; [apply Z.land_nonneg; by right|].
    change 0xFFFFFFFC with (Z.land 0xFFFFFFFC (Z.ones 32)). rewrite Z.land_assoc, Z.land_ones by lia. apply Z.mod_pos_bound. lia. }
  intros _. apply maintains_bind; [apply typed_startup|intros _].
  assert (∀ p, maintains typed (modify (set_packet_buf p))) as Hpk by (intros p; apply maintains_modify; intros s []; by split).
  pose proof typed_mac. unfold link_up, get_speed. eauto 15 with preserves.
Qed.

Lemma typed_recieve : maintains typed recieve.
Proof.
  unfold recieve. apply maintains_bind; [apply maintains_gets|intros b].
  apply (maintains_bind_value _ (λ o, 0 ≤ o)); [intros s Hs; split; [apply Hs|exact Hs]|intros o Ho]. cbv zeta.
  do 2 (apply maintains_bind; [eauto with preserves|intros ?]).
  apply (maintains_bind_value _ (λ len, 0 ≤ len)); [intros s Hs; split; [apply ld_le_range|exact Hs]|intros len Hlen].
  destruct (next_offset_ok o len Ho Hlen) as [Hn _].
  assert (maintains typed (modify (set_rxbuf_offset (next_offset o len)))) as Hset by (apply maintains_modify; intros s []; by split).
  assert (maintains typed (modify (λ s, set_rxbuf_offset (Z.rem (rxbuf_offset s) RX_BUFFER_SIZE) s))) as Hrem.
  { apply maintains_modify. intros s []. split; try done. cbn [rxbuf_offset set_rxbuf_offset]. by rewrite Z.rem_small. }
  eauto 20 with preserves.
Qed.

Lemma typed_isr fuel : maintains typed (isr fuel).
Proof.
  pose proof typed_recieve. assert (∀ f, maintains typed (isr_loop f)) as Hl by (induction f; cbn [isr_loop]; eauto 20 with preserves).
  unfold isr. eauto with preserves.
Qed.

Lemma typed_send data size : maintains typed (rtl8139_send_packet data size).
Proof.
  unfold rtl8139_send_packet. apply maintains_bind; [apply maintains_gets|intros io]. apply maintains_if; [apply maintains_ret|].
  apply (maintains_bind_value _ (λ h, -1 ≤ h < 4)).
  - intros s Hs. assert (∀ l s, typed s → wlp (find_txbuf l) s (λ h s', -1 ≤ h < 4 ∧ typed s')) as Hf; [|by apply Hf].
    induction l as [|i l IH]; intros s1 Hs1; cbn [find_txbuf]; [by split|].
    apply wlp_bind. cbn. apply wlp_bind. eapply wlp_mono; [by apply typed_reg_in|]. intros status s2 Hs2.
    destruct (Z.land status TX_STATUS_OWN =? 0); [by apply IH|]. split; [|exact Hs2].
    pose proof (Z.mod_pos_bound (w64 (next_txbuf s1 + i)) 4). lia.
  - intros h Hh. assert (maintains typed (modify (set_next_txbuf (Z.rem (h + 1) 4)))) as Hset.
    { apply maintains_modify. intros s []. split; try done. cbn [next_txbuf set_next_txbuf].
      rewrite Z.rem_mod_nonneg by lia. by apply Z.mod_pos_bound. }
    cbv zeta. eauto 20 with preserves.
Qed.

(** C37. Whatever the card, the PCI bus and the page tables answer, the statics
    of the driver keep values of their C types and its indices stay in range:
    start-up, the interrupt handler and transmission all maintain it. *)
Theorem nic_typed fuel handler (data : bmem) size s :
  typed s →
  wlp (rtl8139_init fuel handler) s (λ _ s', typed s') ∧ wlp (isr fuel) s (λ _ s', typed s') ∧
  wlp (rtl8139_send_packet data size) s (λ _ s', typed s').
Proof. intros Hs. split_and!; [by apply typed_init|by apply typed_isr|by apply typed_send]. Qed.

(** ** Interrupts *)

(** How often [isr] calls [recieve] for the statuses [l] it reads. *)
Definition packets (l : list Z) : nat := length (filter (λ x, Z.land x INT_RXOK ≠ 0) l).

Definition stops (x : Z) : bool := w8 (Z.land x INT_ALL) =? 0.

(** The card answers reads of its status register with [stat], one after the
    other. *)
Section card.
Context (io : Z) (stat : D → list Z).
Hypothesis stat_in : ∀ d, (dev_in Port (w16 (w32 (io + REG_ISR))) 2 d).1 = hd 0 (stat d) ∧
                          stat (dev_in Port (w16 (w32 (io + REG_ISR))) 2 d).2 = tl (stat d).
Hypothesis stat_out : ∀ sp a n v d, stat (dev_out sp a n v d) = stat d.

Lemma wp_isr_loop fuel s V l f r (Q : unit → nic D → Prop) :
  ring_ok s V → iobase s = io → stat (ndev s) = l ++ f :: r → Forall (λ x, stops x = false) l → stops f = true →
  (length l < fuel)%nat →
  (∀ s', ring_ok s' V → ring s' = Nat.iter (packets l) (take_packet (rxbuf s) (packet_buf s)) (ring s) →
     rxbuf s' = rxbuf s → packet_buf s' = packet_buf s → iobase s' = io → stat (ndev s') = r → Q tt s') →
  wp (isr_loop fuel) s Q.
Proof.
  revert s l. induction fuel as [|fuel IH]; intros s l Hok Hio Hst Hl Hf Hfuel HQ; [lia|]. cbn [isr_loop].
  apply wp_bind, (wp_reg_in 2); [done|lia|]. intros v d Hv _. destruct (stat_in (ndev s)) as [Hhd Htl].
  unfold port_of in Hv. rewrite Hio in Hv. rewrite Hv in Hhd, Htl. simpl in Hhd, Htl. rewrite Hst in Hhd, Htl.
  apply wp_bind, wp_reg_outw. match goal with |- wp _ ?x _ => set (s1 := x) end.
  assert (stat (ndev s1) = tl (l ++ f :: r)) as Hs1 by (rewrite <- Htl; apply stat_out).
  assert (ring_ok s1 V) as Hok1 by (destruct Hok; by split). cbv zeta.
  destruct l as [|x l]; simpl in Hhd, Hs1; subst v.
  - unfold stops in Hf. rewrite Hf. apply wp_ret. by apply HQ.
  - apply Forall_cons in Hl as [Hx Hl]. unfold stops in Hx. rewrite Hx. unfold packets in HQ. rewrite filter_cons in HQ.
    apply wp_bind. simpl in Hfuel. destruct (Z.eqb_spec (Z.land x INT_RXOK) 0) as [E|E].
    + rewrite decide_False in HQ by (intros Hne; by apply Hne). apply wp_ret.
      apply (IH s1 l); [exact Hok1|exact Hio|exact Hs1|exact Hl|exact Hf|lia|exact HQ].
    + rewrite decide_True in HQ by exact E. apply (wp_recieve s1 V); [exact Hok1|].
      intros s2 [Hok2 Hring (Hb & Hp & Hi) _ Hdev].
      apply (IH s2 l); [exact Hok2|etrans; [exact Hi|exact Hio]| |exact Hl|exact Hf|lia|].
      * rewrite Hdev. destruct (header_bad _ _ _); [exact Hs1|rewrite stat_out; exact Hs1].
      * intros s' Hok' Hring'. rewrite Hb, Hp, Hring in *. change (rxbuf s1) with (rxbuf s) in *. change (packet_buf s1) with (packet_buf s) in *.
        apply HQ; [exact Hok'|]. rewrite Hring'. change (ring s1) with (ring s).
        cbn [length]. by rewrite Nat.iter_succ_r.
Qed.


End card.

(** ** Transmission *)

(** The card's transmit status registers, which reading leaves alone. *)
Section transmit.
Context (io : Z) (tsd : D → Z → Z).
Hypothesis tsd_in : ∀ d c, 0 ≤ c < 4 → (dev_in Port (w16 (w32 (io + (REG_TXSTATUS0 + c * 4)))) 4 d).1 = tsd d c ∧
  ∀ c', tsd (dev_in Port (w16 (w32 (io + (REG_TXSTATUS0 + c * 4)))) 4 d).2 c' = tsd d c'.

(** The first transmit buffer of [l] that the card has given back. *)
Definition given_back (d : D) (l : list Z) : option Z := head (filter (λ c, Z.land (tsd d c) TX_STATUS_OWN ≠ 0) l).

Lemma wp_find_txbuf l s (Q : Z → nic D → Prop) :
  iobase s = io → 0 ≤ next_txbuf s < 4 → Forall (λ i, 0 ≤ i < 4) l →
  (∀ d, Q (default (-1) (given_back (ndev s) ((λ i, (next_txbuf s + i) mod 4) <$> l))) (with_ndev d s)) →
  wp (find_txbuf l) s Q.
Proof.
  intros Hio Hn. revert s Hio Hn. induction l as [|i l IH]; intros s Hio Hn Hl HQ; cbn [find_txbuf].
  - apply wp_ret. specialize (HQ (ndev s)). unfold with_ndev, with_dev, set_ncpu, ndev in HQ.
    by destruct s as [? ? [[] ? ? ? ? ? ? ? ? ?] ? ? ? ? ? ? ? ? ?].
  - apply Forall_cons in Hl as [Hi Hl]. apply wp_bind, wp_gets. cbv zeta.
    rewrite w64_small by lia. set (c := (next_txbuf s + i) mod 4) in *.
    pose proof (Z.mod_pos_bound (next_txbuf s + i) 4 ltac:(lia)) as Hc. fold c in Hc.
    apply wp_bind, (wp_reg_in 4); [done|lia|]. intros v d Hv _. destruct (tsd_in (ndev s) c Hc) as [Hval Hkeep].
    unfold port_of in Hv. rewrite Hio in Hv. rewrite Hv in Hval, Hkeep. simpl in Hval, Hkeep. subst v.
    cbn [fmap list_fmap] in HQ. fold c in HQ. unfold given_back in HQ. rewrite filter_cons in HQ.
    destruct (Z.eqb_spec (Z.land (tsd (ndev s) c) TX_STATUS_OWN) 0) as [E|E].
    + rewrite decide_False in HQ by (intros Hne; by apply Hne). apply IH; [exact Hio|exact Hn|exact Hl|].
      intros d'. change (next_txbuf (with_ndev d s)) with (next_txbuf s). specialize (HQ d').
      change (with_ndev d' (with_ndev d s)) with (with_ndev d' s). unfold given_back.
      rewrite (list_filter_iff (λ c0, Z.land (tsd (ndev (with_ndev d s)) c0) TX_STATUS_OWN ≠ 0)
        (λ c0, Z.land (tsd (ndev s) c0) TX_STATUS_OWN ≠ 0)); [exact HQ|].
      intros c'. change (ndev (with_ndev d s)) with d. by rewrite Hkeep.
    + rewrite decide_True in HQ by exact E. apply wp_ret. apply HQ.
Qed.

End transmit.
End rtl8139.

(** ** Witnesses *)

(** A card at port 0xC000: causes that wait to be read, and transmit buffers
    that are all free. *)
Record card := Card { causes : list Z; wrote : list (Z * Z) }.

#[export] Program Instance card_device : Device card := {|
  dev_in sp a n d :=
    if (a =? 0xC03E) && (n =? 2) then (hd 0 (causes d) mod 2 ^ 16, Card (tl (causes d)) (wrote d))
    else (if n =? 4 then 0x2000 else 0, d);
  dev_out sp a n v d := Card (causes d) ((a, v) :: wrote d);
|}.
Next Obligation.
  intros sp a n d Hn. simpl. assert (0 < 2 ^ (8 * n)) by (apply Z.pow_pos_nonneg; lia).
  destruct (a =? _), (Z.eqb_spec n 2) as [->|]; simpl; try (apply Z.mod_pos_bound; lia); try lia;
    destruct (Z.eqb_spec n 4) as [->|]; lia.
Qed.

Definition card_stat (d : card) : list Z := (λ x, x mod 2 ^ 16) <$> causes d.

Lemma card_stat_in d : (dev_in Port (w16 (w32 (0xC000 + REG_ISR))) 2 d).1 = hd 0 (card_stat d) ∧
  card_stat (dev_in Port (w16 (w32 (0xC000 + REG_ISR))) 2 d).2 = tl (card_stat d).
Proof. by destruct d as [[|x l] w]. Qed.

Definition card_cpu (l : list Z) : cpu card :=
  Cpu (Intr no_gates 0x81 (Acpi 0 0 0 0 0xFEE00000) (Card l [])) 0x82 0x81 0 0 0 0 0 1 (λ _, Core 0 0 0 0 0 0 0 0).

(** The bytes a caller sends. *)
Definition greeting : bmem := BMem (λ i, if i <? 6 then 0xFF else i).

(** A driver with buffers at [rx] and [pk], and an erroneous packet in the
    ring. *)
Definition card_nic (h : heap) (rx pk : Z) (l : list Z) : nic card :=
  Nic (poked (λ m, st_le m rx 2 0) h) sample_vmm (card_cpu l) (λ _, PciDevice 0 [] 0 0 0 0) 0 0xC000 rx (λ i, w8 (16 * i)) 3 0 pk (λ _, 0).

Lemma card_ring l : ∃ h V rx pk, ring_ok (card_nic h rx pk l) V ∧ header_bad rx 0 (hmem (nheap (card_nic h rx pk l))) = true.
Proof.
  destruct (fresh_heap [RX_BUFFER_SIZE; PACKET_SIZE_MAX]) as (h & Hr); [vm_compute; reflexivity|].
  destruct (room_kmalloc _ _ _ _ Hr) as (rx & rsz & h1 & _ & _ & _ & _ & Hrs & Hr1).
  destruct (room_kmalloc _ _ _ _ Hr1) as (pk & psz & h2 & _ & _ & _ & Hnone & Hps & Hr2).
  pose proof (room_owns _ _ _ Hr2) as Ho2.
  apply lookup_insert_None in Hnone as [_ Hne]. unfold RX_BUFFER_SIZE, PACKET_SIZE_MAX in *.
  assert (<[pk:=psz]> (<[rx:=rsz]> ∅) !! rx = Some rsz) as Hl by (rewrite lookup_insert_ne, lookup_insert_eq; done).
  destruct (owned_place _ _ _ _ Ho2 Hl) as (H8 & _).
  exists h2, (<[pk:=psz]> (<[rx:=rsz]> ∅)), rx, pk. split.
  - split; cbn [nheap rxbuf packet_buf rxbuf_offset card_nic].
    + exact (owns_poked _ _ _ _ _ Ho2 Hl (inside_st_le rx rsz rx 2 0 H8 ltac:(lia) ltac:(lia))).
    + exists rsz. by split.
    + exists psz. split; [apply lookup_insert_eq|exact Hps].
    + exact Hne.
    + unfold RX_BUFFER_SIZE. lia.
    + done.
  - unfold header_bad. rewrite Z.add_0_r.
    replace (ld_le (hmem (nheap (card_nic h2 rx pk l))) rx 2) with 0; [done|].
    cbn [nheap card_nic poked arena mem set_mem]. rewrite (ld_le_bytes _ rx 2 0); [done|].
    intros i Hi. rewrite ld8_st_le by lia. byte_cases. do 2 f_equal. lia.
Qed.

Example nic_typed_witness :
  let s := card_nic (Heap blank 0 0) 0x1000 0x10000 [0] in
  typed s ∧ ∃ u s', rtl8139_send_packet 0xFFFF800000000000 greeting 100 s = Done (u, s') ∧ typed s'.
Proof.
  intros s. assert (typed s) as Hs.
  { split; simpl; unfold TX_BUFFER_COUNT, RX_BUFFER_SIZE; try lia. intros i. apply Z.mod_pos_bound. lia. }
  split; [exact Hs|]. apply (wlp_done _ s (λ _ s', typed s')); [|vm_compute; reflexivity].
  apply (nic_typed (M := bmem) greeting 0xFFFF800000000000 5 0 greeting 100 s Hs).
Defined.



Definition card_tsd (d : card) (c : Z) : Z := 0x2000.

Lemma card_tsd_in d c : 0 ≤ c < 4 → (dev_in Port (w16 (w32 (0xC000 + (REG_TXSTATUS0 + c * 4)))) 4 d).1 = card_tsd d c ∧
  ∀ c', card_tsd (dev_in Port (w16 (w32 (0xC000 + (REG_TXSTATUS0 + c * 4)))) 4 d).2 c' = card_tsd d c'.
Proof.
  intros Hc. split; [|done]. assert (c = 0 ∨ c = 1 ∨ c = 2 ∨ c = 3) as [->|[->|[->| ->]]] by lia; done.
Qed.

