(* ===== verification/Sched.v ===== *)
(** sys/sched/sched.c and sys/amd64/trap.c: the run queues and the context
    switch on a timer interrupt. *)

From S2P Require Import Prelude CString Io Acpi Interrupts Mutex Cpu.
From S2P Require Import TlsfProps Bitmap Pmm Heap HeapBytes Vmm Queue Process.

(** ** State *)

Definition SCHED_QUANTUM_BASE : Z := 20.

(** Processes and threads, cores and devices, the run queues (the head
    [processq_head] of a core under the core's index) and the statics of
    sched.c and trap.c. *)
Record sched (D : Type) := Sched {
  sprocs : procs;
  scpu : cpu D;
  runq : queues;
  current_core_idx : Z;
  trap_lock : Z;
}.
Arguments Sched {D} _ _ _ _ _.
Arguments sprocs {D} _.
Arguments scpu {D} _.
Arguments runq {D} _.
Arguments current_core_idx {D} _.
Arguments trap_lock {D} _.

(** Fields of threads and processes. *)
Definition with_tf (f : trapframe) (t : thread) : thread := Thread f (stack_base t) (thread_flags t) (parent t).
Definition with_thread_flags (f : Z) (t : thread) : thread := Thread (tf t) (stack_base t) f (parent t).
Definition with_running_thread (t : Z) (p : process) : process :=
  Process (pname p) (pid p) (uid p) (euid p) (gid p) t (thread_count p) (vaddrsp p).
Definition with_thread_count (n : Z) (p : process) : process :=
  Process (pname p) (pid p) (uid p) (euid p) (gid p) (running_thread p) n (vaddrsp p).

Section sched.
Context {D : Type} `{Device D} (hhdm : Z).

Notation Y := (ST (sched D)).

Definition set_sprocs (p : procs) (s : sched D) : sched D :=
  Sched p (scpu s) (runq s) (current_core_idx s) (trap_lock s).
Definition set_scpu (c : cpu D) (s : sched D) : sched D :=
  Sched (sprocs s) c (runq s) (current_core_idx s) (trap_lock s).
Definition set_runq (q : queues) (s : sched D) : sched D :=
  Sched (sprocs s) (scpu s) q (current_core_idx s) (trap_lock s).
Definition set_current_core_idx (i : Z) (s : sched D) : sched D :=
  Sched (sprocs s) (scpu s) (runq s) i (trap_lock s).
Definition set_trap_lock (l : Z) (s : sched D) : sched D :=
  Sched (sprocs s) (scpu s) (runq s) (current_core_idx s) l.

Definition on_cpu {A} (c : ST (cpu D) A) : Y A := zoom scpu set_scpu c.
Definition on_procs {A} (c : ST procs A) : Y A := zoom sprocs set_sprocs c.

(** Assignments through the pointers [t], [p] and [core]. *)
Definition update_thread (t : Z) (f : thread → thread) : Y unit :=
  modify (λ s, set_sprocs (set_thread t (f (thread_at (sprocs s) t)) (sprocs s)) s).
Definition update_process (p : Z) (f : process → process) : Y unit :=
  modify (λ s, set_sprocs (set_process p (f (process_at (sprocs s) p)) (sprocs s)) s).
Definition update_core (i : Z) (f : core → core) : Y unit :=
  modify (λ s, set_scpu (set_core i (f (corelist (scpu s) i)) (scpu s)) s).

(** Fields read through them. *)
Definition get_running_process (i : Z) : Y Z := gets (λ s, running_process (corelist (scpu s) i)).
Definition get_running_thread (p : Z) : Y Z :=
  guard_ (negb (p =? 0)) ;; gets (λ s, running_thread (process_at (sprocs s) p)).
Definition get_thread (t : Z) : Y thread :=
  guard_ (negb (t =? 0)) ;; gets (λ s, thread_at (sprocs s) t).

(** ** Operations *)

Definition sched_core : Y Z :=
  i ← gets current_core_idx;
  n ← gets (λ s, cpu_count (scpu s));
  guard_ (negb (n =? 0)) ;;
  modify (set_current_core_idx ((i + 1) mod n)) ;;
  mret i.

Definition enqueue_thread (par t : Z) : Y unit :=
  modify (λ s, set_sprocs (set_threadq (TAILQ_INSERT_TAIL (threadq (sprocs s)) par t) (sprocs s)) s) ;;
  update_process par (λ p, with_thread_count (w64 (thread_count p + 1)) p).

Definition enqueue_process (p : Z) : Y unit :=
  i ← sched_core;
  modify (λ s, set_runq (TAILQ_INSERT_TAIL (runq s) i p) s) ;;
  r ← get_running_process i;
  if r =? 0 then
    update_core i (with_running p) ;;
    t ← get_running_thread p;
    th ← get_thread t;
    update_thread t (with_thread_flags (Z.lor (thread_flags th) THREAD_STARTUP))
  else mret tt.

Definition next_process (i : Z) : Y unit :=
  running ← get_running_process i;
  guard_ (negb (running =? 0)) ;;
  n ← gets (λ s, TAILQ_NEXT (runq s) running);
  update_core i (with_running n) ;;
  r ← get_running_process i;
  if r =? 0 then
    f ← gets (λ s, TAILQ_FIRST (runq s) i);
    update_core i (with_running f)
  else mret tt.

Definition next_thread (par : Z) : Y unit :=
  t ← get_running_thread par;
  guard_ (negb (t =? 0)) ;;
  n ← gets (λ s, TAILQ_NEXT (threadq (sprocs s)) t);
  update_process par (with_running_thread n) ;;
  r ← get_running_thread par;
  if r =? 0 then
    f ← gets (λ s, TAILQ_FIRST (threadq (sprocs s)) par);
    update_process par (with_running_thread f)
  else mret tt.

Definition sched_begin_timer (fuel : nat) : ST (cpu D) unit :=
  lapic_timer_calibrate hhdm fuel ;; lapic_timer_oneshot hhdm fuel SCHED_QUANTUM_BASE.

(** [frame] is what [tf] points to on entry, the result what it points to on
    return. *)
Definition sched_yield (fuel : nat) (frame : trapframe) : Y trapframe :=
  r ← on_cpu (this_core hhdm fuel);
  i ← from_option mret undef r;
  running ← get_running_process i;
  t ← get_running_thread running;
  th ← get_thread t;
  t ← (if Z.land (thread_flags th) THREAD_STARTUP =? 0 then
         update_thread t (with_tf frame) ;;
         next_thread running ;;
         next_process i ;;
         running ← get_running_process i;
         get_running_thread running
       else
         update_thread t (with_thread_flags (w16 (Z.land (thread_flags th) (Z.lnot THREAD_STARTUP)))) ;;
         mret t);
  th ← get_thread t;
  on_cpu (sched_begin_timer fuel) ;;
  mret (tf th).

(** A timer interrupt switches threads; any other vector is only
    acknowledged. *)
Definition trap (fuel : nat) (frame : trapframe) : Y trapframe :=
  zoom trap_lock set_trap_lock (mutex_acquire fuel) ;;
  v ← on_cpu lapic_get_timer_vector;
  frame ← (if trapno frame =? v then sched_yield fuel frame else mret frame);
  on_cpu (lapic_send_eoi hhdm) ;;
  zoom trap_lock set_trap_lock mutex_release ;;
  mret frame.

(** Up to the idle loop; [idle] and [test_func] are the addresses of the two
    thread functions and [idle_str] the name. *)
Definition sched_start `{ShiftSem} {M : Type} `{ByteMem M} (km : M) (fuel : nat) (idle_str idle test_func : Z) : Y unit :=
  p ← on_procs (create_kernel_process km fuel idle_str idle);
  enqueue_process p ;;
  t ← on_procs (process_create_thread p test_func);
  enqueue_thread p t ;;
  on_cpu (sched_begin_timer fuel).
End sched.

(** ** Specification *)

(** The element after [x], and the one whose turn is next. *)
Fixpoint after (l : list Z) (x : Z) : option Z :=
  match l with [] => None | y :: l => if decide (y = x) then head l else after l x end.
Definition next_in (l : list Z) (x : Z) : Z := default (default 0 (head l)) (after l x).

(** What round robin is about: the running process, the running thread of each
    process, the saved context of each thread, and which threads have not
    started yet. *)
Record view := View { cur : Z; turn : Z → Z; context : Z → trapframe; fresh : Z → bool }.

(** One switch among the processes [l] with threads [ts]: the interrupted
    context is saved and the thread's process passes the turn on among its
    threads; then the next process runs its running thread.  A thread that has
    not started yet is started instead. *)
Definition switch (l : list Z) (ts : Z → list Z) (frame : trapframe) (v : view) : trapframe * view :=
  let t := turn v (cur v) in
  if fresh v t then (context v t, View (cur v) (turn v) (context v) (upd (fresh v) t false))
  else
    let context' := upd (context v) t frame in
    let turn' := upd (turn v) (cur v) (next_in (ts (cur v)) t) in
    let cur' := next_in l (cur v) in
    (context' (turn' cur'), View cur' turn' context' (fresh v)).

(** Views that agree everywhere. *)
#[export] Instance view_equiv : Equiv view := λ v w,
  cur v = cur w ∧ (∀ p, turn v p = turn w p) ∧ (∀ t, context v t = context w t) ∧ ∀ t, fresh v t = fresh w t.
#[export] Instance view_equivalence : Equivalence (≡@{view}).
Proof.
  split.
  - by intros v.
  - intros v w (? & Ht & Hc & Hf). split_and!; done.
  - intros u v w (Hc & Ht & Hx & Hf) (Hc' & Ht' & Hx' & Hf'). split_and!; [congruence|..]; intros.
    + by rewrite Ht.
    + by rewrite Hx.
    + by rewrite Hf.
Qed.

#[export] Instance switch_proper l ts frame : Proper ((≡) ==> (=)) (λ v, (switch l ts frame v).1).
Proof.
  intros v w (Hc & Ht & Hx & Hf). unfold switch. rewrite Hc, Ht, Hf. destruct (fresh w _); simpl; [apply Hx|].
  unfold upd. rewrite Hx. by destruct (_ =? cur w); rewrite ?Ht.
Qed.

Section properties.
Context {D : Type} `{Device D}.

Definition view_of (s : sched D) (i : Z) : view :=
  View (running_process (corelist (scpu s) i))
       (λ p, running_thread (process_at (sprocs s) p))
       (λ t, tf (thread_at (sprocs s) t))
       (λ t, negb (Z.land (thread_flags (thread_at (sprocs s) t)) THREAD_STARTUP =? 0)).

(** Core [i] schedules the processes [l] with the threads [ts]. *)
Record schedules (s : sched D) (i : Z) (l : list Z) (ts : Z → list Z) : Prop := {
  sc_runq : queue_of (runq s) i l;
  sc_running : running_process (corelist (scpu s) i) ∈ l;
  sc_threadq p : p ∈ l → queue_of (threadq (sprocs s)) p (ts p);
  sc_turn p : p ∈ l → running_thread (process_at (sprocs s) p) ∈ ts p;
}.

(** ** Lemmas on turns *)

Lemma seg_after q c l e x : seg q c l e → load q e = 0 → NoDup l → x ∈ l → next q x = default 0 (after l x).
Proof.
  revert c. induction l as [|y l IH]; intros c; [by intros _ _ _ ?%not_elem_of_nil|].
  intros (_ & _ & _ & Hs) He [Hyl Hnd]%NoDup_cons Hx. simpl. case_decide as Hyx.
  - subst y. destruct l as [|z l]; [by rewrite <- He, Hs|]. by destruct Hs as (_ & Hn & _).
  - apply elem_of_cons in Hx as [->|Hx]; [done|]. by eapply IH.
Qed.

Lemma queue_after q h l x : queue_of q h l → x ∈ l → TAILQ_NEXT q x = default 0 (after l x).
Proof. intros [Hs He Hnd]. by eapply seg_after. Qed.

Lemma queue_head q h l : queue_of q h l → TAILQ_FIRST q h = default 0 (head l).
Proof. intros [Hs He _]. by eapply seg_first. Qed.

Lemma queue_nonnull q h l x : queue_of q h l → x ∈ l → x ≠ 0.
Proof. intros [Hs _ _]. by eapply seg_nonnull. Qed.

Lemma after_in l x y : after l x = Some y → y ∈ l.
Proof.
  induction l as [|z l IH]; simpl; [done|]. case_decide; [|intros Hy; right; by apply IH].
  destruct l; simpl; [done|]. intros [= ->]. right. left.
Qed.

Lemma next_in_in l x : x ∈ l → next_in l x ∈ l.
Proof.
  intros Hx. unfold next_in. destruct (after l x) as [y|] eqn:E; simpl; [by eapply after_in|].
  destruct l as [|z l]; [by apply not_elem_of_nil in Hx|left].
Qed.

(** Both advance functions compute [next_in]. *)
Lemma advance q h l x : queue_of q h l → x ∈ l →
  (if TAILQ_NEXT q x =? 0 then TAILQ_FIRST q h else TAILQ_NEXT q x) = next_in l x.
Proof.
  intros Hq Hx. rewrite (queue_after q h l x), (queue_head q h l) by done. unfold next_in.
  destruct (after l x) as [y|] eqn:E; simpl; [|done]. apply after_in, (queue_nonnull _ _ _ _ Hq) in E.
  by destruct (Z.eqb_spec y 0).
Qed.

(** ** Lemmas on the operations *)

Lemma wp_get_running_thread p s (Q : Z → sched D → Prop) :
  p ≠ 0 → Q (running_thread (process_at (sprocs s) p)) s → wp (get_running_thread p) s Q.
Proof. intros Hp HQ. by apply wp_bind, wp_nonnull, wp_gets. Qed.

Lemma wp_get_thread t s (Q : thread → sched D → Prop) :
  t ≠ 0 → Q (thread_at (sprocs s) t) s → wp (get_thread t) s Q.
Proof. intros Ht HQ. by apply wp_bind, wp_nonnull, wp_gets. Qed.

(** The running threads after a turn, and the cores after a switch. *)
Definition set_turns (f : Z → process) (s : sched D) : sched D :=
  set_sprocs (Procs (kheap (sprocs s)) (kvm (sprocs s)) (thread_at (sprocs s)) f (threadq (sprocs s))
                    (pid_bitmap (sprocs s)) (pid_bitmap_bytes (sprocs s))) s.
Definition set_corelist (f : Z → core) (c : cpu D) : cpu D :=
  Cpu (irqs c) (timer_vector c) (goto_vector c) (hpet_base c) (hpet_period c) (sleep_lock c) (this_core_lock c)
      (goto_vec_lock c) (cpu_count c) f.

Lemma wp_next_thread s p ts (Q : unit → sched D → Prop) :
  p ≠ 0 → queue_of (threadq (sprocs s)) p ts → running_thread (process_at (sprocs s) p) ∈ ts →
  (∀ f, (∀ q, f q = upd (process_at (sprocs s)) p
           (with_running_thread (next_in ts (running_thread (process_at (sprocs s) p))) (process_at (sprocs s) p)) q) →
     Q tt (set_turns f s)) →
  wp (next_thread p) s Q.
Proof.
  intros Hp Hq Hin HQ. pose proof (queue_nonnull _ _ _ _ Hq Hin) as Ht. pose proof (advance _ _ _ _ Hq Hin) as Hadv.
  apply wp_bind, wp_get_running_thread; [done|]. apply wp_bind, wp_nonnull; [done|].
  apply wp_bind, wp_gets, wp_bind, wp_modify, wp_bind, wp_get_running_thread; [done|].
  simpl. rewrite upd_eq. simpl. rewrite <- Hadv in HQ. clear Hadv.
  destruct (Z.eqb_spec (TAILQ_NEXT (threadq (sprocs s)) (running_thread (process_at (sprocs s) p))) 0) as [E|E].
  - apply wp_bind, wp_gets, wp_modify. simpl. apply HQ. intros q. simpl. unfold upd. rewrite Z.eqb_refl. by destruct (q =? p).
  - apply wp_ret. by apply HQ.
Qed.

Lemma wp_next_process s i l (Q : unit → sched D → Prop) :
  queue_of (runq s) i l → running_process (corelist (scpu s) i) ∈ l →
  (∀ f, (∀ j, f j = upd (corelist (scpu s)) i
           (with_running (next_in l (running_process (corelist (scpu s) i))) (corelist (scpu s) i)) j) →
     Q tt (set_scpu (set_corelist f (scpu s)) s)) →
  wp (next_process i) s Q.
Proof.
  intros Hq Hin HQ. pose proof (queue_nonnull _ _ _ _ Hq Hin) as Ht. pose proof (advance _ _ _ _ Hq Hin) as Hadv.
  apply wp_bind, wp_gets, wp_bind, wp_nonnull; [done|].
  apply wp_bind, wp_gets, wp_bind, wp_modify, wp_bind, wp_gets. simpl. rewrite upd_eq. simpl.
  rewrite <- Hadv in HQ. clear Hadv.
  destruct (Z.eqb_spec (TAILQ_NEXT (runq s) (running_process (corelist (scpu s) i))) 0) as [E|E].
  - apply wp_bind, wp_gets, wp_modify. simpl. apply HQ. intros j. simpl. unfold upd. rewrite Z.eqb_refl. by destruct (j =? i).
  - apply wp_ret. by apply HQ.
Qed.

Lemma started x : Z.land (w16 (Z.land x (Z.lnot THREAD_STARTUP))) THREAD_STARTUP = 0.
Proof.
  apply Z.bits_inj'. intros i Hi. rewrite Z.land_spec, Z.bits_0. destruct (decide (i = 0)) as [->|].
  - unfold w16. rewrite Z.mod_pow2_bits_low, Z.land_spec, Z.lnot_spec by lia. by rewrite andb_false_r.
  - rewrite (testbit_high THREAD_STARTUP 1) by (unfold THREAD_STARTUP; lia). apply andb_false_r.
Qed.

(** ** The timer *)

Section timers.
Context (hhdm lb hb : Z) (id : D → Z) (lreg : D → Z → Z) (cnt : D → Z) (jump : Z).
Context (Htm : timers lb hb id lreg cnt jump).

Notation dev c := (devices (irqs c)).

(** Core [i] executes, and the HPET has room for one more calibration after
    [extra] ticks. *)
Record on_time (c : cpu D) (i : Z) (fuel : nat) (extra : Z) : Prop := {
  ot_core : at_core hhdm lb hb id c i;
  ot_sleep : sleep_lock c = 0;
  ot_period : 0 < hpet_period c;
  ot_vector : 0 ≤ timer_vector c < 256;
  ot_jump : 0 ≤ jump;
  ot_room : cnt (dev c) + extra + 10 * ticks_per_ms c + 5 * jump < 2 ^ 64;
  ot_fuel : 10 * ticks_per_ms c + 1 < Z.of_nat fuel;
}.

(** The timer will raise its vector once, after [SCHED_QUANTUM_BASE] times the
    frequency of core [i] in ticks. *)
Record armed (c : cpu D) (i : Z) : Prop := {
  ar_vector : lreg (dev c) LAPIC_TIMER = timer_vector c;
  ar_divide : lreg (dev c) LAPIC_TDCR = 3;
  ar_count : lreg (dev c) LAPIC_TICR = w32 (lapic_freq (corelist c i) * SCHED_QUANTUM_BASE);
  ar_freq : 0 ≤ lapic_freq (corelist c i) ≤ 0xFFFFFFFF / 10;
}.

Lemma wp_sched_begin_timer fuel c i (Q : unit → cpu D → Prop) :
  on_time c i fuel 0 →
  (∀ c', armed c' i → at_core hhdm lb hb id c' i → sleep_lock c' = 0 → hpet_period c' = hpet_period c →
     timer_vector c' = timer_vector c → cpu_count c' = cpu_count c →
     (∀ j, running_process (corelist c' j) = running_process (corelist c j)) → Q tt c') →
  wp (sched_begin_timer hhdm fuel) c Q.
Proof.
  intros [[Hw Hl Hi Hcl] Hsl Hp Hv Hj Hr Hf] HQ.
  assert (0 ≤ ticks_per_ms c) by (apply Z.div_pos; lia).
  apply wp_bind, (wp_lapic_timer_calibrate hhdm lb hb id lreg cnt jump Htm fuel c i); [done||lia..|].
  intros d now Hnow Hid Hregs.
  assert (0 ≤ (0xFFFFFFFF - now) / 10 ≤ 0xFFFFFFFF / 10) as Hfreq.
  { split; [apply Z.div_pos; lia|apply Z.div_le_mono; lia]. }
  eapply (wp_lapic_timer_oneshot hhdm lb hb id lreg cnt jump Htm); [by destruct Hw|done|done| |lia|done|].
  { rewrite core_here_dev by (simpl; congruence). rewrite core_here_set by done. exact Hi. }
  intros d' Hid' Hregs'. simpl in *. rewrite upd_eq in Hregs'. simpl in Hregs'.
  apply HQ; try done.
  - split; simpl; rewrite ?Hregs'; [done|done| |by rewrite upd_eq].
    rewrite upd_eq. simpl. rewrite !upd_eq. f_equal. unfold w64, SCHED_QUANTUM_BASE. apply Z.mod_small.
    change (0xFFFFFFFF / 10) with 429496729 in Hfreq. unfold with_freq, lapic_freq. lia.
  - split; [by destruct Hw|done| |simpl; by rewrite upd_eq].
    change (with_dev d' _) with (with_dev d' (set_core i (with_freq ((0xFFFFFFFF - now) / 10) (corelist c i)) c)).
    rewrite core_here_dev by (simpl; congruence). rewrite core_here_set by done. exact Hi.
  - intros j. simpl. unfold upd. by destruct (Z.eqb_spec j i) as [->|].
Qed.

Lemma wp_on_cpu {A} (c : ST (cpu D) A) s (Q : A → sched D → Prop) :
  wp c (scpu s) (λ a c', Q a (set_scpu c' s)) → wp (on_cpu c) s Q.
Proof. apply wp_zoom. Qed.

(** ** Round robin *)

(** [sched_yield] starts by finding the core it runs on. *)
Lemma wp_sched_here fuel s i (f : Z → ST (sched D) trapframe) (Q : trapframe → sched D → Prop) :
  on_time (scpu s) i fuel (lookup_time jump (scpu s)) →
  (∀ d, on_time (with_dev d (scpu s)) i fuel 0 → wp (f i) (set_scpu (with_dev d (scpu s)) s) Q) →
  wp (r ← on_cpu (this_core hhdm fuel); i ← from_option mret undef r; f i) s Q.
Proof.
  intros [[Hw Hl Hi Hcl] Hsl Hp Hv Hj Hr Hf] HQ. assert (0 ≤ ticks_per_ms (scpu s)) by (apply Z.div_pos; lia).
  apply wp_bind, wp_on_cpu, (wp_this_core hhdm lb hb id lreg cnt jump Htm); [done|done|done|lia|]. intros d [Ht _ _] Hc.
  rewrite Hi. apply wp_bind, wp_ret, HQ. split; try done; [|simpl; change (ticks_per_ms (with_dev d (scpu s))) with (ticks_per_ms (scpu s)); lia].
  split; [by destruct Hw|done| |done]. by rewrite core_here_dev.
Qed.

(** It ends by loading a thread and arming the timer. *)
Lemma wp_load_thread fuel s i t (Q : trapframe → sched D → Prop) :
  on_time (scpu s) i fuel 0 → t ≠ 0 →
  (∀ c', armed c' i → at_core hhdm lb hb id c' i → timer_vector c' = timer_vector (scpu s) →
     (∀ j, running_process (corelist c' j) = running_process (corelist (scpu s) j)) →
     Q (tf (thread_at (sprocs s) t)) (set_scpu c' s)) →
  wp (th ← get_thread t; on_cpu (sched_begin_timer hhdm fuel) ;; mret (tf th)) s Q.
Proof.
  intros Ho Ht HQ. apply wp_bind, wp_get_thread; [done|].
  eapply wp_bind, wp_on_cpu, wp_sched_begin_timer; [exact Ho|]. intros c' Ha Hc _ _ Hv _ Hrp. apply wp_ret. by apply HQ.
Qed.

Lemma on_time_corelist c i fuel extra f :
  on_time c i fuel extra →
  (∀ j, lapic_id (f j) = lapic_id (corelist c j) ∧ core_lock (f j) = core_lock (corelist c j)) →
  on_time (set_corelist f c) i fuel extra.
Proof.
  intros [[Hw Hl Hi Hcl] Hsl Hp Hv Hj Hr Hf] Hlist. split; try done. split; [by destruct Hw|done| |].
  - rewrite <- Hi. unfold core_here. f_equal. apply list_filter_iff. intros j. simpl. by rewrite (proj1 (Hlist j)).
  - simpl. by rewrite (proj2 (Hlist i)).
Qed.

(** [sched_yield] is one step of round robin, and arms the timer. *)
Lemma wp_sched_yield fuel frame s i l ts :
  on_time (scpu s) i fuel (lookup_time jump (scpu s)) → schedules s i l ts →
  wp (sched_yield hhdm fuel frame) s (λ frame' s',
    frame' = (switch l ts frame (view_of s i)).1 ∧ view_of s' i ≡ (switch l ts frame (view_of s i)).2 ∧
    schedules s' i l ts ∧ armed (scpu s') i ∧ at_core hhdm lb hb id (scpu s') i).
Proof.
  intros Ho [Hrq Hrp Htq Hturn]. eapply wp_sched_here; [exact Ho|]. intros d Ho'. clear Ho.
  pose proof (queue_nonnull _ _ _ _ Hrq Hrp) as Hp0.
  set (p := running_process (corelist (scpu s) i)) in *.
  pose proof (queue_nonnull _ _ _ _ (Htq p Hrp) (Hturn p Hrp)) as Ht0.
  set (t := running_thread (process_at (sprocs s) p)) in *.
  apply wp_bind, wp_gets, wp_bind, wp_get_running_thread; [exact Hp0|]. simpl. fold p t.
  apply wp_bind, wp_get_thread; [exact Ht0|]. simpl. unfold switch, view_of at 1 3. simpl. fold p t.
  destruct (Z.eqb_spec (Z.land (thread_flags (thread_at (sprocs s) t)) THREAD_STARTUP) 0) as [Hs|Hs]; simpl.
  - apply wp_bind, wp_bind, wp_modify, wp_bind.
    apply (wp_next_thread _ p (ts p)); [exact Hp0|exact (Htq p Hrp)|exact (Hturn p Hrp)|]. intros f Hf. simpl in Hf. fold t in Hf.
    apply wp_bind, (wp_next_process _ i l); [exact Hrq|exact Hrp|]. intros g Hg. simpl in Hg. fold p in Hg.
    set (q := next_in l p) in *. assert (q ∈ l) as Hq by (by apply next_in_in).
    assert (∀ r, r ∈ l → running_thread (f r) ∈ ts r) as Hturn'.
    { intros r Hr. rewrite Hf. unfold upd. destruct (Z.eqb_spec r p) as [->|]; simpl; [by apply next_in_in, Hturn|by apply Hturn]. }
    assert (running_process (g i) = q) as Hgi by (by rewrite Hg, upd_eq).
    apply wp_bind, wp_gets. simpl. rewrite Hgi.
    apply wp_get_running_thread; [by apply (queue_nonnull _ _ _ _ Hrq)|]. simpl.
    eapply wp_load_thread; [|exact (queue_nonnull _ _ _ _ (Htq q Hq) (Hturn' q Hq))|].
    { apply (on_time_corelist _ _ _ _ _ Ho'). intros j. rewrite Hg. unfold upd. simpl. by destruct (Z.eqb_spec j i) as [->|]. }
    intros c' Ha Hc _ Hrun. simpl in Hrun |- *.
    assert (∀ r, running_thread (f r) = upd (λ q, running_thread (process_at (sprocs s) q)) p (next_in (ts p) t) r) as Hfr.
    { intros r. rewrite Hf. unfold upd. by destruct (r =? p). }
    assert (∀ u, tf (upd (thread_at (sprocs s)) t (with_tf frame (thread_at (sprocs s) t)) u) =
      upd (λ u, tf (thread_at (sprocs s) u)) t frame u) as Htf by (intros u; unfold upd; by destruct (u =? t)).
    rewrite Htf, Hfr. split; [done|]. split; [|split; [|by split]].
    + split_and!; simpl; [by rewrite Hrun|done|done|]. intros u. unfold upd. by destruct (Z.eqb_spec u t) as [->|].
    + split; simpl; [done|by rewrite Hrun, Hgi|done|done].
  - apply wp_bind, wp_bind, wp_modify, wp_ret.
    eapply wp_load_thread; [exact Ho'|exact Ht0|]. intros c' Ha Hc _ Hrun. simpl. rewrite upd_eq. simpl.
    split; [done|]. split; [|split; [|by split]].
    + split_and!; simpl; [by rewrite Hrun|done|..]; intros u; unfold upd; [by destruct (Z.eqb_spec u t) as [->|]|].
      destruct (Z.eqb_spec u t) as [->|]; simpl; [|done].
      by rewrite started.
    + split; simpl; [done|by rewrite Hrun|done|done].
Qed.

(** The first process goes to core 0: when another core takes the timer
    interrupt, it has no process and [sched_yield] reads through null. *)
Theorem yield_without_process fuel frame s i :
  on_time (scpu s) i fuel (lookup_time jump (scpu s)) → running_process (corelist (scpu s) i) = 0 →
  sched_yield hhdm fuel frame s = Undef.
Proof.
  intros [[Hw Hl Hi _] _ Hp _ Hj _ Hf] Hr.
  assert (wp (on_cpu (this_core hhdm fuel)) s (λ r s', r = Some i ∧ running_process (corelist (scpu s') i) = 0)) as Hcore.
  { apply wp_zoom. eapply wp_this_core; [exact Htm|exact Hw|exact Hj|exact Hl| |by intros d _ _].
    assert (0 ≤ ticks_per_ms (scpu s)) by (apply Z.div_pos; lia). lia. }
  apply wp_done in Hcore as (r & s' & Hrun & -> & Hr').
  assert (∀ k : option Z → ST (sched D) trapframe, (r ← on_cpu (this_core hhdm fuel); k r) s = k (Some i) s') as Hk.
  { intros k. unfold mbind, ST_bind. by rewrite Hrun. }
  unfold sched_yield. rewrite Hk. unfold get_running_process, get_running_thread, mbind, ST_bind. simpl. by rewrite Hr'.
Qed.

Lemma armed_dev c i d :
  armed c i → (∀ r, r ≠ LAPIC_EOI → lreg d r = lreg (dev c) r) → armed (with_dev d c) i.
Proof. intros [Hv Hd Hc Hf] Hr. split; simpl; rewrite ?Hr; done. Qed.

Lemma at_core_dev c i d : at_core hhdm lb hb id c i → id d = id (dev c) → at_core hhdm lb hb id (with_dev d c) i.
Proof. intros [Hw Hl Hi Hc] Hd. split; [by apply wired_dev|done| |done]. by rewrite core_here_dev. Qed.

(** C27. On its timer vector [trap] is one step of round robin: it saves the
    interrupted context, gives the turn to the process's next thread, picks the
    next process of the core's queue and loads the context of its running
    thread (or starts the first thread), with the timer armed for the next
    interrupt.  On any other vector the interrupted thread goes on.  Either way
    the interrupt is acknowledged and the lock free again. *)
Theorem trap_round_robin fuel frame s i l ts (r := switch l ts frame (view_of s i)) :
  on_time (scpu s) i fuel (lookup_time jump (scpu s)) → schedules s i l ts → trap_lock s = 0 →
  wp (trap hhdm fuel frame) s (λ frame' s',
    trap_lock s' = 0 ∧ schedules s' i l ts ∧ at_core hhdm lb hb id (scpu s') i ∧
    lreg (dev (scpu s')) LAPIC_EOI = 0 ∧
    if trapno frame =? timer_vector (scpu s)
    then frame' = r.1 ∧ view_of s' i ≡ r.2 ∧ armed (scpu s') i
    else frame' = frame ∧ view_of s' i = view_of s i).
Proof.
  intros Ho Hs Hl. assert (0 < fuel)%nat as Hf by (destruct Ho; assert (0 ≤ ticks_per_ms (scpu s)) by (apply Z.div_pos; lia); lia).
  apply wp_bind, wp_zoom. rewrite Hl. apply mutex_acquire_free; [done|].
  apply wp_bind, wp_on_cpu, wp_gets. simpl.
  set (s1 := set_scpu _ _).
  assert (s1 = set_trap_lock 1 s) as Hs1 by (by destruct s). clearbody s1. subst s1. apply wp_bind.
  assert (∀ frame' s2, at_core hhdm lb hb id (scpu s2) i → schedules s2 i l ts →
    (if trapno frame =? timer_vector (scpu s)
     then frame' = r.1 ∧ view_of s2 i ≡ r.2 ∧ armed (scpu s2) i
     else frame' = frame ∧ view_of s2 i = view_of s i) →
    wp (on_cpu (lapic_send_eoi hhdm) ;; zoom trap_lock set_trap_lock mutex_release ;; mret frame') s2 (λ frame' s',
      trap_lock s' = 0 ∧ schedules s' i l ts ∧ at_core hhdm lb hb id (scpu s') i ∧
      lreg (dev (scpu s')) LAPIC_EOI = 0 ∧
      if trapno frame =? timer_vector (scpu s)
      then frame' = r.1 ∧ view_of s' i ≡ r.2 ∧ armed (scpu s') i
      else frame' = frame ∧ view_of s' i = view_of s i)) as Hend.
  { intros frame' s2 Hc2 Hs2 Hr. apply wp_bind, wp_on_cpu.
    apply (wp_lapic_write hhdm lb hb id lreg cnt jump Htm); [apply Hc2|unfold LAPIC_EOI; lia|done|].
    intros d [Hid Hreg _] _. apply wp_bind, wp_zoom. eapply wp_intro; [done|]. apply wp_ret. simpl.
    split; [done|]. split; [by destruct Hs2|]. split; [by apply at_core_dev|]. split; [by rewrite Hreg|].
    destruct (trapno frame =? timer_vector (scpu s)); [|exact Hr]. destruct Hr as (? & ? & Ha).
    split; [done|]. split; [done|]. apply armed_dev; [done|]. intros r' Hr'. rewrite Hreg. by apply upd_ne. }
  destruct (trapno frame =? timer_vector (scpu s)) eqn:E.
  - eapply wp_mono; [apply (wp_sched_yield fuel frame (set_trap_lock 1 s) i l ts); [exact Ho|by destruct Hs]|].
    intros frame' s2 (Hfr & Hv & Hs2 & Ha & Hc). by apply Hend.
  - apply wp_ret, Hend; [apply Ho|by destruct Hs|done].
Qed.

(** ** Fairness *)

(** [n] context switches with arbitrary interrupted contexts. *)
Inductive yields (fuel : nat) (i : Z) : nat → sched D → sched D → Prop :=
| yields_none s : yields fuel i 0 s s
| yields_some n s frame frame' s1 s2 :
    on_time (scpu s) i fuel (lookup_time jump (scpu s)) →
    sched_yield hhdm fuel frame s = Done (frame', s1) →
    yields fuel i n s1 s2 → yields fuel i (S n) s s2.

Lemma after_nth l x k : NoDup l → l !! k = Some x → after l x = l !! S k.
Proof.
  revert k. induction l as [|y l IH]; intros k; [done|]. intros [Hyl Hnd]%NoDup_cons. destruct k as [|k]; simpl.
  - intros [= ->]. rewrite decide_True by done. by destruct l.
  - intros Hk. rewrite decide_False; [by apply IH|]. intros ->. apply Hyl. by eapply list_elem_of_lookup_2.
Qed.

Lemma next_in_nth l x k : NoDup l → l !! k = Some x → l !! (S k mod length l)%nat = Some (next_in l x).
Proof.
  intros Hnd Hk. unfold next_in. rewrite (after_nth l x k) by done.
  pose proof (lookup_lt_Some _ _ _ Hk) as Hlt. destruct (decide (S k = length l)) as [E|E].
  - rewrite E at 1. rewrite Nat.Div0.mod_same. rewrite (proj2 (lookup_ge_None l (S k))) by lia. by destruct l.
  - rewrite Nat.mod_small by lia. destruct (lookup_lt_is_Some_2 l (S k)) as [y Hy]; [lia|]. by rewrite Hy.
Qed.

(** C28. Round robin is fair: with all threads started, [n] context switches
    after process number [k] of the queue had the core, the process that has it
    is number [k + n] modulo the queue's length; so every process of the queue
    gets it within one round. *)
Theorem sched_fair fuel i l ts n s s' k :
  schedules s i l ts → (∀ t, fresh (view_of s i) t = false) →
  l !! k = Some (running_process (corelist (scpu s) i)) → yields fuel i n s s' →
  l !! ((k + n) mod length l)%nat = Some (running_process (corelist (scpu s') i)) ∧
  ∀ p, p ∈ l → ∃ m, (m < length l)%nat ∧ l !! ((k + m) mod length l)%nat = Some p.
Proof.
  intros Hs Hfresh Hk Hy. pose proof (qo_nodup _ _ _ (sc_runq _ _ _ _ Hs)) as Hnd.
  pose proof (lookup_lt_Some _ _ _ Hk) as Hlt. split.
  - clear Hlt. revert k Hk. induction Hy as [s|n s frame frame' s1 s2 Ho Hrun Hy IH]; intros k Hk.
    + pose proof (lookup_lt_Some _ _ _ Hk). by rewrite Nat.add_0_r, Nat.mod_small.
    + pose proof (wp_sched_yield fuel frame s i l ts Ho Hs) as Hwp. unfold wp in Hwp. rewrite Hrun in Hwp.
      destruct Hwp as (_ & (Hcur & _ & _ & Hfr) & Hs1 & _). unfold switch in Hcur, Hfr. rewrite Hfresh in Hcur, Hfr.
      simpl in Hcur, Hfr. pose proof (next_in_nth _ _ _ Hnd Hk) as Hk1. rewrite <- Hcur in Hk1.
      specialize (IH Hs1 ltac:(intros t; rewrite <- (Hfresh t); apply (Hfr t)) _ Hk1).
      rewrite <- IH. f_equal. rewrite Nat.Div0.add_mod_idemp_l. f_equal. lia.
  - intros p [j Hj]%list_elem_of_lookup_1. pose proof (lookup_lt_Some _ _ _ Hj) as Hjl.
    destruct (decide (k ≤ j)%nat).
    + exists (j - k)%nat. split; [lia|]. by replace (k + (j - k))%nat with j by lia; rewrite Nat.mod_small.
    + exists (j + length l - k)%nat. split; [lia|]. replace (k + (j + length l - k))%nat with (j + 1 * length l)%nat by lia.
      by rewrite Nat.Div0.mod_add, Nat.mod_small.
Qed.

(** ** Start-up *)

(** A process put on the queue of an idle core becomes its running process,
    and its running thread is marked as not started. *)
Lemma wp_enqueue_process s i p (Q : unit → sched D → Prop) :
  let t := running_thread (process_at (sprocs s) p) in
  current_core_idx s = i → cpu_count (scpu s) ≠ 0 → queue_of (runq s) i [] →
  running_process (corelist (scpu s) i) = 0 → p ≠ 0 → t ≠ 0 →
  (∀ j q, queue_of q i [p] →
     Q tt (set_current_core_idx j (set_runq q (set_scpu (set_core i (with_running p (corelist (scpu s) i)) (scpu s))
       (set_sprocs (set_thread t (with_thread_flags (Z.lor (thread_flags (thread_at (sprocs s) t)) THREAD_STARTUP)
                                                    (thread_at (sprocs s) t)) (sprocs s)) s))))) →
  wp (enqueue_process p) s Q.
Proof.
  intros t Hi Hn Hq Hrp Hp Ht HQ. apply wp_bind, wp_bind, wp_gets, wp_bind, wp_gets, wp_bind, wp_nonnull; [done|].
  apply wp_bind, wp_modify, wp_ret. rewrite Hi. apply wp_bind, wp_modify, wp_bind, wp_gets. simpl. rewrite Hrp. simpl.
  apply wp_bind, wp_modify, wp_bind, wp_get_running_thread; [done|]. simpl. apply wp_bind, wp_get_thread; [done|].
  apply wp_modify. eapply (HQ _ (TAILQ_INSERT_TAIL (runq s) i p)).
  apply (queue_insert_tail _ i p (queue_end _ _ _ _ Hq ltac:(by apply not_elem_of_nil)) []); [done|done|apply not_elem_of_nil].
Qed.

(** The process is put on the queue of core [q], and core [i] executes. *)
Lemma wp_sched_start `{ShiftSem} {M : Type} `{ByteMem M} (km : M) fuel name nm idle test s q i V rest (R : Z → vmm → Prop) :
  is_cstr km name nm → zlen nm ≤ NAME_MAX → (length nm < fuel)%nat → (7 < fuel)%nat →
  pids_ok (sprocs s) V (process_requests (sprocs s) (sizeof_thread :: 0x500 :: rest)) → wp vmm_make_pml4 (kvm (sprocs s)) R →
  current_core_idx s = q → cpu_count (scpu s) ≠ 0 → queue_of (runq s) q [] →
  running_process (corelist (scpu s) q) = 0 → on_time (scpu s) i fuel 0 →
  wp (sched_start hhdm km fuel name idle test) s (λ _ s', ∃ p t1 t2,
    schedules s' q [p] (λ _, [t1; t2]) ∧ turn (view_of s' q) p = t1 ∧ fresh (view_of s' q) t1 = true ∧
    rip (context (view_of s' q) t1) = idle ∧ rip (context (view_of s' q) t2) = test ∧
    thread_count (process_at (sprocs s') p) = 2 ∧ armed (scpu s') i).
Proof using Htm.
  intros Hname Hlen Hf Hf7 Hok Hready Hi Hn Hrq Hrp Ho.
  pose proof (wp_create_process km fuel name nm 0 0 idle (sprocs s) V _ R Hname Hf Hf7 Hok Hready) as Hcreate.
  rewrite bool_decide_true in Hcreate by done.
  apply wp_bind, wp_zoom. eapply wp_mono; [exact Hcreate|]. clear Hcreate.
  intros p ps (t1 & stack & V' & r & space & _ & Hp & Ht1 & _ & _ & _ & Hpt & HV & Hok' & HVp & HVt & Hq & Hth & _ & _ & Hpr & _ & _ & _).
  apply wp_bind, (wp_enqueue_process _ q); simpl; rewrite ?Hpr; try done. simpl. intros j rq Hq'.
  apply wp_bind, wp_zoom. eapply wp_process_create_thread; [apply Hok'|].
  intros t2 stack2 tsz ssz h Ht2 Hft2 _ _ _ _ _.
  assert (t1 ≠ t2) as Hne by (intros ->; rewrite Hft2 in HVt; by destruct HVt).
  apply wp_bind, wp_bind, wp_modify, wp_modify. simpl.
  eapply wp_on_cpu, wp_sched_begin_timer.
  { apply (on_time_corelist (scpu s) i fuel 0 (upd (corelist (scpu s)) q (with_running p (corelist (scpu s) q))) Ho).
    intros k. unfold upd. by destruct (Z.eqb_spec k q) as [->|]. }
  intros c' Ha Hc _ _ _ _ Hrun'. exists p, t1, t2. simpl. rewrite Hpr, !upd_eq. simpl.
  rewrite upd_ne, upd_eq by exact Hne. rewrite Hth.
  split; [|split_and!; [reflexivity..|exact Ha]].
  split; simpl.
  - exact Hq'.
  - rewrite Hrun'. simpl. rewrite upd_eq. left.
  - intros p' ->%list_elem_of_singleton.
    assert (t2 ∉ [t1]) as Hin by (intros ?%list_elem_of_singleton; congruence).
    by apply (queue_insert_tail _ p t2 (queue_end _ _ _ _ Hq Hin) [t1]).
  - intros p' ->%list_elem_of_singleton. rewrite upd_eq. simpl. left.
Qed.

(** [sched_start], up to its idle loop, sets the scheduler up: the core has
    one process with two threads, the first of them about to start at [idle]
    and the second at [test], and the timer is armed. *)
Theorem sched_start_schedules `{ShiftSem} {M : Type} `{ByteMem M} (km : M) fuel name nm idle test s i V rest f l
    (v := kvm (sprocs s)) (o := if old_pml4 v =? 0 then Vmm.view (Vmm.hhdm v) (cr3 v) else old_pml4 v) :
  is_cstr km name nm → zlen nm ≤ NAME_MAX → (length nm < fuel)%nat → (7 < fuel)%nat →
  pids_ok (sprocs s) V (process_requests (sprocs s) (sizeof_thread :: 0x500 :: rest)) → ready v o (f :: l) →
  current_core_idx s = i → cpu_count (scpu s) ≠ 0 → queue_of (runq s) i [] →
  running_process (corelist (scpu s) i) = 0 → on_time (scpu s) i fuel 0 →
  wp (sched_start hhdm km fuel name idle test) s (λ _ s', ∃ p t1 t2,
    schedules s' i [p] (λ _, [t1; t2]) ∧ turn (view_of s' i) p = t1 ∧ fresh (view_of s' i) t1 = true ∧
    rip (context (view_of s' i) t1) = idle ∧ rip (context (view_of s' i) t2) = test ∧
    thread_count (process_at (sprocs s') p) = 2 ∧ armed (scpu s') i).
Proof.
  intros Hname Hlen Hf Hf7 Hok Hready.
  exact (wp_sched_start km fuel name nm idle test s i i V rest _ Hname Hlen Hf Hf7 Hok (wp_vmm_make_pml4 _ l f Hready)).
Qed.
End timers.
End properties.

(** ** Witnesses: two processes on core 1, with two threads and one thread *)

Definition two_threadqs : queues :=
  TAILQ_INSERT_TAIL (TAILQ_INIT (TAILQ_INSERT_TAIL (TAILQ_INSERT_TAIL (TAILQ_INIT no_queues 100) 100 1000) 100 1001) 200) 200 2000.
Definition two_runq : queues := TAILQ_INSERT_TAIL (TAILQ_INSERT_TAIL (TAILQ_INIT no_queues 1) 1 100) 1 200.
Definition two_procs : procs :=
  Procs (Heap TlsfProps.blank 0 0) sample_vmm (λ t, Thread (entry_frame t (t + 1)) t 0 0)
    (λ p, Process (λ _, 0) 0 0 0 0 (if p =? 100 then 1000 else 2000) 1 0) two_threadqs 0 1.
Definition two_sched : sched clock := Sched two_procs (set_core 1 (Core 0 3 0 0 0 0 0 100) clock_cpu) two_runq 0 0.

Lemma two_queue h x y : h ≠ 0 → x ≠ 0 → y ≠ 0 → x ≠ y → ∀ q,
  queue_of (TAILQ_INSERT_TAIL (TAILQ_INSERT_TAIL (TAILQ_INIT q h) h x) h y) h [x; y].
Proof.
  intros Hh Hx Hy Hxy q. destruct (queue_of_new q h x Hx) as [Hq _].
  assert (y ∉ [x]) as Hin by (intros ?%list_elem_of_singleton; congruence).
  by apply (queue_insert_tail _ h y (queue_end _ _ _ _ Hq Hin) [x]).
Qed.

Lemma two_schedules : schedules two_sched 1 [100; 200] (λ p, if p =? 100 then [1000; 1001] else [2000]).
Proof.
  split.
  - by apply two_queue.
  - left.
  - intros p Hp. destruct (queue_of_new (TAILQ_INSERT_TAIL (TAILQ_INSERT_TAIL (TAILQ_INIT no_queues 100) 100 1000) 100 1001) 200 2000)
      as [H1 H2]; [done|].
    apply elem_of_cons in Hp as [->| ->%list_elem_of_singleton]; [|exact H1].
    apply H2; [by apply two_queue|done|]. simpl. by apply (bool_decide_unpack _).
  - intros p Hp. apply elem_of_cons in Hp as [->| ->%list_elem_of_singleton]; left.
Qed.

Lemma two_on_time : on_time 0xFFFF800000000000 clock_lapic clock_hpet (λ d, k_id d mod 256) (λ d, Z.of_N (k_cnt d)) 1
  (scpu two_sched) 1 10002 (lookup_time 1 (scpu two_sched)).
Proof. by split; [split; [by split|..]|..]. Qed.

(** The timer interrupts thread 1000: thread 2000 of the other process goes
    on. *)
Definition timer_frame : trapframe :=
  Trapframe 1 2 3 4 5 6 7 8 9 10 11 12 13 14 0 0 0x82 0xFFFFFFFF80001234 0x28 0x202 0x7000 0x30.

Example trap_round_robin_witness :
  wp (trap 0xFFFF800000000000 10002 timer_frame) two_sched (λ f' s',
    f' = entry_frame 2000 2001 ∧ cur (view_of s' 1) = 200 ∧ turn (view_of s' 1) 100 = 1001 ∧
    context (view_of s' 1) 1000 = timer_frame).
Proof.
  eapply wp_mono; [apply (trap_round_robin 0xFFFF800000000000 clock_lapic clock_hpet _ k_reg _ 1 clock_timers
    10002 timer_frame two_sched 1 [100; 200] (λ p, if p =? 100 then [1000; 1001] else [2000])
    two_on_time two_schedules eq_refl)|].
  intros f' s' (_ & _ & _ & _ & Hr). simpl in Hr. destruct Hr as (-> & (Hc & Ht & Hx & _) & _).
  rewrite Hc, Ht, Hx. done.
Defined.

Example sched_fair_witness : ∃ f s', 
  yields 0xFFFF800000000000 clock_lapic clock_hpet (λ d, k_id d mod 256) (λ d, Z.of_N (k_cnt d)) 1 10002 1 1 two_sched s' ∧
  [100; 200] !! (1 mod 2)%nat = Some (running_process (corelist (scpu s') 1)) ∧ context (view_of s' 1) 1000 = f.
Proof.
  pose proof (wp_sched_yield 0xFFFF800000000000 clock_lapic clock_hpet _ k_reg _ 1 clock_timers 10002 (entry_frame 7 7) two_sched 1
    [100; 200] _ two_on_time two_schedules) as Hwp.
  apply wp_done in Hwp as (f' & s' & Hrun & _ & (_ & _ & Hx & _) & _).
  exists (entry_frame 7 7), s'.
  assert (yields 0xFFFF800000000000 clock_lapic clock_hpet (λ d, k_id d mod 256) (λ d, Z.of_N (k_cnt d)) 1 10002 1 1 two_sched s')
    as Hy by (eapply yields_some; [exact two_on_time|exact Hrun|constructor]).
  split; [exact Hy|]. split; [|by rewrite Hx].
  by apply (sched_fair 0xFFFF800000000000 clock_lapic clock_hpet _ k_reg _ 1 clock_timers 10002 1 [100; 200] _ 1 two_sched s' 0
    two_schedules (λ _, eq_refl) eq_refl Hy).
Defined.

Definition boot_cpu : cpu clock := set_core 1 (Core 0 3 0 0 0 0 0 0) clock_cpu.
Definition boot_sched (h : heap) : sched clock := Sched (sample_procs h) boot_cpu (TAILQ_INIT no_queues 1) 1 0.

Lemma boot_on_time : on_time 0xFFFF800000000000 clock_lapic clock_hpet (λ d, k_id d mod 256) (λ d, Z.of_N (k_cnt d)) 1
  boot_cpu 1 10002 0.
Proof. by split; [split; [by split|..]|..]. Qed.

Example sched_start_schedules_witness : ∃ h, owns h ∅ ∧
  wp (sched_start 0xFFFF800000000000 idle_name 10002 16 0xFFFFFFFF80001000 0xFFFFFFFF80002000) (boot_sched h) (λ _ s',
    ∃ p t1 t2, schedules s' 1 [p] (λ _, [t1; t2]) ∧ fresh (view_of s' 1) t1 = true ∧
      rip (context (view_of s' 1) t1) = 0xFFFFFFFF80001000 ∧ rip (context (view_of s' 1) t2) = 0xFFFFFFFF80002000).
Proof.
  destruct (fresh_heap [sizeof_process; sizeof_thread; 0x500; 1; sizeof_thread; 0x500]) as (h & Hr); [vm_compute; reflexivity|].
  exists h. split; [by eapply room_owns|].
  eapply wp_mono; [apply (sched_start_schedules 0xFFFF800000000000 clock_lapic clock_hpet (λ d, k_id d mod 256) k_reg
    (λ d, Z.of_N (k_cnt d)) 1 clock_timers idle_name 10002 16 [105; 100; 108; 101] 0xFFFFFFFF80001000 0xFFFFFFFF80002000
    (boot_sched h) 1 ∅ [] 0x1000 [0x2000; 0x3000] idle_cstr)|].
  - unfold NAME_MAX. simpl. lia.
  - apply Nat.ltb_lt. vm_compute. reflexivity.
  - apply Nat.ltb_lt. vm_compute. reflexivity.
  - split; [exact Hr|reflexivity|contradiction].
  - exact sample_ready.
  - reflexivity.
  - discriminate.
  - apply queue_init.
  - reflexivity.
  - exact boot_on_time.
  - intros [] s' (p & t1 & t2 & Hs & _ & Hf & Hr1 & Hr2 & _). exists p, t1, t2.
    exact (conj Hs (conj Hf (conj Hr1 Hr2))).
Defined.
