(* ===== verification/Vfs.v ===== *)
(** sys/fs/vfs.c: the vnode tree, with a hash map of children in every node. *)

From S2P Require Import Prelude CString Heap Hashmap HashmapProps HashmapPut.

(** ** State *)

Inductive vtype := VNON | VREG | VDIR | VBLK | VCHR | VBAD.
Inductive vstate := VSTATE_UNINIT | VSTATE_CONSTRUCTED | VSTATE_DESTROYING | VSTATE_DEAD.

Definition V_ROOT : Z := 1.
Definition V_MOUNTPOINT : Z := 8.
Definition NAME_MAX : Z := 255.
Definition sizeof_vnode : Z := 304.

(** [vnode_t]; [v_name] is its first field, so the name's bytes lie at the
    address of the vnode. *)
Record vnode := Vnode {
  v_type : vtype;
  v_state : vstate;
  v_flags : Z;
  v_lock : Z;
  children : hashmap;
  n_children : Z;
}.
Definition zero_vnode : vnode := Vnode VNON VSTATE_UNINIT 0 0 (Hashmap 0 0 0 (λ _, blank_elem)) 0.

(** The heap, the bytes of names and buffers, the vnodes at their addresses,
    and the static [fs_root]. *)
Record vfs (S M : Type) := Vfs { vheap : S; vmem : M; vnode_at : Z → vnode; fs_root : Z }.
Arguments Vfs {S M} _ _ _ _.
Arguments vheap {S M} _.
Arguments vmem {S M} _.
Arguments vnode_at {S M} _ _.
Arguments fs_root {S M} _.

Section vfs.
Context {S M : Type} {ops : AllocOps S} `{ByteMem M}.

Notation F := (ST (vfs S M)).

Definition set_vheap (h : S) (s : vfs S M) : vfs S M := Vfs h (vmem s) (vnode_at s) (fs_root s).
Definition set_vmem (m : M) (s : vfs S M) : vfs S M := Vfs (vheap s) m (vnode_at s) (fs_root s).
Definition set_vnode (v : Z) (n : vnode) (s : vfs S M) : vfs S M :=
  Vfs (vheap s) (vmem s) (upd (vnode_at s) v n) (fs_root s).
Definition set_fs_root (v : Z) (s : vfs S M) : vfs S M := Vfs (vheap s) (vmem s) (vnode_at s) v.

Definition on_vheap {A} (c : ST S A) : F A := zoom vheap set_vheap c.

Definition with_children (m : hashmap) (n : vnode) : vnode :=
  Vnode (v_type n) (v_state n) (v_flags n) (v_lock n) m (n_children n).

(** [v->...]: the pointer may not be null. *)
Definition get_vnode (v : Z) : F vnode := guard_ (negb (v =? 0)) ;; gets (λ s, vnode_at s v).
Definition update_vnode (v : Z) (f : vnode → vnode) : F unit :=
  guard_ (negb (v =? 0)) ;; modify (λ s, set_vnode v (f (vnode_at s v)) s).

Definition str_len (fuel : nat) (p : Z) : F Z :=
  m ← gets vmem; from_option mret no_fuel (strlen fuel m p).

(** ** Lookup *)

Definition name2vnode (fuel : nat) (name parent : Z) : F Z :=
  n ← get_vnode parent;
  len ← str_len fuel name;
  m ← gets vmem;
  on_vheap (hashmap_get m (children n) name (w32 len)).

(** The loop of [path2vnode]; [fname] is the address of the local buffer. *)
Fixpoint path_loop (fuel : nat) (fname current ptr fname_idx : Z) : F Z :=
  match fuel with
  | O => no_fuel
  | Datatypes.S fuel =>
      if NAME_MAX <=? fname_idx then mret 0
      else
        m ← gets vmem;
        let c := ld8 m ptr in
        if (c =? 47) || (c =? 0) then
          modify (λ s, set_vmem (st8 (vmem s) (fname + fname_idx) 0) s) ;;
          current ← name2vnode (Z.to_nat 256) fname current;
          if current =? 0 then mret 0
          else
            modify (λ s, set_vmem (memzero (vmem s) fname (NAME_MAX + 1)) s) ;;
            m ← gets vmem;
            if ld8 m (ptr + 1 - 1) =? 0 then
              root ← gets fs_root;
              mret (if negb (current =? root) then current else 0)
            else path_loop fuel fname current (ptr + 1) 0
        else
          modify (λ s, set_vmem (st8 (vmem s) (fname + fname_idx) c) s) ;;
          path_loop fuel fname current (ptr + 1) (fname_idx + 1)
  end.

Definition path2vnode (fuel : nat) (fname path : Z) : F Z :=
  m ← gets vmem;
  if negb (ld8 m path =? 47) then mret 0
  else
    current ← gets fs_root;
    path_loop fuel fname current (path + 1) 0.

(** ** Construction *)

Definition vfs_append_child (fuel : nat) (parent child : Z) : F unit :=
  root ← gets fs_root;
  let parent := if parent =? 0 then root else parent in
  n ← get_vnode parent;
  guard_ (negb (child =? 0)) ;;
  len ← str_len fuel child;
  m ← gets vmem;
  '(_, map) ← on_vheap (hashmap_put m 33 (children n) child (w32 len) child);
  update_vnode parent (with_children map).

Definition vfs_make_vnode (fuel : nat) (name : Z) (vt : vtype) (is_mountpoint : Z) : F Z :=
  len ← str_len fuel name;
  if NAME_MAX <=? len then mret 0
  else
    new ← on_vheap (calloc 1 sizeof_vnode);
    modify (λ s, set_vmem (memzero (vmem s) new sizeof_vnode) (set_vnode new zero_vnode s)) ;;
    update_vnode new (λ n, Vnode vt VSTATE_CONSTRUCTED (if negb (is_mountpoint =? 0) then V_MOUNTPOINT else 0)
                                 (v_lock n) (children n) 0) ;;
    '(flag, map) ← on_vheap (hashmap_create 2);
    update_vnode new (with_children map) ;;
    assert_ (flag =? 0) ;;
    len ← str_len fuel name;
    modify (λ s, set_vmem (memcpy (vmem s) new name len) s) ;;
    mret new.

(** [empty_str] is the string literal. *)
Definition vfs_init (fuel : nat) (empty_str : Z) : F unit :=
  r ← vfs_make_vnode fuel empty_str VDIR 1;
  modify (set_fs_root r) ;;
  update_vnode r (λ n, Vnode (v_type n) (v_state n) (Z.lor (v_flags n) V_ROOT) (v_lock n) (children n) (n_children n)).
End vfs.

(** ** Specification: names in a tree *)

(** The names between the slashes of a path. *)
Fixpoint split (l : list Z) : list (list Z) :=
  match l with
  | [] => [[]]
  | c :: l => if c =? 47 then [] :: split l
              else match split l with w :: ws => (c :: w) :: ws | [] => [[c]] end
  end.

(** The children of every node, by name. *)
Notation dirs := (gmap Z (gmap (list Z) Z)).

(** Walking down from a node; names of 255 characters and more are not
    looked up. *)
Fixpoint walk (T : dirs) (v : Z) (names : list (list Z)) : option Z :=
  match names with
  | [] => Some v
  | w :: ws => if NAME_MAX <=? zlen w then None else D ← T !! v; c ← D !! w; walk T c ws
  end.

(** What a path names: an absolute path to a node other than the root. *)
Definition resolve (T : dirs) (root : Z) (path : list Z) : Z :=
  match path with
  | c :: path =>
      if c =? 47 then match walk T root (split path) with Some v => if v =? root then 0 else v | None => 0 end
      else 0
  | [] => 0
  end.

Section spec.
Context {S M : Type} `{Allocator S} `{ByteMem M}.

(** Memory agrees outside the 256 bytes of a buffer. *)
Definition same_outside (fname : Z) (m m' : M) : Prop :=
  ∀ a, a < fname ∨ fname + 256 ≤ a → ld8 m' a = ld8 m a.

(** The [n] bytes at [p] are apart from the buffer. *)
Definition apart (fname p n : Z) : Prop := p + n ≤ fname ∨ fname + 256 ≤ p.

(** The vnodes at the nodes of [T] hold the children [T] gives them, each
    under its own name's storage. *)
Record vtree (s : vfs S M) (T : dirs) : Prop := {
  vt_nonnull v D : T !! v = Some D → v ≠ 0;
  vt_repr v D : T !! v = Some D → repr (vmem s) (children (vnode_at s v)) D;
  vt_keys v D : T !! v = Some D →
    elems_ok (λ k len _, is_Some (T !! k) ∧ len < NAME_MAX) (children (vnode_at s v));
  vt_closed v D w c : T !! v = Some D → D !! w = Some c → is_Some (T !! c);
}.

(** No vnode lies in the buffer. *)
Definition clear_of (fname : Z) (T : dirs) : Prop := ∀ v, is_Some (T !! v) → apart fname v 256.

(** Every node and every table of children is an allocation of its own. *)
Record vheld (s : vfs S M) (U : gmap Z Z) (T : dirs) : Prop := {
  vh_owns : owns (vheap s) U;
  vh_node v : is_Some (T !! v) → ∃ sz, U !! v = Some sz ∧ sizeof_vnode ≤ sz;
  vh_table v : is_Some (T !! v) → let m := children (vnode_at s v) in
    ∃ sz, U !! data_ptr m = Some sz ∧ sizeof_element * table_size m ≤ sz;
  vh_apart v v' : is_Some (T !! v) → is_Some (T !! v') → data_ptr (children (vnode_at s v)) ≠ v';
  vh_inj v v' : is_Some (T !! v) → is_Some (T !! v') →
    data_ptr (children (vnode_at s v)) = data_ptr (children (vnode_at s v')) → v = v';
}.

(** ** Lemmas *)

Lemma bytes_at_outside fname (m m' : M) p n :
  same_outside fname m m' → apart fname p n → bytes_at m' p n = bytes_at m p n.
Proof.
  intros Hm Hp. unfold bytes_at. apply list_fmap_ext. intros k i Hi%list_elem_of_lookup_2%elem_of_seqZ.
  apply Hm. unfold apart in Hp. lia.
Qed.

Lemma is_cstr_outside fname (m m' : M) p l :
  same_outside fname m m' → apart fname p (zlen l + 1) → is_cstr m p l → is_cstr m' p l.
Proof.
  intros Hm Hp (Hb & Hn & He). split; [|split; [done|]].
  - rewrite (bytes_at_outside fname m); [done..|]. unfold apart in *. lia.
  - rewrite Hm; [done|]. unfold apart in *. lia.
Qed.

(** A map reads its keys only. *)
Lemma repr_ext (m m' : M) h Mp :
  (∀ i, 0 ≤ i < table_size h → in_use (data h i) ≠ 0 → ekey m' (data h i) = ekey m (data h i)) →
  repr m h Mp → repr m' h Mp.
Proof.
  intros Hk Hr. split; try apply Hr.
  - intros i Hi Hu. rewrite Hk by done. by apply Hr.
  - intros i j Hi Hj Hui Huj. rewrite !Hk by done. by apply Hr.
  - intros ks v. rewrite (rp_map _ _ _ Hr).
    split; intros (i & Hi & Hu & He & Hv); exists i; rewrite Hk in * by done; done.
Qed.

(** Runs that only touch the buffer. *)
Record scratched (fname : Z) (s s' : vfs S M) : Prop := {
  sc_heap : vheap s' = vheap s;
  sc_nodes : vnode_at s' = vnode_at s;
  sc_root : fs_root s' = fs_root s;
  sc_mem : same_outside fname (vmem s) (vmem s');
}.

#[export] Instance scratched_preorder fname : PreOrder (scratched fname).
Proof.
  split.
  - intros s. by split.
  - intros s1 s2 s3 [? ? ? Hm1] [? ? ? Hm2]. split; [congruence..|].
    intros a Ha. by rewrite Hm2, Hm1.
Qed.

Lemma vtree_scratched s s' fname T : scratched fname s s' → clear_of fname T → vtree s T → vtree s' T.
Proof.
  intros [_ Hn _ Hm] Hcl HT. split; rewrite ?Hn; try apply HT.
  intros v D Hv. eapply repr_ext; [|by apply (vt_repr _ _ HT)].
  intros i Hi Hu. eapply bytes_at_outside; [done|].
  destruct (vt_keys _ _ HT _ _ Hv i Hi Hu) as [Hk Hl]. specialize (Hcl _ Hk). unfold apart, NAME_MAX in *. lia.
Qed.

Lemma scratched_st8 fname s i c :
  0 ≤ i < 256 → 0 ≤ c < 256 → scratched fname s (set_vmem (st8 (vmem s) (fname + i) c) s).
Proof.
  intros Hi Hc. split; [done..|]. intros a Ha. simpl. rewrite ld8_st8 by done.
  destruct (Z.eqb_spec a (fname + i)); [lia|done].
Qed.

Lemma scratched_memzero fname s : scratched fname s (set_vmem (memzero (vmem s) fname 256) s).
Proof.
  split; [done..|]. intros a Ha. simpl. rewrite memzero_ld8 by lia.
  destruct (Z.leb_spec fname a), (Z.ltb_spec a (fname + 256)); try lia; done.
Qed.

Definition prepend (pre : list Z) (names : list (list Z)) : list (list Z) :=
  match names with w :: ws => (pre ++ w) :: ws | [] => [pre] end.

Definition outcome_of (root : Z) (o : option Z) : Z :=
  match o with Some v => if v =? root then 0 else v | None => 0 end.

Lemma split_nonempty l : ∃ w ws, split l = w :: ws.
Proof. destruct l as [|c l]; simpl; [eauto|]. case_match; [eauto|]. case_match; eauto. Qed.

Lemma prepend_char pre c l :
  c ≠ 47 → prepend pre (split (c :: l)) = prepend (pre ++ [c]) (split l).
Proof.
  intros Hc. simpl. destruct (Z.eqb_spec c 47); [done|].
  destruct (split_nonempty l) as (w & ws & ->). simpl. by rewrite <- app_assoc.
Qed.

Lemma walk_long T v pre names : NAME_MAX ≤ zlen pre → walk T v (prepend pre names) = None.
Proof.
  intros Hl. destruct names as [|w ws]; simpl;
    (destruct (Z.leb_spec NAME_MAX (zlen (pre ++ w))) || destruct (Z.leb_spec NAME_MAX (zlen pre)));
    rewrite ?length_app in *; done || lia.
Qed.

Lemma wp_name2vnode T s p w parent D (Q : Z → vfs S M → Prop) :
  vtree s T → T !! parent = Some D → is_cstr (vmem s) p w → zlen w < NAME_MAX →
  Q (default 0 (D !! w)) s → wp (name2vnode (Z.to_nat 256) p parent) s Q.
Proof.
  intros HT HD Hw Hl HQ. unfold name2vnode, NAME_MAX in *. apply wp_bind, wp_bind, wp_nonnull; [by eapply vt_nonnull|].
  apply wp_gets, wp_bind. unfold str_len. apply wp_bind, wp_gets.
  rewrite (strlen_cstr _ _ _ w) by (done || lia). apply wp_ret, wp_bind, wp_gets, wp_zoom.
  rewrite w32_small by lia. eapply wp_hashmap_get; [by apply (vt_repr _ _ HT)|lia|].
  destruct Hw as (Hb & _). rewrite Hb. destruct s. exact HQ.
Qed.

(** One name of a path: the buffer is terminated, looked up and cleared. *)
Lemma wp_component fname T s pre v D (k : Z → ST (vfs S M) Z) (Q : Z → vfs S M → Prop) :
  vtree s T → clear_of fname T → T !! v = Some D → bytes_at (vmem s) fname (zlen pre) = pre → 0 ∉ pre → zlen pre < NAME_MAX →
  (D !! pre = None → ∀ s', scratched fname s s' → Q 0 s') →
  (∀ c D' s', D !! pre = Some c → T !! c = Some D' → scratched fname s s' → wp (k c) s' Q) →
  wp (modify (λ s, set_vmem (st8 (vmem s) (fname + zlen pre) 0) s) ;;
      c ← name2vnode (Z.to_nat 256) fname v;
      if c =? 0 then mret 0
      else modify (λ s, set_vmem (memzero (vmem s) fname (NAME_MAX + 1)) s) ;; k c) s Q.
Proof.
  intros HT Hcl HD Hb Hpre Hl HQ0 HQ1. unfold NAME_MAX in Hl. apply wp_bind, wp_modify, wp_bind.
  pose proof (scratched_st8 fname s (zlen pre) 0 ltac:(lia) ltac:(lia)) as Hsc.
  eapply wp_name2vnode; [by eapply vtree_scratched|exact HD| |exact Hl|].
  - simpl. split; [|split; [done|]].
    + by rewrite bytes_at_st8 by lia.
    + rewrite ld8_st8 by lia. by rewrite Z.eqb_refl.
  - destruct (D !! pre) as [c|] eqn:Hc; [simpl|by apply wp_ret, HQ0].
    destruct (vt_closed _ _ HT _ _ _ _ HD Hc) as [D' HD'].
    destruct (Z.eqb_spec c 0) as [->|_]; [by destruct (vt_nonnull _ _ HT _ _ HD')|].
    apply wp_bind, wp_modify. apply (HQ1 c D'); [done..|]. etrans; [exact Hsc|apply scratched_memzero].
Qed.

(** One more character of a name. *)
Lemma buffer_snoc fname (s : vfs S M) pre c :
  bytes_at (vmem s) fname (zlen pre) = pre → 0 ≤ c < 256 →
  bytes_at (st8 (vmem s) (fname + zlen pre) c) fname (zlen (pre ++ [c])) = pre ++ [c].
Proof.
  intros Hb Hc. rewrite length_app, Nat2Z.inj_add. simpl. rewrite bytes_at_snoc by lia. f_equal.
  - by rewrite bytes_at_st8 by lia.
  - rewrite ld8_st8 by lia. by rewrite Z.eqb_refl.
Qed.

(** The loop on the rest of a path, with the first bytes of a name in the
    buffer. *)
Lemma wp_path_loop fname T root rest (Hcl : clear_of fname T) : ∀ pre v D ptr s fuel,
  vtree s T → fs_root s = root → T !! v = Some D →
  is_cstr (vmem s) ptr rest → apart fname ptr (zlen rest + 1) →
  bytes_at (vmem s) fname (zlen pre) = pre → 0 ∉ pre → zlen pre ≤ NAME_MAX → (length rest < fuel)%nat →
  wp (path_loop fuel fname v ptr (zlen pre)) s (λ r s',
    scratched fname s s' ∧ r = outcome_of root (walk T v (prepend pre (split rest)))).
Proof.
  induction rest as [|c rest IH]; intros pre v D ptr s fuel HT Hroot HD Hs Hap Hb Hpre Hlen Hf;
    (destruct fuel as [|fuel]; [simpl in Hf; lia|]); cbn [path_loop];
    (destruct (Z.leb_spec NAME_MAX (zlen pre)) as [Hmax|Hmax];
      [apply wp_ret; split; [reflexivity|by rewrite walk_long]|]); unfold NAME_MAX in Hmax.
  - apply is_cstr_nil in Hs as Hz. apply wp_bind, wp_gets. rewrite Hz, orb_true_r. simpl. rewrite app_nil_r.
    destruct (Z.leb_spec NAME_MAX (zlen pre)) as [?|_]; [unfold NAME_MAX in *; lia|]. rewrite HD. simpl.
    eapply wp_component; [done..|by intros -> s1 Hsc|]. intros c D' s1 -> HD' Hsc.
    apply wp_bind, wp_gets. replace (ptr + 1 - 1) with ptr by lia.
    rewrite (sc_mem _ _ _ Hsc ptr), Hz by (unfold apart in Hap; simpl in Hap; lia). simpl.
    apply wp_bind, wp_gets, wp_ret. rewrite (sc_root _ _ _ Hsc), Hroot. split; [exact Hsc|]. by destruct (c =? root).
  - apply is_cstr_cons in Hs as (Hc & Hc0 & Hs').
    pose proof (ld8_range (vmem s) ptr) as Hrange. rewrite Hc in Hrange.
    apply wp_bind, wp_gets. rewrite Hc. destruct (Z.eqb_spec c 0) as [->|_]; [done|]. rewrite orb_false_r.
    assert (apart fname (ptr + 1) (zlen rest + 1)) as Hap' by (unfold apart in *; simpl in Hap; lia).
    destruct (Z.eqb_spec c 47) as [->|Hne].
    + simpl. rewrite app_nil_r.
      destruct (Z.leb_spec NAME_MAX (zlen pre)) as [?|_]; [unfold NAME_MAX in *; lia|]. rewrite HD. simpl.
      eapply wp_component; [done..|by intros -> s1 Hsc|]. intros c D' s1 -> HD' Hsc.
      apply wp_bind, wp_gets. replace (ptr + 1 - 1) with ptr by lia.
      rewrite (sc_mem _ _ _ Hsc ptr), Hc by (unfold apart in Hap; simpl in Hap; lia). simpl.
      eapply wp_mono; [apply (IH [] c D'); [by eapply vtree_scratched| |done| |done|done|by apply not_elem_of_nil|done|simpl in Hf; lia]|].
      * by rewrite (sc_root _ _ _ Hsc).
      * eapply is_cstr_outside; [by apply sc_mem|done|exact Hs'].
      * intros r s2 [Hsc' ->]. split; [by etrans|]. by destruct (split_nonempty rest) as (w & ws & ->).
    + pose proof (scratched_st8 fname s (zlen pre) c ltac:(lia) ltac:(lia)) as Hsc.
      apply wp_bind, wp_modify. rewrite prepend_char by done.
      replace (zlen pre + 1) with (zlen (pre ++ [c])) by (rewrite length_app; simpl; lia).
      eapply wp_mono; [apply (IH (pre ++ [c]) v D); [by eapply vtree_scratched| |done| |done| | | |simpl in Hf; lia]|].
      * by rewrite (sc_root _ _ _ Hsc).
      * eapply is_cstr_outside; [by apply sc_mem|done|exact Hs'].
      * apply buffer_snoc; [done|lia].
      * rewrite not_elem_of_app, list_elem_of_singleton. done.
      * rewrite length_app. simpl. unfold NAME_MAX. lia.
      * intros r s2 [Hsc' ->]. split; [by etrans|done].
Qed.

(** ** Lemmas on construction *)

Notation careful := (surely allocator_ops).

Lemma repr_empty_free km m : repr km m ∅ → ∀ i, 0 ≤ i < table_size m → in_use (data m i) = 0.
Proof.
  intros Hr i Hi. destruct (decide (in_use (data m i) = 0)) as [|Hu]; [done|].
  assert ((∅ : gmap (list Z) Z) !! ekey km (data m i) = Some (edata (data m i))) as Hl by (apply (rp_map _ _ _ Hr); eauto).
  by rewrite lookup_empty in Hl.
Qed.

Lemma is_cstr_same (m m' : M) p l :
  (∀ a, p ≤ a ≤ p + zlen l → ld8 m' a = ld8 m a) → is_cstr m p l → is_cstr m' p l.
Proof.
  intros Hm (Hb & Hn & He). split; [|split; [done|]].
  - rewrite <- Hb at 2. apply list_fmap_ext. intros k i Hi%list_elem_of_lookup_2%elem_of_seqZ. apply Hm. lia.
  - rewrite Hm; [done|lia].
Qed.

(** What [vfs_make_vnode] leaves at the new vnode: an empty directory node
    with the name in its storage. *)
Record made (s : vfs S M) (U : gmap Z Z) (w : list Z) (vt : vtype) (mp new : Z) (s' : vfs S M) : Prop := {
  md_fresh : new ≠ 0 ∧ U !! new = None;
  md_mem a : a < new ∨ new + sizeof_vnode ≤ a → ld8 (vmem s') a = ld8 (vmem s) a;
  md_name : is_cstr (vmem s') new w;
  md_others v : v ≠ new → vnode_at s' v = vnode_at s v;
  md_node : v_type (vnode_at s' new) = vt ∧ v_state (vnode_at s' new) = VSTATE_CONSTRUCTED ∧
    v_flags (vnode_at s' new) = (if mp =? 0 then 0 else V_MOUNTPOINT);
  md_root : fs_root s' = fs_root s;
  md_repr : repr (vmem s') (children (vnode_at s' new)) ∅;
  md_owned : ∃ nsz tsz, let m := children (vnode_at s' new) in
    sizeof_vnode ≤ nsz ∧ sizeof_element * table_size m ≤ tsz ∧ data_ptr m ≠ new ∧ U !! data_ptr m = None ∧
    owns (vheap s') (<[data_ptr m:=tsz]> (<[new:=nsz]> U));
}.

(** The name lies in an allocation, or is empty. *)
Definition name_held (U : gmap Z Z) (name : Z) (w : list Z) : Prop :=
  w = [] ∨ ∃ a sz, U !! a = Some sz ∧ a ≤ name ∧ name + zlen w + 1 ≤ a + sz.

Lemma name_kept h U name w new nsz m m' :
  name_held U name w → owns h (<[new:=nsz]> U) → U !! new = None → sizeof_vnode ≤ nsz →
  is_cstr m name w → (∀ a, ld8 m' a = if (new <=? a) && (a <? new + sizeof_vnode) then 0 else ld8 m a) →
  is_cstr m' name w ∧ (w = [] ∨ name + zlen w + 1 ≤ new ∨ new + sizeof_vnode ≤ name).
Proof.
  intros [->|(a & sz & Ha & Hlo & Hhi)] Ho Hf Hsz Hw Hm.
  - split; [|by left]. apply is_cstr_nil in Hw. apply is_cstr_nil. rewrite Hm. by case_match.
  - assert (a ≠ new) as Hne by congruence.
    assert (a + sz ≤ new ∨ new + nsz ≤ a) as Hsep.
    { eapply owns_separate; [exact Ho| |apply lookup_insert_eq|done]. by rewrite lookup_insert_ne. }
    unfold sizeof_vnode in *. split; [|right; lia]. eapply is_cstr_same; [|exact Hw]. intros x Hx. rewrite Hm.
    destruct (Z.leb_spec new x), (Z.ltb_spec x (new + 304)); try done; lia.
Qed.

Lemma pow2_2 : pow2_size 2.
Proof. exists 1. split; [lia|done]. Qed.

Lemma wp_vfs_make_vnode s0 s U fuel name w vt mp (Q : Z → vfs S M → Prop) :
  heap_steps s0 (vheap s) → owns (vheap s) U → is_cstr (vmem s) name w → zlen w < NAME_MAX → (length w < fuel)%nat →
  name_held U name w →
  (∀ new s', made s U w vt mp new s' → heap_steps s0 (vheap s') → Q new s') →
  wp_unless (vfs_make_vnode (ops := careful) fuel name vt mp) (vfs_make_vnode fuel name vt mp) s Q.
Proof.
  intros Hst Ho Hw Hl Hf Hn HQ. unfold vfs_make_vnode. apply wp_unless_step.
  apply wp_bind, wp_gets. rewrite (strlen_cstr _ _ _ w) by done. apply wp_ret.
  destruct (Z.leb_spec NAME_MAX (zlen w)); [lia|].
  apply wp_unless_bind, wp_unless_zoom. eapply wp_kcalloc; [done..|done|].
  intros new nsz h Hnew Hfresh Hnsz _ Hst1 Ho1. apply wp_unless_step, wp_modify.
  apply wp_unless_step, wp_bind, wp_nonnull; [exact Hnew|]. apply wp_modify. simpl.
  destruct (name_kept h U name w new nsz (vmem s) (memzero (vmem s) new sizeof_vnode) Hn Ho1 Hfresh) as [Hw1 Hsep];
    [unfold sizeof_vnode in *; lia|done|intros a; apply memzero_ld8; unfold sizeof_vnode; lia|].
  apply wp_unless_bind, wp_unless_zoom. simpl.
  eapply (wp_hashmap_create (memcpy (memzero (vmem s) new sizeof_vnode) new name (zlen w)));
    [exact Hst1|exact Ho1|lia| |intros Hnp; by destruct (Hnp pow2_2)].
  intros _ m h2 Hts Hr (Hst2 & tsz & Htsz & Hmf & Ho2) _. cbv beta iota.
  apply wp_unless_step, wp_bind, wp_nonnull; [exact Hnew|]. apply wp_modify.
  apply wp_unless_step, wp_assert; [done|]. apply wp_unless_step. apply wp_bind, wp_gets. simpl.
  rewrite (strlen_cstr _ _ _ w) by done. apply wp_ret, wp_unless_step, wp_modify, wp_unless_ret, HQ; [|exact Hst2].
  rewrite lookup_insert_None in Hmf. destruct Hmf as [Hmf Hmn].
  unfold NAME_MAX, sizeof_vnode in *.
  assert (∀ a, ld8 (memcpy (memzero (vmem s) new 304) new name (zlen w)) a =
    if (new <=? a) && (a <? new + zlen w) then ld8 (memzero (vmem s) new 304) (name + (a - new))
    else ld8 (memzero (vmem s) new 304) a) as Hcpy.
  { intros a. destruct Hsep as [->|Hsep]; [|apply memcpy_ld8; lia].
    change (Z.of_nat (length (@nil Z))) with 0. unfold memcpy. simpl.
    destruct (Z.leb_spec new a), (Z.ltb_spec a (new + 0)); try lia; done. }
  split; simpl; rewrite ?upd_eq; try done.
  - unfold sizeof_vnode. intros a Ha. rewrite Hcpy, !memzero_ld8 by lia.
    destruct (Z.leb_spec new a), (Z.ltb_spec a (new + zlen w)), (Z.ltb_spec a (new + 304)); try lia; done.
  - split; [|split; [apply Hw1|]].
    + rewrite <- (proj1 Hw1) at 3. apply list_fmap_ext.
      intros k i Hi%list_elem_of_lookup_2%elem_of_seqZ. rewrite Hcpy.
      destruct (Z.leb_spec new (new + i)), (Z.ltb_spec (new + i) (new + zlen w)); try lia. simpl. f_equal. lia.
    + rewrite Hcpy, !memzero_ld8 by lia.
      destruct (Z.leb_spec new (new + zlen w)), (Z.ltb_spec (new + zlen w) (new + zlen w)), (Z.ltb_spec (new + zlen w) (new + 304)); try lia; done.
  - intros v Hv. by rewrite !upd_ne by done.
  - split_and!; [done..|]. by destruct (mp =? 0).
  - exists nsz, tsz. done.
Qed.

(** Adding an unlinked node. *)
Section made.
Context (s s' : vfs S M) (U : gmap Z Z) (T : dirs) (w : list Z) (vt : vtype) (mp new : Z).
Context (HT : vtree s T) (HU : vheld s U T) (Hmd : made s U w vt mp new s').

Lemma made_old v : is_Some (T !! v) → v ≠ new ∧ ∃ sz, U !! v = Some sz ∧ sizeof_vnode ≤ sz.
Proof using HU Hmd.
  intros Hv. destruct (vh_node _ _ _ HU v Hv) as (sz & Hl & Hsz), (md_fresh _ _ _ _ _ _ _ Hmd). split; [congruence|eauto].
Qed.

Lemma made_none : T !! new = None.
Proof using HU Hmd. destruct (T !! new) eqn:E; [|done]. by destruct (made_old new) as [? _]. Qed.

Lemma made_case v : is_Some (<[new:=∅]> T !! v) → v = new ∨ v ≠ new ∧ is_Some (T !! v).
Proof. destruct (decide (v = new)) as [->|]; [by left|]. rewrite lookup_insert_ne by done. by right. Qed.

Lemma vtree_made : vtree s' (<[new:=∅]> T).
Proof using HT HU Hmd.
  pose proof made_old as Hin. destruct Hmd as [[Hn0 Hfr] Hmem _ Hoth _ _ Hr (nsz & tsz & Hnsz & _ & Hpn & Hpf & Ho)]. split.
  - intros v D. rewrite lookup_insert_Some. intros [[<- _]|[_ Hv]]; [done|by eapply vt_nonnull].
  - intros v D. rewrite lookup_insert_Some. intros [[<- <-]|[Hne Hv]]; [exact Hr|]. rewrite Hoth by done.
    eapply repr_ext; [|by apply (vt_repr _ _ HT)]. intros i Hi Hu.
    destruct (vt_keys _ _ HT _ _ Hv i Hi Hu) as [Hk Hl]. apply list_fmap_ext.
    intros k j Hj%list_elem_of_lookup_2%elem_of_seqZ. apply Hmem.
    destruct (Hin _ Hk) as (Hkn & ksz & HkU & Hksz). unfold NAME_MAX, sizeof_vnode in *.
    assert (key (data (children (vnode_at s v)) i) + ksz ≤ new ∨ new + nsz ≤ key (data (children (vnode_at s v)) i)); [|lia].
    eapply owns_separate; [exact Ho| | |done].
    + rewrite !lookup_insert_ne; congruence.
    + rewrite lookup_insert_ne, lookup_insert_eq by done. done.
  - intros v D. rewrite lookup_insert_Some. intros [[<- <-]|[Hne Hv]].
    + intros i Hi Hu. by destruct Hu, (repr_empty_free _ _ Hr i).
    + rewrite Hoth by done. intros i Hi Hu. destruct (vt_keys _ _ HT _ _ Hv i Hi Hu) as [Hk Hl].
      split; [|done]. destruct (Hin _ Hk). by rewrite lookup_insert_ne.
  - intros v D w' c. rewrite lookup_insert_Some. intros [[<- <-]|[Hne Hv]] Hw; [by rewrite lookup_empty in Hw|].
    rewrite lookup_insert_is_Some'. right. by eapply vt_closed.
Qed.

Lemma vheld_made : ∃ U', U ⊆ U' ∧ vheld s' U' (<[new:=∅]> T).
Proof using HU Hmd.
  pose proof made_old as Hin. destruct Hmd as [[Hn0 Hfr] _ _ Hoth _ _ _ (nsz & tsz & Hnsz & Htsz & Hpn & Hpf & Ho)].
  exists (<[data_ptr (children (vnode_at s' new)):=tsz]> (<[new:=nsz]> U)). split.
  { etrans; apply insert_subseteq; [done|]. by rewrite lookup_insert_ne. }
  split; [exact Ho|..].
  - intros v [->|[Hne Hv]]%made_case.
    + exists nsz. by rewrite lookup_insert_ne, lookup_insert_eq.
    + destruct (vh_node _ _ _ HU v Hv) as (sz & Hl & Hsz). exists sz. split; [|done]. rewrite !lookup_insert_ne; congruence.
  - intros v [->|[Hne Hv]]%made_case m; [exists tsz; by rewrite lookup_insert_eq|]. unfold m. rewrite Hoth by done.
    destruct (vh_table _ _ _ HU v Hv) as (sz & Hl & Hsz). exists sz. split; [|done]. rewrite !lookup_insert_ne; congruence.
  - intros v v' [->|[Hne Hv]]%made_case [->|[Hne' Hv']]%made_case; [done|..].
    + destruct (Hin _ Hv') as (_ & sz & ? & _). congruence.
    + rewrite Hoth by done. destruct (vh_table _ _ _ HU v Hv) as (sz & ? & _). congruence.
    + rewrite Hoth by done. by apply (vh_apart _ _ _ HU).
  - intros v v' [->|[Hne Hv]]%made_case [->|[Hne' Hv']]%made_case; [done|..].
    + rewrite (Hoth v') by done. destruct (vh_table _ _ _ HU v' Hv') as (sz & ? & _). congruence.
    + rewrite (Hoth v) by done. destruct (vh_table _ _ _ HU v Hv) as (sz & ? & _). congruence.
    + rewrite !Hoth by done. by apply (vh_inj _ _ _ HU).
Qed.
End made.

(** Only the memory, the heap and the children matter. *)
Lemma vtree_same s s' T :
  vmem s' = vmem s → (∀ v, children (vnode_at s' v) = children (vnode_at s v)) → vtree s T → vtree s' T.
Proof. intros Hm Hc HT. split; intros v; rewrite ?Hm, ?Hc; apply HT. Qed.

Lemma vheld_same s s' U T :
  vheap s' = vheap s → (∀ v, children (vnode_at s' v) = children (vnode_at s v)) → vheld s U T → vheld s' U T.
Proof.
  intros Hm Hc HU. split; [rewrite Hm; apply HU|..]; intros v; rewrite ?Hc; [apply HU..| |];
    intros v'; rewrite ?Hc; apply HU.
Qed.

(** The children of one node of the tree are replaced. *)
Lemma vtree_relink s s' T p D D' :
  vtree s T → T !! p = Some D → vmem s' = vmem s → (∀ v, v ≠ p → vnode_at s' v = vnode_at s v) →
  repr (vmem s) (children (vnode_at s' p)) D' →
  elems_ok (λ k len _, is_Some (T !! k) ∧ len < NAME_MAX) (children (vnode_at s' p)) →
  (∀ w c, D' !! w = Some c → is_Some (T !! c)) →
  vtree s' (<[p:=D']> T).
Proof.
  intros HT Hp Hmem Hoth Hr He Hc.
  assert (∀ v, is_Some (T !! v) → is_Some (<[p:=D']> T !! v)) as Hin
    by (intros v Hv; rewrite lookup_insert_is_Some'; by right).
  split.
  - intros v D0. rewrite lookup_insert_Some. intros [[<- _]|[_ Hv]]; by eapply vt_nonnull.
  - intros v D0. rewrite Hmem, lookup_insert_Some. intros [[<- <-]|[Hne Hv]]; [exact Hr|].
    rewrite Hoth by done. by apply (vt_repr _ _ HT).
  - intros v D0. rewrite lookup_insert_Some. intros [[<- <-]|[Hne Hv]] i Hi Hu.
    + destruct (He i Hi Hu). auto.
    + rewrite Hoth in * by done. destruct (vt_keys _ _ HT _ _ Hv i Hi Hu). auto.
  - intros v D0 w c. rewrite lookup_insert_Some. intros [[<- <-]|[Hne Hv]] Hw; apply Hin; [by eapply Hc|by eapply vt_closed].
Qed.

Lemma vheld_relink s s' U T p D' sz :
  vheld s U T → is_Some (T !! p) → (∀ v, v ≠ p → vnode_at s' v = vnode_at s v) →
  let m := children (vnode_at s p) in let m' := children (vnode_at s' p) in
  delete (data_ptr m) U !! data_ptr m' = None → sizeof_element * table_size m' ≤ sz →
  owns (vheap s') (<[data_ptr m':=sz]> (delete (data_ptr m) U)) →
  vheld s' (<[data_ptr m':=sz]> (delete (data_ptr m) U)) (<[p:=D']> T).
Proof.
  intros HU Hp Hoth m m' Hf Hsz Ho.
  assert (∀ v, is_Some (<[p:=D']> T !! v) → is_Some (T !! v)) as Hin.
  { intros v. rewrite lookup_insert_is_Some'. by intros [<-|Hv]. }
  assert (∀ v sz', is_Some (T !! v) → U !! v = Some sz' → delete (data_ptr m) U !! v = Some sz') as Hnode.
  { intros v sz' Hv Hl. rewrite lookup_delete_ne; [done|]. by apply (vh_apart _ _ _ HU). }
  assert (∀ v sz', v ≠ p → is_Some (T !! v) → U !! data_ptr (children (vnode_at s v)) = Some sz' →
    delete (data_ptr m) U !! data_ptr (children (vnode_at s v)) = Some sz') as Htab.
  { intros v sz' Hne Hv Hl. rewrite lookup_delete_ne; [done|]. intros E. apply Hne. symmetry. by apply (vh_inj _ _ _ HU). }
  split; [exact Ho|..].
  - intros v Hv%Hin. destruct (vh_node _ _ _ HU v Hv) as (sz' & Hl & ?). exists sz'. split; [|done].
    specialize (Hnode v sz' Hv Hl). rewrite lookup_insert_ne; congruence.
  - intros v Hv%Hin m0. destruct (decide (v = p)) as [->|Hne]; [exists sz; by rewrite lookup_insert_eq|].
    unfold m0. rewrite Hoth by done. destruct (vh_table _ _ _ HU v Hv) as (sz' & Hl & ?). exists sz'. split; [|done].
    specialize (Htab v sz' Hne Hv Hl). rewrite lookup_insert_ne; congruence.
  - intros v v' Hv%Hin Hv'%Hin. destruct (decide (v = p)) as [->|Hne].
    + destruct (vh_node _ _ _ HU v' Hv') as (sz' & Hl & _). specialize (Hnode _ _ Hv' Hl). fold m'. congruence.
    + rewrite Hoth by done. by apply (vh_apart _ _ _ HU).
  - intros v v' Hv%Hin Hv'%Hin. destruct (decide (v = p)) as [->|Hne], (decide (v' = p)) as [->|Hne']; [done|..].
    + rewrite (Hoth v') by done. destruct (vh_table _ _ _ HU v' Hv') as (sz' & Hl & _).
      specialize (Htab _ _ Hne' Hv' Hl). fold m'. congruence.
    + rewrite (Hoth v) by done. destruct (vh_table _ _ _ HU v Hv) as (sz' & Hl & _).
      specialize (Htab _ _ Hne Hv Hl). fold m'. congruence.
    + rewrite !Hoth by done. by apply (vh_inj _ _ _ HU).
Qed.

Lemma wp_vfs_append_child s0 s U T fuel p q D c w (Q : unit → vfs S M → Prop) :
  heap_steps s0 (vheap s) → vtree s T → vheld s U T → q = (if p =? 0 then fs_root s else p) → T !! q = Some D →
  is_Some (T !! c) → is_cstr (vmem s) c w → zlen w < NAME_MAX → (length w < fuel)%nat →
  (∀ s', vmem s' = vmem s → fs_root s' = fs_root s →
     (∀ v, v_type (vnode_at s' v) = v_type (vnode_at s v) ∧ v_state (vnode_at s' v) = v_state (vnode_at s v)) →
     limit s0 (children (vnode_at s q)) ∨ (∃ U', vtree s' (<[q:=<[w:=c]> D]> T) ∧ vheld s' U' (<[q:=<[w:=c]> D]> T)) →
     Q tt s') →
  wp_unless (vfs_append_child (ops := careful) fuel p c) (vfs_append_child fuel p c) s Q.
Proof.
  intros Hst HT HU Hq HD [Dc HDc] Hw Hl Hf HQ. apply wp_unless_step, wp_gets. cbv zeta. rewrite <- Hq. unfold NAME_MAX in Hl.
  apply wp_unless_step, wp_bind, wp_nonnull; [by eapply vt_nonnull|]. apply wp_gets.
  apply wp_unless_step, wp_nonnull; [by eapply vt_nonnull|]. apply wp_unless_step, wp_bind, wp_gets.
  rewrite (strlen_cstr _ _ _ w) by done. apply wp_ret, wp_unless_step, wp_gets, wp_unless_bind, wp_unless_zoom.
  rewrite w32_small by lia. set (m := children (vnode_at s q)).
  destruct (vh_table _ _ _ HU q ltac:(eauto)) as (sz & HUm & Hsz). fold m in HUm, Hsz.
  pose proof (vt_repr _ _ HT _ _ HD) as Hr. fold m in Hr. pose proof (pow2_size_pos _ (rp_size _ _ _ Hr)).
  pose proof Hw as (Hb & _).
  eapply wp_unless_mono; [apply wp_unless_wlp;
    [apply (put_ok_fuel (vmem s) s0 33 m D (delete (data_ptr m) U)); [exact Hr|lia| |]|
     apply (wlp_put_elems (vmem s) (λ k len _, is_Some (T !! k) ∧ len < NAME_MAX));
       [by apply (vt_keys _ _ HT _ _ HD)|split; [by eauto|exact Hl]]]|].
  { change (2 ^ (32 - Z.of_nat 33)) with 0. lia. }
  { split; [exact Hst|]. exists sz. rewrite insert_delete_id by done. split; [done|]. split; [apply lookup_delete_eq|apply HU]. }
  rewrite Hb. intros [flag m'] h [Hpost Hel]. cbv beta iota in *.
  apply wp_unless_wp, wp_bind, wp_nonnull; [by eapply vt_nonnull|]. apply wp_modify.
  apply HQ; [done|done| |].
  { intros v. simpl. unfold upd. destruct (Z.eqb_spec v q) as [->|]; split; reflexivity. }
  destruct Hpost as [(_ & _ & Hr' & (Hst' & sz' & Hsz' & Hf' & Ho') & _)|(_ & Hlim & _)]; [right|by left].
  exists (<[data_ptr m':=sz']> (delete (data_ptr m) U)). simpl in Hr', Hsz', Hf', Ho', Hel. split.
  - eapply vtree_relink; [exact HT|exact HD|done|..]; simpl; rewrite ?upd_eq; simpl; try done.
    + intros v Hv. by apply upd_ne.
    + intros w' c'. rewrite lookup_insert_Some. intros [[<- <-]|[_ Hw']]; [by exists Dc|].
      exact (vt_closed _ _ HT q D w' c' HD Hw').
  - pose proof (vheld_relink s (set_vnode q (with_children m' (vnode_at s q)) (set_vheap h s)) U T q (<[w:=c]> D) sz' HU) as Hrl.
    simpl in Hrl. rewrite upd_eq in Hrl. simpl in Hrl. apply Hrl; try done. intros v Hv. by apply upd_ne.
Qed.

Lemma wp_vfs_init s U fuel empty_str :
  owns (vheap s) U → ld8 (vmem s) empty_str = 0 → (0 < fuel)%nat →
  unless_exhausted (λ ops, vfs_init (ops := ops) fuel empty_str) s (λ _ s',
    let root := vnode_at s' (fs_root s') in
    v_type root = VDIR ∧ v_flags root = Z.lor V_MOUNTPOINT V_ROOT ∧
    vtree s' {[fs_root s' := ∅]} ∧ ∃ U', U ⊆ U' ∧ vheld s' U' {[fs_root s' := ∅]}).
Proof.
  intros Ho Hz Hf. apply wp_unless_bind. eapply (wp_vfs_make_vnode (vheap s) s U fuel empty_str []);
    [apply hs_refl|exact Ho|by apply is_cstr_nil|done|done|by left|]. intros new s1 Hmd _.
  assert (vtree s ∅) as HT by by split. assert (vheld s U ∅) as HU.
  { assert (∀ v, is_Some ((∅ : dirs) !! v) → False) as He by (intros v; rewrite lookup_empty; by intros [? ?]).
    split; [exact Ho|..]; intros; exfalso; eapply He; eassumption. }
  pose proof (vtree_made _ _ _ _ _ _ _ _ HT HU Hmd) as HT1. rewrite insert_empty in HT1.
  destruct (vheld_made _ _ _ _ _ _ _ _ HU Hmd) as (U1 & HUU & HU1). rewrite insert_empty in HU1.
  destruct (md_fresh _ _ _ _ _ _ _ Hmd) as [Hn0 _], (md_node _ _ _ _ _ _ _ Hmd) as (Hvt & _ & Hfl).
  apply wp_unless_wp, wp_bind, wp_modify, wp_bind, wp_nonnull; [exact Hn0|]. apply wp_modify. simpl. rewrite upd_eq. simpl.
  rewrite Hfl. split; [exact Hvt|]. split; [done|].
  split; [eapply vtree_same; [| |exact HT1]|exists U1; split; [exact HUU|eapply vheld_same; [| |exact HU1]]];
    try done; intros v; simpl; unfold upd; by destruct (Z.eqb_spec v new) as [->|].
Qed.

(** What the first vnode requests of the heap. *)
Definition vnode_requests (l : list Z) : list Z := sizeof_vnode :: sizeof_element * 2 :: l.

Lemma wp_calloc_room (h : S) U n size l (Q : Z → S → Prop) :
  0 ≤ size * n < 2 ^ 64 → room h U (size * n :: l) →
  (∀ p sz h', p ≠ 0 → U !! p = None → size * n ≤ sz → room h' (<[p:=sz]> U) l → Q p h') → wp (calloc n size) h Q.
Proof.
  intros Hn Hr HQ. unfold calloc. rewrite w64_small by done. apply wp_bind. eapply room_alloc; [exact Hr|].
  intros p sz h' Hp _ Hf Hsz Hr'. apply wp_bind, wp_guard; [by rewrite (proj2 (Z.eqb_neq p 0)) by lia|].
  apply wp_ret, (HQ p sz); try done. lia.
Qed.

(** With room for the root, start-up of the file system completes. *)
Lemma wp_vfs_init_room s U l fuel empty_str (Q : unit → vfs S M → Prop) :
  room (vheap s) U (vnode_requests l) → ld8 (vmem s) empty_str = 0 → (0 < fuel)%nat →
  (∀ s' U', U ⊆ U' → room (vheap s') U' l → Q tt s') →
  wp (vfs_init fuel empty_str) s Q.
Proof.
  intros Hr Hz Hf HQ. unfold vfs_init, vfs_make_vnode. apply wp_bind.
  assert (∀ mm : M, ld8 mm empty_str = 0 → strlen fuel mm empty_str = Some 0) as Hlen.
  { intros mm Hmm. by rewrite (strlen_cstr fuel mm empty_str []); [|by apply is_cstr_nil|]. }
  apply wp_bind, wp_bind, wp_gets. rewrite Hlen by exact Hz. apply wp_ret.
  change (NAME_MAX <=? 0) with false. cbv iota.
  apply wp_bind, wp_zoom. eapply wp_calloc_room; [unfold sizeof_vnode; lia|exact Hr|].
  intros new nsz h1 Hnew Hfresh _ Hr1. apply wp_bind, wp_modify, wp_bind, wp_bind, wp_nonnull; [exact Hnew|]. apply wp_modify.
  apply wp_bind, wp_zoom, wp_bind. eapply wp_calloc_room; [unfold sizeof_element; lia|exact Hr1|].
  intros tab tsz h2 Htab Hfresh2 _ Hr2. rewrite (proj2 (Z.eqb_neq tab 0) Htab). apply wp_ret. cbv beta iota.
  apply wp_bind, wp_bind, wp_nonnull; [exact Hnew|]. apply wp_modify, wp_bind, wp_assert; [done|].
  apply wp_bind, wp_bind, wp_gets. rewrite Hlen.
  - apply wp_ret, wp_bind, wp_modify, wp_ret, wp_bind, wp_modify, wp_bind, wp_nonnull; [exact Hnew|]. apply wp_modify.
    eapply HQ; [|exact Hr2]. etrans; [by apply (insert_subseteq U new nsz)|by apply insert_subseteq].
  - simpl. rewrite memzero_ld8 by (unfold sizeof_vnode; lia). by case_match.
Qed.

(** ** Properties *)



(** [vfs_init] makes the root: a mount point marked as root, alone in a
    tree of one node without children. *)
Theorem vfs_init_root s U fuel empty_str :
  owns (vheap s) U → ld8 (vmem s) empty_str = 0 → (0 < fuel)%nat →
  unless_exhausted (λ ops, vfs_init (ops := ops) fuel empty_str) s (λ _ s',
    let root := vnode_at s' (fs_root s') in
    v_type root = VDIR ∧ v_flags root = Z.lor V_MOUNTPOINT V_ROOT ∧
    vtree s' {[fs_root s' := ∅]} ∧ ∃ U', U ⊆ U' ∧ vheld s' U' {[fs_root s' := ∅]}).
Proof. apply wp_vfs_init. Qed.
End spec.

(** ** Witnesses *)

(** The file "/a", hand-made: the root at 4096, the file at 8192, and the path
    at 100. *)
Definition file_mem : bmem := BMem (λ a, if a =? 100 then 47 else if (a =? 101) || (a =? 8192) then 97 else 0).
Definition file_table (p : Z) : hashmap := set_elem (Hashmap 1 1 p (λ _, blank_elem)) 0 (Elem 8192 1 1 8192).
Definition file_vfs : vfs heap bmem :=
  Vfs (Heap TlsfProps.blank 0 0) file_mem
    (λ v, Vnode VDIR VSTATE_CONSTRUCTED 0 0 (if v =? 4096 then file_table 64 else Hashmap 1 0 72 (λ _, blank_elem)) 0) 4096.
Definition file_tree : dirs := <[4096:=<[[97]:=8192]> ∅]> {[8192 := ∅]}.

Lemma file_table_repr : repr file_mem (file_table 64) (<[[97]:=8192]> ∅).
Proof.
  change [97] with (bytes_at file_mem 8192 1).
  apply (repr_insert file_mem (Hashmap 1 0 64 (λ _, blank_elem)) ∅ 0 8192 1 8192); [apply repr_blank; [exact pow2_1|done]|simpl; lia|lia| |done].
  exists 0. split; [lia|]. simpl. by rewrite Z.mod_1_r.
Qed.

Lemma file_vtree : vtree file_vfs file_tree.
Proof.
  assert (∀ v D, file_tree !! v = Some D → v = 4096 ∧ D = <[[97]:=8192]> ∅ ∨ v = 8192 ∧ D = ∅) as Hcase.
  { intros v D. unfold file_tree. rewrite lookup_insert_Some, lookup_singleton_Some. naive_solver. }
  split.
  - by intros v D [[-> _]|[-> _]]%Hcase.
  - intros v D [[-> ->]|[-> ->]]%Hcase; [exact file_table_repr|apply repr_blank; [exact pow2_1|done]].
  - intros v D [[-> ->]|[-> ->]]%Hcase i Hi Hu; [|done]. simpl in Hi. assert (i = 0) as -> by lia.
    split; [|done]. by exists ∅.
  - intros v D w c [[-> ->]|[-> ->]]%Hcase; [|done].
    rewrite lookup_insert_Some. intros [[_ <-]|[_ Hw]]; [by exists ∅|done].
Qed.


(** A booted kernel heap with the name "a" in an allocation. *)
Definition boot_vfs (h : heap) (p : Z) : vfs heap bmem :=
  Vfs h (BMem (λ a, if a =? p then 97 else 0)) (λ _, zero_vnode) 0.

Lemma boot_literal h p : p ≠ 16 → ld8 (vmem (boot_vfs h p)) 16 = 0.
Proof.
  intros Hp. change (w8 (if 16 =? p then 97 else 0) = 0). destruct (Z.eqb_spec 16 p); [congruence|reflexivity].
Qed.

Definition boot_ok (h : heap) (p : Z) : bool :=
  match vfs_init 1 16 (boot_vfs h p) with
  | Done (_, s') => (ld8 (vmem s') p =? 97) && (ld8 (vmem s') (p + 1) =? 0)
  | _ => false
  end.

Lemma booted : ∃ (h : heap) U p sz, owns h U ∧ U !! p = Some sz ∧ 2 ≤ sz ∧ p ≠ 16 ∧ boot_ok h p = true.
Proof.
  assert (match heap_init 4096 (Heap TlsfProps.blank 0 0) with
    | Done (_, h) => match alloc 2 h with
        | Done (p, h') => negb (p =? 0) && negb (p =? 16) && boot_ok h' p | _ => false end
    | _ => false end = true) as Hrun by (vm_compute; reflexivity).
  destruct (wp_done _ _ _ (heap_init_correct (Heap TlsfProps.blank 0 0) 4096 ltac:(lia) eq_refl ltac:(lia)))
    as (u & h0 & E & Ho & _). rewrite E in Hrun.
  destruct (wp_done _ _ _ (alloc_spec h0 ∅ 2 (λ p h, p = 0 ∨ ∃ sz, 2 ≤ sz ∧ owns h (<[p:=sz]> ∅)) Ho ltac:(lia)
    ltac:(by left) ltac:(intros; right; eauto))) as (p & h & E1 & Hq). rewrite E1 in Hrun.
  clear E E1 Ho. apply andb_prop in Hrun as [Hrun Hok]. apply andb_prop in Hrun as [Hp0%negb_true_iff Hp%negb_true_iff].
  apply Z.eqb_neq in Hp0, Hp. destruct Hq as [Hz|(sz & Hsz & Ho1)]; [by destruct (Hp0 Hz)|].
  exists h, (<[p:=sz]> ∅), p, sz. split_and!; [exact Ho1|apply lookup_insert_eq|exact Hsz|exact Hp|exact Hok].
Qed.

Example vfs_init_root_witness : ∃ (h : heap) U p, owns h U ∧
  unless_exhausted (λ ops, vfs_init (ops := ops) 1 16) (boot_vfs h p) (λ _ s',
    let root := vnode_at s' (fs_root s') in
    v_type root = VDIR ∧ v_flags root = Z.lor V_MOUNTPOINT V_ROOT ∧
    vtree s' {[fs_root s' := ∅]} ∧ ∃ U', U ⊆ U' ∧ vheld s' U' {[fs_root s' := ∅]}).
Proof.
  destruct booted as (h & U & p & sz & Ho & _ & _ & Hp & _). exists h, U, p. split; [exact Ho|].
  apply (vfs_init_root (boot_vfs h p) U 1 16); [exact Ho| |lia]. by apply boot_literal.
Defined.

