(* ===== verification/Console.v ===== *)
(** tty/console.c, tty/font.c and dev/video/fb.c: text on the framebuffer. *)

From S2P Require Import Prelude CString.

(** ** The font *)

Definition FONT_WIDTH : Z := 9.
Definition FONT_HEIGHT : Z := 16.
Definition DEFAULT_BG : Z := 0x000000.
Definition DEFAULT_FG : Z := 0x899499.

(** Nine columns for each character from 32 to 126, bit 0 at the top. *)
Definition DEFAULT_FONT_DATA : list Z :=
  [
   0; 0; 0; 0; 0; 0; 0; 0; 0;
   0; 0; 62; 13311; 13311; 62; 0; 0; 0;
   0; 7; 7; 0; 0; 7; 7; 0; 0;
   288; 8190; 8190; 288; 288; 8190; 8190; 288; 0;
   1592; 3644; 2148; 16383; 16383; 2436; 3868; 1816; 0;
   12318; 7219; 1822; 448; 112; 7708; 13063; 7681; 0;
   7966; 12723; 8417; 8417; 12723; 7966; 6912; 12672; 0;
   0; 0; 0; 11; 7; 0; 0; 0; 0;
   0; 0; 2032; 16382; 30735; 16385; 0; 0; 0;
   0; 0; 16385; 30735; 16382; 2032; 0; 0; 0;
   128; 672; 992; 448; 448; 992; 672; 128; 0;
   128; 128; 128; 992; 992; 128; 128; 128; 0;
   0; 0; 0; 45056; 28672; 0; 0; 0; 0;
   128; 128; 128; 128; 128; 128; 128; 128; 0;
   0; 0; 0; 12288; 12288; 0; 0; 0; 0;
   12288; 15360; 3840; 960; 240; 60; 15; 3; 0;
   4092; 8190; 13827; 8577; 8289; 12315; 8190; 4092; 0;
   8196; 8196; 8198; 16383; 16383; 8192; 8192; 8192; 0;
   14348; 15374; 9731; 8961; 8577; 8387; 8318; 8252; 0;
   3084; 7182; 12355; 8257; 8257; 12355; 8190; 4028; 0;
   3840; 4064; 2300; 2079; 16259; 16256; 2048; 2048; 0;
   3135; 7231; 12321; 8225; 8225; 12385; 8129; 3969; 0;
   4064; 8184; 12380; 8262; 8259; 12481; 8065; 3841; 0;
   1; 1; 1; 15361; 16257; 1009; 127; 15; 0;
   3868; 8126; 12515; 8257; 8257; 12515; 8126; 3868; 0;
   8252; 8318; 8387; 12417; 6273; 3715; 2046; 508; 0;
   0; 0; 0; 12384; 12384; 0; 0; 0; 0;
   0; 0; 0; 45152; 28768; 0; 0; 0; 0;
   128; 448; 864; 1584; 3096; 6156; 4100; 0; 0;
   288; 288; 288; 288; 288; 288; 288; 288; 0;
   4100; 6156; 3096; 1584; 864; 448; 128; 0; 0;
   6; 7; 3; 13057; 13249; 243; 63; 30; 0;
   4092; 8190; 12291; 8673; 9201; 8721; 8467; 13310; 5116;
   16380; 16382; 259; 257; 257; 259; 16382; 16380; 0;
   16383; 16383; 8257; 8257; 8257; 12515; 8126; 3868; 0;
   4092; 8190; 12291; 8193; 8193; 12291; 7182; 3084; 0;
   16383; 16383; 8193; 8193; 8193; 14343; 8190; 2040; 0;
   16383; 16383; 8257; 8257; 8257; 8257; 8257; 8193; 0;
   16383; 16383; 129; 129; 129; 129; 129; 1; 0;
   4092; 8190; 12291; 8193; 8321; 12419; 8078; 3980; 0;
   16383; 16383; 64; 64; 64; 64; 16383; 16383; 0;
   8193; 8193; 8193; 16383; 16383; 8193; 8193; 8193; 0;
   3072; 7168; 12288; 8192; 8192; 12288; 8191; 4095; 0;
   16383; 16383; 192; 480; 1848; 3612; 15375; 12291; 0;
   16383; 16383; 8192; 8192; 8192; 8192; 8192; 8192; 0;
   16383; 16383; 120; 960; 960; 120; 16383; 16383; 0;
   16383; 16383; 28; 112; 448; 1792; 16383; 16383; 0;
   4092; 8190; 12291; 8193; 8193; 12291; 8190; 4092; 0;
   16383; 16383; 129; 129; 129; 195; 126; 60; 0;
   4092; 8190; 12291; 8193; 24577; 61443; 40958; 4092; 0;
   16383; 16383; 129; 129; 385; 8131; 15998; 8252; 0;
   3132; 7294; 12387; 8417; 8641; 12675; 8078; 3852; 0;
   1; 1; 1; 16383; 16383; 1; 1; 1; 0;
   4095; 8191; 12288; 8192; 8192; 12288; 8191; 4095; 0;
   63; 511; 4032; 15360; 15360; 4032; 511; 63; 0;
   511; 16383; 15872; 448; 448; 15872; 16383; 511; 0;
   15375; 16191; 1008; 192; 192; 1008; 16191; 15375; 0;
   63; 255; 448; 16256; 16256; 448; 255; 63; 0;
   14337; 15873; 10113; 8641; 8289; 8249; 8223; 8199; 0;
   0; 0; 16383; 16383; 8193; 8193; 0; 0; 0;
   3; 15; 60; 240; 960; 3840; 15360; 12288; 0;
   0; 0; 8193; 8193; 16383; 16383; 0; 0; 0;
   4; 4; 6; 3; 3; 6; 6; 4; 0;
   32768; 32768; 32768; 32768; 32768; 32768; 32768; 32768; 32768;
   0; 0; 0; 7; 11; 0; 0; 0; 0;
   7680; 16192; 8480; 8480; 8480; 4384; 16352; 16320; 0;
   16383; 16383; 4160; 8224; 8224; 12384; 8128; 3968; 0;
   3968; 8128; 12384; 8224; 8224; 8224; 12384; 4160; 0;
   3968; 8128; 12384; 8224; 8224; 4160; 16383; 16383; 0;
   3968; 8128; 12896; 8736; 8736; 8800; 13248; 4992; 0;
   32; 32; 16382; 16383; 33; 33; 35; 2; 0;
   18304; 20416; 55392; 36896; 36896; 51264; 32736; 16352; 0;
   16383; 16383; 64; 32; 32; 96; 16320; 16256; 0;
   0; 8224; 8224; 16355; 16355; 8192; 8192; 0; 0;
   0; 16384; 49184; 32800; 65507; 32739; 0; 0; 0;
   16383; 16383; 1536; 1792; 3456; 6336; 12384; 8224; 0;
   0; 8193; 8193; 16383; 16383; 8192; 8192; 0; 0;
   16352; 16352; 96; 8128; 8128; 96; 16352; 16320; 0;
   16352; 16352; 64; 32; 32; 96; 16320; 16256; 0;
   3968; 8128; 12384; 8224; 8224; 12384; 8128; 3968; 0;
   65504; 65504; 4160; 8224; 8224; 12384; 8128; 3968; 0;
   3968; 8128; 8224; 8224; 8224; 4160; 65504; 65504; 0;
   16352; 16352; 192; 64; 96; 96; 96; 64; 0;
   4288; 12768; 8480; 8992; 9760; 9248; 15456; 6208; 0;
   0; 32; 32; 8190; 16382; 8224; 8224; 0; 0;
   8160; 16352; 8192; 8192; 8192; 4096; 16352; 16352; 0;
   992; 2016; 7168; 12288; 12288; 7168; 2016; 992; 0;
   2016; 16352; 14336; 1984; 1984; 14336; 16352; 2016; 0;
   12384; 15840; 3456; 1792; 1792; 3456; 15840; 12384; 0;
   33760; 36832; 56320; 28672; 12288; 7168; 4064; 992; 0;
   12320; 14368; 11296; 9760; 8992; 8608; 8416; 8288; 0;
   0; 0; 128; 16382; 32639; 16385; 16385; 0; 0;
   0; 0; 0; 65407; 65407; 0; 0; 0; 0;
   0; 16385; 16385; 32639; 16382; 128; 0; 0; 0;
   2; 2; 1; 1; 2; 2; 1; 1; 0
  ].

(** ** State *)

(** [struct limine_framebuffer], as far as it is used, with the 32-bit words at
    its address. *)
Record framebuffer := Framebuffer { width : Z; height : Z; pitch : Z; pixels : Z → Z }.

(** The framebuffer ([None] before [fb_init]) and the cursor. *)
Record screen := Screen { fb : option framebuffer; _cx : Z; _cy : Z }.

(** The screen and the static buffers of [dec2str] and [hex2str]. *)
Record console := Console { scr : screen; dec_buf : Z → Z; hex_buf : Z → Z }.

Definition set_pixels (f : Z → Z) (b : framebuffer) : framebuffer := Framebuffer (width b) (height b) (pitch b) f.
Definition set_scr (t : screen) (s : console) : console := Console t (dec_buf s) (hex_buf s).
Definition set_dec_buf (b : Z → Z) (s : console) : console := Console (scr s) b (hex_buf s).
Definition set_hex_buf (b : Z → Z) (s : console) : console := Console (scr s) (dec_buf s) b.

Notation G := (ST screen).

(** ** The framebuffer *)

(** [framebuffer->...] *)
Definition get_fb : G framebuffer := o ← gets fb; from_option mret undef o.

(** A write to word [i] of the framebuffer's memory, [pitch * height] bytes. *)
Definition poke (i color : Z) : G unit :=
  b ← get_fb;
  guard_ ((0 <=? i) && (4 * i + 4 <=? pitch b * height b)) ;;
  modify (λ s, Screen (Some (set_pixels (upd (pixels b) i color) b)) (_cx s) (_cy s)).

Definition framebuffer_get_index (x y : Z) : G Z := b ← get_fb; mret (w32 (x + y * (pitch b / 4))).
Definition framebuffer_get_height : G Z := b ← get_fb; mret (w32 (height b)).
Definition framebuffer_get_width : G Z := b ← get_fb; mret (w32 (width b)).
Definition framebuffer_get_pitch : G Z := b ← get_fb; mret (w32 (pitch b)).

Definition framebuffer_putpix (x y color : Z) : G unit := i ← framebuffer_get_index x y; poke i color.

Definition framebuffer_clear (color : Z) : G unit :=
  b ← get_fb; for_each (seqZ 0 (w64 (width b * height b))) (λ i, poke i color).

(** [b] is the first framebuffer of the boot loader's response. *)
Definition fb_init (b : framebuffer) : G unit := modify (λ s, Screen (Some b) (_cx s) (_cy s)).

(** ** The console *)

Definition MAKE_FG_BG (fg bg : Z) : Z := Z.lor (Z.shiftl fg 32) bg.
Definition EXTRACT_FG (color : Z) : Z := Z.shiftr color 32.
Definition EXTRACT_BG (color : Z) : Z := Z.land color 0xFFFFFFFF.

(** [char] is signed. *)
Definition i8 (x : Z) : Z := (x + 2 ^ 7) mod 2 ^ 8 - 2 ^ 7.

(** [font.data[i]] *)
Definition font_data (i : Z) : G Z :=
  guard_ ((0 <=? i) && (i <? zlen DEFAULT_FONT_DATA)) ;; mret (nth (Z.to_nat i) DEFAULT_FONT_DATA 0).

Definition putch (x y c bg fg : Z) : G unit :=
  let c := i8 (c - 32) in
  for_each (seqZ 0 FONT_WIDTH) (λ cx,
    for_each (seqZ 0 FONT_HEIGHT) (λ cy,
      d ← font_data (w64 (w64 c * FONT_WIDTH + cx));
      let col := Z.land (Z.shiftr d cy) 1 in
      framebuffer_putpix (w32 (x + cx)) (w32 (y + cy)) (if negb (col =? 0) then fg else bg))).

Definition move_cursor (x y : Z) : G unit := modify (λ s, Screen (fb s) x y).

Definition newline : G unit :=
  cy ← gets _cy;
  h ← framebuffer_get_height;
  if w32 (h - 5) <=? cy then framebuffer_clear DEFAULT_BG ;; move_cursor 0 0
  else move_cursor 0 (w32 (cy + (FONT_HEIGHT + 4))).

(** One character [c], a byte, of [putstr]. *)
Definition type_char (c color : Z) : G unit :=
  if c =? 10 then newline
  else
    x ← gets _cx;
    y ← gets _cy;
    putch (w32 x) (w32 y) (i8 c) (EXTRACT_BG color) (EXTRACT_FG color) ;;
    x ← gets _cx;
    y ← gets _cy;
    move_cursor (w32 (x + FONT_WIDTH)) (w32 y).

(** [str] gives the bytes at the pointer; the strings are not in the
    framebuffer.  [n] bounds the iterations and [fuel] those of [strlen]. *)
Fixpoint putstr_loop (n fuel : nat) (str : Z → Z) (i color : Z) : G unit :=
  match n with
  | O => no_fuel
  | S n =>
      len ← from_option mret no_fuel (strlen fuel (BMem str) 0);
      if i <? len then type_char (w8 (str i)) color ;; putstr_loop n fuel str (i + 1) color
      else mret tt
  end.
Definition putstr (fuel : nat) (str : Z → Z) (color : Z) : G unit := putstr_loop fuel fuel str 0 color.

Section printk.
Context {M : Type} `{ByteMem M} (m : M).

Definition on_scr {A} (c : G A) : ST console A := zoom scr set_scr c.

(** The compound literal [(char[2]){c, 0}]. *)
Definition char_str (c : Z) : Z → Z := λ i, if i =? 0 then c else 0.

(** [va_arg]: the next 64-bit slot. *)
Definition va_arg (ap : list Z) : ST console (Z * list Z) :=
  match ap with a :: ap => mret (a, ap) | [] => undef end.

Definition print_arg (fuel : nat) (c color : Z) (ap : list Z) : ST console (list Z) :=
  if c =? 115 then
    '(p, ap) ← va_arg ap; on_scr (putstr fuel (λ i, ld8 m (p + i)) color) ;; mret ap
  else if (c =? 100) || (c =? 117) || (c =? 108) then
    '(n, ap) ← va_arg ap;
    zoom dec_buf set_dec_buf (dec2str n) ;;
    b ← gets dec_buf; on_scr (putstr fuel b color) ;; mret ap
  else if (c =? 120) || (c =? 112) then
    '(n, ap) ← va_arg ap;
    zoom hex_buf set_hex_buf (hex2str n) ;;
    b ← gets hex_buf; on_scr (putstr fuel b color) ;; mret ap
  else if c =? 88 then
    '(n, ap) ← va_arg ap;
    zoom hex_buf set_hex_buf (hex2str n) ;;
    b ← gets hex_buf; on_scr (putstr fuel (λ i, b (i + 2)) color) ;; mret ap
  else if c =? 99 then
    '(n, ap) ← va_arg ap; on_scr (putstr fuel (char_str (w8 n)) color) ;; mret ap
  else mret ap.

(** The digit after an escape character. *)
Definition set_color (c color : Z) : Z :=
  if c =? 48 then MAKE_FG_BG DEFAULT_FG DEFAULT_BG
  else if c =? 49 then MAKE_FG_BG 0xB2BEB5 DEFAULT_BG
  else if c =? 50 then MAKE_FG_BG 0xFF0000 DEFAULT_BG
  else if c =? 51 then MAKE_FG_BG 0x00CED1 DEFAULT_BG
  else if c =? 52 then MAKE_FG_BG 0x9370DB DEFAULT_BG
  else color.

(** [n] bounds the characters of the format. *)
Fixpoint printk_loop (n fuel : nat) (ptr color : Z) (ap : list Z) : ST console unit :=
  match n with
  | O => no_fuel
  | S n =>
      let c := ld8 m ptr in
      if c =? 0 then mret tt
      else if c =? 37 then
        ap ← print_arg fuel (ld8 m (ptr + 1)) color ap;
        printk_loop n fuel (ptr + 1 + 1) color ap
      else if c =? 27 then printk_loop n fuel (ptr + 1 + 1) (set_color (ld8 m (ptr + 1)) color) ap
      else on_scr (putstr fuel (char_str c) color) ;; printk_loop n fuel (ptr + 1) color ap
  end.

Definition printk (fuel : nat) (fmt : Z) (ap : list Z) : ST console unit :=
  printk_loop fuel fuel fmt (MAKE_FG_BG DEFAULT_FG DEFAULT_BG) ap.
End printk.

(** ** Specification: the characters a format stands for *)

(** The text of one conversion, and the arguments left; [str] gives the strings
    behind the pointers. *)
Definition conversion (str : Z → option (list Z)) (c : Z) (ap : list Z) : option (list Z * list Z) :=
  if c =? 115 then match ap with p :: ap => w ← str p; Some (w, ap) | [] => None end
  else if (c =? 100) || (c =? 117) || (c =? 108) then
    match ap with n :: ap => Some (dec_digits n, ap) | [] => None end
  else if (c =? 120) || (c =? 112) then
    match ap with n :: ap => Some (48 :: 120 :: hex_digits n, ap) | [] => None end
  else if c =? 88 then match ap with n :: ap => Some (hex_digits n, ap) | [] => None end
  else if c =? 99 then
    match ap with n :: ap => Some (if w8 n =? 0 then [] else [w8 n], ap) | [] => None end
  else Some ([], ap).

(** The characters shown for a format, each with its colour. *)
Fixpoint format (str : Z → option (list Z)) (fmt ap : list Z) (color : Z) : option (list (Z * Z)) :=
  match fmt with
  | [] => Some []
  | a :: fmt =>
      if a =? 37 then
        match fmt with
        | [] => None
        | c :: fmt =>
            '(w, ap) ← conversion str c ap;
            out ← format str fmt ap color;
            Some (((λ c, (c, color)) <$> w) ++ out)
        end
      else if a =? 27 then
        match fmt with [] => None | c :: fmt => format str fmt ap (set_color c color) end
      else out ← format str fmt ap color; Some ((a, color) :: out)
  end.

(** Typing characters in order. *)
Definition typed (out : list (Z * Z)) : G unit := for_each out (λ '(c, color), type_char c color).

(** What a run of console code does to the screen. *)
Definition shows {A} (c : ST console A) (s : console) : outcome (A * screen) :=
  match c s with
  | Done (a, s') => Done (a, scr s')
  | Halt => Halt
  | Undef => Undef
  | NoFuel => NoFuel
  end.

(** ** Lemmas *)

Lemma shows_bind {A B} (c : ST console A) (f : A → ST console B) s (d : G A) (g : A → G B) :
  shows c s = d (scr s) → (∀ a s', shows (f a) s' = g a (scr s')) →
  shows (c ≫= f) s = (d ≫= g) (scr s).
Proof.
  unfold shows, mbind, ST_bind. intros Hc Hf. rewrite <- Hc. destruct (c s) as [[a s']| | |]; [|done..]. by rewrite <- Hf.
Qed.

Lemma shows_quiet {A B} (c : ST console A) (f : A → ST console B) s o :
  wp c s (λ a s', shows (f a) s' = o) → shows (c ≫= f) s = o.
Proof. unfold shows, wp, mbind, ST_bind. by destruct (c s) as [[a s']| | |]. Qed.

Lemma shows_scr {A} (c : G A) s : shows (on_scr c) s = c (scr s).
Proof. unfold shows, on_scr, zoom. by destruct (c (scr s)) as [[a t]| | |]. Qed.

Lemma for_each_app {S A} (l1 l2 : list A) (f : A → ST S unit) s :
  for_each (l1 ++ l2) f s = (for_each l1 f ;; for_each l2 f) s.
Proof.
  revert s. induction l1 as [|x l1 IH]; intros s; simpl; [done|].
  unfold mbind, ST_bind. destruct (f x s) as [[u s']| | |]; [|done..]. by rewrite IH.
Qed.

Lemma bind_ret {S A B} (a : A) (f : A → ST S B) s : ((mret a : ST S A) ≫= f) s = f a s.
Proof. done. Qed.

Lemma putstr_typed fuel str w color t :
  is_cstr (BMem str) 0 w → (length w < fuel)%nat →
  putstr fuel str color t = typed ((λ c, (c, color)) <$> w) t.
Proof.
  intros Hw Hf. unfold putstr.
  assert (∀ n i t, (length w < n + i)%nat → (i ≤ length w)%nat →
    putstr_loop n fuel str (Z.of_nat i) color t = typed ((λ c, (c, color)) <$> drop i w) t) as Hl.
  { induction n as [|n IH]; intros i t' Hn Hi; [lia|]. cbn [putstr_loop].
    rewrite (strlen_cstr fuel (BMem str) 0 w) by done. simpl.
    rewrite bind_ret.
    destruct (Z.ltb_spec (Z.of_nat i) (zlen w)) as [Hlt|Hge].
    - destruct (lookup_lt_is_Some_2 w i ltac:(lia)) as [c Hc]. rewrite (drop_S _ _ _ Hc). unfold typed. simpl.
      assert (c = w8 (str (Z.of_nat i))) as ->.
      { destruct Hw as (Hb & _). pose proof (bytes_at_lookup (BMem str) 0 (zlen w) (Z.of_nat i) ltac:(lia)) as E.
        rewrite Hb, Nat2Z.id, Hc in E. by injection E. }
      unfold mbind, ST_bind. destruct (type_char _ color t') as [[u t2]| | |]; [|done..].
      replace (Z.of_nat i + 1) with (Z.of_nat (Datatypes.S i)) by lia. apply IH; lia.
    - rewrite drop_ge by lia. done. }
  specialize (Hl fuel 0%nat t). rewrite drop_0 in Hl. apply Hl; lia.
Qed.

(** The strings [putstr] is handed. *)
Lemma cstr_of_reader (str : Z → Z) w :
  (∀ k, 0 ≤ k < zlen w → w !! Z.to_nat k = Some (w8 (str k))) → 0 ∉ w → w8 (str (zlen w)) = 0 →
  is_cstr (BMem str) 0 w.
Proof.
  intros Hw Hn Hz. split; [|split; [exact Hn|exact Hz]].
  apply list_eq. intros i. destruct (decide (i < length w)%nat) as [Hi|Hi].
  - pose proof (bytes_at_lookup (BMem str) 0 (zlen w) (Z.of_nat i) ltac:(lia)) as E.
    rewrite Nat2Z.id in E. rewrite E. pose proof (Hw (Z.of_nat i) ltac:(lia)) as E2. rewrite Nat2Z.id in E2. by rewrite E2.
  - rewrite !lookup_ge_None_2; [done|lia|]. rewrite length_bytes_at. lia.
Qed.

Lemma cstr_of_mem {M} `{ByteMem M} (m : M) p w : is_cstr m p w → is_cstr (BMem (λ i, ld8 m (p + i))) 0 w.
Proof.
  intros (Hb & Hn & Hz). assert (∀ i, w8 (ld8 m (p + i)) = ld8 m (p + i)) as Hw8
    by (intros i; apply Z.mod_small, ld8_range).
  apply cstr_of_reader; [|exact Hn|by rewrite Hw8]. intros k Hk. rewrite Hw8, <- Hb at 1. by apply bytes_at_lookup.
Qed.

Definition printable (w : list Z) : Prop := Forall (λ c, 0 < c < 256) w.

Lemma printable_nonzero w : printable w → 0 ∉ w.
Proof. intros Hw Hin. unfold printable in Hw. rewrite Forall_forall in Hw. specialize (Hw 0 Hin). lia. Qed.

Lemma cstr_of_buf b w : buf_str b w → printable w → is_cstr (BMem b) 0 w.
Proof.
  intros [Hb Hz] Hp. apply cstr_of_reader; [|by apply printable_nonzero|by rewrite Hz].
  intros k Hk. rewrite (Hb k Hk). f_equal. symmetry. apply Z.mod_small.
  unfold printable in Hp. rewrite Forall_lookup in Hp. specialize (Hp _ _ (Hb k Hk)). lia.
Qed.

Lemma cstr_of_char c : 0 ≤ c < 256 → is_cstr (BMem (char_str c)) 0 (if c =? 0 then [] else [c]).
Proof.
  intros Hc. destruct (Z.eqb_spec c 0) as [->|Hne].
  - apply cstr_of_reader; [simpl; lia|apply not_elem_of_nil|done].
  - apply cstr_of_buf; [|constructor; [simpl; lia|constructor]]. split; [|done].
    intros k Hk. simpl in Hk. by assert (k = 0) as -> by lia.
Qed.

Lemma printable_digits base k ds n : 2 ≤ base ≤ 16 → digits_ok base k ds n → printable ds.
Proof.
  intros Hb (_ & Hf & _). eapply Forall_impl; [exact Hf|]. intros c (d & Hd & ->).
  unfold ascii_number. destruct (Z.ltb_spec d 10); lia.
Qed.

Lemma length_hex_digits n : (length (hex_digits n) ≤ 17)%nat.
Proof.
  unfold hex_digits. destruct (n =? 0); [simpl; lia|]. rewrite length_reverse, length_app.
  pose proof (le_digits_length 16 ascii_number 16 n). destruct (n <? 0x10); cbn [length]; lia.
Qed.

Lemma length_dec_digits n : (length (dec_digits n) ≤ 20)%nat.
Proof.
  unfold dec_digits. destruct (n =? 0); [simpl; lia|]. rewrite length_reverse. apply le_digits_length.
Qed.

Section spec.
Context {M : Type} `{ByteMem M} (m : M).

(** Printing a string that is ready. *)
Lemma shows_put fuel rd w color ap (f : list Z → ST console unit) (d : G unit) s :
  is_cstr (BMem rd) 0 w → (length w < fuel)%nat → (∀ s', shows (f ap) s' = d (scr s')) →
  shows ((on_scr (putstr fuel rd color) ;; mret ap) ≫= f) s =
  (typed ((λ c, (c, color)) <$> w) ;; d) (scr s).
Proof.
  intros Hrd Hl Hf. unfold shows, on_scr, zoom, mbind, ST_bind.
  rewrite (putstr_typed fuel rd w color) by done.
  destruct (typed _ (scr s)) as [[[] t]| | |]; [|done..]. apply (Hf (set_scr t s)).
Qed.

Lemma shows_assoc {A B C} (c : ST console A) (k : A → ST console B) (f : B → ST console C) s :
  shows ((c ≫= k) ≫= f) s = shows (c ≫= λ a, k a ≫= f) s.
Proof. unfold shows, mbind, ST_bind. by destruct (c s) as [[a s']| | |]. Qed.

(** Printing a number into its buffer first. *)
Lemma shows_dec fuel n color ap (f : list Z → ST console unit) (d : G unit) s :
  0 ≤ n < 2 ^ 64 → (20 < fuel)%nat → (∀ s', shows (f ap) s' = d (scr s')) →
  shows ((zoom dec_buf set_dec_buf (dec2str n) ;;
          b ← gets dec_buf; on_scr (putstr fuel b color) ;; mret ap) ≫= f) s =
  (typed ((λ c, (c, color)) <$> dec_digits n) ;; d) (scr s).
Proof.
  intros Hn Hfuel Hf. rewrite shows_assoc. apply shows_quiet, wp_zoom, wp_dec2str; [done|]. intros b Hb.
  rewrite shows_assoc. apply shows_quiet, wp_gets. simpl. apply (shows_put fuel b _ color ap f d (set_dec_buf b s)); [|pose proof (length_dec_digits n); lia|exact Hf].
  apply cstr_of_buf; [exact Hb|]. by eapply (printable_digits 10), dec_digits_ok.
Qed.

Lemma shows_hex fuel n (rd : (Z → Z) → Z → Z) w color ap (f : list Z → ST console unit) (d : G unit) s :
  0 ≤ n < 2 ^ 64 → (length w < fuel)%nat →
  (∀ b, buf_str b (48 :: 120 :: hex_digits n) → is_cstr (BMem (rd b)) 0 w) → (∀ s', shows (f ap) s' = d (scr s')) →
  shows ((zoom hex_buf set_hex_buf (hex2str n) ;;
          b ← gets hex_buf; on_scr (putstr fuel (rd b) color) ;; mret ap) ≫= f) s =
  (typed ((λ c, (c, color)) <$> w) ;; d) (scr s).
Proof.
  intros Hn Hl Hrd Hf. rewrite shows_assoc. apply shows_quiet, wp_zoom, wp_hex2str; [done|]. intros b Hb.
  rewrite shows_assoc. apply shows_quiet, wp_gets. simpl. by apply (shows_put fuel (rd b) w color ap f d (set_hex_buf b s)); [apply Hrd|..].
Qed.

Lemma cstr_of_hex n b : 0 ≤ n < 2 ^ 64 → buf_str b (48 :: 120 :: hex_digits n) →
  is_cstr (BMem b) 0 (48 :: 120 :: hex_digits n) ∧ is_cstr (BMem (λ i, b (i + 2))) 0 (hex_digits n).
Proof.
  intros Hn Hb. pose proof (printable_digits 16 2 (hex_digits n) n ltac:(lia) (hex_digits_ok n Hn)) as Hp.
  split; apply cstr_of_buf; try assumption.
  - constructor; [simpl; lia|]. constructor; [simpl; lia|exact Hp].
  - destruct Hb as [Hb Hz]. simpl length in Hb, Hz. split.
    + intros k Hk. rewrite <- (Hb (k + 2)) by lia. replace (Z.to_nat (k + 2)) with (2 + Z.to_nat k)%nat by lia. done.
    + rewrite <- Hz. f_equal. lia.
Qed.

(** A conversion prints its text, and nothing else reaches the screen. *)
Lemma shows_print_arg fuel str c color ap w ap' (f : list Z → ST console unit) (d : G unit) s :
  (∀ p w, str p = Some w → is_cstr m p w ∧ (length w < fuel)%nat) → (20 < fuel)%nat →
  Forall (λ n, 0 ≤ n < 2 ^ 64) ap → conversion str c ap = Some (w, ap') →
  (∀ s', shows (f ap') s' = d (scr s')) →
  shows (print_arg m fuel c color ap ≫= f) s = (typed ((λ c, (c, color)) <$> w) ;; d) (scr s).
Proof.
  intros Hstr Hfuel Hap Hconv Hf. unfold print_arg, conversion in *.
  destruct (c =? 115).
  { destruct ap as [|p ap]; [done|]. destruct (str p) as [w'|] eqn:E; [|done]. simpl in Hconv. injection Hconv as -> ->.
    apply Hstr in E as [Hw Hl]. apply (shows_put fuel (λ i, ld8 m (p + i)) w color ap'); [by apply cstr_of_mem|done..]. }
  destruct ((c =? 100) || (c =? 117) || (c =? 108)).
  { destruct ap as [|n ap]; [done|]. injection Hconv as <- ->. apply Forall_cons in Hap as [Hn _]. by apply shows_dec. }
  destruct ((c =? 120) || _).
  { destruct ap as [|n ap]; [done|]. injection Hconv as <- ->. apply Forall_cons in Hap as [Hn _].
    apply (shows_hex fuel n (λ b, b)); [done|pose proof (length_hex_digits n); simpl; lia| |exact Hf].
    intros b Hb. by apply cstr_of_hex. }
  destruct (c =? 88).
  { destruct ap as [|n ap]; [done|]. injection Hconv as <- ->. apply Forall_cons in Hap as [Hn _].
    apply (shows_hex fuel n (λ b i, b (i + 2))); [done|pose proof (length_hex_digits n); lia| |exact Hf].
    intros b Hb. by apply cstr_of_hex. }
  destruct (c =? 99).
  { destruct ap as [|n ap]; [done|]. injection Hconv as <- ->.
    apply shows_put; [apply cstr_of_char, Z.mod_pos_bound; lia|destruct (w8 n =? 0); simpl; lia|exact Hf]. }
  injection Hconv as <- ->. apply Hf.
Qed.

(** The loop on the rest of a format. *)
Lemma shows_printk_loop n fuel str fmt : ∀ ptr color ap out s,
  (∀ p w, str p = Some w → is_cstr m p w ∧ (length w < fuel)%nat) → (20 < fuel)%nat →
  Forall (λ n, 0 ≤ n < 2 ^ 64) ap → is_cstr m ptr fmt → (length fmt < n)%nat →
  format str fmt ap color = Some out →
  shows (printk_loop m n fuel ptr color ap) s = typed out (scr s).
Proof.
  revert fmt. induction n as [|n IH]; intros fmt ptr color ap out s Hstr Hfuel Hap Hfmt Hn Hout; [lia|].
  cbn [printk_loop]. destruct fmt as [|a fmt].
  { apply is_cstr_nil in Hfmt as ->. simpl in Hout. by injection Hout as <-. }
  apply is_cstr_cons in Hfmt as (Hb & Ha & Hfmt).
  pose proof (ld8_range m ptr) as Hrange. rewrite Hb in *. clear Hb. cbn [format] in Hout. simpl in Hn.
  destruct (Z.eqb_spec a 0) as [|_]; [done|].
  destruct (Z.eqb_spec a 37) as [->|].
  - destruct fmt as [|c fmt]; [done|]. apply is_cstr_cons in Hfmt as (-> & Hc & Hfmt). simpl in Hn.
    destruct (conversion str c ap) as [[w ap']|] eqn:Hconv; [|done]. simpl in Hout.
    destruct (format str fmt ap' color) as [out'|] eqn:Hrest; [|done]. simpl in Hout. injection Hout as <-.
    unfold typed at 1. rewrite for_each_app. eapply shows_print_arg; [done..|]. intros s'.
    apply (IH fmt); try assumption; [|lia]. revert Hap Hconv. unfold conversion. clear.
    intros Hap Hconv. repeat case_match; simplify_option_eq; try done; by apply Forall_cons in Hap as [_ ?].
  - destruct (Z.eqb_spec a 27) as [->|].
    + destruct fmt as [|c fmt]; [done|]. apply is_cstr_cons in Hfmt as (-> & Hc & Hfmt). simpl in Hn.
      apply (IH fmt); try assumption. lia.
    + destruct (format str fmt ap color) as [out'|] eqn:Hrest; [|done]. simpl in Hout. injection Hout as <-.
      change ((a, color) :: out') with ([(a, color)] ++ out'). unfold typed. rewrite for_each_app.
      apply (shows_bind _ _ _ (typed [(a, color)]) (λ _, typed out')).
      * rewrite shows_scr. apply (putstr_typed fuel (char_str a) [a]); [|simpl; lia].
        pose proof (cstr_of_char a ltac:(lia)) as Hca. by destruct (Z.eqb_spec a 0).
      * intros u s'. apply (IH fmt); try assumption. lia.
Qed.
End spec.

(** ** Lemmas on drawing *)

(** Text row and column to framebuffer word. *)
Definition stride (b : framebuffer) : Z := pitch b / 4.

Lemma wp_get_fb s b (Q : framebuffer → screen → Prop) : fb s = Some b → Q b s → wp get_fb s Q.
Proof. intros Hb HQ. apply wp_bind, wp_gets. rewrite Hb. by apply wp_ret. Qed.

Lemma wp_putpix s b x y color (Q : unit → screen → Prop) :
  fb s = Some b → 0 ≤ x < stride b → 0 ≤ y < height b → stride b * height b ≤ 2 ^ 32 →
  Q tt (Screen (Some (set_pixels (upd (pixels b) (x + y * stride b) color) b)) (_cx s) (_cy s)) →
  wp (framebuffer_putpix x y color) s Q.
Proof.
  intros Hb Hx Hy Hmax HQ. unfold stride in *. apply wp_bind, wp_bind, (wp_get_fb _ b); [done|]. apply wp_ret.
  assert (y * (pitch b / 4) + pitch b / 4 ≤ height b * (pitch b / 4)) by nia.
  rewrite w32_small by nia. unfold poke. apply wp_bind, (wp_get_fb _ b); [done|].
  apply wp_bind, wp_guard; [|by apply wp_modify].
  pose proof (Z.mul_div_le (pitch b) 4 ltac:(lia)). apply andb_true_intro; split; [apply Z.leb_le; nia|apply Z.leb_le].
  trans (4 * (pitch b / 4) * height b); [nia|]. apply Z.mul_le_mono_nonneg_r; lia.
Qed.

Lemma wp_font_data c cx s (Q : Z → screen → Prop) :
  32 ≤ c < 127 → 0 ≤ cx < 9 → Q (nth (Z.to_nat ((c - 32) * 9 + cx)) DEFAULT_FONT_DATA 0) s →
  wp (font_data (w64 (w64 (i8 (c - 32)) * FONT_WIDTH + cx))) s Q.
Proof.
  intros Hc Hcx HQ. assert (i8 (c - 32) = c - 32) as -> by (unfold i8; rewrite Z.mod_small; lia).
  unfold FONT_WIDTH. rewrite (w64_small (c - 32)), w64_small by lia.
  apply wp_bind, wp_guard; [|by apply wp_ret]. apply andb_true_intro; split; [apply Z.leb_le; lia|].
  apply Z.ltb_lt. change (zlen DEFAULT_FONT_DATA) with 855. lia.
Qed.

(** Pixel [(i, j)] of the glyph of [c]. *)
Definition glyph (c i j : Z) : bool := Z.testbit (nth (Z.to_nat ((c - 32) * 9 + i)) DEFAULT_FONT_DATA 0) j.

(** The pixels of the glyph at [(x, y)], up to column [k] and row [j]. *)
Definition painted (x y c bg fg : Z) (old : Z → Z → Z) (k j px py : Z) : Z :=
  if decide (x ≤ px < x + k ∧ y ≤ py < y + 16 ∨ px = x + k ∧ y ≤ py < y + j)
  then if glyph c (px - x) (py - y) then fg else bg else old px py.

(** The words of the framebuffer, by column and row. *)
Definition pixel (b : framebuffer) (px py : Z) : Z := pixels b (px + py * stride b).

Lemma pixel_upd b x y v px py :
  0 ≤ x < stride b → 0 ≤ px < stride b → 
  pixel (set_pixels (upd (pixels b) (x + y * stride b) v) b) px py =
  if decide (px = x ∧ py = y) then v else pixel b px py.
Proof.
  intros Hx Hpx. unfold pixel, stride in *. simpl. unfold upd. case_decide as Hd.
  - destruct Hd as [-> ->]. by rewrite Z.eqb_refl.
  - destruct (Z.eqb_spec (px + py * (pitch b / 4)) (x + y * (pitch b / 4))) as [E|]; [|done].
    destruct Hd. assert (py = y) by nia. subst. lia.
Qed.

Lemma painted_step x y c bg fg old k j px py :
  0 ≤ j < 16 →
  painted x y c bg fg old k (j + 1) px py =
  if decide (px = x + k ∧ py = y + j) then if glyph c k j then fg else bg
  else painted x y c bg fg old k j px py.
Proof.
  intros Hj. unfold painted. destruct (decide (px = x + k ∧ py = y + j)) as [[-> ->]|Hne].
  - rewrite decide_True by lia. replace (x + k - x) with k by lia. by replace (y + j - y) with j by lia.
  - destruct (decide (_ ∨ _)) as [Hin|Hout]; [rewrite decide_True by lia|rewrite decide_False by lia]; done.
Qed.

Lemma painted_column x y c bg fg old k px py :
  0 ≤ k → painted x y c bg fg old (k + 1) 0 px py = painted x y c bg fg old k 16 px py.
Proof.
  intros Hk. unfold painted. destruct (decide (_ ∨ _)) as [Hin|Hout]; [rewrite decide_True by lia|rewrite decide_False by lia]; done.
Qed.

(** A screen with the geometry and cursor of [s] and other pixels. *)
Definition redrawn (s : screen) (b : framebuffer) (pix : Z → Z → Z) (s' : screen) : Prop :=
  ∃ f, s' = Screen (Some (set_pixels f b)) (_cx s) (_cy s) ∧
    ∀ px py, 0 ≤ px < stride b → pixel (set_pixels f b) px py = pix px py.

Lemma font_bit d j : 0 ≤ j → (Z.land (Z.shiftr d j) 1 =? 0) = negb (Z.testbit d j).
Proof.
  intros Hj. change 1 with (Z.ones 1). rewrite Z.land_ones by lia. change (2 ^ 1) with 2.
  rewrite <- Z.bit0_mod, Z.shiftr_spec, Z.add_0_l by lia. by destruct (Z.testbit d j).
Qed.

Lemma wp_putch s b x y c bg fg :
  fb s = Some b → 32 ≤ c < 127 → 0 ≤ x → x + 9 ≤ stride b → 0 ≤ y → y + 16 ≤ height b →
  stride b * height b ≤ 2 ^ 32 → stride b < 2 ^ 32 → height b < 2 ^ 32 →
  wp (putch x y c bg fg) s (λ _ s', redrawn s b (painted x y c bg fg (pixel b) 9 0) s').
Proof.
  intros Hb Hc Hx Hxw Hy Hyh Hmax Hs32 Hh32. unfold putch.
  apply (wp_for_seqZ (λ k s', redrawn s b (painted x y c bg fg (pixel b) k 0) s')); [done|..].
  { exists (pixels b). split; [destruct s as [o ? ?], b; simpl in *; by subst o|].
    intros px py _. unfold painted. rewrite decide_False by lia. done. }
  intros k s1 Hk HI. unfold FONT_WIDTH in Hk.
  eapply wp_mono; [apply (wp_for_seqZ (λ j s', redrawn s b (painted x y c bg fg (pixel b) k j) s')); [done|exact HI|]|].
  - intros j s2 Hj (f & -> & Hf). unfold FONT_HEIGHT in Hj. apply wp_bind, wp_font_data; [done|lia|]. cbv zeta.
    rewrite (w32_small (x + k)), (w32_small (y + j)) by lia.
    eapply (wp_putpix _ (set_pixels f b)); [done|unfold stride in *; simpl; lia|simpl; lia|done|].
    eexists. split; [reflexivity|]. intros px py Hpx. rewrite painted_step by lia.
    etrans; [apply (pixel_upd (set_pixels f b) (x + k) (y + j)); unfold stride in *; simpl; lia|].
    case_decide; [|by apply Hf]. unfold glyph.
    by rewrite font_bit, negb_involutive by lia.
  - intros [] s2 (f & -> & Hf). exists f. split; [done|]. intros px py Hpx. rewrite painted_column by lia. by apply Hf.
Qed.

Lemma for_each_undef {S A} (l1 l2 : list A) x (f : A → ST S unit) s :
  wp (for_each l1 f) s (λ _ s', f x s' = Undef) → for_each (l1 ++ x :: l2) f s = Undef.
Proof.
  rewrite for_each_app. unfold wp, mbind, ST_bind. destruct (for_each l1 f s) as [[u s']| | |]; [|done..].
  simpl. unfold mbind, ST_bind. by intros ->.
Qed.

Lemma seqZ_split k n : 0 ≤ k < n → seqZ 0 n = seqZ 0 k ++ k :: seqZ (k + 1) (n - k - 1).
Proof.
  intros Hk. replace n with (k + (n - k)) at 1 by lia. rewrite seqZ_app by lia. f_equal.
  rewrite seqZ_cons by lia. rewrite Z.add_0_l. do 2 f_equal; lia.
Qed.

Lemma undef_after {S A B} (c : ST S A) (f : A → ST S B) s a s' :
  c s = Done (a, s') → f a s' = Undef → (c ≫= f) s = Undef.
Proof. unfold mbind, ST_bind. by intros ->. Qed.

(** Drawing at the left edge, below the last row that has room. *)
Lemma putch_overruns s b y c bg fg :
  fb s = Some b → 0 ≤ y → height b - 16 < y → 0 ≤ height b → pitch b mod 4 = 0 → 0 ≤ pitch b →
  (y + 16) * stride b ≤ 2 ^ 32 → stride b * height b ≤ 2 ^ 32 → y + 16 < 2 ^ 32 → 0 < stride b → 32 ≤ c < 127 →
  putch 0 y c bg fg s = Undef.
Proof.
  intros Hb Hy Hyh Hh Hmod Hp Hmax Hmax' Hy32 Hst Hc. unfold putch. apply (for_each_undef []), wp_ret.
  set (r := Z.max 0 (height b - y)). unfold FONT_HEIGHT. rewrite (seqZ_split r) by lia. apply for_each_undef.
  eapply wp_mono; [apply (wp_for_seqZ (λ _ s', ∃ f, fb s' = Some (set_pixels f b))); [lia| |]|].
  - exists (pixels b). rewrite Hb. by destruct b.
  - intros j s1 Hj (f & Hf). apply wp_bind, wp_font_data; [done|lia|]. cbv zeta.
    rewrite !w32_small by lia. eapply wp_putpix; [exact Hf|unfold stride in *; simpl; lia|simpl; lia|done|]. by eexists.
  - intros [] s1 (f & Hf). pose proof (wp_font_data c 0 s1 (λ d s', s' = s1 ∧ d = nth (Z.to_nat ((c - 32) * 9 + 0)) DEFAULT_FONT_DATA 0) Hc) as Hwp.
    destruct (wp_done _ _ _ (Hwp ltac:(lia) (conj eq_refl eq_refl))) as (d & s2 & Hrun & -> & _).
    apply (undef_after _ _ _ _ _ Hrun). cbv zeta. rewrite !w32_small by lia.
    unfold framebuffer_putpix, framebuffer_get_index, poke, get_fb, mbind, ST_bind, gets. rewrite Hf. simpl. rewrite Hf. simpl.
    unfold stride in *. rewrite w32_small by nia.
    replace ((0 <=? _) && _) with false; [done|]. symmetry. apply andb_false_iff. right. apply Z.leb_gt.
    pose proof (Z.div_mod (pitch b) 4 ltac:(lia)). assert (height b ≤ y + r) by lia. nia.
Qed.

Lemma wp_newline s b i (Q : unit → screen → Prop) :
  fb s = Some b → _cy s = 20 * i → 0 ≤ i → 20 * i < height b - 5 → height b + 20 < 2 ^ 32 →
  Q tt (Screen (fb s) 0 (20 * (i + 1))) → wp newline s Q.
Proof.
  intros Hb Hy Hi Hlt Hh HQ. apply wp_bind, wp_gets, wp_bind, wp_bind, (wp_get_fb _ b); [done|]. apply wp_ret.
  rewrite (w32_small (height b)), w32_small, Hy by lia. destruct (Z.leb_spec (height b - 5) (20 * i)); [lia|].
  apply wp_modify. unfold FONT_HEIGHT. rewrite w32_small by lia. by replace (20 * i + (16 + 4)) with (20 * (i + 1)) by lia.
Qed.

Lemma newlines s b n :
  fb s = Some b → _cy s = 0 → 0 < n → 20 * (n - 1) < height b - 5 → height b + 20 < 2 ^ 32 →
  for_each (seqZ 0 n) (λ _, newline) s = Done (tt, Screen (fb s) 0 (20 * n)).
Proof.
  intros Hb Hy Hn Hlt Hh.
  assert (wp (for_each (seqZ 0 n) (λ _, newline)) s (λ _ s', fb s' = fb s ∧ _cy s' = 20 * n ∧ (0 < n → _cx s' = 0))) as Hwp.
  { apply (wp_for_seqZ (λ i s', fb s' = fb s ∧ _cy s' = 20 * i ∧ (0 < i → _cx s' = 0))); [lia|split_and!; [done|lia|lia]|].
    intros i s1 Hi (Ho & Hcy & _). apply (wp_newline _ b i); [congruence|done|lia..|]. simpl. done. }
  destruct (wp_done _ _ _ Hwp) as ([] & [o x y] & Hrun & Ho & Hcy & Hcx). simpl in *. by rewrite Hrun, Ho, Hcy, Hcx by lia.
Qed.

(** ** Text that stays on the screen *)

(** Where a character leaves the cursor on a screen [st] words wide and [h]
    rows high, if it is printable and its glyph fits, or if a line feed does not
    wrap. *)
Definition cursor_after (st h c : Z) (p : Z * Z) : option (Z * Z) :=
  if c =? 10 then if p.2 <? h - 5 then Some (0, p.2 + 20) else None
  else if (32 <=? c) && (c <? 127) && (p.1 + 9 <=? st) && (p.2 + 16 <=? h) then Some (p.1 + 9, p.2) else None.

Fixpoint layout (st h : Z) (w : list Z) (p : Z * Z) : option (Z * Z) :=
  match w with [] => Some p | c :: w => p ← cursor_after st h c p; layout st h w p end.

(** A framebuffer of at most 2^32 words, and a cursor on it. *)
Record display (st h : Z) (p : Z * Z) (s : screen) : Prop := {
  di_fb : ∃ b, fb s = Some b ∧ stride b = st ∧ height b = h;
  di_cursor : _cx s = p.1 ∧ _cy s = p.2;
  di_place : 0 ≤ p.1 ∧ 0 ≤ p.2;
  di_size : st * h ≤ 2 ^ 32 ∧ st < 2 ^ 32 - 9 ∧ h < 2 ^ 32 - 20;
}.

Lemma wp_type_char st h c color p p' s :
  display st h p s → cursor_after st h c p = Some p' → wp (type_char c color) s (λ _ s', display st h p' s').
Proof.
  intros [(b & Hb & Hst & Hh) [Hx Hy] [Hx0 Hy0] (Hsz & Hs32 & Hh32)] Hc. unfold type_char, cursor_after in *.
  destruct (Z.eqb_spec c 10) as [->|Hne].
  - destruct (Z.ltb_spec p.2 (h - 5)); [|done]. injection Hc as <-. apply wp_bind, wp_gets, wp_bind, wp_bind, (wp_get_fb _ b); [done|].
    apply wp_ret. rewrite Hh, (w32_small h), w32_small, Hy by lia. destruct (Z.leb_spec (h - 5) p.2); [lia|].
    apply wp_modify. unfold FONT_HEIGHT. rewrite w32_small by lia. split; simpl; [by exists b|split; lia|lia|done].
  - destruct (Z.leb_spec 32 c), (Z.ltb_spec c 127), (Z.leb_spec (p.1 + 9) st), (Z.leb_spec (p.2 + 16) h); try done. injection Hc as <-.
    assert (i8 c = c) as -> by (unfold i8; rewrite Z.mod_small; lia).
    apply wp_bind, wp_gets, wp_bind, wp_gets, wp_bind. rewrite Hx, Hy, !w32_small by lia.
    eapply wp_mono; [apply (wp_putch s b); [done|lia|lia|lia|lia|lia|rewrite Hst, Hh; done|lia|lia]|].
    intros [] s1 (f & -> & _). apply wp_bind, wp_gets, wp_bind, wp_gets, wp_modify. simpl. unfold FONT_WIDTH.
    rewrite Hx, Hy, !w32_small by lia. split; simpl; [by exists (set_pixels f b)|split; lia|lia|done].
Qed.

Lemma wp_typed st h out p p' s :
  display st h p s → layout st h (out.*1) p = Some p' → wp (typed out) s (λ _ s', display st h p' s').
Proof.
  revert p s. induction out as [|[c color] out IH]; intros p s Hs Hl; simpl in Hl; [injection Hl as <-; by apply wp_ret|].
  destruct (cursor_after st h c p) as [p1|] eqn:E; [|done]. unfold typed. simpl. apply wp_bind.
  eapply wp_mono; [by apply (wp_type_char st h c color p p1)|]. intros [] s1 Hs1. by apply (IH p1).
Qed.

(** The string [w] at [ptr] is a message without arguments, whose text is
    [out]. *)
Definition message {M} `{ByteMem M} (m : M) (fuel : nat) (ptr : Z) (w : list Z) (out : list (Z * Z)) : Prop :=
  is_cstr m ptr w ∧ (length w < fuel)%nat ∧ format (λ _, None) w [] (MAKE_FG_BG DEFAULT_FG DEFAULT_BG) = Some out.

Lemma wp_printk_message {M} `{ByteMem M} (m : M) fuel ptr w out st h p p' s :
  message m fuel ptr w out → (20 < fuel)%nat → display st h p (scr s) → layout st h (out.*1) p = Some p' →
  wp (printk m fuel ptr []) s (λ _ s', display st h p' (scr s')).
Proof.
  intros (Hw & Hf & Hp) Hf20 Hs Hl.
  assert (shows (printk m fuel ptr []) s = typed out (scr s)) as E
    by (apply (shows_printk_loop m fuel fuel (λ _, None) w); [done|done|constructor|done..]).
  pose proof (wp_typed st h out p p' (scr s) Hs Hl) as Hwp. unfold wp in *. rewrite <- E in Hwp. unfold shows in Hwp.
  by destruct (printk m fuel ptr [] s) as [[[] s']| | |].
Qed.

(** ** Properties *)

(** C31. [printk] shows exactly the text its format stands for: literal
    characters, strings, decimal and hexadecimal numbers in canonical
    notation, single characters, and colour changes, each character typed in
    order in the colour in force.  It terminates, and the equation holds for
    every screen, cursor and outcome of the typing. *)
Theorem printk_formats {M} `{ByteMem M} (m : M) fuel p fmt ap str out s :
  is_cstr m p fmt → (length fmt < fuel)%nat → (20 < fuel)%nat →
  (∀ p w, str p = Some w → is_cstr m p w ∧ (length w < fuel)%nat) →
  Forall (λ n, 0 ≤ n < 2 ^ 64) ap →
  format str fmt ap (MAKE_FG_BG DEFAULT_FG DEFAULT_BG) = Some out →
  shows (printk m fuel p ap) s = typed out (scr s).
Proof. intros. by eapply shows_printk_loop. Qed.

(** [putch] draws the glyph of a printable character: the 9 by 16 pixels at
    the position are the foreground where the font has a bit set and the
    background elsewhere, and no other pixel of the framebuffer changes. *)
Theorem putch_draws s b x y c bg fg :
  fb s = Some b → 32 ≤ c < 127 → 0 ≤ x → x + 9 ≤ stride b → 0 ≤ y → y + 16 ≤ height b →
  stride b * height b ≤ 2 ^ 32 → stride b < 2 ^ 32 → height b < 2 ^ 32 →
  wp (putch x y c bg fg) s (λ _ s', ∃ b', s' = Screen (Some b') (_cx s) (_cy s) ∧
    stride b' = stride b ∧ height b' = height b ∧ ∀ px py, 0 ≤ px < stride b →
      pixel b' px py = if decide (x ≤ px < x + 9 ∧ y ≤ py < y + 16)
                       then if glyph c (px - x) (py - y) then fg else bg else pixel b px py).
Proof.
  intros Hb Hc Hx Hxw Hy Hyh Hmax Hs32 Hh32. eapply wp_mono; [by apply (wp_putch s b)|].
  intros [] s' (f & -> & Hf). eexists. split; [reflexivity|]. split; [done|]. split; [done|].
  intros px py Hpx. rewrite Hf by done. unfold painted.
  destruct (decide (_ ∨ _)); [rewrite decide_True by lia|rewrite decide_False by lia]; done.
Qed.

(** C32. The console leaves every screen: whatever the height, some number of
    line feeds takes the cursor to a row that does not have the 16 pixel rows
    of a glyph left, and the next character is drawn past the end of the
    framebuffer. *)
Theorem newline_overruns s b c bg fg :
  fb s = Some b → _cy s = 0 → 5 < height b → 0 < pitch b → pitch b mod 4 = 0 →
  (height b + 31) * stride b ≤ 2 ^ 32 → height b + 31 < 2 ^ 32 → 32 ≤ c < 127 →
  ∃ n s', for_each (seqZ 0 n) (λ _, newline) s = Done (tt, s') ∧ fb s' = fb s ∧
    putch (_cx s') (_cy s') c bg fg s' = Undef.
Proof.
  intros Hb Hy Hh Hp Hmod Hmax Hh32 Hc. set (n := (height b - 5 + 19) / 20).
  assert (20 * (n - 1) < height b - 5 ≤ 20 * n) as Hn.
  { pose proof (Z.div_mod (height b - 5 + 19) 20 ltac:(lia)). pose proof (Z.mod_pos_bound (height b - 5 + 19) 20). lia. }
  assert (0 < stride b) by (unfold stride; pose proof (Z.div_mod (pitch b) 4); lia).
  exists n, (Screen (fb s) 0 (20 * n)). split; [apply (newlines s b); lia || done|]. split; [done|].
  simpl. apply (putch_overruns _ b); simpl; try done; try lia; nia.
Qed.

(** ** Witnesses *)

(** The format "\033" "2%d%s" at 16, the string "ok" at 32. *)
Definition sample_mem : bmem := BMem (λ a, nth (Z.to_nat (a - 16)) [27; 50; 37; 100; 37; 115; 0; 0; 0; 0; 0; 0; 0; 0; 0; 0; 111; 107] 0).
Definition vga : framebuffer := Framebuffer 1024 768 4096 (λ _, 0).
Definition blank_screen : screen := Screen (Some vga) 0 0.

Example printk_formats_witness :
  shows (printk sample_mem 21 16 [42; 32]) (Console blank_screen (λ _, 0) (λ _, 0)) =
  typed ((λ c, (c, MAKE_FG_BG 0xFF0000 DEFAULT_BG)) <$> [52; 50; 111; 107]) blank_screen.
Proof.
  apply (printk_formats sample_mem 21 16 [27; 50; 37; 100; 37; 115] [42; 32]
    (λ p, if p =? 32 then Some [111; 107] else None)).
  - split; [reflexivity|]. split; [by apply (bool_decide_unpack _)|reflexivity].
  - simpl. lia.
  - lia.
  - intros p w. destruct (Z.eqb_spec p 32) as [->|]; [|done]. intros [= <-]. split; [|simpl; lia].
    split; [reflexivity|]. split; [by apply (bool_decide_unpack _)|reflexivity].
  - repeat constructor; lia.
  - vm_compute. reflexivity.
Defined.

Example putch_draws_witness :
  wp (putch 18 40 65 0 7) blank_screen (λ _ s', ∃ b', s' = Screen (Some b') 0 0 ∧
    pixel b' 19 48 = (if glyph 65 1 8 then 7 else 0) ∧ pixel b' 0 0 = 0).
Proof.
  eapply wp_mono; [apply (putch_draws blank_screen vga 18 40 65 0 7 eq_refl); try done; lia|].
  intros [] s' (b' & -> & _ & _ & Hp). exists b'. split; [reflexivity|].
  rewrite !Hp by (split; done). split; [reflexivity|]. by rewrite decide_False by lia.
Defined.

Example newline_overruns_witness : ∃ n s', for_each (seqZ 0 n) (λ _, newline) blank_screen = Done (tt, s') ∧
  fb s' = Some vga ∧ putch (_cx s') (_cy s') 65 0 7 s' = Undef.
Proof. apply (newline_overruns blank_screen vga 65 0 7); done || lia. Defined.
