(* ===== verification/Exceptions.v ===== *)
(** amd64/exceptions.c: the handlers of the processor's exceptions. *)

From S2P Require Import Prelude CString Io Acpi Interrupts Console.
From stdpp Require Import strings.
#[local] Open Scope Z_scope.

(** ** Data *)

(** One constructor per handler. *)
Inductive exception :=
| divide_error | debug_exception | breakpoint | overflow | bound_range_exceeded | invalid_opcode
| device_not_available | double_fault | invalid_tss | segment_not_present | stack_segment_fault
| general_protection_fault | page_fault.

(** The order of [init_exceptions]. *)
Definition exceptions : list exception := [
  divide_error; debug_exception; breakpoint; overflow; bound_range_exceeded; invalid_opcode;
  device_not_available; double_fault; invalid_tss; segment_not_present; stack_segment_fault;
  general_protection_fault; page_fault].

#[export] Instance exception_eq_dec : EqDecision exception.
Proof. solve_decision. Defined.

Definition vector_of (e : exception) : Z :=
  match e with
  | divide_error => 0x0 | debug_exception => 0x1 | breakpoint => 0x3 | overflow => 0x4
  | bound_range_exceeded => 0x5 | invalid_opcode => 0x6 | device_not_available => 0x7 | double_fault => 0x8
  | invalid_tss => 0xA | segment_not_present => 0xB | stack_segment_fault => 0xC
  | general_protection_fault => 0xD | page_fault => 0xE
  end.

Definition chars (s : string) : list Z := (λ c, Z.of_N (Ascii.N_of_ascii c)) <$> String.list_ascii_of_string s.

(** [KERN_PANIC] and [KERN_DEBUG]. *)
Definition kern_tag (word : string) (color : Z) : list Z :=
  [27; 49] ++ chars "[ " ++ [27; color] ++ chars word ++ [27; 49] ++ chars " ]" ++ [27; 48] ++ chars " ".
Definition KERN_PANIC : list Z := kern_tag "PANIC" 50.
Definition KERN_DEBUG : list Z := kern_tag "DEBUG" 52.

(** The format string a handler prints, if it prints one. *)
Definition text (e : exception) : option (list Z) :=
  match e with
  | divide_error => Some (KERN_PANIC ++ chars "Divide error." ++ [10])
  | debug_exception => Some (KERN_DEBUG ++ chars "DEBUG EXCEPTION" ++ [10])
  | breakpoint => None
  | overflow => None
  | bound_range_exceeded => Some (KERN_PANIC ++ chars "Bound range exceeded." ++ [10])
  | invalid_opcode => Some (KERN_PANIC ++ chars "Invalid opcode." ++ [10])
  | device_not_available => Some (KERN_PANIC ++ chars "Device not available (no math coprocessor)." ++ [10])
  | double_fault => Some (KERN_PANIC ++ chars "Double fault." ++ [10])
  | invalid_tss => Some (KERN_PANIC ++ chars "Invalid TSS." ++ [10])
  | segment_not_present => Some (KERN_PANIC ++ chars "Segment not present" ++ [10])
  | stack_segment_fault => Some (KERN_PANIC ++ chars "Stack segment fault." ++ [10])
  | general_protection_fault => Some (KERN_PANIC ++ chars "General protection fault." ++ [10])
  | page_fault => Some (KERN_PANIC ++ chars "Page fault." ++ [10])
  end.

(** Handlers that end in [abort]. *)
Definition aborts (e : exception) : bool :=
  match e with debug_exception | breakpoint | overflow => false | _ => true end.

(** ** Operations *)

(** [cli; hlt]: the core stops. *)
Definition abort : ST console unit := halt.

(** [literal e] is the address of the string literal of [e]. *)
Definition handle {M} `{ByteMem M} (m : M) (literal : exception → Z) (fuel : nat) (e : exception) : ST console unit :=
  (if text e then printk m fuel (literal e) [] else mret tt) ;;
  if aborts e then abort else mret tt.

(** [isr e] is the address of the handler of [e]. *)
Definition init_exceptions {D} `{Device D} (isr : exception → Z) : ST (intr D) unit :=
  for_each exceptions (λ e, register_exception (vector_of e) (isr e)).

(** ** Specification *)

(** Exceptions for which the processor pushes an error code below the
    interrupted context. *)
Definition error_code (e : exception) : bool :=
  match e with
  | double_fault | invalid_tss | segment_not_present | stack_segment_fault | general_protection_fault | page_fault => true
  | _ => false
  end.

Definition grey : Z := MAKE_FG_BG 0xB2BEB5 DEFAULT_BG.
Definition red : Z := MAKE_FG_BG 0xFF0000 DEFAULT_BG.
Definition purple : Z := MAKE_FG_BG 0x9370DB DEFAULT_BG.
Definition plain : Z := MAKE_FG_BG DEFAULT_FG DEFAULT_BG.
Definition coloured (color : Z) (w : list Z) : list (Z * Z) := (λ c, (c, color)) <$> w.

(** What a line with a tag looks like. *)
Definition line (word : string) (color : Z) (w : string) : list (Z * Z) :=
  coloured grey (chars "[ ") ++ coloured color (chars word) ++ coloured grey (chars " ]") ++
  coloured plain (chars " " ++ chars w ++ [10]).

Definition shown (e : exception) : list (Z * Z) :=
  match e with
  | divide_error => line "PANIC" red "Divide error."
  | debug_exception => line "DEBUG" purple "DEBUG EXCEPTION"
  | breakpoint => []
  | overflow => []
  | bound_range_exceeded => line "PANIC" red "Bound range exceeded."
  | invalid_opcode => line "PANIC" red "Invalid opcode."
  | device_not_available => line "PANIC" red "Device not available (no math coprocessor)."
  | double_fault => line "PANIC" red "Double fault."
  | invalid_tss => line "PANIC" red "Invalid TSS."
  | segment_not_present => line "PANIC" red "Segment not present"
  | stack_segment_fault => line "PANIC" red "Stack segment fault."
  | general_protection_fault => line "PANIC" red "General protection fault."
  | page_fault => line "PANIC" red "Page fault."
  end.

(** ** Lemmas *)

Lemma format_text e w : text e = Some w →
  format (λ _, None) w [] (MAKE_FG_BG DEFAULT_FG DEFAULT_BG) = Some (shown e) ∧ (length w < 80)%nat.
Proof. destruct e; intros [= <-]; (split; [reflexivity|]); apply Nat.ltb_lt; reflexivity. Qed.

Lemma vector_of_inj e e' : vector_of e = vector_of e' → e = e'.
Proof. destruct e, e'; done. Qed.

Lemma exceptions_all e : e ∈ exceptions.
Proof. apply (bool_decide_unpack _). by destruct e. Qed.

(** ** Properties *)

(** A handler prints exactly its message, tagged and in colour, and then
    stops the core unless it is the debug, breakpoint or overflow handler.
    Whenever the processor pushes an error code, which the handlers' frames do
    not account for, the handler does not return. *)
Theorem handlers_report {M} `{ByteMem M} (m : M) literal fuel e s :
  (∀ w, text e = Some w → is_cstr m (literal e) w) → (80 ≤ fuel)%nat →
  shows (handle m literal fuel e) s = (typed (shown e) ;; if aborts e then halt else mret tt) (scr s) ∧
  (error_code e = true → ∀ s', shows (handle m literal fuel e) s ≠ Done (tt, s')).
Proof.
  intros Hlit Hfuel. assert (shows (handle m literal fuel e) s = (typed (shown e) ;; if aborts e then halt else mret tt) (scr s)) as Heq.
  { unfold handle. apply shows_bind; [|intros [] s'; by destruct (aborts e)]. destruct (text e) as [w|] eqn:Ht.
    - destruct (format_text e w Ht) as [Hf Hl].
      apply (shows_printk_loop m) with (str := λ _, None) (fmt := w); [done|lia|constructor|by apply Hlit|lia|exact Hf].
    - by destruct e. }
  split; [exact Heq|]. intros He s' Hd. rewrite Heq in Hd. assert (aborts e = true) as Ha by (by destruct e).
  rewrite Ha in Hd. unfold mbind, ST_bind in Hd. by destruct (typed (shown e) (scr s)) as [[u t]| | |].
Qed.

(** After [init_exceptions] the gate of each of the thirteen vectors jumps
    to the address of its handler as a present trap gate in the kernel's code
    segment; all other gates are as before. *)
Theorem init_exceptions_correct {D} `{Device D} (isr : exception → Z) (s : intr D) :
  (∀ e, 0 ≤ isr e < 2 ^ 64) →
  wp (init_exceptions isr) s (λ _ s',
    (∀ e, handler_of s' (vector_of e) = Handler (isr e) 0x28 0 0xF 3 true) ∧
    (∀ v, (∀ e, v ≠ vector_of e) → idt s' v = idt s v) ∧ devices s' = devices s).
Proof.
  intros Ha. eapply wp_mono.
  - apply (wp_for_each (λ l s', (∀ e, e ∈ l → handler_of s' (vector_of e) = Handler (isr e) 0x28 0 0xF 3 true) ∧
      (∀ v, (∀ e, v ≠ vector_of e) → idt s' v = idt s v) ∧ devices s' = devices s) exceptions);
      [split_and!; [by intros e ?%not_elem_of_nil|done..]|].
    intros l e s1 (Hl & Hv & Hd) _. apply wp_modify. unfold handler_of in *. cbn [idt devices].
    assert (w8 (vector_of e) = vector_of e) as -> by (by destruct e). split_and!.
    + intros e' [He'| ->%list_elem_of_singleton]%elem_of_app; [|rewrite upd_eq; by apply decode_make_gate].
      destruct (decide (e' = e)) as [->|Hne]; [rewrite upd_eq; by apply decode_make_gate|].
      rewrite upd_ne; [by apply Hl|]. intros E. by apply Hne, vector_of_inj.
    + intros v Hn. rewrite upd_ne; [by apply Hv|apply Hn].
    + exact Hd.
  - intros [] s' (Hl & Hrest). split; [intros e; apply Hl, exceptions_all|exact Hrest].
Qed.

(** ** Witnesses *)

(** The literals 100 bytes apart. *)
Definition literal (e : exception) : Z := 100 * vector_of e.
Definition rodata (e : exception) : bmem :=
  BMem (λ a, if (literal e <=? a) && (a <? literal e + 100) then nth (Z.to_nat (a - literal e)) (default [] (text e)) 0 else 0).

Example handlers_report_witness :
  shows (handle (rodata page_fault) literal 80 page_fault) (Console blank_screen (λ _, 0) (λ _, 0)) =
    (typed (line "PANIC" red "Page fault.") ;; halt) blank_screen.
Proof.
  refine (proj1 (handlers_report (rodata page_fault) literal 80 page_fault (Console blank_screen (λ _, 0) (λ _, 0)) _ _)).
  - intros w [= <-]. split; [vm_compute; reflexivity|]. split; [by apply (bool_decide_unpack _)|vm_compute; reflexivity].
  - apply Nat.leb_le. reflexivity.
Defined.

Example init_exceptions_correct_witness :
  wp (init_exceptions (λ e, 0xFFFFFFFF80001000 + 16 * vector_of e)) chip_sample
    (λ _ s', handler_of s' 0xE = Handler 0xFFFFFFFF800010E0 0x28 0 0xF 3 true ∧ idt s' 9 = no_gates 9).
Proof.
  eapply wp_mono; [apply (init_exceptions_correct (λ e, 0xFFFFFFFF80001000 + 16 * vector_of e)); intros []; simpl; lia|].
  intros [] s' (He & Hv & _). split; [apply (He page_fault)|]. apply Hv. by intros [].
Defined.
