(* ===== verification/Threads.v ===== *)
(** sched/sched.c: the two threads that [sched_start] creates, and how they
    share the console. *)

From S2P Require Import Prelude CString Mutex Console Exceptions.
From stdpp Require Import strings.
#[local] Open Scope Z_scope.

(** [lock] of sched.c and the console. *)
Record shared := Shared { print_lock : Z; text : console }.

Section threads.
(** [m] is the kernel's image, with the two formats and the two [__func__]
    arrays at these addresses. *)
Context {M : Type} `{ByteMem M} (m : M) (idle_fmt idle_func test_fmt test_func_func : Z).

Notation T := (ST shared).

Definition on_lock {A} (c : ST Z A) : T A := zoom print_lock (λ l s, Shared l (text s)) c.
Definition on_text {A} (c : ST console A) : T A := zoom text (λ t s, Shared (print_lock s) t) c.

(** One round of each loop; [hlt] ends it. *)
Definition idle (fuel : nat) : T unit :=
  on_lock (mutex_acquire fuel) ;;
  on_text (printk m fuel idle_fmt [idle_func]) ;;
  on_lock mutex_release.

Definition test_func (fuel : nat) : T unit :=
  on_lock (mutex_acquire fuel) ;;
  on_text (printk m fuel test_fmt [test_func_func]) ;;
  on_lock mutex_release.

(** ** Interleaving *)

Inductive body := Idle | Test_func.

Definition round (fuel : nat) (b : body) : T unit :=
  match b with Idle => idle fuel | Test_func => test_func fuel end.

(** What a round prints. *)
Definition message (b : body) : list Z :=
  match b with
  | Idle => chars "SCHED: This is idle!"
  | Test_func => chars "SCHED: Yo, this is test_func!"
  end ++ [10].
Definition line (b : body) : list (Z * Z) := (λ c, (c, MAKE_FG_BG DEFAULT_FG DEFAULT_BG)) <$> message b.

(** Where a thread is in its round; in [printk], with the characters it still
    has to type. *)
Inductive place := Outside | Acquiring | Printing (rest : list (Z * Z)).

Record machine := Machine { mlock : Z; mscreen : screen; mthreads : list (body * place) }.

(** The steps between which the timer may switch threads: the call of
    [mutex_acquire], one iteration of its loop, one character of [printk], and
    [mutex_release]. *)
Inductive step : machine → machine → Prop :=
| step_call i b l sc ts :
    ts !! i = Some (b, Outside) → step (Machine l sc ts) (Machine l sc (<[i := (b, Acquiring)]> ts))
| step_iteration i b l sc ts (busy : bool) l' :
    ts !! i = Some (b, Acquiring) → test_and_set l = Done (busy, l') →
    step (Machine l sc ts) (Machine l' sc (<[i := (b, if busy then Acquiring else Printing (line b))]> ts))
| step_char i b l sc ts c color rest sc' :
    ts !! i = Some (b, Printing ((c, color) :: rest)) → type_char c color sc = Done (tt, sc') →
    step (Machine l sc ts) (Machine l sc' (<[i := (b, Printing rest)]> ts))
| step_release i b l sc ts l' :
    ts !! i = Some (b, Printing []) → mutex_release l = Done (tt, l') →
    step (Machine l sc ts) (Machine l' sc (<[i := (b, Outside)]> ts)).

(** Threads with these bodies, none of which has run. *)
Definition start (bs : list body) (sc : screen) : machine := Machine 0 sc ((λ b, (b, Outside)) <$> bs).

(** ** Lemmas *)

(** All threads but those at the indices [P] are outside [printk]. *)
Definition silent_but (P : nat → Prop) (ts : list (body * place)) : Prop :=
  ∀ j b rest, ts !! j = Some (b, Printing rest) → P j.

Lemma silent_insert (P : nat → Prop) ts i b p :
  silent_but P ts → (∀ rest, p = Printing rest → P i) → silent_but P (<[i := (b, p)]> ts).
Proof.
  intros Hq Hp j b' rest Hj. destruct (decide (i = j)) as [->|Hne].
  - apply list_lookup_insert_Some in Hj as [(_ & ? & _)|[? _]]; [|done]. simplify_eq. by eapply Hp.
  - rewrite list_lookup_insert_ne in Hj by done. by eapply Hq.
Qed.

(** The thread that leaves is the only exception. *)
Lemma silent_leave ts i b p :
  silent_but (λ j, j = i) ts → (∀ rest, p ≠ Printing rest) → silent_but (λ _, False) (<[i := (b, p)]> ts).
Proof.
  intros Hq Hp j b' rest Hj. destruct (decide (i = j)) as [->|Hne].
  - apply list_lookup_insert_Some in Hj as [(_ & ? & _)|[? _]]; [|done]. simplify_eq. by eapply Hp.
  - rewrite list_lookup_insert_ne in Hj by done. apply Hne. symmetry. by eapply Hq.
Qed.

(** The screen shows the lines of the rounds [ls], and, if the lock is taken,
    the beginning [pre] of the line of the thread that has it. *)
Definition lines_inv (sc0 : screen) (ls : list body) (s : machine) : Prop :=
  ∃ pre, typed ((ls ≫= line) ++ pre) sc0 = Done (tt, mscreen s) ∧
    (mlock s = 0 ∧ pre = [] ∧ silent_but (λ _, False) (mthreads s) ∨
     mlock s = 1 ∧ ∃ i b rest, mthreads s !! i = Some (b, Printing rest) ∧
       pre ++ rest = line b ∧ silent_but (λ j, j = i) (mthreads s)).

Lemma typed_app out out' sc x :
  typed (out ++ out') sc = Done (tt, x) ↔ ∃ y, typed out sc = Done (tt, y) ∧ typed out' y = Done (tt, x).
Proof.
  unfold typed. rewrite for_each_app. unfold mbind, ST_bind.
  destruct (for_each out _ sc) as [[[] y]| | |]; split; try (by intros (? & ? & _)); try done.
  - intros Hx. by exists y.
  - intros (y' & Hy & Hx). by simplify_eq.
Qed.

Lemma typed_snoc out c color sc sc' sc'' :
  typed out sc = Done (tt, sc') → type_char c color sc' = Done (tt, sc'') →
  typed (out ++ [(c, color)]) sc = Done (tt, sc'').
Proof.
  intros Ho Hc. apply typed_app. exists sc'. split; [done|]. cbn. unfold mbind, ST_bind. by rewrite Hc.
Qed.

Lemma lines_inv_step sc0 ls s s' : step s s' → lines_inv sc0 ls s → ∃ ls', lines_inv sc0 ls' s'.
Proof.
  intros Hs (pre & Hty & Hcase). destruct Hs as [i b l sc ts Hi|i b l sc ts busy l' Hi Hb|i b l sc ts c color rest sc' Hi Hc|i b l sc ts l' Hi Hr];
    simpl in *.
  - exists ls, pre. split; [done|]. destruct Hcase as [(-> & -> & Hq)|(-> & k & b' & rest & Hk & Hpre & Hq)]; simpl.
    + left. split_and!; [done..|]. by apply silent_insert.
    + right. split; [done|]. assert (i ≠ k) by (intros ->; congruence).
      exists k, b', rest. rewrite list_lookup_insert_ne by done. split_and!; [done..|]. by apply silent_insert.
  - injection Hb as <- <-. exists ls, pre. split; [done|]. right. simpl. split; [done|].
    destruct Hcase as [(-> & -> & Hq)|(-> & k & b' & rest & Hk & Hpre & Hq)]; simpl.
    + exists i, b, (line b). rewrite list_lookup_insert_eq by (by eapply lookup_lt_Some). split_and!; [done..|].
      apply silent_insert; [|done]. intros j b' rest Hj. by destruct (Hq j b' rest Hj).
    + assert (i ≠ k) by (intros ->; congruence).
      exists k, b', rest. rewrite list_lookup_insert_ne by done. split_and!; [done..|]. by apply silent_insert.
  - destruct Hcase as [(_ & _ & Hq)|(-> & k & b' & rest' & Hk & Hpre & Hq)]; [by destruct (Hq _ _ _ Hi)|].
    assert (i = k) as -> by (by eapply Hq). simplify_eq. exists ls, (pre ++ [(c, color)]). split.
    { rewrite app_assoc. by eapply typed_snoc. }
    right. split; [done|]. exists k, b, rest. simpl. rewrite list_lookup_insert_eq by (by eapply lookup_lt_Some).
    split_and!; [done|by rewrite <- app_assoc|]. by apply silent_insert.
  - injection Hr as <-. destruct Hcase as [(_ & _ & Hq)|(_ & k & b' & rest' & Hk & Hpre & Hq)]; [by destruct (Hq _ _ _ Hi)|].
    assert (i = k) as -> by (by eapply Hq). simplify_eq. rewrite app_nil_r in Hpre.
    exists (ls ++ [b]), []. split; [by rewrite bind_app, bind_singleton, app_nil_r, <- Hpre|].
    left. split_and!; [done..|]. by apply silent_leave.
Qed.

Lemma lines_inv_start bs sc : lines_inv sc [] (start bs sc).
Proof.
  exists []. split; [done|]. left. split_and!; [done..|]. intros j b rest Hj. simpl in Hj.
  rewrite list_lookup_fmap in Hj. by destruct (bs !! j).
Qed.

Lemma lines_inv_reachable bs sc s : rtc step (start bs sc) s → ∃ ls, lines_inv sc ls s.
Proof.
  intros Hr. assert (∃ ls, lines_inv sc ls (start bs sc)) as Hinv by (exists []; apply lines_inv_start).
  induction Hr as [|s1 s2 s3 Hs _ IH]; [done|]. destruct Hinv as [ls Hls]. apply IH. by eapply lines_inv_step.
Qed.

Section rounds.
Context (fuel : nat).
Context (Hfuel : (32 ≤ fuel)%nat).
Context (Hidle : is_cstr m idle_fmt (chars "SCHED: This is %s!" ++ [10])) (Hidle_func : is_cstr m idle_func (chars "idle")).
Context (Htest : is_cstr m test_fmt (chars "SCHED: Yo, this is %s!" ++ [10])) (Htest_func : is_cstr m test_func_func (chars "test_func")).
Context (Hidle64 : 0 ≤ idle_func < 2 ^ 64) (Htest64 : 0 ≤ test_func_func < 2 ^ 64).

(** The format of a thread and its name. *)
Definition source (b : body) : list Z * list Z :=
  match b with
  | Idle => (chars "SCHED: This is %s!" ++ [10], chars "idle")
  | Test_func => (chars "SCHED: Yo, this is %s!" ++ [10], chars "test_func")
  end.

Lemma format_source b str name color :
  str name = Some (source b).2 → format str (source b).1 [name] color = Some ((λ c, (c, color)) <$> message b).
Proof. intros Hs. destruct b; vm_compute in Hs |- *; by rewrite Hs. Qed.

(** [printk] of the format with the name. *)
Lemma shows_source b fmt name c :
  is_cstr m fmt (source b).1 → is_cstr m name (source b).2 → 0 ≤ name < 2 ^ 64 →
  shows (printk m fuel fmt [name]) c = typed (line b) (scr c).
Proof using Hfuel.
  intros Hf Hw Hn. set (str := λ p, if p =? name then Some (source b).2 else None).
  apply (shows_printk_loop m fuel fuel str (source b).1); [|lia|by repeat constructor; lia|exact Hf|destruct b; simpl; lia|].
  - intros p w'. unfold str. destruct (Z.eqb_spec p name) as [->|]; [|done]. intros Hp. simplify_eq.
    split; [done|]. destruct b; simpl; lia.
  - apply format_source. unfold str. by rewrite Z.eqb_refl.
Qed.

Lemma shows_done {A} (c : ST console A) s a x : shows c s = Done (a, x) → ∃ s', c s = Done (a, s') ∧ scr s' = x.
Proof. unfold shows. destruct (c s) as [[a' s']| | |]; [|done..]. intros. simplify_eq. by eexists. Qed.

(** A round on a free lock types its line and frees the lock. *)
Lemma round_line b c x :
  typed (line b) (scr c) = Done (tt, x) → ∃ c', round fuel b (Shared 0 c) = Done (tt, Shared 0 c') ∧ scr c' = x.
Proof using All.
  intros Hty. assert (mutex_acquire fuel 0 = Done (tt, 1)) as Hacq.
  { destruct fuel as [|n] eqn:Hn; [lia|]. apply mutex_acquire_alone. }
  assert (∀ fmt name, shows (printk m fuel fmt [name]) c = typed (line b) (scr c) →
    ∃ c', (on_lock (mutex_acquire fuel) ;; on_text (printk m fuel fmt [name]) ;; on_lock mutex_release) (Shared 0 c)
          = Done (tt, Shared 0 c') ∧ scr c' = x) as Hround.
  { intros fmt name Hsh. rewrite Hty in Hsh. apply shows_done in Hsh as (c' & Hrun & Hc'). exists c'. split; [|done].
    unfold mbind, ST_bind, on_lock, on_text, zoom. simpl. rewrite Hacq. simpl. by rewrite Hrun. }
  destruct b; apply Hround.
  - exact (shows_source Idle _ _ c Hidle Hidle_func Hidle64).
  - exact (shows_source Test_func _ _ c Htest Htest_func Htest64).
Qed.

Lemma rounds_lines ls c x :
  typed (ls ≫= line) (scr c) = Done (tt, x) →
  ∃ c', for_each ls (round fuel) (Shared 0 c) = Done (tt, Shared 0 c') ∧ scr c' = x.
Proof using All.
  revert c. induction ls as [|b ls IH]; intros c; simpl; [intros [= <-]; by exists c|].
  intros (y & Hy & Hty)%typed_app.
  destruct (round_line b c y Hy) as (c1 & Hrun & <-). destruct (IH c1 Hty) as (c2 & Hrest & Hx).
  exists c2. split; [|done]. unfold mbind, ST_bind. by rewrite Hrun.
Qed.
End rounds.
End threads.

(** ** Theorem *)


(** ** Witness: [idle] inside [printk], [test_func] waiting *)

Definition image_text : list Z :=
  chars "SCHED: This is %s!" ++ [10; 0] ++ chars "idle" ++ [0] ++
  chars "SCHED: Yo, this is %s!" ++ [10; 0] ++ chars "test_func" ++ [0].
Definition sample_image : bmem := BMem (λ a, nth (Z.to_nat a) image_text 0).
Definition dark : console := Console blank_screen (λ _, 0) (λ _, 0).

(** The state a completed run leaves. *)
Definition left_by {S} (o : outcome (unit * S)) (s : S) : S := match o with Done (_, s') => s' | _ => s end.

(** The screen with the first character. *)
Definition lit : screen := left_by (type_char 83 (MAKE_FG_BG DEFAULT_FG DEFAULT_BG) blank_screen) blank_screen.

Definition contended_print : machine :=
  Machine 1 lit [(Idle, Printing (tail (line Idle))); (Test_func, Acquiring)].

Lemma left_by_done {S} (o : outcome (unit * S)) s : is_done o = true → o = Done (tt, left_by o s).
Proof. by destruct o as [[[] s']| | |]. Qed.

Lemma first_char_done : type_char 83 (MAKE_FG_BG DEFAULT_FG DEFAULT_BG) blank_screen = Done (tt, lit).
Proof. unfold lit. apply left_by_done. vm_compute. reflexivity. Qed.

Lemma contended_print_reachable : rtc step (start [Idle; Test_func] (scr dark)) contended_print.
Proof.
  eapply rtc_l; [exact (step_call 0 Idle 0 blank_screen [(Idle, Outside); (Test_func, Outside)] eq_refl)|].
  eapply rtc_l; [exact (step_iteration 0 Idle 0 _ [(Idle, Acquiring); (Test_func, Outside)] false 1 eq_refl eq_refl)|].
  eapply rtc_l; [exact (step_call 1 Test_func 1 _ [(Idle, Printing (line Idle)); (Test_func, Outside)] eq_refl)|].
  eapply rtc_l; [exact (step_iteration 1 Test_func 1 _ [(Idle, Printing (line Idle)); (Test_func, Acquiring)] true 1 eq_refl eq_refl)|].
  apply rtc_once, (step_char 0 Idle 1 blank_screen [(Idle, Printing (line Idle)); (Test_func, Acquiring)] 83
    (MAKE_FG_BG DEFAULT_FG DEFAULT_BG) (tail (line Idle)) lit); [reflexivity|exact first_char_done].
Qed.

