(* ===== verification/Gdt.v ===== *)
(** amd64/gdt.c and amd64/tss.c: the descriptor table, and task state segments
    in the kernel heap. *)

From S2P Require Import Prelude CString TlsfModel TlsfInv TlsfPhys TlsfExtent TlsfHeap TlsfProps TlsfRoom.
From S2P Require Import Heap HeapBytes Process.

(** ** The table *)

(** [gdt_desc_t]. *)
Record gdt_desc := Desc { limit : Z; base_low : Z; base_mid : Z; access : Z; granularity : Z; base_hi : Z }.

Definition null_desc : gdt_desc := Desc 0 0 0 0 0 0.
Definition GDT_TSS : Z := 9.

Definition g_gdt : list gdt_desc := [
  null_desc;
  Desc 0xFFFF 0x0000 0x00 0x9A 0x00 0x00;
  Desc 0xFFFF 0x0000 0x00 0x92 0x00 0x00;
  Desc 0xFFFF 0x0000 0x00 0x9A 0xCF 0x00;
  Desc 0xFFFF 0x0000 0x00 0x92 0xCF 0x00;
  Desc 0x0000 0x0000 0x00 0x9A 0x20 0x00;
  Desc 0x0000 0x0000 0x00 0x92 0x00 0x00;
  Desc 0x0000 0x0000 0x00 0xFA 0xAF 0x00;
  Desc 0x0000 0x0000 0x00 0xF2 0x00 0x00;
  null_desc; null_desc; null_desc; null_desc].

Definition sizeof_gdt_desc : Z := 8.
Definition sizeof_g_gdt : Z := 104.
Definition sizeof_gdtr : Z := 10.
Definition sizeof_tss_entry : Z := 104.

(** The bytes of a descriptor. *)
Definition desc_bytes (d : gdt_desc) : list Z :=
  [Z.land (limit d) 0xFF; Z.shiftr (limit d) 8; Z.land (base_low d) 0xFF; Z.shiftr (base_low d) 8;
   base_mid d; access d; granularity d; base_hi d].

(** The static table at boot, by byte. *)
Definition initial_gdt : bmem := BMem (λ i, nth (Z.to_nat i) (g_gdt ≫= desc_bytes) 0).

(** ** The bytes [write_tss] writes *)

Section structs.
Context {M : Type} `{ByteMem M}.

(** The assignments of [write_tss] to the descriptor at [a], in order. *)
Definition write_tss_desc (m : M) (a tss_base : Z) : M :=
  let m := st_le m a 2 sizeof_tss_entry in
  let m := st_bits m (a + 6) 7 1 0 in
  let m := st_le m (a + 2) 2 (Z.land tss_base 0xFFFF) in
  let m := st8 m (a + 4) (Z.land (Z.shiftr tss_base 16) 0xFF) in
  let m := st8 m (a + 7) (Z.land (Z.shiftr tss_base 24) 0xFF) in
  let m := st_le m (a + 8) 4 (Z.shiftr tss_base 32) in
  let m := st_bits m (a + 6) 4 1 0 in
  let m := st_bits m (a + 5) 5 2 0 in
  let m := st_bits m (a + 5) 7 1 1 in
  let m := st_le m (a + 12) 4 0 in
  let m := st_bits m (a + 5) 0 4 0x9 in
  st_bits m (a + 5) 4 1 0.
End structs.

(** ** State *)

(** The heap, the static table and the static [tss]. *)
Record segs := Segs { sheap : heap; gdt0 : bmem; bsp_tss : Z }.

Notation L := (ST segs).

Definition set_sheap (h : heap) (s : segs) : segs := Segs h (gdt0 s) (bsp_tss s).
Definition on_sheap {A} (c : ST heap A) : L A := zoom sheap set_sheap c.

(** A change of the bytes of the heap. *)
Definition write_heap (f : (Z → Z) → Z → Z) : L unit := on_sheap (on_arena (λ _, modify (set_mem f))).

(** A descriptor in the static table or at an address in the heap. *)
Inductive place := Static (off : Z) | InHeap (a : Z).

Definition g_bsp_tss_desc : place := Static (GDT_TSS * sizeof_gdt_desc).

(** ** Operations *)

(** The part of [write_tss] that fills the segment. *)
Definition fill_tss (tss : Z) : L unit :=
  guard_ (negb (tss =? 0)) ;;
  write_heap (λ m, memzero m tss sizeof_tss_entry) ;;
  p ← on_sheap (kmalloc 0x500);
  let stack := w64 (p + (0x500 - 1)) in
  write_heap (λ m, st_le m (tss + 4) 4 (Z.land stack (w32 stack))) ;;
  write_heap (λ m, st_le m (tss + 8) 4 (w32 (Z.shiftr stack 32))).

Definition write_tss (gdt_tss : place) (tss : Z) : L unit :=
  fill_tss tss ;;
  match gdt_tss with
  | Static off => modify (λ s, Segs (sheap s) (write_tss_desc (gdt0 s) off tss) (bsp_tss s))
  | InHeap a => guard_ (negb (a =? 0)) ;; write_heap (λ m, write_tss_desc m a tss)
  end.

(** [load_tss] is one instruction. *)
Definition load_tss_bsp : L unit :=
  p ← on_sheap (kmalloc sizeof_tss_entry);
  modify (λ s, Segs (sheap s) (gdt0 s) p) ;;
  write_tss g_bsp_tss_desc p.

(** ** Specification: reading the structures back *)

Section read.
Context {M : Type} `{ByteMem M}.

(** The base, limit, access byte and granularity of the 16-byte system
    descriptor at [a]. *)
Definition tss_base (m : M) (a : Z) : Z :=
  ld_le m (a + 2) 2 + 2 ^ 16 * ld8 m (a + 4) + 2 ^ 24 * ld8 m (a + 7) + 2 ^ 32 * ld_le m (a + 8) 4.
Definition tss_limit (m : M) (a : Z) : Z := ld_le m a 2 + 2 ^ 16 * (ld8 m (a + 6) mod 2 ^ 4).
Definition tss_access (m : M) (a : Z) : Z := ld8 m (a + 5).

(** The ring 0 stack pointer of the task state segment at [t]. *)
Definition tss_rsp0 (m : M) (t : Z) : Z := ld_le m (t + 4) 4 + 2 ^ 32 * ld_le m (t + 8) 4.

(** ** Lemmas *)

(** The byte of type, ring and presence ends up the same whatever it was. *)
Lemma access_byte b : 0 ≤ b < 256 →
  set_bits (set_bits (set_bits (set_bits b 5 2 0) 7 1 1) 0 4 0x9) 4 1 0 = 0x89.
Proof.
  intros Hb.
  assert (forallb (λ b, set_bits (set_bits (set_bits (set_bits b 5 2 0) 7 1 1) 0 4 0x9) 4 1 0 =? 0x89) (seqZ 0 256) = true) as Hall
    by (vm_compute; reflexivity).
  rewrite forallb_forall in Hall. apply Z.eqb_eq, Hall, list_elem_of_In, elem_of_seqZ. lia.
Qed.

Ltac byte_stores :=
  unfold write_tss_desc; cbv zeta;
  repeat first [ rewrite ld8_st_bits by lia | rewrite ld8_st_le by lia
               | rewrite ld8_st8 by (change 0xFF with (Z.ones 8); rewrite Z.land_ones by lia; apply Z.mod_pos_bound; lia) ];
  byte_cases.

Lemma write_tss_desc_outside (m : M) a t x : x < a ∨ a + 16 ≤ x → ld8 (write_tss_desc m a t) x = ld8 m x.
Proof. intros [Hx|Hx]; by byte_stores. Qed.

Lemma write_tss_desc_base (m : M) a t : 0 ≤ t < 2 ^ 64 → tss_base (write_tss_desc m a t) a = t.
Proof.
  intros Ht. unfold tss_base.
  rewrite (ld_le_bytes _ (a + 2) 2 (Z.land t 0xFFFF)), (ld_le_bytes _ (a + 8) 4 (Z.shiftr t 32)).
  - replace (ld8 _ (a + 4)) with (Z.land (Z.shiftr t 16) 0xFF) by (byte_stores; done).
    replace (ld8 _ (a + 7)) with (Z.land (Z.shiftr t 24) 0xFF) by (byte_stores; done).
    change 0xFFFF with (Z.ones 16). change 0xFF with (Z.ones 8). rewrite !Z.land_ones, !Z.shiftr_div_pow2 by lia.
    simpl Z.of_nat. Z.to_euclidean_division_equations. lia.
  - intros i Hi. byte_stores. do 2 f_equal. lia.
  - intros i Hi. byte_stores. do 2 f_equal. lia.
Qed.

Lemma write_tss_desc_access (m : M) a t : tss_access (write_tss_desc m a t) a = 0x89.
Proof. unfold tss_access. byte_stores. apply access_byte, ld8_range. Qed.

Lemma write_tss_desc_limit (m : M) a t :
  tss_limit (write_tss_desc m a t) a = sizeof_tss_entry + 2 ^ 16 * (ld8 m (a + 6) mod 2 ^ 4).
Proof.
  unfold tss_limit. rewrite (ld_le_bytes _ a 2 sizeof_tss_entry).
  - f_equal. f_equal. byte_stores. pose proof (ld8_range m (a + 6)) as Hb. revert Hb. generalize (ld8 m (a + 6)). intros b Hb.
    assert (forallb (λ b, set_bits (set_bits b 7 1 0) 4 1 0 mod 2 ^ 4 =? b mod 2 ^ 4) (seqZ 0 256) = true) as Hall
      by (vm_compute; reflexivity).
    rewrite forallb_forall in Hall. apply Z.eqb_eq, Hall, list_elem_of_In, elem_of_seqZ. lia.
  - intros i Hi. byte_stores. do 2 f_equal. lia.
Qed.
End read.

(** ** Writing the descriptor *)

Lemma inside_desc q sz a t : q mod 8 = 0 → q ≤ a → a + 16 ≤ q + sz → inside q sz (λ m, write_tss_desc m a t).
Proof.
  intros Hq Ha Hn. unfold write_tss_desc. cbv zeta.
  assert (∀ b k n v, a ≤ b < a + 16 → inside q sz (λ m, st_bits m b k n v)) as Hbits
    by (intros; apply (inside_st8 q sz b (λ m, set_bits (ld8 m b) _ _ _)); lia).
  assert (∀ b n v, a ≤ b → b + n ≤ a + 16 → inside q sz (λ m, st_le m b n v)) as Hle
    by (intros; apply inside_st_le; lia).
  assert (∀ b v, a ≤ b < a + 16 → inside q sz (λ m, st8 m b v)) as H8
    by (intros b v ?; apply (inside_st8 q sz b (λ _, v)); lia).
  repeat match goal with
  | |- inside q sz (λ m, st_bits (@?f m) ?b ?k ?n ?v) => first [apply Hbits; lia | apply (inside_comp q sz f (λ m, st_bits m b k n v)); [|apply Hbits; lia]]
  | |- inside q sz (λ m, st_le (@?f m) ?b ?n ?v) => first [apply Hle; lia | apply (inside_comp q sz f (λ m, st_le m b n v)); [|apply Hle; lia]]
  | |- inside q sz (λ m, st8 (@?f m) ?b ?v) => first [apply H8; lia | apply (inside_comp q sz f (λ m, st8 m b v)); [|apply H8; lia]]
  end.
Qed.

Lemma wp_write_heap f s (Q : unit → segs → Prop) : Q tt (set_sheap (poked f (sheap s)) s) → wp (write_heap f) s Q.
Proof. intros HQ. exact HQ. Qed.

(** ** Writing a task state segment *)

Lemma rsp0_halves stack : 0 ≤ stack < 2 ^ 64 →
  Z.land stack (w32 stack) = stack mod 2 ^ 32 ∧ w32 (Z.shiftr stack 32) = stack / 2 ^ 32.
Proof.
  intros Hs. split.
  - unfold w32. rewrite <- !Z.land_ones, Z.land_assoc, Z.land_diag by lia. done.
  - rewrite Z.shiftr_div_pow2 by lia. apply w32_small. split; [apply Z.div_pos; lia|apply Z.div_lt_upper_bound; lia].
Qed.

(** The state after the segment is filled: [V'] is what the heap has handed
    out, [stack] the address the new stack was given. *)
Record tss_filled (B : gmap Z blk) (tss : Z) (s : segs) (V : gmap Z Z) (B' : gmap Z blk) (V' : gmap Z Z) (stack : Z)
    (s' : segs) : Prop := {
  tf_grow : V ⊆ V';
  tf_holds : holds B' (sheap s') V';
  tf_stack : stack = 0 ∨ V !! stack = None ∧ ∃ ssz, V' !! stack = Some ssz ∧ 0x500 ≤ ssz;
  tf_rsp0 : tss_rsp0 (hmem (sheap s')) tss = w64 (stack + 0x4FF);
  tf_zero i : 0 ≤ i < 4 ∨ 12 ≤ i < sizeof_tss_entry → ld8 (hmem (sheap s')) (tss + i) = 0;
  tf_static : gdt0 s' = gdt0 s ∧ bsp_tss s' = bsp_tss s;
  tf_keeps : keeps (delete tss V) (sheap s) (sheap s');
  tf_room l : serves B (0x500 :: l) → stack ≠ 0 ∧ serves B' l;
}.

Lemma wp_fill_tss B s V tss tsz (Q : unit → segs → Prop) :
  holds B (sheap s) V → V !! tss = Some tsz → sizeof_tss_entry ≤ tsz →
  (∀ B' V' stack s', tss_filled B tss s V B' V' stack s' → Q tt s') → wp (fill_tss tss) s Q.
Proof.
  intros Hh Ht Hsz HQ. assert (owns (sheap s) V) as Ho by (by exists B). unfold sizeof_tss_entry in *.
  destruct (owned_place _ _ _ _ Ho Ht) as (Ht8 & Ht0 & _).
  pose proof (inside_memzero tss tsz tss 104 Ht8 ltac:(lia) ltac:(lia)) as Hz.
  pose proof (holds_poked _ _ _ _ _ _ Hh Ht Hz) as Hh1. pose proof (owns_poked _ _ _ _ _ Ho Ht Hz) as Ho1.
  pose proof (keeps_poked _ _ (delete tss V) _ _ _ Ho Ht Hz ltac:(apply delete_subseteq) ltac:(apply lookup_delete_eq)) as Hk1.
  apply wp_bind, wp_nonnull; [lia|]. apply wp_bind, wp_write_heap, wp_bind, wp_zoom. cbn [sheap set_sheap].
  eapply (wp_kmalloc_in B _ V); [exact Hh1|lia|]. intros p h2 Hrun Hk2 Hp. cbv zeta.
  assert (∃ B' V', V ⊆ V' ∧ holds B' h2 V' ∧ (p = 0 ∨ V !! p = None ∧ ∃ ssz, V' !! p = Some ssz ∧ 0x500 ≤ ssz) ∧
    ∀ l, serves B (0x500 :: l) → p ≠ 0 ∧ serves B' l) as (B' & V' & HVV & Hh2 & Hst & Hroom).
  { destruct Hp as [(-> & Hno & Hh2)|(sz & B' & Hp & Hnone & Hpsz & Hh2 & Hrz)].
    - exists B, V. split_and!; [done|done|by left|]. intros l Hl. by destruct (Hno (serves_head _ _ _ _ _ (proj1 Hh1) Hl)).
    - exists B', (<[p:=sz]> V). split_and!; [by apply insert_subseteq|done| |].
      + right. split; [exact Hnone|]. exists sz. rewrite lookup_insert_eq. split; [reflexivity|lia].
      + intros l Hl. split; [lia|]. by eapply serves_step. }
  assert (owns h2 V') as Ho2 by (by exists B').
  clear Hp. assert (V' !! tss = Some tsz) as Ht' by (by eapply lookup_weaken).
  pose proof (w64_range (p + (0x500 - 1))) as Hw. set (stack := w64 (p + (0x500 - 1))) in *.
  destruct (rsp0_halves stack Hw) as [-> ->].
  pose proof (inside_comp _ _ _ _ (inside_st_le tss tsz (tss + 4) 4 (stack mod 2 ^ 32) Ht8 ltac:(lia) ltac:(lia))
    (inside_st_le tss tsz (tss + 8) 4 (stack / 2 ^ 32) Ht8 ltac:(lia) ltac:(lia))) as Hin.
  apply wp_bind, wp_write_heap, wp_write_heap. apply (HQ B' V' p). split; cbn [sheap set_sheap poked arena mem set_mem gdt0 bsp_tss].
  - exact HVV.
  - exact (holds_poked _ _ _ _ _ _ Hh2 Ht' Hin).
  - exact Hst.
  - unfold tss_rsp0.
    rewrite (ld_le_bytes _ (tss + 4) 4 (stack mod 2 ^ 32)), (ld_le_bytes _ (tss + 8) 4 (stack / 2 ^ 32)).
    + change (w64 (p + 0x4FF)) with stack. clear -Hw. simpl Z.of_nat. Z.to_euclidean_division_equations. lia.
    + intros i Hi. rewrite ld8_st_le by lia. byte_cases. do 2 f_equal. lia.
    + intros i Hi. rewrite !ld8_st_le by lia. byte_cases. do 2 f_equal. lia.
  - unfold sizeof_tss_entry. intros i Hi. assert (ld8 (hmem h2) (tss + i) = 0) as Hi0.
    { rewrite (keeps_byte _ h2 V tss tsz i Ho1 Hk2 Ht ltac:(lia)).
      cbn [poked arena mem set_mem]. rewrite memzero_ld8 by lia. by byte_cases. }
    destruct Hi; rewrite !ld8_st_le by lia; byte_cases; exact Hi0.
  - split; reflexivity.
  - intros q qsz x Hq Hx. pose proof (Hk1 q qsz x Hq Hx) as E1.
    apply lookup_delete_Some in Hq as [Hne Hq]. pose proof (Hk2 q qsz x Hq Hx) as E2. etrans; [|etrans; [exact E2|exact E1]].
    apply Hin. destruct (owns_separate h2 V' q qsz tss tsz Ho2 ltac:(by eapply lookup_weaken) Ht' ltac:(done)); lia.
  - exact Hroom.
Qed.

(** Writing the descriptor into an allocation [g]. *)
Lemma wp_desc_in_heap B s V g gsz a tss (Q : unit → segs → Prop) :
  holds B (sheap s) V → V !! g = Some gsz → g ≤ a → a + 16 ≤ g + gsz → 0 ≤ tss < 2 ^ 64 →
  (∀ s', holds B (sheap s') V → gdt0 s' = gdt0 s → bsp_tss s' = bsp_tss s → keeps (delete g V) (sheap s) (sheap s') →
     tss_base (hmem (sheap s')) a = tss → tss_access (hmem (sheap s')) a = 0x89 →
     (∀ x, x < a ∨ a + 16 ≤ x → ld8 (hmem (sheap s')) x = ld8 (hmem (sheap s)) x) → Q tt s') →
  wp (guard_ (negb (a =? 0)) ;; write_heap (λ m, write_tss_desc m a tss)) s Q.
Proof.
  intros Hh Hg Hlo Hhi Ht HQ. assert (owns (sheap s) V) as Ho by (by exists B). destruct (owned_place _ _ _ _ Ho Hg) as (Hg8 & Hg0 & _).
  pose proof (inside_desc g gsz a tss Hg8 Hlo Hhi) as Hin.
  apply wp_bind, wp_nonnull; [lia|]. apply wp_write_heap. apply HQ; try reflexivity.
  - exact (holds_poked _ _ _ _ _ _ Hh Hg Hin).
  - exact (keeps_poked _ _ (delete g V) _ _ _ Ho Hg Hin ltac:(apply delete_subseteq) ltac:(apply lookup_delete_eq)).
  - by apply write_tss_desc_base.
  - apply write_tss_desc_access.
  - intros x Hx. by apply write_tss_desc_outside.
Qed.

(** ** Properties *)

(** The selectors a new thread starts with name 64-bit ring 0 code and writable
    ring 0 data of the table. *)
Definition ring0_code (d : gdt_desc) : bool :=
  Z.testbit (access d) 7 && (Z.land (Z.shiftr (access d) 5) 3 =? 0) && Z.testbit (access d) 4 && Z.testbit (access d) 3 &&
  Z.testbit (granularity d) 5 && negb (Z.testbit (granularity d) 6).
Definition ring0_data (d : gdt_desc) : bool :=
  Z.testbit (access d) 7 && (Z.land (Z.shiftr (access d) 5) 3 =? 0) && Z.testbit (access d) 4 &&
  negb (Z.testbit (access d) 3) && Z.testbit (access d) 1.

Lemma thread_selectors base entry :
  ring0_code (nth (Z.to_nat (tf_cs (entry_frame base entry) / sizeof_gdt_desc)) g_gdt null_desc) = true ∧
  ring0_data (nth (Z.to_nat (ss (entry_frame base entry) / sizeof_gdt_desc)) g_gdt null_desc) = true.
Proof. done. Qed.

Lemma wp_load_tss_bsp s V l :
  room (sheap s) V (sizeof_tss_entry :: 0x500 :: l) → (∀ i, 72 ≤ i < 88 → ld8 (gdt0 s) i = 0) →
  wp load_tss_bsp s (λ _ s', ∃ V' stack sz,
    let tss := bsp_tss s' in let mem := hmem (sheap s') in
    V ⊆ V' ∧ room (sheap s') V' l ∧ keeps V (sheap s) (sheap s') ∧ V !! tss = None ∧ is_Some (V' !! tss) ∧
    tss_base (gdt0 s') 72 = tss ∧ tss_limit (gdt0 s') 72 = 104 ∧ tss_access (gdt0 s') 72 = 0x89 ∧
    (∀ i, i < 72 ∨ 88 ≤ i → ld8 (gdt0 s') i = ld8 (gdt0 s) i) ∧
    V !! stack = None ∧ stack ≠ tss ∧ V' !! stack = Some sz ∧ 0x500 ≤ sz ∧
    tss_rsp0 mem tss = stack + 0x4FF ∧
    ∀ i, 0 ≤ i < 4 ∨ 12 ≤ i < 104 → ld8 mem (tss + i) = 0).
Proof.
  intros (B & Hh & Hroom) Hz. pose proof (serves_head _ _ _ _ _ (proj1 Hh) Hroom) as Hen. unfold load_tss_bsp.
  apply wp_bind, wp_zoom. eapply wp_kmalloc_in; [exact Hh|unfold sizeof_tss_entry; lia|].
  intros p h _ Hk1 [(_ & Hno & _)|(sz & B1 & Hp & Hnone & Hsz & Ho1 & Hrz)]; [by destruct Hno|].
  pose proof (serves_step _ _ _ _ Hroom Hrz) as Hroom1.
  apply wp_bind, wp_modify. unfold write_tss. apply wp_bind.
  eapply (wp_fill_tss B1 _ (<[p:=sz]> V) p sz); [exact Ho1|apply lookup_insert_eq|lia|].
  intros B2 V' stack s' [Hg Ho' Hst Hr Hzero [Hgdt Htss] Hk2 Hleft]. destruct (Hleft l Hroom1) as [Hs0 Hroom'].
  destruct Hst as [|[[Hsn Hne]%lookup_insert_None (ssz & Hs & Hssz)]]; [done|].
  assert (owns (sheap s') V') as Ho by (by exists B2). destruct (owned_place _ _ _ _ Ho Hs) as (_ & Hs1 & _ & Hs2).
  apply wp_modify. exists V', stack, ssz.
  cbn [sheap gdt0 bsp_tss] in *. rewrite Hgdt, Htss. change (GDT_TSS * sizeof_gdt_desc) with 72.
  rewrite w64_small in Hr by lia. assert (V ⊆ <[p:=sz]> V) as HV by (by apply insert_subseteq).
  split_and!; try done.
  - by etrans.
  - by exists B2.
  - apply (keeps_trans V V _ h); [done|exact Hk1|]. eapply keeps_weaken; [|exact Hk2]. by rewrite delete_insert_id.
  - exists sz. eapply lookup_weaken; [apply lookup_insert_eq|exact Hg].
  - apply write_tss_desc_base. lia.
  - rewrite write_tss_desc_limit, Hz by lia. done.
  - apply write_tss_desc_access.
  - intros i Hi. apply write_tss_desc_outside. lia.
Qed.


(** ** Witness *)

Lemma initial_slot i : 72 ≤ i < 88 → ld8 initial_gdt i = 0.
Proof.
  intros Hi. assert (forallb (λ i, ld8 initial_gdt i =? 0) (seqZ 72 16) = true) as Hall by (vm_compute; reflexivity).
  rewrite forallb_forall in Hall. apply Z.eqb_eq, Hall, list_elem_of_In, elem_of_seqZ. lia.
Qed.

