(* ===== verification/Smp.v ===== *)
(** amd64/smp.c: the descriptors of the cores and the start of the application
    processors. *)

From S2P Require Import Prelude CString Io Acpi Interrupts Mutex Cpu.
From S2P Require Import TlsfModel TlsfExtent TlsfHeap TlsfProps TlsfRoom Bitmap Pmm Heap Vmm Frames Queue.
From S2P Require Import HeapBytes Process Sched Gdt.

(** ** State *)

(** The scheduler's state, the static descriptor table and [tss], and the
    statics of smp.c; [extra_argument] and [goto_address] are the fields of the
    boot loader's processor entries. *)
Record smp (D : Type) := Smp {
  msched : sched D;
  mgdt : bmem;
  mtss : Z;
  g_corelist : Z;
  ap_lock : Z;
  core_idx : Z;
  extra_argument : Z → Z;
  goto_address : Z → Z;
}.
Arguments Smp {D} _ _ _ _ _ _ _ _.
Arguments msched {D} _.
Arguments mgdt {D} _.
Arguments mtss {D} _.
Arguments g_corelist {D} _.
Arguments ap_lock {D} _.
Arguments core_idx {D} _.
Arguments extra_argument {D} _ _.
Arguments goto_address {D} _ _.

Definition sizeof_cpu_core : Z := 64.

(** Fields of a core. *)
Definition with_lapic_id (v : Z) (c : core) : core :=
  Core (lapic_freq c) v (flags c) (core_lock c) (gdt c) (gdtr c) (tss c) (running_process c).
Definition with_gdt (v : Z) (c : core) : core :=
  Core (lapic_freq c) (lapic_id c) (flags c) (core_lock c) v (gdtr c) (tss c) (running_process c).
Definition with_gdtr (v : Z) (c : core) : core :=
  Core (lapic_freq c) (lapic_id c) (flags c) (core_lock c) (gdt c) v (tss c) (running_process c).
Definition with_tss (v : Z) (c : core) : core :=
  Core (lapic_freq c) (lapic_id c) (flags c) (core_lock c) (gdt c) (gdtr c) v (running_process c).

Section smp.
Context {D : Type} `{Device D} `{ShiftSem} (hhdm : Z).

Notation W := (ST (smp D)).

Definition set_msched (x : sched D) (s : smp D) : smp D :=
  Smp x (mgdt s) (mtss s) (g_corelist s) (ap_lock s) (core_idx s) (extra_argument s) (goto_address s).
Definition set_g_corelist (p : Z) (s : smp D) : smp D :=
  Smp (msched s) (mgdt s) (mtss s) p (ap_lock s) (core_idx s) (extra_argument s) (goto_address s).
Definition set_ap_lock (l : Z) (s : smp D) : smp D :=
  Smp (msched s) (mgdt s) (mtss s) (g_corelist s) l (core_idx s) (extra_argument s) (goto_address s).
Definition set_entry (i extra goto : Z) (s : smp D) : smp D :=
  Smp (msched s) (mgdt s) (mtss s) (g_corelist s) (ap_lock s) (core_idx s)
    (upd (extra_argument s) i extra) (upd (goto_address s) i goto).

Definition mheap (s : smp D) : heap := kheap (sprocs (msched s)).
Definition set_mheap (h : heap) (s : smp D) : smp D :=
  set_msched (set_sprocs (set_kheap h (sprocs (msched s))) (msched s)) s.

Definition on_sched {A} (c : ST (sched D) A) : W A := zoom msched set_msched c.
Definition on_mheap {A} (c : ST heap A) : W A := zoom mheap set_mheap c.
Definition on_segs {A} (c : ST segs A) : W A :=
  zoom (λ s, Segs (mheap s) (mgdt s) (mtss s))
       (λ t s, let s := set_mheap (sheap t) s in
               Smp (msched s) (gdt0 t) (bsp_tss t) (g_corelist s) (ap_lock s) (core_idx s) (extra_argument s) (goto_address s)) c.

(** An assignment through [desc], the address of [g_corelist[i]]. *)
Definition set_desc (i : Z) (f : core → core) : W unit :=
  p ← gets g_corelist; guard_ (negb (p =? 0)) ;; on_sched (update_core i f).

(** ** Operations *)

Definition init_core_desc (i lapic_id : Z) : W unit :=
  set_desc i (with_lapic_id (w8 lapic_id)) ;;
  g ← on_mheap (kmalloc (sizeof_gdt_desc * 13));
  set_desc i (with_gdt g) ;;
  guard_ (negb (g =? 0)) ;;
  table ← gets mgdt;
  on_segs (write_heap (copy_in table g sizeof_g_gdt)) ;;
  r ← on_mheap (kmalloc sizeof_gdtr);
  set_desc i (with_gdtr r) ;;
  guard_ (negb (r =? 0)) ;;
  on_segs (write_heap (λ m, st_le m r 2 (sizeof_g_gdt - 1))) ;;
  on_segs (write_heap (λ m, st_le m (r + 2) 8 g)) ;;
  set_desc i (with_lock 0) ;;
  set_desc i (with_flags 0) ;;
  set_desc i (with_running 0) ;;
  on_sched (modify (λ s, set_runq (TAILQ_INIT (runq s) i) s)) ;;
  t ← on_mheap (kmalloc sizeof_tss_entry);
  set_desc i (with_tss t) ;;
  on_segs (write_tss (InHeap (g + GDT_TSS * sizeof_gdt_desc)) t).

(** [n], [ids] and [bsp] are what the boot loader's response holds:
    [cpu_count], the [lapic_id] of each processor and [bsp_lapic_id]; [ap] is
    the address of [ap_entry]. *)
Definition set_cpu_count (n : Z) (c : cpu D) : cpu D :=
  Cpu (irqs c) (timer_vector c) (goto_vector c) (hpet_base c) (hpet_period c) (sleep_lock c) (this_core_lock c)
    (goto_vec_lock c) n (corelist c).

Definition init_cores (n : Z) (ids : Z → Z) : W unit :=
  on_sched (on_cpu (modify (set_cpu_count n))) ;;
  p ← on_mheap (kmalloc (w64 (sizeof_cpu_core * n)));
  modify (set_g_corelist p) ;;
  for_each (seqZ 0 n) (λ i, init_core_desc i (ids i)).

Definition start_aps (n : Z) (ids : Z → Z) (bsp ap : Z) : W unit :=
  for_each (seqZ 0 n) (λ i,
    if ids i =? bsp then mret tt
    else
      t ← on_sched (on_procs (on_kvm vmm_make_pml4));
      modify (set_entry i t ap)).

Definition smp_init (n : Z) (ids : Z → Z) (bsp ap : Z) : W unit :=
  init_cores n ids ;; start_aps n ids bsp ap.

Definition smp_get_core_count : W Z := gets (λ s, cpu_count (scpu (msched s))).

(** [ap_entry] up to its idle loop; the result is the table it loaded.  The
    loads of the page table, the interrupt table and the task register are one
    instruction each. *)
Definition ap_entry (fuel : nat) (timer_isr : Z) : W Z :=
  zoom ap_lock set_ap_lock (mutex_acquire fuel) ;;
  p ← gets g_corelist;
  guard_ (negb (p =? 0)) ;;
  i ← gets core_idx;
  c ← gets (λ s, corelist (scpu (msched s)) i);
  guard_ (negb (gdtr c =? 0)) ;;
  on_sched (on_cpu (lapic_init hhdm timer_isr)) ;;
  on_sched (on_cpu (lapic_timer_calibrate hhdm fuel)) ;;
  zoom ap_lock set_ap_lock mutex_release ;;
  mret (gdtr c).

(** ** Specification *)

(** What the start of a core requests of the heap: its descriptor table, its
    table register, its task state segment and the segment's stack. *)
Definition core_requests : list Z := [sizeof_gdt_desc * 13; sizeof_gdtr; sizeof_tss_entry; 0x500].
Definition smp_requests (n : Z) (rest : list Z) : list Z :=
  sizeof_cpu_core * n :: concat (replicate (Z.to_nat n) core_requests) ++ rest.

(** Core [c] has a descriptor table of its own, a copy of [table] but for the
    slot of its task state segment, which describes the core's own segment and
    stack; its table register names the table.  Without the stack only if the
    heap may run out ([starved]). *)
Record core_ok (starved : Prop) (table : bmem) (V : gmap Z Z) (h : heap) (c : core) : Prop := {
  ck_gdt : ∃ sz, V !! gdt c = Some sz ∧ sizeof_g_gdt ≤ sz;
  ck_gdtr : ∃ sz, V !! gdtr c = Some sz ∧ sizeof_gdtr ≤ sz;
  ck_tss : ∃ sz, V !! tss c = Some sz ∧ sizeof_tss_entry ≤ sz;
  ck_limit : ld_le (hmem h) (gdtr c) 2 = sizeof_g_gdt - 1;
  ck_base : ld_le (hmem h) (gdtr c + 2) 8 = gdt c;
  ck_table i : 0 ≤ i < 72 ∨ 88 ≤ i < 104 → ld8 (hmem h) (gdt c + i) = ld8 table i;
  ck_desc : tss_base (hmem h) (gdt c + 72) = tss c ∧ tss_access (hmem h) (gdt c + 72) = 0x89;
  ck_rsp0 : ∃ stack, (starved ∧ stack = 0 ∨ ∃ sz, V !! stack = Some sz ∧ 0x500 ≤ sz) ∧
    tss_rsp0 (hmem h) (tss c) = w64 (stack + 0x4FF);
}.

(** [s] with another heap, other cores and other run queues. *)
Definition with_state (s : smp D) (h : heap) (cl : Z → core) (q : queues) : smp D :=
  let x := msched s in
  let c := scpu x in
  Smp (Sched (set_kheap h (sprocs x))
             (Cpu (irqs c) (timer_vector c) (goto_vector c) (hpet_base c) (hpet_period c) (sleep_lock c)
                (this_core_lock c) (goto_vec_lock c) (cpu_count c) cl)
             q (current_core_idx x) (trap_lock x))
      (mgdt s) (mtss s) (g_corelist s) (ap_lock s) (core_idx s) (extra_argument s) (goto_address s).

(** ** Lemmas *)

Lemma wp_set_desc s h cl q i f (Q : unit → smp D → Prop) :
  g_corelist s ≠ 0 → Q tt (with_state s h (upd cl i (f (cl i))) q) → wp (set_desc i f) (with_state s h cl q) Q.
Proof. intros Hp HQ. apply wp_bind, wp_gets, wp_bind, wp_nonnull; [exact Hp|]. exact HQ. Qed.

Lemma wp_segs_heap s h cl q f (Q : unit → smp D → Prop) :
  Q tt (with_state s (poked f h) cl q) → wp (on_segs (write_heap f)) (with_state s h cl q) Q.
Proof. intros HQ. exact HQ. Qed.

Section starved.
Context (P : Prop).

(** An allocation whose address goes into a descriptor and is used. *)
Lemma wp_or_alloc_used s h cl q i V (f : Z → core → core) n l {A} (k : Z → W A) (Q : A → smp D → Prop) :
  g_corelist s ≠ 0 → room_or P h V (n :: l) → 0 < n ≤ 2 ^ 64 - 8 →
  (∀ s, k 0 s = Undef) →
  (∀ p sz h', p ≠ 0 → 0 ≤ p < 2 ^ 64 → V !! p = None → n ≤ sz → room_or P h' (<[p:=sz]> V) l → keeps V h h' →
     wp_or P (k p) (with_state s h' (upd cl i (f p (cl i))) q) Q) →
  wp_or P (p ← on_mheap (kmalloc n); set_desc i (f p) ;; k p) (with_state s h cl q) Q.
Proof.
  intros Hc Hr Hn Hnull HQ. apply wp_or_step, wp_zoom. eapply wp_kmalloc_or; [exact Hr|exact Hn|].
  intros p h' Hkeep Hp. apply wp_or_step. change (set_mheap h' (with_state s h cl q)) with (with_state s h' cl q).
  apply wp_set_desc; [exact Hc|]. destruct Hp as [(-> & HP & _)|(sz & Hp & Hnone & Hsz & Hr')].
  - unfold wp_or. by rewrite Hnull.
  - apply (HQ p sz); [lia|lia|done..].
Qed.

(** What a core's descriptor says survives whatever leaves the allocations
    alone. *)
Lemma core_ok_keeps table V V' h h' c :
  core_ok P table V h c → owns h V → V ⊆ V' → keeps V h h' → core_ok P table V' h' c.
Proof.
  intros [(gsz & Hg & Hgs) (rsz & Hr & Hrs) (tsz & Ht & Hts) Hlim Hbase Htab [Hdb Hda] (stack & Hst & Hrsp)] Ho HV Hk.
  unfold sizeof_g_gdt, sizeof_gdtr, sizeof_tss_entry in *.
  assert (∀ q sz i n, V !! q = Some sz → 0 ≤ i → i + Z.of_nat n ≤ sz → ld_le (hmem h') (q + i) n = ld_le (hmem h) (q + i) n) as Hle.
  { intros q sz i n Hq Hi Hn. apply ld_le_ext. intros k Hkn. rewrite <- Z.add_assoc. by apply (keeps_byte h h' V q sz); [..|lia]. }
  assert (∀ q sz i, V !! q = Some sz → 0 ≤ i < sz → ld8 (hmem h') (q + i) = ld8 (hmem h) (q + i)) as H8
    by (intros; by eapply keeps_byte).
  split.
  - exists gsz. split; [by eapply lookup_weaken|done].
  - exists rsz. split; [by eapply lookup_weaken|done].
  - exists tsz. split; [by eapply lookup_weaken|done].
  - etrans; [|exact Hlim]. rewrite <- (Z.add_0_r (gdtr c)). apply (Hle _ rsz); [done|simpl; lia..].
  - etrans; [|exact Hbase]. apply (Hle _ rsz); [done|simpl; lia..].
  - intros i Hi. rewrite <- Htab by done. apply (H8 _ gsz); [done|lia].
  - split; [etrans; [|exact Hdb]|etrans; [|exact Hda]]; unfold tss_base, tss_access; rewrite <- !Z.add_assoc.
    + rewrite !(Hle _ gsz), !(H8 _ gsz) by (done || (simpl; lia)). done.
    + apply (H8 _ gsz); [done|lia].
  - exists stack. split.
    + destruct Hst as [Hst|(sz & Hs & Hss)]; [by left|right]. exists sz. split; [by eapply lookup_weaken|done].
    + rewrite <- Hrsp. unfold tss_rsp0. by rewrite !(Hle _ tsz) by (done || (simpl; lia)).
Qed.

(** A core's copy of the table and its table register, before the segment. *)
Lemma wp_init_tables s h cl q V i l {A} (k : Z → W A) (Q : A → smp D → Prop) :
  g_corelist s ≠ 0 → room_or P h V (sizeof_gdt_desc * 13 :: sizeof_gdtr :: l) →
  (∀ g gsz r rsz h' cl', V !! g = None → V !! r = None → g ≠ r → sizeof_g_gdt ≤ gsz → sizeof_gdtr ≤ rsz →
     let V' := <[r:=rsz]> (<[g:=gsz]> V) in room_or P h' V' l → keeps V h h' →
     cl' i = with_gdtr r (with_gdt g (cl i)) → (∀ j, j ≠ i → cl' j = cl j) →
     ld_le (hmem h') r 2 = sizeof_g_gdt - 1 → ld_le (hmem h') (r + 2) 8 = g →
     (∀ j, 0 ≤ j < 104 → ld8 (hmem h') (g + j) = ld8 (mgdt s) j) →
     wp_or P (k g) (with_state s h' cl' q) Q) →
  wp_or P (
    g ← on_mheap (kmalloc (sizeof_gdt_desc * 13));
    set_desc i (with_gdt g) ;;
    guard_ (negb (g =? 0)) ;;
    table ← gets mgdt;
    on_segs (write_heap (copy_in table g sizeof_g_gdt)) ;;
    r ← on_mheap (kmalloc sizeof_gdtr);
    set_desc i (with_gdtr r) ;;
    guard_ (negb (r =? 0)) ;;
    on_segs (write_heap (λ m, st_le m r 2 (sizeof_g_gdt - 1))) ;;
    on_segs (write_heap (λ m, st_le m (r + 2) 8 g)) ;; k g) (with_state s h cl q) Q.
Proof.
  intros Hc Hr HQ. unfold sizeof_gdt_desc, sizeof_g_gdt, sizeof_gdtr in *.
  eapply (wp_or_alloc_used s h cl q i V with_gdt); [done..|reflexivity|].
  intros g gsz h1 Hg Hg64 Hgn Hgsz Hr1 Hk1. pose proof (room_or_owns _ _ _ _ Hr1) as Ho1.
  assert (<[g:=gsz]> V !! g = Some gsz) as Hgl by apply lookup_insert_eq.
  destruct (owned_place _ _ _ _ Ho1 Hgl) as (Hg8 & _).
  pose proof (inside_copy_in (mgdt s) g gsz g 104 Hg8 ltac:(lia) ltac:(lia)) as Hin1.
  apply wp_or_step, wp_nonnull; [exact Hg|]. apply wp_or_step, wp_gets, wp_or_step, wp_segs_heap.
  eapply (wp_or_alloc_used s _ _ q i (<[g:=gsz]> V) with_gdtr);
    [exact Hc|exact (room_or_poked _ _ _ _ _ _ _ Hr1 Hgl Hin1)|lia|reflexivity|].
  intros r rsz h2 Hr0 Hr64 Hrn Hrsz Hr2 Hk2. pose proof (room_or_owns _ _ _ _ Hr2) as Ho2. apply lookup_insert_None in Hrn as [Hrn Hgr].
  assert (<[r:=rsz]> (<[g:=gsz]> V) !! r = Some rsz) as Hrl by apply lookup_insert_eq.
  destruct (owned_place _ _ _ _ Ho2 Hrl) as (Hr8 & _).
  pose proof (inside_comp _ _ _ _ (inside_st_le r rsz r 2 103 Hr8 ltac:(lia) ltac:(lia))
    (inside_st_le r rsz (r + 2) 8 g Hr8 ltac:(lia) ltac:(lia))) as Hin2.
  apply wp_or_step, wp_nonnull; [exact Hr0|]. apply wp_or_step, wp_segs_heap, wp_or_step, wp_segs_heap.
  pose proof (room_or_poked _ _ _ _ _ _ _ Hr2 Hrl Hin2) as Hr3.
  assert (V ⊆ <[g:=gsz]> V) as HV1 by (by apply insert_subseteq).
  assert (<[g:=gsz]> V ⊆ <[r:=rsz]> (<[g:=gsz]> V)) as HV2 by (apply insert_subseteq; by rewrite lookup_insert_ne).
  pose proof (keeps_poked _ _ V _ _ _ Ho1 Hgl Hin1 HV1 Hgn) as Hkg.
  pose proof (keeps_poked _ _ (<[g:=gsz]> V) _ _ _ Ho2 Hrl Hin2 HV2 ltac:(by rewrite lookup_insert_ne)) as Hkr.
  pose proof (keeps_trans _ _ _ _ _ (reflexivity _) Hk2 Hkr) as Hk23. clear Hk2 Hkr.
  eapply (HQ g gsz r rsz); [exact Hgn|exact Hrn|exact Hgr|exact Hgsz|exact Hrsz|exact Hr3| | | | | |].
  - eapply (keeps_trans V V); [done|exact Hk1|]. eapply (keeps_trans V V); [done|exact Hkg|]. by eapply keeps_weaken.
  - by rewrite !upd_eq.
  - intros j Hj. by rewrite !upd_ne.
  - cbn [poked arena mem set_mem]. rewrite (ld_le_bytes _ r 2 103); [done|]. intros j Hj. rewrite !ld8_st_le by lia.
    byte_cases. do 2 f_equal. lia.
  - cbn [poked arena mem set_mem]. rewrite (ld_le_bytes _ (r + 2) 8 g); [by apply Z.mod_small|]. intros j Hj. rewrite ld8_st_le by lia.
    byte_cases. do 2 f_equal. lia.
  - intros j Hj. etrans; [apply (keeps_byte _ _ _ g gsz j (owns_poked _ _ _ _ _ Ho1 Hgl Hin1) Hk23 Hgl); lia|].
    cbn [poked arena mem set_mem]. rewrite ld8_copy_in by lia. byte_cases. f_equal. lia.
Qed.

(** The run of [write_tss] for a descriptor in the heap. *)
Lemma wp_tss_in_heap s h cl q V g gsz tss tsz l (Q : unit → smp D → Prop) :
  room_or P h V (0x500 :: l) → V !! g = Some gsz → sizeof_g_gdt ≤ gsz → V !! tss = Some tsz → sizeof_tss_entry ≤ tsz → g ≠ tss →
  0 ≤ tss < 2 ^ 64 →
  (∀ h' V' stack, room_or P h' V' l → V ⊆ V' → keeps (delete g (delete tss V)) h h' →
     (P ∧ stack = 0 ∨ ∃ sz, V' !! stack = Some sz ∧ 0x500 ≤ sz) → tss_rsp0 (hmem h') tss = w64 (stack + 0x4FF) →
     tss_base (hmem h') (g + 72) = tss → tss_access (hmem h') (g + 72) = 0x89 →
     (∀ i, 0 ≤ i < 72 ∨ 88 ≤ i < 104 → ld8 (hmem h') (g + i) = ld8 (hmem h) (g + i)) →
     Q tt (with_state s h' cl q)) →
  wp (on_segs (write_tss (InHeap (g + GDT_TSS * sizeof_gdt_desc)) tss)) (with_state s h cl q) Q.
Proof.
  intros (B & Hh & Hr) Hg Hgs Ht Hts Hne Ht64 HQ. assert (owns h V) as Ho by (by exists B). change (GDT_TSS * sizeof_gdt_desc) with 72. unfold sizeof_g_gdt, sizeof_tss_entry in *.
  apply wp_zoom, wp_bind. eapply (wp_fill_tss B _ V tss tsz); [exact Hh|exact Ht|exact Hts|].
  intros B' V' stack [h1 gd bt] [HV Hh1 Hst Hrsp _ [Hgd Hbt] Hk1 Hr1]. cbn [sheap gdt0 bsp_tss] in *. subst gd bt.
  assert (owns h1 V') as Ho1 by (by exists B').
  assert (V' !! g = Some gsz) as Hg' by (by eapply lookup_weaken). assert (V' !! tss = Some tsz) as Ht' by (by eapply lookup_weaken).
  eapply (wp_desc_in_heap B' _ V' g gsz); [exact Hh1|exact Hg'|lia|lia|exact Ht64|].
  intros [h2 gd bt] Hh2 Hgd Hbt Hk2 Hb Ha Hout. cbn [sheap gdt0 bsp_tss] in *. subst gd bt.
  apply (HQ h2 V' stack); try assumption.
  - exists B'. split; [exact Hh2|]. destruct Hr as [HP|Hr]; [by left|right; by apply Hr1].
  - intros x xsz y Hx Hy. apply lookup_delete_Some in Hx as [Hxg Hx]. etrans; [apply (Hk2 x xsz)|apply (Hk1 x xsz)]; try done.
    rewrite lookup_delete_ne by done. apply lookup_delete_Some in Hx as [_ Hx]. by eapply lookup_weaken.
  - destruct Hst as [->|(_ & Hst)]; [left|by right]. destruct Hr as [HP|Hr]; [done|by destruct (Hr1 l Hr)].
  - rewrite <- Hrsp. unfold tss_rsp0. assert (delete g V' !! tss = Some tsz) as Hdt by (by rewrite lookup_delete_ne).
    assert (∀ i, 0 ≤ i < 104 → ld8 (hmem h2) (tss + i) = ld8 (hmem h1) (tss + i)) as H8.
    { intros i Hi. apply Hout. destruct (owns_separate h1 V' g gsz tss tsz Ho1 Hg' Ht' Hne); lia. }
    rewrite !(ld_le_ext (hmem h1) (hmem h2)); [done|..]; intros i Hi; rewrite <- !Z.add_assoc; apply H8; simpl in Hi; lia.
  - intros i Hi. rewrite Hout by lia. assert (delete tss V !! g = Some gsz) as Hdg by (by rewrite lookup_delete_ne).
    change (word_ld8 (hmem h1) (g + i) = word_ld8 (hmem h) (g + i)). unfold word_ld8. f_equal. f_equal.
    apply (Hk1 g gsz); [done|]. apply (payload_base h V); [done|done|lia].
Qed.

Lemma wp_init_core_desc s h cl q V i id l (Q : unit → smp D → Prop) :
  g_corelist s ≠ 0 → room_or P h V (core_requests ++ l) →
  (∀ h' cl' V', room_or P h' V' l → V ⊆ V' → keeps V h h' →
     core_ok P (mgdt s) V' h' (cl' i) → lapic_id (cl' i) = w8 id → core_lock (cl' i) = 0 → flags (cl' i) = 0 →
     running_process (cl' i) = 0 → V !! gdt (cl' i) = None → V !! tss (cl' i) = None →
     (∀ j, j ≠ i → cl' j = cl j) → Q tt (with_state s h' cl' (TAILQ_INIT q i))) →
  wp_or P (init_core_desc i id) (with_state s h cl q) Q.
Proof.
  intros Hc Hr HQ. unfold init_core_desc. apply wp_or_step, wp_set_desc; [exact Hc|].
  eapply (wp_init_tables s h _ q V); [exact Hc|exact Hr|].
  intros g gsz r rsz h1 cl1 Hgn Hrn Hgr Hgs Hrs V1 Hr1 Hk1 Hci Hcj Hlim Hbase Htab.
  do 3 (apply wp_or_step, wp_set_desc; [exact Hc|]). apply wp_or_step.
  match goal with |- wp _ (with_state s h1 ?c q) _ => apply (wp_intro _ _ tt (with_state s h1 c (TAILQ_INIT q i))); [reflexivity|]; set (cl2 := c) end.
  eapply (wp_or_alloc_used s h1 cl2 (TAILQ_INIT q i) i V1 with_tss); [exact Hc|exact Hr1|unfold sizeof_tss_entry; lia|reflexivity|].
  intros t tsz h2 Ht0 Ht64 Htn Hts Hr2 Hk2. pose proof (room_or_owns _ _ _ _ Hr1) as Ho1. set (V2 := <[t:=tsz]> V1).
  assert (V1 !! g = Some gsz) as Hg1 by (unfold V1; by rewrite lookup_insert_ne, lookup_insert_eq).
  assert (V1 !! r = Some rsz) as Hr1' by apply lookup_insert_eq.
  assert (V1 ⊆ V2) as HV12 by (by apply insert_subseteq).
  assert (V ⊆ V1) as HV1 by (etrans; apply insert_subseteq; [done|by rewrite lookup_insert_ne]).
  apply wp_or_wp. assert (g ≠ t) as Hgt by congruence.
  eapply (wp_tss_in_heap _ _ _ _ V2 g gsz t tsz);
    [exact Hr2|by eapply lookup_weaken|exact Hgs|apply lookup_insert_eq|exact Hts|exact Hgt|exact Ht64|].
  intros h3 V3 stack Hr3 HV23 Hk3 Hst Hrsp Hb Ha Htab3.
  assert (upd cl2 i (with_tss t (cl2 i)) i = Core (lapic_freq (cl i)) (w8 id) 0 0 g r t 0) as Hfin.
  { unfold cl2. rewrite !upd_eq. rewrite Hci, upd_eq. done. }
  assert (∀ j, j ≠ i → upd cl2 i (with_tss t (cl2 i)) j = cl j) as Hoth.
  { intros j Hj. unfold cl2. rewrite !upd_ne by done. by rewrite Hcj, upd_ne. }
  assert (V1 ⊆ V3) as HV13 by (etrans; [exact HV12|exact HV23]). assert (V ⊆ V3) as HV3 by (etrans; [exact HV1|exact HV13]).
  assert (keeps (delete g V1) h1 h3) as Hk13.
  { eapply (keeps_trans _ _ h1 h2 h3); [reflexivity|eapply keeps_weaken; [apply delete_subseteq|exact Hk2]|].
    eapply keeps_weaken; [|exact Hk3]. apply delete_mono. unfold V2. by rewrite delete_insert_id. }
  assert (delete g V1 !! r = Some rsz) as Hrd by (by rewrite lookup_delete_ne).
  assert (V ⊆ delete g V1) as HVd.
  { apply map_subseteq_spec. intros x xsz Hx. rewrite lookup_delete_ne by congruence. by eapply lookup_weaken. }
  apply (HQ h3 _ V3); rewrite ?Hfin; try reflexivity.
  - exact Hr3.
  - exact HV3.
  - eapply (keeps_trans V V); [reflexivity|exact Hk1|]. by eapply keeps_weaken.
  - unfold sizeof_g_gdt, sizeof_gdtr in *. split; cbn [gdt gdtr tss].
    + exists gsz. split; [exact (lookup_weaken _ _ _ _ Hg1 HV13)|exact Hgs].
    + exists rsz. split; [exact (lookup_weaken _ _ _ _ Hr1' HV13)|exact Hrs].
    + exists tsz. split; [exact (lookup_weaken _ _ _ _ (lookup_insert_eq _ _ _) HV23)|exact Hts].
    + etrans; [|exact Hlim]. apply ld_le_ext. intros j Hj. apply (keeps_byte_sub h1 h3 (delete g V1) V1 r rsz j); try done; [apply delete_subseteq|lia].
    + etrans; [|exact Hbase]. apply ld_le_ext. intros j Hj. rewrite <- !Z.add_assoc. apply (keeps_byte_sub h1 h3 (delete g V1) V1 r rsz); try done; [apply delete_subseteq|lia].
    + intros j Hj. rewrite Htab3, <- Htab by lia. apply (keeps_byte h1 h2 V1 g gsz j); try done. lia.
    + split; [exact Hb|exact Ha].
    + exists stack. split; [exact Hst|exact Hrsp].
  - exact Hgn.
  - cbn [tss]. destruct (V !! t) eqn:E; [|reflexivity]. eapply lookup_weaken in E; [|exact HV1]. congruence.
  - exact Hoth.
Qed.

End starved.

(** *** The loops of [smp_init] *)

(** The first [i] cores are set up; [V] is what the heap [h] has handed out. *)
Record cores_ok (P : Prop) (table : bmem) (ids : Z → Z) (i : Z) (V : gmap Z Z) (h : heap) (cl : Z → core) (q : queues) : Prop := {
  cs_core j : 0 ≤ j < i → core_ok P table V h (cl j);
  cs_fields j : 0 ≤ j < i →
    lapic_id (cl j) = w8 (ids j) ∧ core_lock (cl j) = 0 ∧ flags (cl j) = 0 ∧ running_process (cl j) = 0;
  cs_queue j : 0 ≤ j < i → queue_of q j [];
  cs_own j k : 0 ≤ j < i → 0 ≤ k < i → j ≠ k → gdt (cl j) ≠ gdt (cl k) ∧ tss (cl j) ≠ tss (cl k);
}.

Lemma queue_init_other q j i : j ≠ i → queue_of q j [] → queue_of (TAILQ_INIT q i) j [].
Proof.
  intros Hj [Hs He Hnd]. simpl in Hs, He. rewrite Hs in He. split; [| |exact Hnd]; simpl; rewrite (upd_ne (last q)), Hs by done.
  - done.
  - simpl. by rewrite upd_ne.
Qed.

(** Setting up one more core. *)
Lemma cores_ok_step P table ids i V V' h h' cl cl' q :
  cores_ok P table ids i V h cl q → owns h V → V ⊆ V' → keeps V h h' → core_ok P table V' h' (cl' i) →
  lapic_id (cl' i) = w8 (ids i) → core_lock (cl' i) = 0 → flags (cl' i) = 0 → running_process (cl' i) = 0 →
  V !! gdt (cl' i) = None → V !! tss (cl' i) = None → (∀ j, j ≠ i → cl' j = cl j) →
  cores_ok P table ids (i + 1) V' h' cl' (TAILQ_INIT q i).
Proof.
  intros [Hcore Hf Hq Hown] Ho HV Hk Hok Hid Hlk Hfl Hrp Hg Ht Hcl.
  assert (∀ j, 0 ≤ j < i + 1 → j = i ∨ 0 ≤ j < i ∧ j ≠ i) as Hj by lia.
  assert (∀ j, 0 ≤ j < i → gdt (cl' i) ≠ gdt (cl j) ∧ tss (cl' i) ≠ tss (cl j)) as Hnew.
  { intros j Hji. destruct (ck_gdt _ _ _ _ _ (Hcore j Hji)) as (? & Hgj & _), (ck_tss _ _ _ _ _ (Hcore j Hji)) as (? & Htj & _).
    split; congruence. }
  split.
  - intros j [->|[Hji Hne]]%Hj; [exact Hok|]. rewrite Hcl by done. exact (core_ok_keeps _ _ _ _ _ _ _ (Hcore j Hji) Ho HV Hk).
  - intros j [->|[Hji Hne]]%Hj; [done|]. rewrite Hcl by done. by apply Hf.
  - intros j [->|[Hji Hne]]%Hj; [apply queue_init|]. apply queue_init_other; [done|by apply Hq].
  - intros j k [->|[Hji Hne]]%Hj [->|[Hki Hnk]]%Hj Hjk; [done|..].
    + rewrite (Hcl k) by done. by apply Hnew.
    + rewrite (Hcl j) by done. destruct (Hnew j Hji). split; congruence.
    + rewrite !Hcl by done. by apply Hown.
Qed.

(** [s] with the cores counted and their array at [p]. *)
Definition counted (n p : Z) (s : smp D) : smp D :=
  set_g_corelist p (set_msched (set_scpu (set_cpu_count n (scpu (msched s))) (msched s)) s).

Lemma smp_requests_step (n i : Z) rest : 0 ≤ i < n →
  concat (replicate (Z.to_nat (n - i)) core_requests) ++ rest =
  core_requests ++ (concat (replicate (Z.to_nat (n - (i + 1))) core_requests) ++ rest).
Proof. intros Hi. by replace (Z.to_nat (n - i)) with (S (Z.to_nat (n - (i + 1)))) by lia. Qed.

Lemma wp_init_cores P n ids s V rest (Q : unit → smp D → Prop) :
  room_or P (mheap s) V (smp_requests n rest) → 0 < n → 64 * n ≤ 2 ^ 64 - 8 →
  (∀ p h' cl' q' V', room_or P h' V' rest → V ⊆ V' → keeps V (mheap s) h' → cores_ok P (mgdt s) ids n V' h' cl' q' →
     (∀ j, ¬ (0 ≤ j < n) → cl' j = corelist (scpu (msched s)) j) → Q tt (with_state (counted n p s) h' cl' q')) →
  wp_or P (init_cores n ids) s Q.
Proof.
  intros Hr Hn Hsz HQ. unfold init_cores. change (sizeof_cpu_core * n) with (64 * n). rewrite w64_small by lia.
  apply wp_or_step, wp_modify, wp_or_step, wp_zoom. eapply wp_kmalloc_or; [exact Hr|unfold sizeof_cpu_core; lia|].
  intros p h Hk Hp. apply wp_or_step, wp_modify. set (cl0 := corelist (scpu (msched s))) in *.
  change (set_g_corelist p _) with (with_state (counted n p s) h cl0 (runq (msched s))).
  destruct Hp as [(-> & HP & _)|(sz & Hp & Hnone & _ & Hr')]; [unfold wp_or; by rewrite seqZ_cons by lia|].
  assert (V ⊆ <[p:=sz]> V) as HV by (by apply insert_subseteq).
  eapply wp_or_mono.
  - apply (wp_or_for_seqZ _ (λ i x, ∃ h' cl' q' V', x = with_state (counted n p s) h' cl' q' ∧
      room_or P h' V' (concat (replicate (Z.to_nat (n - i)) core_requests) ++ rest) ∧
      V ⊆ V' ∧ keeps V (mheap s) h' ∧ cores_ok P (mgdt s) ids i V' h' cl' q' ∧ ∀ j, ¬ (0 ≤ j < i) → cl' j = cl0 j) n); [lia| |].
    + exists h, cl0, (runq (msched s)), (<[p:=sz]> V). split_and!; [reflexivity|by rewrite Z.sub_0_r|exact HV|exact Hk| |reflexivity].
      split; intros; lia.
    + intros i x Hi (h1 & cl1 & q1 & V1 & -> & Hr1 & HV1 & Hk1 & Hcs & Hout). rewrite smp_requests_step in Hr1 by done.
      pose proof (room_or_owns _ _ _ _ Hr1) as Ho1. eapply wp_init_core_desc; [simpl; lia|exact Hr1|].
      intros h2 cl2 V2 Hr2 HV2 Hk2 Hok Hid Hlk Hfl Hrp Hg Ht Hcl.
      exists h2, cl2, (TAILQ_INIT q1 i), V2. split_and!; [reflexivity|exact Hr2|by etrans| | |].
      * by eapply keeps_trans.
      * by eapply cores_ok_step.
      * intros j Hj. rewrite Hcl by lia. apply Hout. lia.
  - intros [] x (h1 & cl1 & q1 & V1 & -> & Hr1 & HV1 & Hk1 & Hcs & Hout). rewrite Z.sub_diag in Hr1. by eapply HQ.
Qed.

(** The table the kernel's half is copied from. *)
Definition root (v : vmm) : Z := if old_pml4 v =? 0 then Vmm.view (Vmm.hhdm v) (cr3 v) else old_pml4 v.
Definition mvmm (s : smp D) : vmm := kvm (sprocs (msched s)).

(** Application processor [i] starts at [ap] on a table whose upper half is
    the kernel's. *)
Definition ap_ready (v : vmm) (ap : Z) (s : smp D) (i : Z) : Prop :=
  goto_address s i = ap ∧
  ∀ virt, 2 ^ 47 ≤ virt mod 2 ^ 48 →
    translate (word (mvmm s)) (Vmm.hhdm v) (extra_argument s i) virt = translate (word v) (Vmm.hhdm v) (root v) virt.

(** The loop has started the application processors among the first [i];
    [l] is what the frame allocator hands out next. *)
Record aps_ok (ids : Z → Z) (bsp ap : Z) (s : smp D) (i : Z) (x : smp D) (l : list Z) : Prop := {
  ap_frames : ready (mvmm x) (root (mvmm s)) l;
  ap_root : root (mvmm x) = root (mvmm s);
  ap_hhdm : Vmm.hhdm (mvmm x) = Vmm.hhdm (mvmm s);
  ap_rest : mheap x = mheap s ∧ scpu (msched x) = scpu (msched s) ∧ runq (msched x) = runq (msched s) ∧ mgdt x = mgdt s ∧
    g_corelist x = g_corelist s;
  ap_kernel virt : translate (word (mvmm x)) (Vmm.hhdm (mvmm s)) (root (mvmm s)) virt =
                   translate (word (mvmm s)) (Vmm.hhdm (mvmm s)) (root (mvmm s)) virt;
  ap_tables j : 0 ≤ j < i → ids j ≠ bsp → goto_address x j = ap ∧
    ∃ p, extra_argument x j = Vmm.view (Vmm.hhdm (mvmm s)) p ∧ 0 ≤ p < 2 ^ 52 ∧ p mod 4096 = 0 ∧ p ∉ l ∧
      ∀ k, 256 ≤ k < 512 → word (mvmm x) (extra_argument x j + 8 * k) = word (mvmm x) (root (mvmm s) + 8 * k);
  ap_own j k : 0 ≤ j < i → 0 ≤ k < i → ids j ≠ bsp → ids k ≠ bsp → j ≠ k → extra_argument x j ≠ extra_argument x k;
}.

Lemma aps_ok_skip ids bsp ap s i x l : ids i = bsp → aps_ok ids bsp ap s i x l → aps_ok ids bsp ap s (i + 1) x l.
Proof.
  intros Hi [Hf Hr Hh Hrest Hk Ht Hown]. split; try assumption.
  - intros j Hj Hb. apply Ht; [|exact Hb]. assert (j ≠ i) by congruence. lia.
  - intros j k Hj Hk' Hb Hb'. apply Hown; try assumption; [assert (j ≠ i) by congruence|assert (k ≠ i) by congruence]; lia.
Qed.

Lemma aps_ok_start ids bsp ap s i x p l v' :
  aps_ok ids bsp ap s i x (p :: l) → 0 ≤ i → ids i ≠ bsp →
  fresh_root (mvmm x) (root (mvmm s)) p v' → ready v' (root (mvmm s)) l →
  aps_ok ids bsp ap s (i + 1)
    (set_entry i (Vmm.view (Vmm.hhdm (mvmm x)) p) ap (set_msched (set_sprocs (set_kvm v' (sprocs (msched x))) (msched x)) x)) l.
Proof.
  intros [Hf Hr Hh Hrest Hk Ht Hown] Hi Hid [Hold Hh' Hup _ _ Hout] Hf'. set (o := root (mvmm s)) in *.
  rewrite Hh in *. set (t := Vmm.view (Vmm.hhdm (mvmm s)) p) in *.
  pose proof (rd_fresh _ _ _ Hf p ltac:(left)) as Hp. rewrite Hh in Hp. pose proof (rd_tree _ _ _ Hf) as Htree. rewrite Hh in Htree.
  assert (t mod 4096 = 0) as Htm by (apply w64_page; [apply Hp|apply (tr_off _ _ _ Htree)]).
  assert (o ≠ t) as Hot by (intros E; apply (ft_new _ _ _ _ Hp []); [short_path|simpl; by f_equal]).
  pose proof (rd_nodup _ _ _ Hf) as [Hpl _]%NoDup_cons.
  assert (∀ j, 0 ≤ j < i → ids j ≠ bsp → extra_argument x j ≠ t) as Hdiff.
  { intros j Hj Hb E. destruct (Ht j Hj Hb) as (_ & p' & Hp' & Hr' & _ & Hin & _). rewrite Hp' in E.
    apply view_inj in E; [|exact Hr'|apply Hp]. subst p'. apply Hin. left. }
  assert (∀ j, 0 ≤ j < i + 1 → j = i ∨ 0 ≤ j < i ∧ j ≠ i) as Hj by lia.
  split; fold o; cbn [set_entry mvmm set_msched msched set_sprocs sprocs set_kvm kvm extra_argument goto_address].
  - exact Hf'.
  - unfold root. rewrite Hold. destruct (Z.eqb_spec o 0) as [E|]; [|reflexivity].
    destruct (tr_nonnull _ _ _ Htree [] o); [short_path|reflexivity|exact E].
  - exact Hh'.
  - exact Hrest.
  - intros virt. rewrite <- Hk. rewrite <- Hh. by apply (translate_outside (mvmm x) v' o p l); [|rewrite Hh].
  - intros j [->|[Hji Hne]]%Hj Hb; unfold upd.
    + rewrite Z.eqb_refl. split; [reflexivity|]. exists p. split_and!; [reflexivity|apply Hp|apply Hp|apply Hp|exact Hpl|].
      intros k Hkk. rewrite Hup by exact Hkk. symmetry. apply Hout.
      destruct (page_apart o t (tr_root _ _ _ Htree) Htm Hot); lia.
    + destruct (Z.eqb_spec j i) as [|_]; [done|]. destruct (Ht j Hji Hb) as (Hg & p' & He & Hr' & Hm & Hin & Hup').
      split; [exact Hg|]. exists p'. split_and!; [exact He|apply Hr'|apply Hr'|exact Hm|set_solver|].
      intros k Hkk. rewrite !Hout; [by apply Hup'|..].
      * destruct (page_apart o t (tr_root _ _ _ Htree) Htm Hot); lia.
      * assert (extra_argument x j mod 4096 = 0) as Hem by (rewrite He; apply w64_page; [exact Hm|apply Htree]).
        destruct (page_apart _ t Hem Htm (Hdiff j Hji Hb)); lia.
  - intros j k [->|[Hji Hne]]%Hj [->|[Hki Hnk]]%Hj Hb Hb' Hjk; unfold upd.
    + done.
    + rewrite Z.eqb_refl. destruct (Z.eqb_spec k i) as [|_]; [done|]. apply not_eq_sym. by apply Hdiff.
    + rewrite Z.eqb_refl. destruct (Z.eqb_spec j i) as [|_]; [done|]. by apply Hdiff.
    + destruct (Z.eqb_spec j i) as [|_]; [done|]. destruct (Z.eqb_spec k i) as [|_]; [done|]. by apply Hown.
Qed.

Lemma wp_start_aps n ids bsp ap s l :
  0 ≤ n ≤ zlen l → ready (mvmm s) (root (mvmm s)) l →
  wp (start_aps n ids bsp ap) s (λ _ s', ∃ l', aps_ok ids bsp ap s n s' l').
Proof.
  intros Hn Hr. eapply wp_mono.
  - apply (wp_for_seqZ (λ i x, ∃ l', aps_ok ids bsp ap s i x l' ∧ n - i ≤ zlen l') n); [lia| |].
    + exists l. split; [|lia]. split; try done; intros; lia.
    + intros i x Hi (l' & Hok & Hl). destruct (Z.eqb_spec (ids i) bsp) as [E|E].
      * apply wp_ret. exists l'. split; [by apply aps_ok_skip|lia].
      * destruct l' as [|p l']; [simpl in Hl; lia|]. rewrite length_cons in Hl.
        apply wp_bind, wp_zoom, wp_zoom, wp_zoom. change (kvm (sprocs (msched x))) with (mvmm x).
        apply (wp_fresh_root (mvmm x) l' p); fold (root (mvmm x)); rewrite (ap_root _ _ _ _ _ _ _ Hok); [apply Hok|].
        intros v' Hroot Hr'. apply wp_modify. exists l'. split; [|lia].
        exact (aps_ok_start ids bsp ap s i x p l' v' Hok ltac:(lia) E Hroot Hr').
  - intros [] x (l' & Hok & _). by exists l'.
Qed.

(** ** Properties *)


(** What starting the application processors leaves alone. *)
Definition settled (s : smp D) : heap * cpu D * queues * (Z * Z) * Z * (Z * Z) :=
  let y := msched s in
  (mheap s, scpu y, runq y, (pid_bitmap (sprocs y), pid_bitmap_bytes (sprocs y)), current_core_idx y, (trap_lock y, g_corelist s)).

(** In any memory the start of the other cores completes. *)
Lemma wp_smp_init_any off n ids bsp ap s V rest (Q : unit → smp D → Prop) :
  0 < off → off mod 8 = 0 → off + 2 ^ 47 ≤ 2 ^ 64 → vm_ok off (mvmm s) →
  room (mheap s) V (smp_requests n rest) → 0 < n → 64 * n ≤ 2 ^ 64 - 8 →
  (∀ s' V' p h cl q, room (mheap s') V' rest → V ⊆ V' → cores_ok False (mgdt s) ids n V' (mheap s') (corelist (scpu (msched s')))
     (runq (msched s')) → settled s' = settled (with_state (counted n p s) h cl q) → vm_ok off (mvmm s') → Q tt s') →
  wp (smp_init n ids bsp ap) s Q.
Proof.
  intros Hpos Halign Htop Hvm Hroom Hn Hsz HQ. apply wp_or_never, wp_or_bind.
  eapply wp_init_cores; [by apply room_or_room|exact Hn|exact Hsz|].
  intros p h' cl' q' V' Hown%room_never HV _ Hcs _. apply wp_or_wp. set (s1 := with_state (counted n p s) h' cl' q') in *.
  eapply wp_mono; [apply (completes_for_each (λ x, vm_ok off (mvmm x) ∧ settled x = settled s1))|].
  - intros i _ x [Hx Hset]. destruct (ids i =? bsp); [by apply wp_ret|].
    apply wp_bind, wp_zoom, wp_zoom, wp_zoom. eapply wp_mono; [exact (completes_make_pml4 off Hpos Halign Htop _ Hx)|].
    intros t v Hv. by apply wp_modify.
  - by split.
  - intros [] x [Hx Hset]. pose proof Hset as Hset'. injection Hset' as Hh Hc Hq _ _ _ _ _. cbn beta in *.
    apply (HQ x V' p h' cl' q'); [by rewrite Hh|exact HV| |exact Hset|exact Hx].
    rewrite Hh, Hc, Hq. exact Hcs.
Qed.

(** Time keeping leaves the cores' table registers alone. *)
Lemma steady_gdtr i : steady (λ c : cpu D, gdtr (corelist c i)).
Proof.
  split; [reflexivity..|]. intros j v c. simpl. unfold upd. destruct (Z.eqb_spec i j) as [->|]; reflexivity.
Qed.

Lemma wlp_ap_entry fuel timer_isr s :
  wlp (ap_entry fuel timer_isr) s (λ r s',
    r = gdtr (corelist (scpu (msched s)) (core_idx s)) ∧ core_idx s' = core_idx s ∧
    ∀ i, gdtr (corelist (scpu (msched s')) i) = gdtr (corelist (scpu (msched s)) i)).
Proof.
  set (G i := λ s : smp D, gdtr (corelist (scpu (msched s)) i)).
  assert (∀ i, preserves (G i) (ap_entry fuel timer_isr)) as Hg.
  { intros i. unfold ap_entry. apply preserves_bind; [eauto with preserves|intros _].
    do 5 (apply preserves_bind; [eauto with preserves|intros ?]).
    apply preserves_bind; [|intros _; apply preserves_bind; [|eauto with preserves]].
    - apply (preserves_zoomed _ (λ s, gdtr (corelist (scpu s) i))); [reflexivity..|].
      apply (preserves_zoomed _ (λ c, gdtr (corelist c i))); [reflexivity..|].
      unfold lapic_init, lapic_write, lapic_base, on_device, on_irqs. eauto 12 with preserves.
    - apply (preserves_zoomed _ (λ s, gdtr (corelist (scpu s) i))); [reflexivity..|].
      apply (preserves_zoomed _ (λ c, gdtr (corelist c i))); [reflexivity..|]. apply steady_calibrate, steady_gdtr. }
  assert (preserves core_idx (ap_entry fuel timer_isr)) as Hc.
  { unfold ap_entry, on_sched. eauto 15 with preserves. }
  assert (wlp (ap_entry fuel timer_isr) s (λ r _, r = gdtr (corelist (scpu (msched s)) (core_idx s)))) as Hr.
  { unfold ap_entry. apply wlp_bind. unfold wlp at 1, zoom at 1. destruct (mutex_acquire fuel (ap_lock s)) as [[u l]| | |]; [|exact I..].
    apply wlp_bind. cbn. apply wlp_bind, wlp_guard. intros _. apply wlp_bind. cbn. apply wlp_bind. cbn. apply wlp_bind, wlp_guard. intros _.
    do 3 (apply wlp_bind, wlp_any; intros [] ?). by apply wlp_ret. }
  unfold wlp in *. specialize (Hc s). assert (∀ i, wlp (ap_entry fuel timer_isr) s (λ _ s', G i s' = G i s)) as Hgs by (intros i; apply Hg).
  unfold wlp in *. destruct (ap_entry fuel timer_isr s) as [[r s']| | |]; [|exact I..]. split_and!; [exact Hr|exact Hc|exact Hgs].
Qed.

Section timers.
Context (lb hb : Z) (id : D → Z) (lreg : D → Z → Z) (cnt : D → Z) (jump : Z).
Context (Htm : timers lb hb id lreg cnt jump).

End timers.
End smp.

(** ** Witnesses *)

(** Two processors with the ids 0 and 3; 0 boots. *)
Definition two_ids (i : Z) : Z := if i =? 1 then 3 else 0.
Definition boot_smp (h : heap) : smp clock := Smp (boot_sched h) initial_gdt 0 0 0 0 (λ _, 0) (λ _, 0).


Definition two_smp : smp clock :=
  Smp (set_scpu (set_vectors 0x30 0x31 (set_core 0 (Core 0 0 0 0 0x7000 0x7100 0 0) (scpu two_sched))) two_sched)
    initial_gdt 0 0x6000 0 0 (λ _, 0) (λ _, 0).

