(* ===== verification/Boot.v ===== *)
(** kern_init.c and dev/init.c: the whole kernel, from the boot loader's jump to
    [_start] up to the scheduler's idle loop. *)

From S2P Require Import Prelude CString Io Acpi Interrupts Mutex Cpu.
From S2P Require Import TlsfBits TlsfModel TlsfHeap TlsfProps Bitmap Pmm Heap Hashmap.
From S2P Require Import Vmm Queue HeapBytes Pci Process Rtl8139.
From S2P Require Import Sched Vfs Console Exceptions Gdt Smp.
From stdpp Require Import strings.
#[local] Open Scope Z_scope.

(** ** State *)

(** The state of all components.  The drivers' and the file system's records
    hold copies of the heap, the page tables and the cores; these are ghosts,
    replaced by the kernel's own on every entry. *)
Record kernel (D : Type) := Kernel {
  ksmp : smp D;
  kconsole : console;
  kdriver : nic D;
  kfiles : vfs heap bmem;
}.
Arguments Kernel {D} _ _ _ _.
Arguments ksmp {D} _.
Arguments kconsole {D} _.
Arguments kdriver {D} _.
Arguments kfiles {D} _.

(** What the boot loader's responses hold. *)
Record loader := Loader {
  framebuffer0 : framebuffer;
  memmap : list memmap_entry;
  rsdp_address : Z;
  processors : Z;
  processor_id : Z → Z;
  bsp_lapic_id : Z;
}.

(** The addresses the linker gives to the functions whose address is taken and
    to the string literals. *)
Record image := Image {
  a_handler : exception → Z;
  a_timer_isr : Z;
  a_nic_isr : Z;
  a_ap_entry : Z;
  a_idle : Z;
  a_test_func : Z;
  s_booting : Z;
  s_sse : Z;
  s_no_sse : Z;
  s_apic : Z;
  s_hpet : Z;
  s_empty : Z;
  s_idle : Z;
}.

Section boot.
(** [m] is the memory the kernel only reads at start-up: the image and the
    tables of the firmware; [off] is the direct map's offset. *)
Context {D M : Type} `{Device D} `{ByteMem M} `{ShiftSem} (m : M) (off : Z) (b : loader) (a : image).

Notation B := (ST (kernel D)).

Definition set_ksmp (x : smp D) (s : kernel D) : kernel D := Kernel x (kconsole s) (kdriver s) (kfiles s).

(** ** The components' parts of the state *)

Definition on_ksmp {A} (c : ST (smp D) A) : B A := zoom ksmp set_ksmp c.
Definition on_kprocs {A} (c : ST procs A) : B A := on_ksmp (on_sched (on_procs c)).
Definition on_kcpu {A} (c : ST (cpu D) A) : B A := on_ksmp (on_sched (on_cpu c)).
Definition on_kconsole {A} (c : ST console A) : B A :=
  zoom kconsole (λ t s, Kernel (ksmp s) t (kdriver s) (kfiles s)) c.

(** The driver with the kernel's heap, page tables and cores, and back. *)
Definition driver_view (s : kernel D) : nic D :=
  let y := msched (ksmp s) in
  set_nheap (kheap (sprocs y)) (set_nvmm (kvm (sprocs y)) (set_ncpu (scpu y) (kdriver s))).
Definition driver_put (n : nic D) (s : kernel D) : kernel D :=
  let y := msched (ksmp s) in
  Kernel (set_msched (set_sprocs (set_kvm (nvmm n) (set_kheap (nheap n) (sprocs y))) (set_scpu (ncpu n) y)) (ksmp s))
    (kconsole s) n (kfiles s).
Definition on_driver {A} (c : ST (nic D) A) : B A := zoom driver_view driver_put c.

Definition on_files {A} (c : ST (vfs heap bmem) A) : B A :=
  zoom (λ s, set_vheap (mheap (ksmp s)) (kfiles s))
       (λ f s, Kernel (set_mheap (vheap f) (ksmp s)) (kconsole s) (kdriver s) f) c.

(** ** Operations *)

Definition init_mm : B unit := on_kprocs (on_kvm (on_pm (pmm_init (memmap b)))).

(** [sse] is what [__amd64_enable_sse] returned. *)
Definition init (fuel : nat) (sse : Z) : B unit :=
  on_kcpu (on_irqs (init_exceptions (a_handler a))) ;;
  (if sse =? 0 then on_kconsole (printk m fuel (s_sse a) []) else on_kconsole (printk m fuel (s_no_sse a) [])) ;;
  init_mm ;;
  on_kcpu (on_irqs (on_acpi (acpi_init m off fuel (rsdp_address b) (s_apic a)))) ;;
  on_kcpu (on_irqs (ioapic_init off)) ;;
  on_kcpu (lapic_init off (a_timer_isr a)) ;;
  pages ← on_kprocs (on_kvm (vmm_alloc_pages HEAP_SIZE_PAGES));
  on_kprocs (on_kheap (heap_init pages)) ;;
  on_ksmp (on_segs load_tss_bsp) ;;
  on_driver (init_net m off fuel (a_nic_isr a)) ;;
  on_kcpu (hpet_init m off fuel (s_hpet a)) ;;
  on_files (vfs_init fuel (s_empty a)) ;;
  on_ksmp (smp_init (processors b) (processor_id b) (bsp_lapic_id b) (a_ap_entry a)).

(** Up to the idle loop. *)
Definition _start (fuel : nat) (sse : Z) : B unit :=
  on_kconsole (on_scr (fb_init (framebuffer0 b))) ;;
  on_kconsole (printk m fuel (s_booting a) []) ;;
  init fuel sse ;;
  on_ksmp (on_sched (sched_start off m fuel (s_idle a) (a_idle a) (a_test_func a))).
End boot.

(** ** Specification *)

(** The descriptor table, the next free vector, the timer's vector and the one
    reserved for calls between cores. *)
Definition vectors_of {D} (c : cpu D) : (Z → gate) * Z * Z * Z :=
  (idt (irqs c), next_vector (irqs c), timer_vector c, goto_vector c).

Definition kcpu {D} (s : kernel D) : cpu D := scpu (msched (ksmp s)).

(** The table [g] with the gates of the exceptions and the timer. *)
Definition boot_idt (a : image) (g : Z → gate) (v : Z) : gate :=
  if v =? 0x82 then make_gate (a_timer_isr a) IDT_INT_GATE_FLAGS
  else match head (filter (λ e, vector_of e = v) exceptions) with
       | Some e => make_gate (a_handler a e) IDT_TRAP_GATE_FLAGS
       | None => g v
       end.

(** At most the gate of one vector changed, and it leads to [isr]. *)
Definition one_gate (isr : Z) (x y : (Z → gate) * Z * Z * Z) : Prop :=
  let '(g, n, t, v) := x in
  let '(g', n', t', v') := y in
  n' = n ∧ t' = t ∧ v' = v ∧ (g' = g ∨ ∃ u, g' = upd g u (make_gate isr IDT_INT_GATE_FLAGS)).

(** ** Lemmas: who changes the table *)

Section lemmas.
Context {D M : Type} `{Device D} `{ByteMem M} `{ShiftSem} (m : M) (off : Z).

Lemma steady_vectors : steady (vectors_of (D := D)).
Proof. by split. Qed.

Lemma vectors_irqs {A} (c : ST (intr D) A) :
  preserves (λ s, (idt s, next_vector s)) c → preserves vectors_of (on_irqs c).
Proof.
  intros Hc s. specialize (Hc (irqs s)). unfold wlp, on_irqs, zoom in *.
  destruct (c (irqs s)) as [[x i]| | |]; [|done..]. injection Hc as E1 E2. unfold vectors_of. simpl. by rewrite E1, E2.
Qed.

Lemma vectors_kcpu {A} (c : ST (cpu D) A) : preserves vectors_of c → preserves (λ s, vectors_of (kcpu s)) (on_kcpu c).
Proof.
  intros Hc. apply (preserves_zoomed _ (λ s, vectors_of (scpu (msched s)))); [reflexivity..|].
  apply (preserves_zoomed _ (λ s, vectors_of (scpu s))); [reflexivity..|].
  by apply (preserves_zoomed _ vectors_of).
Qed.

Lemma vectors_kprocs {A} (c : ST procs A) : preserves (λ s : kernel D, vectors_of (kcpu s)) (on_kprocs c).
Proof.
  apply (preserves_zoomed _ (λ s, vectors_of (scpu (msched s)))); [reflexivity..|].
  apply (preserves_zoomed _ (λ s, vectors_of (scpu s))); [reflexivity..|].
  by apply preserves_zoom.
Qed.

Lemma vectors_ksmp {A} (c : ST (smp D) A) :
  preserves (λ s, vectors_of (scpu (msched s))) c → preserves (λ s, vectors_of (kcpu s)) (on_ksmp c).
Proof. by apply preserves_zoomed. Qed.

Lemma vectors_ioapic_init : preserves (λ s : intr D, (idt s, next_vector s)) (ioapic_init off).
Proof.
  assert (∀ A (c : ST D A), preserves (λ s : intr D, (idt s, next_vector s)) (on_dev c)) as Hd by (intros; by apply preserves_on_dev).
  unfold ioapic_init, ioapic_set_entry, ioapic_read, ioapic_write, ioapic_base. eauto 20 with preserves.
Qed.

Lemma vectors_hpet_init fuel str : preserves vectors_of (hpet_init (D := D) m off fuel str).
Proof.
  assert (∀ A (c : ST D A), preserves vectors_of (on_device c)) as Hd by (intros; apply steady_on_device, steady_vectors).
  assert (∀ A (c : ST acpi A), preserves (vectors_of (D := D)) (on_irqs (on_acpi c))) as Ha.
  { intros. apply vectors_irqs. by apply preserves_on_acpi. }
  unfold hpet_init, hpet_read, hpet_write. eauto 20 with preserves.
Qed.

Lemma vectors_load_tss : preserves (λ s : smp D, vectors_of (scpu (msched s))) (on_segs load_tss_bsp).
Proof. by apply preserves_zoom. Qed.

Lemma vectors_smp_init n ids bsp ap : preserves (λ s : smp D, vectors_of (scpu (msched s))) (smp_init n ids bsp ap).
Proof.
  set (f := λ s : smp D, vectors_of (scpu (msched s))).
  assert (∀ A (c : ST (sched D) A), preserves (λ s, vectors_of (scpu s)) c → preserves f (on_sched c)) as Hsched.
  { intros A c. by apply preserves_zoomed. }
  assert (∀ i g, preserves f (set_desc i g)) as Hdesc.
  { intros i g. unfold set_desc. apply preserves_bind; [eauto with preserves|intros p].
    apply preserves_bind; [eauto with preserves|intros _]. apply Hsched. by apply preserves_modify. }
  assert (∀ A (c : ST heap A), preserves f (on_mheap c)) as Hheap by (intros A c; by apply preserves_zoom).
  assert (∀ A (c : ST segs A), preserves f (on_segs c)) as Hsegs by (intros A c; by apply preserves_zoom).
  assert (∀ i, preserves f (on_sched (modify (λ s, set_runq (TAILQ_INIT (runq s) i) s)))) as Hq.
  { intros i. apply Hsched. by apply preserves_modify. }
  assert (preserves f (on_sched (on_cpu (modify (set_cpu_count n))))) as Hn.
  { apply Hsched. apply (preserves_zoomed _ vectors_of); [reflexivity..|]. by apply preserves_modify. }
  assert (preserves f (on_sched (on_procs (on_kvm vmm_make_pml4)))) as Hpml4 by (apply Hsched; by apply preserves_zoom).
  unfold smp_init, init_cores, start_aps, init_core_desc. eauto 40 with preserves.
Qed.

Lemma vectors_sched_start fuel str idle test :
  preserves (λ s : sched D, vectors_of (scpu s)) (sched_start off m fuel str idle test).
Proof.
  set (f := λ s : sched D, vectors_of (scpu s)).
  assert (∀ A (c : ST procs A), preserves f (on_procs c)) as Hp by (intros A c; by apply preserves_zoom).
  assert (∀ i g, preserves f (update_core (D := D) i g)) as Hc by (intros i g; by apply preserves_modify).
  assert (∀ t g, preserves f (update_thread (D := D) t g)) as Ht by (intros t g; by apply preserves_modify).
  assert (preserves f (on_cpu (sched_begin_timer off fuel))) as Hb.
  { apply (preserves_zoomed _ vectors_of); [reflexivity..|].
    apply preserves_bind; [apply steady_calibrate, steady_vectors|intros _; apply steady_oneshot, steady_vectors]. }
  unfold sched_start, enqueue_process, enqueue_thread, sched_core, get_running_process, get_running_thread, get_thread, update_process.
  eauto 40 with preserves.
Qed.

(** The driver registers its handler last. *)
Lemma wlp_register_irq fuel irq isr (s : intr D) :
  wlp (register_irq m off fuel irq isr) s (λ _ s',
    idt s' = upd (idt s) (w8 (0x20 + irq)) (make_gate isr IDT_INT_GATE_FLAGS) ∧ next_vector s' = next_vector s).
Proof.
  set (f := λ s : intr D, (idt s, next_vector s)).
  assert (∀ A (c : ST D A), preserves f (on_dev c)) as Hd by (intros; by apply preserves_on_dev).
  assert (∀ A (c : ST acpi A), preserves f (on_acpi c)) as Ha by (intros; by apply preserves_on_acpi).
  unfold register_irq. apply wlp_bind. cbn. change (w8 IDT_INT_GATE_FLAGS) with IDT_INT_GATE_FLAGS.
  match goal with |- wlp ?c ?s1 _ => assert (preserves f c) as Hc; [|eapply wlp_mono; [apply (Hc s1)|]] end.
  { unfold ioapic_set_entry, ioapic_write, ioapic_base. eauto 20 with preserves. }
  intros [] s' E. injection E as E1 E2. by rewrite E1, E2.
Qed.

Lemma wlp_init_net fuel isr (s : nic D) :
  wlp (init_net m off fuel isr) s (λ _ s', one_gate isr (vectors_of (ncpu s)) (vectors_of (ncpu s'))).
Proof.
  set (f := λ s : nic D, vectors_of (ncpu s)).
  assert (∀ A (c : ST heap A), preserves f (on_nheap c)) as Hh by (intros A c; by apply preserves_zoom).
  assert (∀ A (c : ST vmm A), preserves f (on_nvmm c)) as Hv by (intros A c; by apply preserves_zoom).
  assert (∀ A (c : ST (pci heap D) A), preserves f (on_pci c)) as Hp by (intros A c; by apply preserves_zoom).
  assert (∀ A (c : ST D A), preserves f (on_ncpu (on_device c))) as Hd.
  { intros A c. apply (preserves_zoomed _ vectors_of); [reflexivity..|]. apply steady_on_device, steady_vectors. }
  assert (∀ n, preserves f (reset_loop (D := D) n)) as Hreset by (induction n; cbn [reset_loop]; unfold reg_in; eauto with preserves).
  assert (preserves f (startup_nic (D := D) fuel)) as Hstart by (unfold startup_nic, reg_out; eauto 60 with preserves).
  unfold init_net, rtl8139_init. assert (∀ x y : nic D, f y = f x → one_gate isr (vectors_of (ncpu x)) (vectors_of (ncpu y))) as Hrefl.
  { unfold f. intros x y ->. destruct (vectors_of (ncpu x)) as [[[]]]. repeat split. by left. }
  apply (wlp_after f); [auto|intros d s1 E1]. apply (wlp_after f); [eauto with preserves|intros _ s2 E2].
  destruct (d =? 0); [apply wlp_ret, Hrefl; congruence|].
  do 9 (apply (wlp_after f); [unfold update_mac_addr, link_up, get_speed, reg_in; eauto 20 with preserves|intros ? ? ?]).
  apply (wlp_after f); [eauto with preserves|intros r s3 E3].
  unfold on_ncpu, on_irqs, wlp, zoom. pose proof (wlp_register_irq fuel (irq_line r) isr (irqs (ncpu s3))) as Hr. unfold wlp in Hr.
  destruct (register_irq m off fuel (irq_line r) isr (irqs (ncpu s3))) as [[[] i]| | |]; [|done..].
  destruct Hr as [Hi Hn]. assert (f s3 = f s) as E by congruence. change (vectors_of (ncpu s)) with (f s). rewrite <- E. unfold f. unfold vectors_of. simpl.
  rewrite Hi, Hn. split_and!; try done. right. by eexists.
Qed.
End lemmas.

(** ** The table after start-up *)

Section boot_idt.
Context {D M : Type} `{Device D} `{ByteMem M} `{ShiftSem} (m : M) (off : Z) (b : loader) (a : image).

Lemma wlp_kcpu {A} (c : ST (cpu D) A) s (Q : A → kernel D → Prop) :
  wlp c (kcpu s) (λ r x, ∀ s', kcpu s' = x → Q r s') → wlp (on_kcpu c) s Q.
Proof.
  unfold wlp, on_kcpu, on_ksmp, on_sched, on_cpu, zoom, kcpu. destruct (c (scpu (msched (ksmp s)))) as [[r x]| | |]; [|done..].
  intros HQ. by apply HQ.
Qed.

Lemma wlp_irqs {A} (c : ST (intr D) A) (x : cpu D) (Q : A → cpu D → Prop) :
  wlp c (irqs x) (λ r i, Q r (set_irqs i x)) → wlp (on_irqs c) x Q.
Proof. unfold wlp, on_irqs, zoom. by destruct (c (irqs x)) as [[r i]| | |]. Qed.

(** The descriptor table [g] with the gates of the exceptions [l]. *)
Definition with_exceptions (l : list exception) (g : Z → gate) : Z → gate :=
  foldl (λ g e, upd g (w8 (vector_of e)) (make_gate (a_handler a e) IDT_TRAP_GATE_FLAGS)) g l.

Lemma wlp_exceptions l : ∀ s : intr D,
  wlp (for_each l (λ e, register_exception (vector_of e) (a_handler a e))) s (λ _ s',
    idt s' = with_exceptions l (idt s) ∧ next_vector s' = next_vector s).
Proof.
  induction l as [|e l IH]; intros s; [done|]. apply wlp_bind.
  refine (wlp_mono _ _ _ _ (IH (Intr (upd (idt s) (w8 (vector_of e)) (make_gate (a_handler a e) IDT_TRAP_GATE_FLAGS))
    (next_vector s) (acpi_vars s) (devices s))) _).
  by intros [] s' [-> ->].
Qed.

Lemma wlp_init_exceptions (s : kernel D) (Q : unit → kernel D → Prop) :
  (∀ s', vectors_of (kcpu s') = (with_exceptions exceptions (idt (irqs (kcpu s))),
      next_vector (irqs (kcpu s)), timer_vector (kcpu s), goto_vector (kcpu s)) → Q tt s') →
  wlp (on_kcpu (on_irqs (init_exceptions (a_handler a)))) s Q.
Proof.
  intros HQ. apply wlp_kcpu, wlp_irqs. eapply wlp_mono; [apply wlp_exceptions|]. intros [] i [Hi Hn] s' E.
  apply HQ. rewrite E. unfold vectors_of. simpl. by rewrite Hi, Hn.
Qed.

Lemma wlp_lapic_init (s : kernel D) g (Q : unit → kernel D → Prop) :
  vectors_of (kcpu s) = (g, 0x81, 0, 0) →
  (∀ s', vectors_of (kcpu s') = (upd g 0x82 (make_gate (a_timer_isr a) IDT_INT_GATE_FLAGS), 0x83, 0x82, 0x81) → Q tt s') →
  wlp (on_kcpu (lapic_init off (a_timer_isr a))) s Q.
Proof.
  intros E HQ. apply wlp_kcpu. destruct (kcpu s) as [[gi n v d] t gv hb hp sl tl gl n' cl]. injection E as -> -> -> ->.
  set (c := Cpu (Intr (upd g 0x82 (make_gate (a_timer_isr a) IDT_INT_GATE_FLAGS)) 0x83 v d) 0x82 0x81 hb hp sl tl gl n' cl).
  change (wlp (lapic_write off LAPIC_LDR 0x01000000 ;; lapic_write off LAPIC_SVR (Z.lor (Z.shiftl 1 8) 0xFF)) c
    (λ r x, ∀ s', kcpu s' = x → Q r s')).
  apply (wlp_after vectors_of); [apply steady_lapic_write, steady_vectors|intros _ x Ex].
  eapply wlp_mono; [apply (steady_lapic_write off vectors_of steady_vectors)|]. intros [] y Ey s' <-.
  apply HQ. exact (eq_trans Ey Ex).
Qed.

Lemma with_exceptions_other l v : v ∉ vector_of <$> l →
  (∀ g, with_exceptions l g v = g v) ∧ filter (λ e, vector_of e = v) l = [].
Proof.
  induction l as [|e l IH]; intros Hv; [done|]. rewrite fmap_cons in Hv. apply not_elem_of_cons in Hv as [Hne Hv].
  destruct (IH Hv) as [Hg Hf]. split.
  - intros g. etrans; [apply Hg|]. apply upd_ne. by destruct e.
  - by rewrite filter_cons, decide_False.
Qed.

Lemma boot_idt_eq g v :
  upd (with_exceptions exceptions g) 0x82 (make_gate (a_timer_isr a) IDT_INT_GATE_FLAGS) v = boot_idt a g v.
Proof.
  unfold boot_idt, upd at 1. destruct (v =? 0x82); [done|].
  destruct (decide (v ∈ vector_of <$> exceptions)) as [Hin|Hout].
  - cbn in Hin. repeat (apply elem_of_cons in Hin as [->|Hin]; [reflexivity|]). by apply elem_of_nil in Hin.
  - destruct (with_exceptions_other exceptions v Hout) as [-> ->]. done.
Qed.

Lemma wlp_init fuel sse (s : kernel D) g :
  vectors_of (kcpu s) = (g, 0x81, 0, 0) →
  wlp (init m off b a fuel sse) s (λ _ s', ∃ g0, (∀ v, g0 v = boot_idt a g v) ∧
    one_gate (a_nic_isr a) (g0, 0x83, 0x82, 0x81) (vectors_of (kcpu s'))).
Proof.
  intros E. set (f := λ s : kernel D, vectors_of (kcpu s)).
  assert (∀ A (c : ST procs A), preserves f (on_kprocs c)) as Hp by (intros; apply vectors_kprocs).
  assert (∀ A (c : ST console A), preserves f (on_kconsole c)) as Hcon by (intros; by apply preserves_zoom).
  assert (∀ A (c : ST (vfs heap bmem) A), preserves f (on_files c)) as Hfs by (intros; by apply preserves_zoom).
  assert (∀ A (c : ST acpi A), preserves f (on_kcpu (on_irqs (on_acpi c)))) as Ha.
  { intros. apply vectors_kcpu, vectors_irqs. by apply preserves_on_acpi. }
  unfold init. apply wlp_bind, wlp_init_exceptions. intros s1 E1.
  apply (wlp_after f); [by destruct (sse =? 0)|intros _ s2 E2]. apply (wlp_after f); [apply Hp|intros _ s3 E3].
  apply (wlp_after f); [apply Ha|intros _ s4 E4].
  apply (wlp_after f); [apply vectors_kcpu, vectors_irqs, vectors_ioapic_init|intros _ s5 E5].
  injection E as Eg En Et Ev. rewrite Eg, En, Et, Ev in E1.
  apply wlp_bind, (wlp_lapic_init s5 (with_exceptions exceptions g)); [unfold f in *; congruence|].
  intros s6 E6. do 2 (apply (wlp_after f); [apply Hp|intros ? ? ?]).
  apply (wlp_after f); [apply vectors_ksmp, vectors_load_tss|intros _ s7 E7].
  apply wlp_bind. unfold on_driver. pose proof (wlp_init_net m off fuel (a_nic_isr a) (driver_view s7)) as Hn.
  unfold wlp in Hn. unfold wlp at 1, zoom at 1. destruct (init_net _ _ _ _ _) as [[[] nn]| | |]; [|done..].
  change (vectors_of (ncpu (driver_view s7))) with (f s7) in Hn. change (vectors_of (ncpu nn)) with (f (driver_put nn s7)) in Hn.
  apply (wlp_after f); [apply vectors_kcpu, vectors_hpet_init|intros _ s8 E8].
  apply (wlp_after f); [apply Hfs|intros _ s9 E9].
  eapply wlp_mono; [apply (vectors_ksmp (smp_init _ _ _ _)), vectors_smp_init|]. intros [] s10 E10.
  exists (upd (with_exceptions exceptions g) 0x82 (make_gate (a_timer_isr a) IDT_INT_GATE_FLAGS)).
  split; [exact (boot_idt_eq g)|]. rewrite <- E6. change (f s10 = f s9) in E10.
  change (one_gate (a_nic_isr a) (f s6) (f s10)).
  replace (f s10) with (f (driver_put nn s7)) by congruence. replace (f s6) with (f s7) by congruence. exact Hn.
Qed.

(** C15. If the kernel starts up, whatever the boot loader, the firmware's tables and the
    devices say: the descriptor table has the thirteen exception handlers, the
    timer's handler at 0x82, and apart from the vector of the network card's
    handler what it held before; 0x81 is reserved for calls between cores and
    0x83 is the next free vector. *)
Theorem boot_gates fuel sse (s : kernel D) g :
  vectors_of (kcpu s) = (g, 0x81, 0, 0) →
  wlp (_start m off b a fuel sse) s (λ _ s', let c := kcpu s' in
    goto_vector c = 0x81 ∧ timer_vector c = 0x82 ∧ next_vector (irqs c) = 0x83 ∧
    ∃ u, (∀ v, v ≠ u → idt (irqs c) v = boot_idt a g v) ∧
      (idt (irqs c) u = boot_idt a g u ∨ idt (irqs c) u = make_gate (a_nic_isr a) IDT_INT_GATE_FLAGS)).
Proof.
  intros E. set (f := λ s : kernel D, vectors_of (kcpu s)).
  assert (∀ A (c : ST console A), preserves f (on_kconsole c)) as Hcon by (intros; by apply preserves_zoom).
  unfold _start. do 2 (apply (wlp_after f); [apply Hcon|intros ? ? ?]).
  apply wlp_bind. eapply wlp_mono; [apply (wlp_init fuel sse _ g); unfold f in *; congruence|]. intros [] s1 (g0 & Hg0 & Hone).
  assert (preserves f (on_ksmp (on_sched (sched_start off m fuel (s_idle a) (a_idle a) (a_test_func a))))) as Hs.
  { apply vectors_ksmp. apply (preserves_zoomed _ (λ s, vectors_of (scpu s))); [reflexivity..|]. apply vectors_sched_start. }
  eapply wlp_mono; [apply Hs|]. intros [] s2 E2. change (vectors_of (kcpu s1)) with (f s1) in Hone. rewrite <- E2 in Hone.
  destruct Hone as (Hn & Ht & Hv & [Hg|(u & Hg)]); split_and!; try done; rewrite Hg.
  - exists 0. split; [intros v _; apply Hg0|left; apply Hg0].
  - exists u. split; [|right; by rewrite upd_eq]. intros v Hne. rewrite upd_ne by done. apply Hg0.
Qed.
End boot_idt.

(** ** Witness: a machine that boots *)

(** Read-only memory as a list of regions. *)
Definition regions (l : list (Z * list Z)) : bmem := BMem (λ p,
  match list_find (λ r : Z * list Z, r.1 <= p < r.1 + zlen r.2) l with
  | Some (_, (base, bytes)) => nth (Z.to_nat (p - base)) bytes 0
  | None => 0
  end).

(** [n] bytes of [v], low byte first. *)
Definition le (n : nat) (v : Z) : list Z := (λ i, w8 (Z.shiftr v (8 * i))) <$> seqZ 0 (Z.of_nat n).

(** An ACPI table: signature, length, revision, checksum, and what follows the
    header. *)
Definition acpi_table (sig : string) (body : list Z) : list Z :=
  let head := chars sig ++ le 4 (36 + zlen body) ++ [1] in
  let rest := replicate 26 0 ++ body in
  head ++ [w8 (- foldr Z.add 0 (head ++ rest))] ++ rest.

Definition sample_off : Z := 0xFFFF800000000000.

(** A message after [KERN_INFO], with its line feed. *)
Definition info (text : string) : list Z :=
  [27] ++ chars "1[ " ++ [27] ++ chars "3INFO" ++ [27] ++ chars "1 ]" ++ [27] ++ chars "0 " ++ chars text ++ [10].

(** One I/O APIC, the timer's interrupt on line 2, an HPET. *)
Definition sample_rom : bmem := regions [
  (sample_off + 0xE0010, le 4 0xE1000);
  (sample_off + 0xE1000, acpi_table "RSDT" (le 4 0xE2000 ++ le 4 0xE3000));
  (sample_off + 0xE2000, acpi_table "APIC" (le 4 0xFEE00000 ++ le 4 1 ++
     [1; 12; 0; 0] ++ le 4 0xFEC00000 ++ le 4 0 ++ [2; 10; 0; 0] ++ le 4 2 ++ le 2 0));
  (sample_off + 0xE3000, acpi_table "HPET" (le 4 0 ++ le 4 0 ++ le 8 0xFED00000 ++ le 4 0));
  (0x1000, info "INIT: Booting.." ++ [0]);
  (0x1100, info "INIT: SSE enabled." ++ [0]);
  (0x1200, chars "APIC" ++ [0]);
  (0x1300, chars "HPET" ++ [0]);
  (0x1400, chars "idle" ++ [0])].

(** A local APIC, an HPET whose counter advances by 20000 ticks of 100 ns a
    read, and a network card on interrupt line 11 behind the PCI bus. *)
Record board := Board { b_count : N; b_config : Z; b_lapic : Z → Z }.

Definition board_lapic : Z := sample_off + 0xFEE00000.
Definition board_hpet : Z := sample_off + 0xFED00000.
Definition board_cap : Z := 0x05F5E10000000200.
Definition board_cfg (k : Z) : Z :=
  if k =? config_addr 0 3 0 0 then 0x813910EC
  else if k =? config_addr 0 3 0 0x10 then 0xC001
  else if k =? config_addr 0 3 0 0x3C then 0x10B else 0.

Definition board_reg (d : board) (sp : space) (p n : Z) : Z * board :=
  match sp with
  | Mmio =>
      if p =? board_hpet + HPET_REG_COUNTER then (Z.of_N (b_count d), Board (b_count d + 20000) (b_config d) (b_lapic d))
      else if p =? board_hpet then (board_cap, d)
      else if p =? sample_off + 0xFEC00010 then (0x170011, d)
      else if p =? board_lapic + LAPIC_TCCR then (0xFFF00000, d)
      else (0, d)
  | Port => if (p =? CONFIG_DATA) && (n =? 4) then (board_cfg (b_config d), d) else (0, d)
  end.

#[export] Program Instance board_device : Device board := {|
  dev_in sp p n d := let (v, d') := board_reg d sp p n in (v mod 2 ^ (8 * n), d');
  dev_out sp p n v d :=
    match sp with
    | Port => if p =? CONFIG_ADDRESS then Board (b_count d) v (b_lapic d) else d
    | Mmio =>
        if p =? board_hpet + HPET_REG_COUNTER then Board (Z.to_N v) (b_config d) (b_lapic d)
        else if (board_lapic <=? p) && (p <? board_lapic + 0x400)
        then Board (b_count d) (b_config d) (upd (b_lapic d) (p - board_lapic) v)
        else d
    end;
|}.
Next Obligation.
  intros sp p n d Hn. simpl. destruct (board_reg d sp p n). simpl. apply Z.mod_pos_bound, Z.pow_pos_nonneg; lia.
Qed.

Definition sample_loader : loader := Loader vga [Entry 0 0x8000 1; Entry 0x8000 0x200000 0] (sample_off + 0xE0000) 2 id 0.

Definition sample_image : image :=
  Image (λ e, 0xFFFFFFFF80001000 + 16 * vector_of e) 0xFFFFFFFF80002000 0xFFFFFFFF80003000 0xFFFFFFFF80004000
    0xFFFFFFFF80005000 0xFFFFFFFF80006000 0x1000 0x1100 0x1100 0x1200 0x1300 0x1500 0x1400.

Definition zero_core : core := Core 0 0 0 0 0 0 0 0.
Definition power_on : kernel board :=
  let h := Heap blank 0 0 in
  let v := Vmm (Pmm [] None 0 0) (λ _, 0) 0x1000 0 sample_off [] in
  let c := Cpu (Intr no_gates 0x81 (Acpi 0 0 0 0 0) (Board 0 0 (λ _, 0))) 0 0 0 0 0 0 0 0 (λ _, zero_core) in
  let p := Procs h v (λ _, Thread (entry_frame 0 0) 0 0 0) (λ _, Process (λ _, 0) 0 0 0 0 0 0 0) no_queues 0 1 in
  Kernel (Smp (Sched p c no_queues 0 0) initial_gdt 0 0 0 0 (λ _, 0) (λ _, 0))
    (Console (Screen None 0 0) (λ _, 0) (λ _, 0))
    (Nic h v c (λ _, PciDevice 0 [] 0 0 0 0) 0 0 0 (λ _, 0) 0 0 0 (λ _, 0))
    (Vfs h (BMem (λ _, 0)) (λ _, zero_vnode) 0).

Notation boot_run := (_start sample_rom sample_off sample_loader sample_image 100 0).

(** On this machine, whose first seven frames are reserved, the address spaces
    of the first process and of the second core are one frame, the one that
    holds the heap's control block. *)
Example boot_overlap : match boot_run power_on with
  | Done (_, s) =>
      let ps := sprocs (msched (ksmp s)) in
      let p := running_process (corelist (kcpu s) 0) in
      vaddrsp (process_at ps p) = tlsf_ctx (kheap ps) ∧ extra_argument (ksmp s) 1 = tlsf_ctx (kheap ps) ∧
      rip (tf (thread_at ps (running_thread (process_at ps p)))) = a_idle sample_image ∧
      idt (irqs (kcpu s)) 0x2B = make_gate (a_nic_isr sample_image) IDT_INT_GATE_FLAGS
  | _ => False
  end.
Proof. vm_compute. split_and!; reflexivity. Qed.

Lemma boot_completes : is_done (boot_run power_on) = true.
Proof. pose proof boot_overlap as Hrun. by destruct (boot_run power_on) as [[u s]| | |]. Qed.

Example boot_gates_witness : ∃ u s', boot_run power_on = Done (u, s') ∧
  timer_vector (kcpu s') = 0x82 ∧ next_vector (irqs (kcpu s')) = 0x83.
Proof.
  pose proof (boot_gates sample_rom sample_off sample_loader sample_image 100 0 power_on no_gates eq_refl) as Hg.
  destruct (wlp_done _ _ _ Hg boot_completes) as (u & s' & Hrun & _ & Ht & Hn & _).
  exists u, s'. exact (conj Hrun (conj Ht Hn)).
Defined.
