(* ===== verification/Ready.v ===== *)
(** What [_start] hands to the timer interrupt: the invariant of the scheduler,
    carried through the start-up of all components. *)

From S2P Require Import Prelude CString Io Acpi Interrupts Mutex Cpu.
From S2P Require Import TlsfBits TlsfModel TlsfHeap TlsfProps Bitmap Pmm Heap Hashmap.
From S2P Require Import Vmm Queue HeapBytes Pci Process Rtl8139.
From S2P Require Import Sched Vfs Console Exceptions Gdt Smp.
From S2P Require Import Boot.

(** ** The heap stays in order *)

Definition alive (h : heap) : Prop := ∃ V, owns h V.

Lemma alive_kmalloc n : 0 ≤ n ≤ 2 ^ 64 - 8 → maintains alive (kmalloc n).
Proof.
  intros Hn h [V Ho]. apply wlp_wp. eapply wp_kmalloc; [exact Ho|exact Hn|].
  intros p h' _ _ [[_ Ho']|(sz & _ & _ & _ & Ho')]; by eexists.
Qed.

Lemma alive_calloc nmemb size : 0 ≤ size * nmemb ≤ 2 ^ 64 - 8 → maintains alive (calloc nmemb size).
Proof.
  intros Hn. unfold calloc. rewrite w64_small by lia. pose proof (alive_kmalloc _ Hn).
  apply maintains_bind; [done|]. eauto with preserves.
Qed.

Section alive.
Context {D M : Type} `{Device D} `{ByteMem M} `{ShiftSem} (m : M) (off : Z).

Lemma alive_load_tss : maintains (λ s, alive (sheap s)) load_tss_bsp.
Proof.
  intros s [V Ho]. unfold load_tss_bsp. apply wlp_bind, wlp_zoom, wlp_wp.
  eapply wp_kmalloc; [exact Ho|unfold sizeof_tss_entry; lia|].
  intros p h' _ _ [[-> _]|(sz & _ & _ & Hsz & [B Ho'])]; [done|].
  apply wlp_bind, wlp_modify. unfold write_tss. apply wlp_bind, wlp_wp.
  eapply (wp_fill_tss B _ _ p sz); [exact Ho'|apply lookup_insert_eq|exact Hsz|].
  intros B' V' stack s' [_ Ho2 _ _ _ _ _ _]. apply wlp_modify. by exists V', B'.
Qed.

Lemma ports_keep_heap A (c : ST D A) : preserves (λ s : pci heap D, pheap s) (on_ports c).
Proof. intros s. unfold wlp, on_ports. by destruct (c (ports s)) as [[a d]| | |]. Qed.

#[local] Hint Resolve ports_keep_heap : preserves.

(** The search for a device frees its record when it finds none. *)
Lemma alive_search l test dev V : (∀ bus slot func, preserves pheap (test bus slot func)) →
  dev = 0 ∨ is_Some (V !! dev) → ∀ x : pci heap D, owns (pheap x) V → wlp (search l test dev) x (λ _ x', alive (pheap x')).
Proof.
  intros Ht Hdev. induction l as [|[[bus slot] func] l IH]; intros x Ho; cbn [search].
  - apply wlp_bind. destruct (Z.eqb_spec dev 0) as [E|E]; [apply wlp_ret, wlp_ret; by exists V|].
    destruct Hdev as [|Hdev]; [done|]. unfold wlp, Pci.on_heap.
    pose proof (release_spec (pheap x) V dev (λ _ h, owns h (delete dev V)) Ho Hdev (λ _ H, H)) as Hr. unfold wp in Hr.
    destruct (release dev (pheap x)) as [[u h]| | |]; [|done..]. by eexists.
  - apply (wlp_after pheap); [apply Ht|]. intros [] x1 E1; [|apply IH; by rewrite E1].
    assert (preserves (λ s : pci heap D, pheap s) (init_dev dev bus slot func)) as Hi.
    { unfold init_dev, read_irq_line, get_bar0, get_bar1, get_bar2, get_bar3, get_bar4, get_bar5, config_readw.
      eauto 60 with preserves. }
    apply (wlp_after pheap); [exact Hi|]. intros _ x2 E2. apply wlp_ret. exists V. by rewrite E2, E1.
Qed.

Lemma alive_pci_find vendor device : maintains (λ s : pci heap D, alive (pheap s)) (pci_find vendor device).
Proof.
  intros s [V Ho]. unfold pci_find. apply wlp_bind.
  assert (wp (kmalloc sizeof_pci_device) (pheap s) (λ dev h, ∃ V', owns h V' ∧ (dev = 0 ∨ is_Some (V' !! dev)))) as Hk.
  { eapply wp_kmalloc; [exact Ho|unfold sizeof_pci_device; lia|]. intros p h' _ _ [[-> Ho']|(sz & _ & _ & _ & Ho')].
    - exists V. split; [done|by left].
    - eexists. split; [exact Ho'|]. right. rewrite lookup_insert_eq. by eexists. }
  apply wp_done in Hk as (dev & h & Hrun & V' & Ho' & Hdev). unfold wlp at 1, Pci.on_heap.
  change (alloc sizeof_pci_device (pheap s)) with (kmalloc sizeof_pci_device (pheap s)). rewrite Hrun.
  apply (alive_search _ _ _ V'); [|exact Hdev|exact Ho'].
  intros bus slot func. unfold read_device_id, read_vendor, config_readw. eauto 15 with preserves.
Qed.

Lemma alive_init_net fuel isr : maintains (λ s : nic D, alive (nheap s)) (init_net m off fuel isr).
Proof.
  set (I := λ s : nic D, alive (nheap s)).
  assert (∀ n, 0 ≤ n ≤ 2 ^ 64 - 8 → maintains I (on_nheap (D := D) (kmalloc n))) as Hk.
  { intros n Hn. apply (maintains_zoomed I alive); [done..|]. by apply alive_kmalloc. }
  assert (∀ A (c : ST vmm A), maintains I (on_nvmm c)) as Hv by (intros; by apply maintains_zoom).
  assert (∀ A (c : ST (cpu D) A), maintains I (on_ncpu c)) as Hc by (intros; by apply maintains_zoom).
  assert (∀ A (c : ST (pci heap D) A), maintains (λ s, alive (pheap s)) c → maintains I (on_pci c)) as Hp.
  { intros A c. by apply maintains_zoomed. }
  assert (∀ d, maintains I (on_pci (pci_enable_bus_mastering d))) as Hbm.
  { intros d. apply Hp, (maintains_preserves pheap alive).
    unfold pci_enable_bus_mastering, config_readw, config_writew. eauto 15 with preserves. }
  assert (∀ g, (∀ s : nic D, nheap (g s) = nheap s) → maintains I (modify g)) as Hmod.
  { intros g Hg. apply maintains_modify. intros s. unfold I. by rewrite Hg. }
  assert (∀ n, maintains I (reset_loop (D := D) n)) as Hreset by (induction n; cbn [reset_loop]; unfold reg_in; eauto with preserves).
  assert (maintains I (startup_nic (D := D) fuel)) as Hstart.
  { assert (maintains I (on_nheap (D := D) (kmalloc RX_BUFFER_SIZE))) by (apply Hk; unfold RX_BUFFER_SIZE; lia).
    assert (maintains I (on_nheap (D := D) (kmalloc TX_BUFFER_SIZE))) by (apply Hk; unfold TX_BUFFER_SIZE, PACKET_SIZE_MAX; lia).
    assert (∀ p, maintains I (modify (set_rxbuf p))) by (intros; by apply Hmod).
    assert (∀ i p, maintains I (modify (set_txbuf i p))) by (intros; by apply Hmod).
    unfold startup_nic, reg_out. eauto 60 using maintains_for_each with preserves. }
  assert (maintains I (on_nheap (D := D) (kmalloc PACKET_SIZE_MAX))) by (apply Hk; unfold PACKET_SIZE_MAX; lia).
  assert (∀ p, maintains I (modify (set_packet_buf p))) by (intros; by apply Hmod).
  assert (∀ i p, maintains I (modify (set_mac i p))) by (intros; by apply Hmod).
  assert (∀ d io, maintains I (modify (set_found d io))) by (intros; by apply Hmod).
  assert (∀ d, maintains I (modify (λ s, set_found d (iobase s) s))) by (intros; by apply Hmod).
  pose proof (Hp _ _ (alive_pci_find VENDOR_ID DEVICE_ID)).
  unfold init_net, rtl8139_init, link_up, get_speed, update_mac_addr, reg_in. eauto 40 using maintains_for_each with preserves.
Qed.

Lemma alive_vfs_init fuel str : maintains (λ s : vfs heap bmem, alive (vheap s)) (vfs_init fuel str).
Proof.
  set (I := λ s : vfs heap bmem, alive (vheap s)).
  assert (∀ g, (∀ s : vfs heap bmem, vheap (g s) = vheap s) → maintains I (modify g)) as Hmod.
  { intros g Hg. apply maintains_modify. intros s. unfold I. by rewrite Hg. }
  assert (∀ A (c : ST heap A), maintains alive c → maintains I (on_vheap c)) as Hh.
  { intros A c. by apply maintains_zoomed. }
  assert (∀ p, maintains I (str_len fuel p)) as Hlen.
  { intros p. unfold str_len. apply maintains_bind; [eauto with preserves|]. intros mm.
    destruct (strlen fuel mm p); simpl; eauto with preserves. }
  assert (∀ p f, maintains I (update_vnode p f)) as Hup.
  { intros p f. unfold update_vnode. apply maintains_bind; [eauto with preserves|]. intros _. by apply Hmod. }
  assert (maintains I (on_vheap (calloc 1 sizeof_vnode))) by (apply Hh, alive_calloc; unfold sizeof_vnode; lia).
  assert (maintains I (on_vheap (hashmap_create 2))) as Hmap.
  { apply Hh. unfold hashmap_create. simpl.
    apply maintains_bind; [apply alive_calloc; unfold sizeof_element; lia|eauto with preserves]. }
  assert (∀ p f, maintains I (modify (λ s, set_vmem (f s) (set_vnode p zero_vnode s)))) by (intros; by apply Hmod).
  assert (∀ f, maintains I (modify (λ s, set_vmem (f s) s))) by (intros; by apply Hmod).
  assert (∀ r, maintains I (modify (set_fs_root r))) by (intros; by apply Hmod).
  assert (∀ b, maintains I (assert_ b)) by (intros []; apply maintains_quiet; [apply preserves_ret|apply preserves_halt]).
  unfold vfs_init. apply maintains_bind; [|eauto with preserves]. unfold vfs_make_vnode.
  apply maintains_bind; [auto|]. intros len. apply maintains_if; [eauto with preserves|].
  apply maintains_bind; [auto|]. intros new. apply maintains_bind; [auto|]. intros _. apply maintains_bind; [auto|]. intros _.
  apply maintains_bind; [auto|]. intros [flag map]. eauto 15 with preserves.
Qed.
End alive.

(** ** The cores before scheduling starts *)

Section cores.
Context {D M : Type} `{Device D} `{ByteMem M} `{ShiftSem} (m : M) (off : Z).

Definition locks (c : cpu D) : Z * Z := (sleep_lock c, this_core_lock c).

(** The statics of process.c, sched.c and trap.c, and the locks of hpet.c and
    smp.c. *)
Definition statics (y : sched D) : Z * Z * Z * Z * (Z * Z) :=
  (pid_bitmap (sprocs y), pid_bitmap_bytes (sprocs y), current_core_idx y, trap_lock y, locks (scpu y)).

(** Core 0 has nothing to run yet. *)
Definition vacant (y : sched D) : Prop := queue_of (runq y) 0 [] ∧ running_process (corelist (scpu y) 0) = 0.

Lemma aps_keep n ids bsp ap :
  preserves (λ s : smp D, (statics (msched s), (mheap s, runq (msched s), corelist (scpu (msched s)), cpu_count (scpu (msched s)))))
    (start_aps n ids bsp ap).
Proof.
  set (f := λ s : smp D, _).
  assert (preserves f (on_sched (on_procs (on_kvm vmm_make_pml4)))) as Hp.
  { intros s. unfold wlp, on_sched, on_procs, on_kvm, zoom.
    by destruct (vmm_make_pml4 (kvm (sprocs (msched s)))) as [[a v]| | |]. }
  unfold start_aps. eauto 10 with preserves.
Qed.

Lemma wlp_smp_init n ids bsp ap (s : smp D) :
  alive (mheap s) → 0 ≤ n → 64 * n ≤ 2 ^ 64 - 8 →
  wlp (smp_init n ids bsp ap) s (λ _ s', alive (mheap s') ∧ statics (msched s') = statics (msched s) ∧
    (cpu_count (scpu (msched s')) ≠ 0 → vacant (msched s'))).
Proof.
  intros [V Ho] Hn Hsz. unfold smp_init. apply wlp_bind.
  assert (∀ s2, alive (mheap s2) → statics (msched s2) = statics (msched s) →
    (cpu_count (scpu (msched s2)) ≠ 0 → vacant (msched s2)) →
    wlp (start_aps n ids bsp ap) s2 (λ _ s', alive (mheap s') ∧ statics (msched s') = statics (msched s) ∧
      (cpu_count (scpu (msched s')) ≠ 0 → vacant (msched s')))) as Haps.
  { intros s2 Ha Hst Hv. eapply wlp_mono; [apply aps_keep|]. intros [] s3 E. injection E as E1 E2 E3 E4 E5 E6 E7 E8 E9 E10.
    unfold vacant, statics, locks in *. rewrite E1, E2, E3, E4, E5, E6, E7, E8, E9, E10. done. }
  destruct (decide (n = 0)) as [->|Hne].
  { unfold init_cores. apply wlp_bind, wlp_zoom, wlp_zoom, wlp_modify, wlp_bind, wlp_zoom, wlp_wp. eapply wp_kmalloc; [exact Ho|done|].
    intros p h _ _ Hp. apply wlp_bind, wlp_modify, wlp_ret, Haps; [|done|done].
    destruct Hp as [[_ Ho']|(sz & _ & _ & _ & Ho')]; by eexists. }
  eapply wlp_wp_or, (wp_init_cores True n ids s V []); [by apply (room_or_starved True)|lia|lia|].
  intros p h' cl' q' V' Ho2 _ _ Hcs _. apply room_or_owns in Ho2. apply Haps; [by exists V'|done|]. intros _. split.
  - apply (cs_queue _ _ _ _ _ _ _ _ Hcs). lia.
  - apply (cs_fields _ _ _ _ _ _ _ _ Hcs 0). lia.
Qed.
End cores.

(** ** The first process *)

Section first.
Context {D M : Type} `{Device D} `{ByteMem M} `{ShiftSem} (km : M) (off : Z).

Lemma wlp_process_create_thread s V par entry (Q : Z → procs → Prop) :
  owns (kheap s) V →
  (∀ t V' h b, t ≠ 0 → V !! t = None → V ⊆ V' → is_Some (V' !! t) → owns h V' →
     Q t (set_thread t (Thread (entry_frame b entry) b 0 par) (set_kheap h s))) →
  wlp (process_create_thread par entry) s Q.
Proof.
  intros Ho HQ. unfold process_create_thread. apply wlp_bind, wlp_zoom, wlp_wp.
  eapply wp_kmalloc; [exact Ho|unfold sizeof_thread; lia|]. intros t h1 _ _ Ht.
  apply wlp_bind, wlp_assert_nonnull. intros Hnz. destruct Ht as [[? _]|(tsz & _ & Hnone & _ & Ho1)]; [contradiction|].
  apply wlp_bind, wlp_zoom, wlp_wp. eapply wp_kmalloc; [exact Ho1|lia|]. intros stack h2 _ _ Hst.
  apply wlp_bind, wlp_assert. intros _. apply wlp_bind, wlp_modify, wlp_ret.
  assert (V ⊆ <[t:=tsz]> V) as HV by (by apply insert_subseteq).
  destruct Hst as [[-> Ho2]|(ssz & _ & Hn2 & _ & Ho2)].
  - eapply HQ; [assumption..|exact HV| |exact Ho2]. rewrite lookup_insert_eq. by eexists.
  - eapply HQ; [assumption..| | |exact Ho2]; [etrans; [exact HV|by apply insert_subseteq]|].
    exists tsz. eapply lookup_weaken; [apply lookup_insert_eq|by apply insert_subseteq].
Qed.

(** The first id, for which the bitmap is allocated. *)
Lemma wlp_alloc_pid fuel s V (Q : Z → procs → Prop) :
  owns (kheap s) V → pid_bitmap s = 0 → pid_bitmap_bytes s = 1 → (7 < fuel)%nat →
  (∀ r s' V', V ⊆ V' → owns (kheap s') V' → thread_at s' = thread_at s → process_at s' = process_at s →
     threadq s' = threadq s → Q r s') →
  wlp (alloc_pid fuel) s Q.
Proof.
  intros Ho Hb0 Hb1 Hf HQ. unfold alloc_pid. apply wlp_bind, wlp_gets. rewrite Hb0. apply wlp_bind. unfold init_pid_bitmap.
  apply wlp_bind, wlp_zoom, wlp_wp. eapply wp_kmalloc; [exact Ho|lia|]. intros p h _ _ Hp. apply wlp_modify.
  match goal with |- wlp _ ?x _ => set (s1 := x) end.
  destruct Hp as [[-> _]|(sz & Hp & Hnone & _ & Ho')].
  { destruct fuel as [|fuel]; [lia|]. cbn [pid_loop]. apply wlp_bind, wlp_gets. subst s1. simpl. rewrite Hb1. done. }
  apply wlp_wp, (wp_pid_loop _ _ (<[p:=sz]> V) []); [|simpl; lia|lia|lia|].
  - split; [exact (owns_room _ _ Ho')|simpl; lia|]. simpl. rewrite lookup_insert_eq. by eexists.
  - intros r s' _ [Hs Hr2 _]. eapply HQ; [by apply (insert_subseteq V p sz)|exact (room_owns _ _ _ Hr2)|by rewrite Hs..].
Qed.

Lemma wlp_create_process fuel name uid gid entry s V (Q : Z → procs → Prop) :
  owns (kheap s) V → pid_bitmap s = 0 → pid_bitmap_bytes s = 1 → (7 < fuel)%nat →
  (∀ p s' t V' b, p ≠ 0 → t ≠ 0 → owns (kheap s') V' → is_Some (V' !! t) → queue_of (threadq s') p [t] →
     thread_at s' t = Thread (entry_frame b entry) b 0 p → running_thread (process_at s' p) = t →
     thread_count (process_at s' p) = 1 → Q p s') →
  wlp (create_process km fuel name uid gid entry) s Q.
Proof.
  intros Ho Hb0 Hb1 Hf HQ. unfold create_process. apply wlp_bind. destruct (strlen fuel km name) as [len|]; [|done].
  apply wlp_ret, wlp_bind, wlp_assert. intros _. apply wlp_bind, wlp_zoom, wlp_wp.
  eapply wp_kmalloc; [exact Ho|unfold sizeof_process; lia|]. intros p h1 _ _ Hp.
  apply wlp_bind, wlp_assert_nonnull. intros Hnz. destruct Hp as [[? _]|(psz & _ & _ & _ & Ho1)]; [contradiction|].
  apply wlp_bind, wlp_modify, wlp_bind, wlp_modify, wlp_bind. eapply wlp_process_create_thread; [exact Ho1|].
  intros t V1 h2 b Ht _ _ Hin Ho2. apply wlp_bind, wlp_modify, wlp_bind, wlp_modify.
  apply wlp_bind. eapply wlp_alloc_pid; [exact Ho2|exact Hb0|exact Hb1|exact Hf|].
  intros r s3 V3 HV3 Ho3 Hth Hpr Hq. apply wlp_bind, wlp_modify, wlp_bind, wlp_zoom, wlp_any. intros space v.
  apply wlp_bind, wlp_modify, wlp_bind, wlp_ret, wlp_bind, wlp_modify, wlp_ret.
  destruct Hin as [tsz Hin].
  eapply (HQ p _ t V3 b Hnz Ht); [exact Ho3|exists tsz; by eapply lookup_weaken|..]; simpl.
  - rewrite Hq. exact (proj1 (queue_of_new _ p t Ht)).
  - rewrite Hth. apply upd_eq.
  - rewrite !upd_eq. simpl. rewrite Hpr. simpl. by rewrite upd_eq.
  - rewrite !upd_eq. simpl. rewrite Hpr. simpl. by rewrite !upd_eq.
Qed.
End first.

(** ** Starting the scheduler *)

Section start.
Context {D M : Type} `{Device D} `{ByteMem M} `{ShiftSem} (km : M) (off : Z).

(** Time keeping gives its locks back. *)
Definition unlocked (c : cpu D) : Prop := sleep_lock c = 0 ∧ this_core_lock c = 0.

Lemma unlocked_on_device {A} (c : ST D A) : maintains unlocked (on_device c).
Proof. by apply maintains_zoom. Qed.

#[local] Hint Resolve unlocked_on_device : preserves.

Lemma unlocked_lapic_write r v : maintains unlocked (lapic_write off r v).
Proof. unfold lapic_write, lapic_base. eauto with preserves. Qed.

Lemma unlocked_this_core fuel : maintains unlocked (this_core off fuel).
Proof.
  intros s [Hs Ht]. unfold this_core.
  apply (wlp_after sleep_lock); [by apply preserves_zoom|intros _ s1 E1].
  apply (wlp_after sleep_lock); [apply preserves_gets|intros n s2 E2].
  apply (wlp_after sleep_lock).
  { induction (seqZ 0 n) as [|j l IH]; cbn [this_core_loop]; [apply preserves_ret|].
    unfold lapic_read_id, lapic_read, lapic_base, on_device, on_irqs. eauto 10 with preserves. }
  intros r s3 E3. apply wlp_bind, wlp_zoom. split; [simpl; congruence|done].
Qed.

Lemma unlocked_hpet_sleep fuel ms : maintains unlocked (hpet_sleep fuel ms).
Proof.
  intros s [Hs Ht]. unfold hpet_sleep.
  apply (wlp_after this_core_lock); [by apply preserves_zoom|intros _ s1 E1].
  apply (wlp_after this_core_lock); [unfold hpet_read, on_device, on_irqs; eauto with preserves|intros start s2 E2].
  apply (wlp_after this_core_lock); [apply preserves_gets|intros period s3 E3].
  apply (wlp_after this_core_lock); [apply preserves_guard|intros _ s4 E4].
  apply (wlp_after this_core_lock).
  { generalize (w64 (start + w64 (ms * (1000000000000 / period)))). intros goal.
    induction fuel as [|n IH]; cbn [sleep_loop]; unfold hpet_read, on_device, on_irqs; eauto with preserves. }
  intros _ s5 E5. apply wlp_zoom. split; [done|simpl; congruence].
Qed.

#[local] Hint Resolve unlocked_lapic_write unlocked_this_core unlocked_hpet_sleep : preserves.

Lemma unlocked_begin_timer fuel : maintains unlocked (sched_begin_timer off fuel).
Proof.
  assert (∀ f, maintains unlocked (modify (λ s : cpu D, set_core (f s).1 (f s).2 s))) as Hcore by (intros f; by apply maintains_modify).
  assert (∀ i g, maintains unlocked (modify (λ s : cpu D, set_core i (g s) s))) as Hset by (intros i g; apply (Hcore (λ s, (i, g s)))).
  assert (∀ r : option Z, maintains unlocked (some_core r)) as Hsome.
  { intros []; [apply maintains_ret|apply maintains_undef]. }
  assert (∀ r, maintains unlocked (lapic_read off r)) as Hread by (intros r; unfold lapic_read, lapic_base; eauto with preserves).
  unfold sched_begin_timer, lapic_timer_calibrate, lapic_timer_oneshot, lapic_get_timer_vector. eauto 40 with preserves.
Qed.

(** What the timer interrupt relies on: one process with two threads, the first
    about to start at [idle], the other standing at [test]; nobody holds a
    lock. *)
Record handed_over (idle test : Z) (y : sched D) : Prop := {
  ho_schedules : ∃ p t1 t2, schedules y 0 [p] (λ _, [t1; t2]) ∧ turn (view_of y 0) p = t1 ∧
    fresh (view_of y 0) t1 = true ∧ rip (context (view_of y 0) t1) = idle ∧ rip (context (view_of y 0) t2) = test;
  ho_trap : trap_lock y = 0;
  ho_locks : unlocked (scpu y);
}.

Lemma wlp_sched_start fuel name idle test (s : sched D) :
  alive (kheap (sprocs s)) → statics s = (0, 1, 0, 0, (0, 0)) → (cpu_count (scpu s) ≠ 0 → vacant s) → (7 < fuel)%nat →
  wlp (sched_start off km fuel name idle test) s (λ _ s', handed_over idle test s').
Proof.
  intros [V Ho] Hst Hvac Hf. injection Hst as Hb0 Hb1 Hi Htrap Hsl Htl.
  unfold sched_start. apply wlp_bind, wlp_zoom. unfold create_kernel_process.
  eapply wlp_create_process; [exact Ho|exact Hb0|exact Hb1|exact Hf|].
  intros p ps t1 V1 b1 Hp Ht1 Ho1 [tsz Hin] Hq Hth Hrun _.
  destruct (decide (cpu_count (scpu s) = 0)) as [E|Hn].
  { apply wlp_bind. unfold enqueue_process. apply wlp_bind. unfold sched_core.
    apply wlp_bind, wlp_gets, wlp_bind, wlp_gets, wlp_bind, wlp_nonnull. intros Hc. by destruct Hc. }
  destruct (Hvac Hn) as [Hrq Hrp].
  apply wlp_bind, wlp_wp, (wp_enqueue_process _ 0); simpl; rewrite ?Hrun; try done. intros j q Hq'.
  apply wlp_bind, wlp_zoom. eapply wlp_process_create_thread; [exact Ho1|].
  intros t2 V2 h b2 Ht2 Hnone _ _ _. assert (t1 ≠ t2) as Hne by congruence.
  apply wlp_bind, wlp_bind, wlp_modify, wlp_modify, wlp_zoom. simpl.
  match goal with |- wlp _ ?x _ => set (c := x) end.
  assert (preserves (λ c : cpu D, running_process (corelist c 0)) (sched_begin_timer off fuel)) as Hsteady.
  { assert (steady (λ c : cpu D, running_process (corelist c 0))) as Hs.
    { split; [reflexivity..|]. intros k v x. simpl. unfold upd. destruct (Z.eqb_spec 0 k) as [<-|]; reflexivity. }
    apply preserves_bind; [by apply steady_calibrate|intros _; by apply steady_oneshot]. }
  pose proof (Hsteady c) as Hkeep. pose proof (unlocked_begin_timer fuel c (conj Hsl Htl)) as Hun.
  unfold wlp in *. destruct (sched_begin_timer off fuel c) as [[[] c']| | |]; [|done..].
  assert (running_process (corelist c' 0) = p) as Hrp' by (rewrite Hkeep; reflexivity).
  clearbody c. clear Hkeep Hsteady.
  match goal with |- handed_over _ _ ?x => set (y := x) end.
  assert (thread_at (sprocs y) t1 = with_thread_flags THREAD_STARTUP (Thread (entry_frame b1 idle) b1 0 p)) as Hy1.
  { transitivity (upd (thread_at ps) t1 (with_thread_flags (Z.lor (thread_flags (thread_at ps t1)) THREAD_STARTUP) (thread_at ps t1)) t1).
    - by apply (upd_ne _ t2 t1).
    - rewrite upd_eq, Hth. reflexivity. }
  assert (thread_at (sprocs y) t2 = Thread (entry_frame b2 test) b2 0 p) as Hy2 by apply upd_eq.
  assert (running_thread (process_at (sprocs y) p) = t1) as Hy3.
  { transitivity (running_thread (process_at ps p)); [|exact Hrun]. subst y. simpl. by rewrite upd_eq. }
  split; [|exact Htrap|exact Hun]. exists p, t1, t2. unfold view_of. cbn [turn fresh context].
  rewrite Hy1, Hy2, Hy3. split; [|split_and!; reflexivity].
  split.
  - exact Hq'.
  - change (running_process (corelist c' 0) ∈ [p]). rewrite Hrp'. left.
  - intros p' ->%list_elem_of_singleton.
    assert (t2 ∉ [t1]) as Ht21 by (intros ?%list_elem_of_singleton; congruence).
    by apply (queue_insert_tail _ p t2 (queue_end _ _ _ _ Hq Ht21) [t1]).
  - intros p' ->%list_elem_of_singleton. rewrite Hy3. left.
Qed.
End start.

(** ** Where the heap is put *)

(** Memory ends at 32 TiB at most, and the bitmap has a bit per frame of it. *)
Definition memory_end : Z := 2 ^ 45.
Definition bitmap_limit : Z := 2 ^ 31.
Definition small_map (l : list memmap_entry) : Prop := ∀ e, e ∈ l → w64 (base e + length_ e) ≤ memory_end.

Lemma bitmap_size_limit e : w64 (base e + length_ e) ≤ memory_end → bitmap_size_of e ≤ bitmap_limit.
Proof.
  intros He. unfold bitmap_size_of, ALIGN_UP, bitmap_limit, memory_end in *. cbv zeta.
  assert (0 ≤ w64 (base e + length_ e)) as H0 by (apply Z.mod_pos_bound; lia).
  generalize dependent (w64 (base e + length_ e)). intros x Hx Hx0.
  assert (0 ≤ x / 0x1000 / 8 ≤ 2 ^ 30) as Hd.
  { rewrite Z.div_div by lia. split; [apply Z.div_pos; lia|]. apply Z.div_le_upper_bound; lia. }
  generalize dependent (x / 0x1000 / 8). intros y Hy.
  rewrite w64_small by lia. pose proof (land_range (y + 0x1000 - 1) (not64 (w64 (0x1000 - 1))) 31). lia.
Qed.

Lemma highest_in l e : find_highest_mem_chunk l = Some e → e ∈ l.
Proof.
  unfold find_highest_mem_chunk. set (f := λ (chunk : option memmap_entry) entry, _).
  assert (∀ o, foldl f o l = Some e → e ∈ l ∨ o = Some e) as Hg; [|by intros [|]%Hg].
  induction l as [|x l IH]; intros o; [by right|]. intros [Hin|Hf]%IH; [left; by right|].
  subst f. simpl in Hf. destruct (usable x); [|by right]. destruct o as [c|].
  - destruct (base c <? base x); [|by right]. injection Hf as ->. left. left.
  - injection Hf as ->. left. left.
Qed.

Section place.
Context `{ShiftSem}.

Lemma bytes_free_entry e : preserves bitmap_bytes (free_entry e).
Proof.
  assert (∀ k, preserves bitmap_bytes (unset_bit k)) as Hu.
  { intros k. unfold unset_bit, with_bitmap. apply preserves_bind; [apply preserves_gets|intros n].
    apply preserves_bind; [apply preserves_guard|intros _]. apply preserves_bind; [apply preserves_gets|].
    intros [bm|]; eauto with preserves. }
  unfold free_entry. eauto with preserves.
Qed.

Lemma wlp_pmm_init l s : small_map l → bitmap_bytes s = 0 → wlp (pmm_init l) s (λ _ s', bitmap_bytes s' ≤ bitmap_limit).
Proof.
  intros Hl Hs. unfold pmm_init, init_bitmap. apply wlp_bind, wlp_modify, wlp_bind. unfold get_bitmap_size.
  apply wlp_bind, wlp_gets. cbn [entries]. destruct (find_highest_mem_chunk l) as [e|] eqn:E; [|done].
  apply wlp_ret. cbv zeta. apply wlp_bind, wlp_gets, wlp_bind. cbn [entries].
  assert (bitmap_size_of e ≤ bitmap_limit) as Hlim by (by apply bitmap_size_limit, Hl, highest_in).
  assert (∀ s1, bitmap_bytes s1 ≤ bitmap_limit →
    wlp (l ← gets entries; for_each l (λ entry, if usable entry && (bitmap_size_of e <=? length_ entry) then free_entry entry else mret tt))
      s1 (λ _ s', bitmap_bytes s' ≤ bitmap_limit)) as Hfree.
  { pose proof bytes_free_entry. apply (maintains_preserves bitmap_bytes (λ n, n ≤ bitmap_limit)). eauto with preserves. }
  destruct (carve l (bitmap_size_of e)) as [[phys l']|].
  - apply wlp_modify, Hfree. exact Hlim.
  - apply wlp_ret, Hfree. simpl. rewrite Hs. unfold bitmap_limit. lia.
Qed.

Lemma wlp_find_loop fuel (count n : Z) s : ∀ bit found start, 0 ≤ start < 8 * n ∨ start = 0 → bitmap_bytes s = n → 0 ≤ bit →
  wlp (Pmm.find_loop fuel count bit found start) s (λ r _, 0 ≤ r < 8 * n ∨ r = 0).
Proof.
  induction fuel as [|fuel IH]; intros bit found start Hst Hn Hbit; [done|]. cbn [Pmm.find_loop].
  apply wlp_bind. unfold get_bitmap_size. apply wlp_bind, wlp_gets.
  destruct (find_highest_mem_chunk (entries s)) as [e|]; [|done]. apply wlp_ret.
  destruct (bit <? bitmap_size_of e * 8); [|exact Hst]. apply wlp_bind. unfold test_bit, with_bitmap.
  apply wlp_bind, wlp_gets, wlp_bind, wlp_guard. intros [_ Hb]%andb_prop. apply Z.ltb_lt in Hb. rewrite Hn in Hb.
  apply wlp_bind, wlp_gets. destruct (bitmap s) as [bm|]; [|done]. apply wlp_ret.
  assert (0 ≤ bit < 8 * n) as Hin by (pose proof (Z.div_mod bit 8); pose proof (Z.mod_pos_bound bit 8); lia).
  destruct (bitmap_test_bit bm bit =? 0); [|apply IH; auto; lia].
  destruct (count <=? found); [exact Hst|]. apply IH; [destruct (start =? 0); auto|done|lia].
Qed.

Lemma wlp_vmm_alloc_pages frames v o : bitmap_bytes (pm v) ≤ bitmap_limit → Vmm.hhdm v = o →
  0 < o → o mod 8 = 0 → o + 2 ^ 47 ≤ 2 ^ 64 →
  wlp (vmm_alloc_pages frames) v (λ r _, 0 < r ∧ r mod 8 = 0 ∧ r + 122880 < 2 ^ 64).
Proof.
  intros Hlim Ho Hpos Hmod Htop. unfold bitmap_limit in *. unfold vmm_alloc_pages. apply wlp_bind.
  assert (wlp (pmm_alloc frames) (pm v) (λ r _, ∃ bit, 0 ≤ bit < 2 ^ 34 ∧ r = w64 (PAGE_SIZE * bit))) as Hp.
  { unfold pmm_alloc, find_contigious_chunk. apply wlp_bind. apply wlp_bind. unfold get_bitmap_size.
    apply wlp_bind, wlp_gets. destruct (find_highest_mem_chunk (entries (pm v))) as [e|]; [|done]. apply wlp_ret.
    eapply wlp_mono; [apply (wlp_find_loop _ _ (bitmap_bytes (pm v))); [by right|done|lia]|].
    cbn beta. intros bit s1 Hbit. destruct (Z.eqb_spec bit 0) as [E|E]; [apply wlp_ret; exists 0; done|].
    apply wlp_bind, wlp_any. intros _ s2. apply wlp_ret. exists bit. split; [lia|done]. }
  unfold wlp, on_pm in *. destruct (pmm_alloc frames (pm v)) as [[r p]| | |]; [|done..].
  destruct Hp as (bit & Hbit & ->). cbn. rewrite Ho. unfold PAGE_SIZE.
  rewrite (w64_small (4096 * bit)), w64_small by lia. split; [lia|]. split; [|lia].
  replace (4096 * bit + o) with (o + (512 * bit) * 8) by ring. by rewrite Z.mod_add.
Qed.
End place.

(** ** From the first instruction to the scheduler *)

Section kernel_ready.
Context {D M : Type} `{Device D} `{ByteMem M} `{ShiftSem} (m : M) (off : Z) (b : loader) (a : image).

Notation kstatics := (λ s : kernel D, statics (msched (ksmp s))).
Notation kprocs := (λ s : kernel D, sprocs (msched (ksmp s))).

(** The statics as the image initialises them. *)
Definition initial_statics : Z * Z * Z * Z * (Z * Z) := (0, 1, 0, 0, (0, 0)).

Lemma locks_irqs {A} (c : ST (intr D) A) : preserves locks (on_irqs c).
Proof. by apply preserves_zoom. Qed.

#[local] Hint Resolve locks_irqs : preserves.

Lemma locks_lapic_init isr : preserves (locks (D := D)) (lapic_init off isr).
Proof. unfold lapic_init, lapic_write, lapic_base, on_device. eauto 15 with preserves. Qed.

Lemma locks_hpet_init fuel str : preserves (locks (D := D)) (hpet_init m off fuel str).
Proof. unfold hpet_init, hpet_read, hpet_write, on_device. eauto 20 with preserves. Qed.

Lemma locks_init_net fuel isr : preserves (λ s : nic D, locks (ncpu s)) (init_net m off fuel isr).
Proof.
  set (f := λ s : nic D, locks (ncpu s)).
  assert (∀ A (c : ST heap A), preserves f (on_nheap c)) as Hh by (intros; by apply preserves_zoom).
  assert (∀ A (c : ST vmm A), preserves f (on_nvmm c)) as Hv by (intros; by apply preserves_zoom).
  assert (∀ A (c : ST (pci heap D) A), preserves f (on_pci c)) as Hp by (intros; by apply preserves_zoom).
  assert (∀ A (c : ST (intr D) A), preserves f (on_ncpu (on_irqs c))) as Hi.
  { intros A c. apply (preserves_zoomed _ locks); [reflexivity..|apply locks_irqs]. }
  assert (∀ n, preserves f (reset_loop (D := D) n)) as Hreset.
  { induction n; cbn [reset_loop]; unfold reg_in, on_device; eauto with preserves. }
  unfold init_net, rtl8139_init, startup_nic, update_mac_addr, link_up, get_speed, reg_in, reg_out, on_device. eauto 80 with preserves.
Qed.

Lemma kcpu_keeps {A} (c : ST (cpu D) A) :
  preserves locks c → preserves (λ s : kernel D, (kstatics s, kprocs s)) (on_kcpu c).
Proof.
  intros Hc s. specialize (Hc (kcpu s)). unfold wlp, on_kcpu, on_ksmp, on_sched, on_cpu, zoom, kcpu in *.
  destruct (c (scpu (msched (ksmp s)))) as [[x c']| | |]; [|done..]. unfold statics. simpl. by rewrite Hc.
Qed.

(** From [heap_init] on: the statics are untouched and the heap is in order. *)
Definition settled (s : kernel D) : Prop := kstatics s = initial_statics ∧ alive (mheap (ksmp s)).

Lemma settled_kcpu {A} (c : ST (cpu D) A) : preserves locks c → maintains settled (on_kcpu c).
Proof.
  intros Hc s [Hs Ha]. eapply wlp_mono; [by apply kcpu_keeps|]. intros x s' E. injection E as E1 E2 E3 E4 E5 E6 E7.
  unfold settled, statics, locks, mheap in *. rewrite E1, E2, E3, E4, E5, E6, E7. done.
Qed.

Lemma settled_load_tss : maintains settled (on_ksmp (on_segs load_tss_bsp)).
Proof.
  apply (maintains_zoomed settled (λ x, statics (msched x) = initial_statics ∧ alive (mheap x))); [done..|].
  apply (maintains_zoomed _ (λ g, alive (sheap g))); [by intros s []|by intros t s [] ?|apply alive_load_tss].
Qed.

Lemma settled_init_net fuel isr : maintains settled (on_driver (init_net m off fuel isr)).
Proof.
  apply (maintains_zoomed settled (λ n, alive (nheap n) ∧ locks (ncpu n) = (0, 0))).
  - intros s [Hs Ha]. split; [exact Ha|]. by injection Hs as _ _ _ _ Hl1 Hl2; unfold locks; simpl; rewrite Hl1, Hl2.
  - intros n s [Hs _] [Ha Hl]. split; [|exact Ha]. injection Hs as E1 E2 E3 E4 _ _. unfold statics. simpl. by rewrite E1, E2, E3, E4, Hl.
  - intros n [Ha Hl]. pose proof (alive_init_net m off fuel isr n Ha) as H1'. pose proof (locks_init_net fuel isr n) as H2'.
    unfold wlp in *. destruct (init_net m off fuel isr n) as [[x n']| | |]; [|done..]. split; [exact H1'|congruence].
Qed.

Lemma settled_vfs_init fuel str : maintains settled (on_files (vfs_init fuel str)).
Proof.
  apply (maintains_zoomed settled (λ f, alive (vheap f))); [by intros s []|by intros t s [] ?|apply alive_vfs_init].
Qed.

Context (Hoff : 0 < off) (Halign : off mod 8 = 0) (Htop : off + 2 ^ 47 ≤ 2 ^ 64).
Context (Hmap : small_map (memmap b)) (Hcores : 0 ≤ processors b ∧ 64 * processors b ≤ 2 ^ 64 - 8).

(** At the entry: the statics of the image, nothing allocated. *)
Record entry_state (s : kernel D) : Prop := {
  es_statics : kstatics s = initial_statics;
  es_off : Vmm.hhdm (kvm (kprocs s)) = off;
  es_bitmap : bitmap_bytes (pm (kvm (kprocs s))) = 0;
}.

Lemma wlp_init_mm s (Q : unit → kernel D → Prop) :
  entry_state s →
  (∀ s', kstatics s' = initial_statics → Vmm.hhdm (kvm (kprocs s')) = off →
     bitmap_bytes (pm (kvm (kprocs s'))) ≤ bitmap_limit → Q tt s') →
  wlp (init_mm b) s Q.
Proof.
  intros [Hs Ho Hb] HQ. pose proof (wlp_pmm_init (memmap b) _ Hmap Hb) as Hp.
  unfold wlp, init_mm, on_kprocs, on_ksmp, on_sched, on_procs, on_kvm, on_pm, zoom in *.
  destruct (pmm_init (memmap b) (pm (kvm (sprocs (msched (ksmp s)))))) as [[[] p]| | |]; [|done..]. by apply HQ.
Qed.

Lemma wlp_heap_pages s (k : ST (kernel D) unit) (Q : unit → kernel D → Prop) :
  kstatics s = initial_statics → Vmm.hhdm (kvm (kprocs s)) = off → bitmap_bytes (pm (kvm (kprocs s))) ≤ bitmap_limit →
  (∀ s', settled s' → wlp k s' Q) →
  wlp (pages ← on_kprocs (on_kvm (vmm_alloc_pages HEAP_SIZE_PAGES)); on_kprocs (on_kheap (heap_init pages)) ;; k) s Q.
Proof.
  intros Hs Ho Hb HQ. pose proof (wlp_vmm_alloc_pages HEAP_SIZE_PAGES _ off Hb Ho Hoff Halign Htop) as Hp.
  apply wlp_bind. unfold on_kprocs, on_ksmp, on_sched, on_procs, on_kvm. do 4 apply wlp_zoom.
  eapply wlp_mono; [exact Hp|]. intros pages v (Hpos & Hmod & Hmax). apply wlp_bind. unfold on_kheap. do 4 apply wlp_zoom.
  eapply wlp_wp, wp_mono; [by apply heap_init_correct|]. intros [] h [Ha _]. apply HQ. split; [exact Hs|by exists ∅].
Qed.

(** The start-up hands the invariant of the scheduler to the timer
    interrupt: whenever [_start] comes to its idle loop, core 0 has one process
    with two threads in order, the first of them about to start at [idle] and
    the other standing at [test_func], and every lock of the interrupt path is
    free - whatever the devices and the firmware's tables say, and however
    little memory there is. *)
Lemma wlp_boot_hands_over fuel sse s :
  entry_state s → (7 < fuel)%nat →
  wlp (_start m off b a fuel sse) s (λ _ s', handed_over (a_idle a) (a_test_func a) (msched (ksmp s'))).
Proof.
  intros He Hf. set (f := λ s : kernel D, (kstatics s, kprocs s)).
  assert (∀ A (c : ST console A), preserves f (on_kconsole c)) as Hcon by (intros; by apply preserves_zoom).
  assert (∀ A (c : ST (intr D) A), preserves f (on_kcpu (on_irqs c))) as Hirq by (intros; apply kcpu_keeps, locks_irqs).
  assert (∀ x y : kernel D, f y = f x → kstatics y = kstatics x ∧ kprocs y = kprocs x) as Hf'.
  { intros x y E. unfold f in E. by injection E as E1 E2 E3 E4 E5 E6 E7; unfold statics, locks; rewrite E1, E2, E3, E4, E5, E6, E7. }
  unfold _start. do 2 (apply (wlp_after f); [apply Hcon|intros ? ? ?]). apply wlp_bind. unfold init.
  apply (wlp_after f); [apply Hirq|intros _ s1 E1].
  apply (wlp_after f); [by destruct (sse =? 0)|intros _ s2 E2].
  assert (entry_state s2) as He2.
  { assert (f s2 = f s) as E%Hf' by congruence. destruct E as [E3 E4]. destruct He as [He1 He2 He3].
    split; [by rewrite E3|by rewrite E4..]. }
  apply wlp_bind, wlp_init_mm; [exact He2|]. intros s3 Hs3 Ho3 Hb3.
  apply (wlp_after f); [apply Hirq|intros _ s4 E4]. apply (wlp_after f); [apply Hirq|intros _ s5 E5].
  apply (wlp_after f); [apply kcpu_keeps, locks_lapic_init|intros _ s6 E6].
  assert (f s6 = f s3) as [E7 E8]%Hf' by congruence. rewrite <- E7 in Hs3. rewrite <- E8 in Ho3, Hb3.
  apply wlp_heap_pages; [exact Hs3|exact Ho3|exact Hb3|]. intros s7 Hs7.
  apply wlp_bind. eapply wlp_mono; [by apply settled_load_tss|]. intros [] s8 Hs8.
  apply wlp_bind. eapply wlp_mono; [by apply settled_init_net|]. intros [] s9 Hs9.
  apply wlp_bind. eapply wlp_mono; [by apply (settled_kcpu _ (locks_hpet_init fuel (s_hpet a)))|]. intros [] s10 Hs10.
  apply wlp_bind. eapply wlp_mono; [by apply settled_vfs_init|]. intros [] s11 [Hst Ha].
  apply wlp_zoom. eapply wlp_mono; [apply wlp_smp_init; [exact Ha|apply Hcores..]|]. intros [] x (Hax & Hstx & Hv).
  apply wlp_zoom, wlp_zoom. apply (wlp_sched_start m off); [exact Hax|exact (eq_trans Hstx Hst)|exact Hv|exact Hf].
Qed.
End kernel_ready.
