(* ===== verification/Start.v ===== *)
(** A machine on which the kernel starts up: what the firmware, the devices and
    the memory map have to provide, and that [_start] then comes to its idle
    loop. *)

From S2P Require Import Prelude CString Io Acpi Interrupts Mutex Cpu.
From S2P Require Import TlsfBits TlsfModel TlsfHeap TlsfProps TlsfRoom Bitmap Pmm Heap Hashmap.
From S2P Require Import Vmm Frames Queue HeapBytes Pci Process Rtl8139.
From S2P Require Import Sched Vfs Console Exceptions Gdt Smp.
From S2P Require Import Boot Ready.
From stdpp Require Import strings.
#[local] Open Scope Z_scope.

(** ** The machine *)

Section start.
Context {D M : Type} `{Device D} `{ByteMem M} `{ShiftSem} (m : M) (off : Z) (b : loader) (a : image) (fuel : nat) (sse : Z).
Context (lb hb me : Z) (lreg : D → Z → Z) (cnt : D → Z) (jump cap : Z).
Context (latch : D → Z) (cfg : D → Z → Z) (left : D → nat) (patience : nat).

(** The devices: the local APIC and the HPET, whose capability register reads
    [cap] and gives two timers and a period; the PCI host bridge; the reset of
    the network card, if there is one.  One core runs, the one whose id is
    [me], and the fuel is enough for a calibration of its timer. *)
Record machine : Prop := {
  mc_timers : timers lb hb (λ _, me) lreg cnt jump;
  mc_hpet : hpet_at hb cnt jump cap;
  mc_usable : hpet_usable cap;
  mc_room : 10 * (1000000000000 / Z.shiftr cap 32) + 6 * jump < 2 ^ 64;
  mc_fuel : 10 * (1000000000000 / Z.shiftr cap 32) + 1 < Z.of_nat fuel;
  mc_pci : pci_host latch cfg;
  mc_card d x : card_of (cfg d) = Some x → resets (w16 (w32 (io_of (cfg d) x + REG_COMMAND))) left patience;
  mc_patience : (patience < fuel)%nat;
}.

(** The firmware's tables: an intact MADT at [p] with entries [es], and an
    intact table of the HPET at [q]; they say where the registers are. *)
Record firmware (p q : Z) (es : list Z) : Prop := {
  fw_rsdp : rsdp_address b ≠ 0;
  fw_rsdt : rsdt_of m off (rsdp_address b) ≠ 0;
  fw_apic : first_apic m off (rsdt_of m off (rsdp_address b)) = Some p;
  fw_sum : do_checksum m p = true;
  fw_null : p ≠ 0 ∧ q ≠ 0;
  fw_entries : Acpi.entries m (p + sizeof_acpi_madt) (p + ld32 m (p + off_length)) es;
  fw_short : (length es < fuel)%nat;
  fw_hpet : found_as m off HPET (rsdt_of m off (rsdp_address b)) = q;
  fw_lb : lb = w64 (ld32 m (p + off_lapic_addr) + off);
  fw_hb : hb = w64 (ld32 m (q + off_hpet_base) + 2 ^ 32 * ld32 m (q + off_hpet_base + 4) + off);
}.

(** The memory map: [h] is the entry the bitmap of [n] bytes is sized by,
    [carved] the map without the bitmap, and 31 frames from [r] on are
    usable. *)
Record usable_memory (h : memmap_entry) (phys : Z) (carved : list memmap_entry) (r : Z) (n := bitmap_size_of h) : Prop := {
  um_highest : find_highest_mem_chunk (memmap b) = Some h;
  um_carve : carve (memmap b) n = Some (phys, carved);
  um_stable : bitmap_size_of <$> find_highest_mem_chunk carved = Some n;
  um_size : 1 ≤ n;
  um_small : small_map (memmap b);
  um_entries : Forall (λ e, managed n e = true → entry_ok n e) carved;
  um_first : 1 ≤ r;
  um_frames i : r ≤ i ≤ r + HEAP_SIZE_PAGES → ∃ e, e ∈ carved ∧ managed n e = true ∧ base e ≤ i * 4096 < base e + length_ e;
}.

(** The strings of the image: two messages whose text fits on the screen, the
    table signatures and the name of the first process. *)
Record strings_ok (w1 w2 nm : list Z) : Prop := {
  so_messages : ∃ out1 out2 p1 p2, let f := framebuffer0 b in
    message m fuel (s_booting a) w1 out1 ∧ message m fuel (if sse =? 0 then s_sse a else s_no_sse a) w2 out2 ∧
    layout (stride f) (height f) (out1.*1) (0, 0) = Some p1 ∧ layout (stride f) (height f) (out2.*1) p1 = Some p2;
  so_screen : let f := framebuffer0 b in stride f * height f ≤ 2 ^ 32 ∧ stride f < 2 ^ 32 - 9 ∧ height f < 2 ^ 32 - 20;
  so_apic : is_cstr m (s_apic a) APIC;
  so_hpet : is_cstr m (s_hpet a) HPET;
  so_idle : is_cstr m (s_idle a) nm ∧ zlen nm ≤ Process.NAME_MAX ∧ (length nm < fuel)%nat;
}.

(** What start-up requests of the heap. *)
Definition boot_requests : list Z :=
  sizeof_tss_entry :: 0x500 :: net_requests (vnode_requests (smp_requests (processors b)
    [sizeof_process; sizeof_thread; 0x500; 1; sizeof_thread; 0x500])).

(** The processors: the executing one is number [i]. *)
Record processors_ok (i : Z) : Prop := {
  po_count : 0 < processors b ∧ 64 * processors b ≤ 2 ^ 64 - 8;
  po_here : head (filter (λ j, w8 (processor_id b j) = me) (seqZ 0 (processors b))) = Some i;
}.

Notation kstatics := (λ s : kernel D, statics (msched (ksmp s))).
Notation kv s := (kvm (sprocs (msched (ksmp s)))).

(** The state the image and the boot loader set up. *)
Record powered_on (s : kernel D) : Prop := {
  pw_entry : entry_state off s;
  pw_cursor : _cx (scr (kconsole s)) = 0 ∧ _cy (scr (kconsole s)) = 0;
  pw_root : Vmm.view off (cr3 (kv s)) ≠ 0;
  pw_words x : Vmm.view off (PTE_GET_ADDR (word (kv s) x)) ≠ 0;
  pw_vectors : next_vector (irqs (kcpu s)) = 0x81 ∧ timer_vector (kcpu s) = 0 ∧ goto_vector (kcpu s) = 0;
  pw_gdt i : 72 ≤ i < 88 → ld8 (mgdt (ksmp s)) i = 0;
  pw_empty : ld8 (vmem (kfiles s)) (s_empty a) = 0;
}.

(** ** Before there is a heap *)

(** What the first steps leave alone. *)
Definition untouched (s : kernel D) : Z * Z * Z * Z * (Z * Z) * vmm * (Z * Z * Z) * bmem * bmem :=
  (kstatics s, kv s, (next_vector (irqs (kcpu s)), timer_vector (kcpu s), goto_vector (kcpu s)), mgdt (ksmp s), vmem (kfiles s)).

Lemma wp_console {A} (c : ST console A) s (Q : A → kernel D → Prop) :
  wp c (kconsole s) (λ r t, ∀ s', untouched s' = untouched s → kconsole s' = t → Q r s') → wp (on_kconsole c) s Q.
Proof. intros Hc. apply wp_zoom. eapply wp_mono; [exact Hc|]. intros r t HQ. by apply HQ. Qed.

(** Device accesses and changes of the interrupt table. *)
Lemma wp_interrupts {A} (c : ST (intr D) A) s (Q : A → kernel D → Prop) :
  wp c (irqs (kcpu s)) (λ r i, next_vector i = next_vector (irqs (kcpu s)) ∧
    ∀ s', untouched s' = untouched s → irqs (kcpu s') = i → kconsole s' = kconsole s → Q r s') →
  wp (on_kcpu (on_irqs c)) s Q.
Proof.
  intros Hc. do 4 apply wp_zoom. eapply wp_mono; [exact Hc|]. intros r i [Hn HQ]. apply HQ; [|done..].
  unfold untouched. change (irqs (kcpu ?x)) with (irqs (scpu (msched (ksmp x)))). simpl. by rewrite Hn.
Qed.

Lemma wp_init_exceptions isr (s : intr D) (Q : unit → intr D → Prop) :
  (∀ g, Q tt (Intr g (next_vector s) (acpi_vars s) (devices s))) → wp (init_exceptions isr) s Q.
Proof.
  intros HQ. unfold init_exceptions. generalize exceptions. intros l.
  eapply wp_mono; [apply (completes_for_each (λ x, ∃ g, x = Intr g (next_vector s) (acpi_vars s) (devices s)))|].
  - intros e _ x [g ->]. apply wp_modify. by eexists.
  - exists (idt s). by destruct s.
  - intros [] x [g ->]. apply HQ.
Qed.

(** The whole screen is free at first. *)
Lemma wp_messages w1 w2 nm s (k k2 : ST (kernel D) unit) (Q : unit → kernel D → Prop) :
  strings_ok w1 w2 nm → (20 < fuel)%nat → _cx (scr (kconsole s)) = 0 ∧ _cy (scr (kconsole s)) = 0 →
  (∀ s', untouched s' = untouched s → wp k s' (λ _ s', wp k2 s' Q)) →
  wp (on_kconsole (on_scr (fb_init (framebuffer0 b))) ;; on_kconsole (printk m fuel (s_booting a) []) ;;
      (on_kcpu (on_irqs (init_exceptions (a_handler a))) ;;
       (if sse =? 0 then on_kconsole (printk m fuel (s_sse a) []) else on_kconsole (printk m fuel (s_no_sse a) [])) ;; k) ;; k2) s Q.
Proof.
  intros [(out1 & out2 & p1 & p2 & Hm1 & Hm2 & Hl1 & Hl2) Hsize _ _ _] Hf [Hx Hy] HQ. set (f := framebuffer0 b) in *.
  apply wp_bind, wp_console, wp_zoom, wp_modify. intros s1 E1 Hc1.
  assert (display (stride f) (height f) (0, 0) (scr (kconsole s1))) as Hd.
  { rewrite Hc1. split; simpl; [by exists f|done|done|exact Hsize]. }
  apply wp_bind, wp_console. eapply wp_mono; [by apply (wp_printk_message m fuel (s_booting a) w1 out1 (stride f) (height f) (0, 0) p1)|].
  intros [] t Ht s2 E2 Hc2. rewrite <- Hc2 in Ht.
  apply wp_bind, wp_bind, wp_interrupts, wp_init_exceptions. intros g. split; [done|]. intros s3 E3 _ Hc3. rewrite <- Hc3 in Ht.
  apply wp_bind. match goal with |- wp ?c _ _ => replace c with (on_kconsole (D := D) (printk m fuel (if sse =? 0 then s_sse a else s_no_sse a) []))
    by by destruct (sse =? 0) end.
  apply wp_console. eapply wp_mono; [by apply (wp_printk_message m fuel _ w2 out2 (stride f) (height f) p1 p2)|].
  intros [] t4 _ s4 E4 _. apply HQ. congruence.
Qed.

(** The frame allocator runs, and the heap's pages are free. *)
Record staged (s : kernel D) : Prop := {
  sg_statics : kstatics s = initial_statics;
  sg_vm : vm_ok off (kv s);
  sg_frames : ∃ bm n r, running (pm (kv s)) bm n ∧ 1 ≤ n ≤ 2 ^ 31 ∧ run_at bm n HEAP_SIZE_PAGES r;
  sg_gdt i : 72 ≤ i < 88 → ld8 (mgdt (ksmp s)) i = 0;
  sg_empty : ld8 (vmem (kfiles s)) (s_empty a) = 0;
}.

Lemma staged_same s s' : kstatics s' = kstatics s → kv s' = kv s → mgdt (ksmp s') = mgdt (ksmp s) →
  vmem (kfiles s') = vmem (kfiles s) → staged s → staged s'.
Proof. intros E1 E2 E3 E4 [Hs Hv Hf Hg He]. by split; rewrite ?E1, ?E2, ?E3, ?E4. Qed.

Lemma wp_init_mm h phys carved r s0 s (Q : unit → kernel D → Prop) :
  (∀ i, shr_int 0 i = 0) → usable_memory h phys carved r → powered_on s0 → untouched s = untouched s0 →
  (∀ s', staged s' → next_vector (irqs (kcpu s')) = 0x81 → timer_vector (kcpu s') = 0 → goto_vector (kcpu s') = 0 → Q tt s') →
  wp (init_mm b) s Q.
Proof.
  intros Hsh [Hh Hc Hst Hn Hsm Hok Hr1 Hfr] [[He Hoff _] _ Hroot Hw (Hnv & Htv & Hgv) Hg Hem] E HQ. set (n := bitmap_size_of h) in *.
  injection E as E1 E2 E3 E4 E5 E6 E7 E8 E9 E10 E11 E12.
  rewrite <- E7 in Hoff, Hroot. rewrite <- E8 in Hnv. rewrite <- E9 in Htv. rewrite <- E10 in Hgv. rewrite <- E12 in Hem.
  do 4 apply wp_zoom. apply wp_on_pm. eapply wp_pmm_init; [exact Hh|reflexivity|fold n; lia|exact Hc|exact Hst|exact Hok|].
  intros pm' bm _ _ Hrun Hbits. fold n in Hrun.
  assert (n ≤ 2 ^ 31) as Hlim by (by apply (bitmap_size_limit h), Hsm, highest_in).
  apply HQ; [|done..]. split; simpl; try done.
  - unfold statics, locks in *. simpl. congruence.
  - split; simpl; try done; [|intros x; rewrite E7; apply Hw]. exists bm, n. split; [exact Hrun|lia].
  - exists bm, n, r. split_and!; [exact Hrun|lia|lia|]. apply (usable_run carved n bm); try done.
  - intros j Hj. rewrite E11. by apply Hg.
Qed.

(** The firmware's tables are read, and the vectors are handed out. *)
Record routed (p : Z) (s : kernel D) : Prop := {
  ro_acpi : ∃ io, let t := rsdt_of m off (rsdp_address b) in
    acpi_vars (irqs (kcpu s)) = Acpi t p (entry_count m t) io (ld32 m (p + off_lapic_addr));
  ro_timer : timer_vector (kcpu s) = 0x82;
}.

Lemma wp_routing p q es s (k : ST (kernel D) unit) (Q : unit → kernel D → Prop) :
  firmware p q es → is_cstr m (s_apic a) APIC → (20 < fuel)%nat → staged s →
  next_vector (irqs (kcpu s)) = 0x81 → timer_vector (kcpu s) = 0 → goto_vector (kcpu s) = 0 →
  (∀ s', staged s' → routed p s' → wp k s' Q) →
  wp (on_kcpu (on_irqs (on_acpi (acpi_init m off fuel (rsdp_address b) (s_apic a)))) ;;
      on_kcpu (on_irqs (ioapic_init off)) ;; on_kcpu (lapic_init off (a_timer_isr a)) ;; k) s Q.
Proof.
  intros [Hr Ht Hp Hsum [Hp0 _] Hes Hshort _ _ _] Hs Hf Hst Hn Htv Hgv HQ.
  apply wp_bind, wp_interrupts, wp_on_acpi. eapply wp_acpi_init; [exact Hr|exact Ht|exact Hs|lia|exact Hp|exact Hsum|exact Hp0|exact Hes|exact Hshort|].
  split; [done|]. intros s1 E1 Hi1 _.
  apply wp_bind, wp_interrupts.
  eapply wp_mono; [apply (completes_ioapic_init off (λ x, next_vector x = next_vector (irqs (kcpu s1)) ∧ acpi_vars x = acpi_vars (irqs (kcpu s1))))|];
    [by intros d x|by split|].
  intros [] i [Hni Hai]. split; [exact Hni|]. intros s2 E2 Hi2 _.
  assert (untouched s2 = untouched s) as E by congruence. injection E as E3 E4 E5 E6 E7 E8 E9 E10 E11 E12 E13 E14.
  apply wp_bind. do 3 apply wp_zoom. apply wp_lapic_init_first.
  - etrans; [exact E10|exact Hn].
  - etrans; [exact E11|exact Htv].
  - etrans; [exact E12|exact Hgv].
  - intros g d. apply HQ.
    + apply (staged_same s); [|exact E9|exact E13|exact E14|exact Hst]. unfold statics, locks, kcpu in *. simpl. congruence.
    + split; [|done]. eexists. unfold kcpu in *. simpl. rewrite Hi2, Hai, Hi1. reflexivity.
Qed.

(** ** With the heap *)

Context (Hoff : 0 < off) (Halign : off mod 8 = 0) (Htop : off + 2 ^ 47 ≤ 2 ^ 64).

(** The heap has handed out [V] and has room for [l]. *)
Record going (p : Z) (V : gmap Z Z) (l : list Z) (s : kernel D) : Prop := {
  gg_statics : kstatics s = initial_statics;
  gg_vm : vm_ok off (kv s);
  gg_room : room (mheap (ksmp s)) V l;
  gg_routed : routed p s;
}.

Lemma routed_same p s s' : acpi_vars (irqs (kcpu s')) = acpi_vars (irqs (kcpu s)) → timer_vector (kcpu s') = timer_vector (kcpu s) →
  routed p s → routed p s'.
Proof. intros E1 E2 [Ha Ht]. by split; rewrite ?E1, ?E2. Qed.

Lemma wp_heap_up p l s (k : ST (kernel D) unit) (Q : unit → kernel D → Prop) :
  staged s → routed p s → served heap_bytes l = true →
  (∀ s', going p ∅ l s' → kfiles s' = kfiles s → (∀ i, 72 ≤ i < 88 → ld8 (mgdt (ksmp s')) i = 0) → wp k s' Q) →
  wp (pages ← on_kprocs (on_kvm (vmm_alloc_pages HEAP_SIZE_PAGES)); on_kprocs (on_kheap (heap_init pages)) ;; k) s Q.
Proof using Hoff Halign Htop.
  intros [Hst Hvm (bm & n & r & Hrun & Hn & Hfree) Hg He] Hr Hl HQ. apply wp_bind. do 4 apply wp_zoom.
  apply wp_bind, wp_on_pm. eapply wp_pmm_alloc; [exact Hrun|unfold HEAP_SIZE_PAGES; lia|lia|change PAGE_SIZE with 4096; lia|by exists r|].
  intros r1 bm' (Hr1 & Hrn & _) _ Hrun' _. apply wp_gets. simpl. change PAGE_SIZE with 4096. rewrite (vo_hhdm _ _ Hvm).
  rewrite w64_small by (unfold HEAP_SIZE_PAGES in *; lia). apply wp_bind. do 4 apply wp_zoom. simpl.
  eapply wp_mono; [apply (heap_init_room _ _ l); [unfold HEAP_SIZE_PAGES in *; lia| |unfold HEAP_SIZE_PAGES in *; lia|exact Hl]|].
  - replace (4096 * r1 + off) with (off + (512 * r1) * 8) by ring. by rewrite Z.mod_add.
  - intros [] h Hroom. apply HQ; [|reflexivity|exact Hg]. split; simpl; try done; [|by apply (routed_same p s)].
    destruct Hvm as [_ ? ? ?]. split; simpl; try done. exists bm', n. by split.
Qed.

Lemma wp_tss p V l s (Q : unit → kernel D → Prop) :
  going p V (sizeof_tss_entry :: 0x500 :: l) s → (∀ i, 72 ≤ i < 88 → ld8 (mgdt (ksmp s)) i = 0) →
  (∀ s' V', going p V' l s' → kfiles s' = kfiles s → Q tt s') → wp (on_ksmp (on_segs load_tss_bsp)) s Q.
Proof.
  intros [Hs Hv Hr Hro] Hg HQ. do 2 apply wp_zoom. eapply wp_mono; [apply (wp_load_tss_bsp _ V l); [exact Hr|exact Hg]|].
  intros [] t (V' & stack & sz & _ & Hr' & _). apply (HQ _ V'); [|reflexivity]. split; simpl; try done. by apply (routed_same p s).
Qed.

Lemma wp_net p q es V l s (Q : unit → kernel D → Prop) :
  machine → firmware p q es → going p V (net_requests l) s →
  (∀ s' V', going p V' l s' → kfiles s' = kfiles s → Q tt s') → wp (on_driver (init_net m off fuel (a_nic_isr a))) s Q.
Proof using Hoff Htop.
  intros Hm Hf [Hs Hv Hr Hro] HQ. apply wp_zoom. destruct (ro_acpi _ _ Hro) as [io Hacpi].
  eapply (wp_rtl8139_init m off off Hoff Htop latch cfg left patience fuel _ (driver_view s) V l es).
  - apply Hm.
  - intros x Hx. by apply (mc_card Hm).
  - apply Hm.
  - exact Hr.
  - exact Hv.
  - change (madt (acpi_vars (irqs (kcpu s))) ≠ 0). rewrite Hacpi. apply (fw_null _ _ _ Hf).
  - change (Acpi.entries m (madt (acpi_vars (irqs (kcpu s))) + 44) (madt (acpi_vars (irqs (kcpu s))) + ld32 m (madt (acpi_vars (irqs (kcpu s))) + 4)) es).
    rewrite Hacpi. apply Hf.
  - apply Hf.
  - intros n V' [Hr' _ Hv' (g & d & Hc) _ _]. apply (HQ _ V'); [|reflexivity]. change (ncpu (driver_view s)) with (kcpu s) in Hc. split; simpl; try done.
    + unfold statics, locks in *. simpl. rewrite Hc. exact Hs.
    + apply (routed_same p s); [| |exact Hro]; unfold kcpu; simpl; by rewrite Hc.
Qed.

(** The HPET counts from zero. *)
Record counting (c : cpu D) : Prop := {
  co_base : hpet_base c = hb;
  co_period : hpet_period c = Z.shiftr cap 32;
  co_now : cnt (devices (irqs c)) ≤ jump;
}.

Lemma wp_hpet p q es V l s (Q : unit → kernel D → Prop) :
  machine → firmware p q es → is_cstr m (s_hpet a) HPET → (20 < fuel)%nat → going p V l s →
  (∀ s', going p V l s' → kfiles s' = kfiles s → counting (kcpu s') → Q tt s') → wp (on_kcpu (hpet_init m off fuel (s_hpet a))) s Q.
Proof.
  intros Hm Hf Hstr Hfuel [Hs Hv Hr Hro] HQ. do 3 apply wp_zoom. destruct (ro_acpi _ _ Hro) as [io Hacpi].
  change (scpu (msched (ksmp s))) with (kcpu s).
  eapply (wp_hpet_init off lb hb (λ _, me) lreg cnt jump (mc_timers Hm) m cap (mc_hpet Hm) fuel _ q); rewrite ?Hacpi.
  - apply Hf.
  - reflexivity.
  - exact Hstr.
  - lia.
  - apply (fw_hpet _ _ _ Hf).
  - apply Hf.
  - apply (fw_hb _ _ _ Hf).
  - apply Hm.
  - intros d Hd. apply HQ; [|reflexivity|by split]. split; simpl; try done. by apply (routed_same p s).
Qed.

Lemma wp_root p V l s (Q : unit → kernel D → Prop) :
  (20 < fuel)%nat → going p V (vnode_requests l) s → ld8 (vmem (kfiles s)) (s_empty a) = 0 →
  (∀ s' V', going p V' l s' → kcpu s' = kcpu s → Q tt s') → wp (on_files (vfs_init fuel (s_empty a))) s Q.
Proof.
  intros Hf [Hs Hv Hr Hro] He HQ. apply wp_zoom. eapply wp_vfs_init_room; [exact Hr|exact He|lia|].
  intros t V' _ Hr'. apply (HQ _ V'); [|reflexivity]. split; simpl; try done. by apply (routed_same p s).
Qed.

(** The last of the heap's requests are those of the first process. *)
Definition process_list : list Z := [sizeof_process; sizeof_thread; 0x500; 1; sizeof_thread; 0x500].

Lemma wp_cores p q es i V s (Q : unit → kernel D → Prop) :
  machine → firmware p q es → processors_ok i → going p V (smp_requests (processors b) process_list) s → counting (kcpu s) →
  (∀ s' V', kstatics s' = initial_statics → vm_ok off (kv s') → room (mheap (ksmp s')) V' process_list →
     cpu_count (kcpu s') ≠ 0 → queue_of (runq (msched (ksmp s'))) 0 [] → running_process (corelist (kcpu s') 0) = 0 →
     on_time off lb hb (λ _, me) cnt jump (kcpu s') i fuel 0 → Q tt s') →
  wp (on_ksmp (smp_init (processors b) (processor_id b) (bsp_lapic_id b) (a_ap_entry a))) s Q.
Proof using Hoff Halign Htop.
  intros Hm Hf [[Hn Hn64] Hi] [Hs Hv Hr Hro] [Hbase Hper Hnow] HQ. apply wp_zoom.
  eapply (wp_smp_init_any off); [exact Hoff|exact Halign|exact Htop|exact Hv|exact Hr|exact Hn|exact Hn64|].
  intros x V' pc h cl qu Hr' _ Hcs Hset Hv'. injection Hset as Hmh Hc Hq Hpb Hpbb Hcc Htl Hg.
  destruct (ro_acpi _ _ Hro) as [io Hacpi]. injection Hs as Hs1 Hs2 Hs3 Hs4 Hs5 Hs6.
  assert (core_here (λ _, me) (scpu (msched x)) = Some i) as Hhere.
  { rewrite <- Hi. unfold core_here. rewrite Hc. simpl. apply head_filter_ext. intros j Hj%elem_of_seqZ.
    destruct (cs_fields _ _ _ _ _ _ _ _ Hcs j ltac:(lia)) as [E _]. rewrite Hc in E. simpl in E. by rewrite E. }
  assert (0 ≤ i < processors b) as Hin by by apply head_filter_in in Hi as [?%elem_of_seqZ _].
  destruct (cs_fields _ _ _ _ _ _ _ _ Hcs i Hin) as (_ & Hlock & _).
  destruct (cs_fields _ _ _ _ _ _ _ _ Hcs 0 ltac:(lia)) as (_ & _ & _ & Hrp).
  apply (HQ _ V').
  - unfold statics, locks. simpl. rewrite Hpb, Hpbb, Hcc, Htl, Hc. simpl. unfold initial_statics. congruence.
  - exact Hv'.
  - exact Hr'.
  - unfold kcpu. simpl. rewrite Hc. simpl. lia.
  - apply (cs_queue _ _ _ _ _ _ _ _ Hcs). lia.
  - exact Hrp.
  - change (kcpu (set_ksmp x s)) with (scpu (msched x)).
    destruct (dev_in Mmio hb 8 (devices (irqs (kcpu s)))) as [v d] eqn:Hd.
    pose proof (ha_cap _ _ _ _ (mc_hpet Hm) (devices (irqs (kcpu s)))) as Hcap. rewrite Hd in Hcap. simpl in Hcap. subst v.
    pose proof (dev_in_range Mmio hb 8 (devices (irqs (kcpu s))) ltac:(lia)) as Hcap. rewrite Hd in Hcap. simpl in Hcap.
    destruct (mc_usable Hm) as [_ Hper0]. assert (0 < Z.shiftr cap 32) as Hper1 by (pose proof (proj2 (Z.shiftr_nonneg cap 32) ltac:(lia)); lia).
    destruct (dev_in Mmio (hb + HPET_REG_COUNTER) 8 (devices (irqs (kcpu s)))) as [v d'] eqn:Hd'.
    destruct (tm_counter _ _ _ _ _ _ (mc_timers Hm) _ _ _ Hd') as (_ & _ & Hjump & _).
    pose proof (mc_room Hm). pose proof (mc_fuel Hm).
    split; [split; [split|..]|..]; rewrite ?Hc; unfold ticks_per_ms; simpl.
    + change (irqs (scpu (msched (ksmp s)))) with (irqs (kcpu s)). rewrite Hacpi. simpl. symmetry. apply (fw_lb _ _ _ Hf).
    + exact Hbase.
    + exact Hs6.
    + rewrite <- Hhere, Hc. reflexivity.
    + rewrite <- Hlock, Hc. reflexivity.
    + exact Hs5.
    + change (hpet_period (scpu (msched (ksmp s)))) with (hpet_period (kcpu s)). lia.
    + change (timer_vector (scpu (msched (ksmp s)))) with (timer_vector (kcpu s)). rewrite (ro_timer _ _ Hro). lia.
    + lia.
    + change (hpet_period (scpu (msched (ksmp s)))) with (hpet_period (kcpu s)).
      change (irqs (scpu (msched (ksmp s)))) with (irqs (kcpu s)). rewrite Hper. lia.
    + change (hpet_period (scpu (msched (ksmp s)))) with (hpet_period (kcpu s)). rewrite Hper. lia.
Qed.

(** The scheduler starts, with the process on core 0 and the timer of core [i]
    running. *)
Definition scheduling (i : Z) (s : kernel D) : Prop :=
  handed_over (a_idle a) (a_test_func a) (msched (ksmp s)) ∧ armed lreg (kcpu s) i.

Lemma wp_first_process w1 w2 nm i V s :
  machine → strings_ok w1 w2 nm → (20 < fuel)%nat →
  kstatics s = initial_statics → vm_ok off (kv s) → room (mheap (ksmp s)) V process_list →
  cpu_count (kcpu s) ≠ 0 → queue_of (runq (msched (ksmp s))) 0 [] → running_process (corelist (kcpu s) 0) = 0 →
  on_time off lb hb (λ _, me) cnt jump (kcpu s) i fuel 0 →
  wp (on_ksmp (on_sched (sched_start off m fuel (s_idle a) (a_idle a) (a_test_func a)))) s (λ _ s', armed lreg (kcpu s') i).
Proof using Hoff Halign Htop.
  intros Hm [_ _ _ _ (Hname & Hlen & Hshort)] Hf Hs Hv Hr Hn Hq Hrp Ht. injection Hs as Hs1 Hs2 Hs3 Hs4 Hs5 Hs6.
  do 2 apply wp_zoom. eapply wp_mono.
  - apply (wp_sched_start off lb hb (λ _, me) lreg cnt jump (mc_timers Hm) m fuel (s_idle a) nm _ _ (msched (ksmp s)) 0 i V [] (λ _, vm_ok off));
      [exact Hname|exact Hlen|exact Hshort|lia| | |exact Hs3|exact Hn|exact Hq|exact Hrp|exact Ht].
    + split; [|lia|by rewrite Hs1]. unfold process_requests, pid_requests. rewrite Hs1. exact Hr.
    + exact (completes_make_pml4 off Hoff Halign Htop _ Hv).
  - intros [] y (p & t1 & t2 & _ & _ & _ & _ & _ & _ & Ha). exact Ha.
Qed.

End start.

(** ** Witness: the machine of Boot.v *)

Lemma board_lapic_read d r : 0 ≤ r < 0x400 →
  dev_in Mmio (board_lapic + r) 4 d = (if r =? LAPIC_TCCR then 0xFFF00000 else 0, d).
Proof.
  intros Hr. simpl. unfold board_lapic, board_hpet, sample_off, HPET_REG_COUNTER, LAPIC_TCCR.
  repeat match goal with |- context [?x =? ?y] => destruct (Z.eqb_spec x y); try lia end; done.
Qed.

Lemma board_machine fuel : 100001 < Z.of_nat fuel →
  machine fuel board_lapic board_hpet 0 b_lapic (λ d, Z.of_N (b_count d)) 20000 board_cap b_config (λ _, board_cfg) (λ _, 0%nat) 0.
Proof.
  intros Hf. assert (1000000000000 / Z.shiftr board_cap 32 = 10000) as Ht by reflexivity. split.
  - split; try (unfold board_lapic, board_hpet, sample_off; lia).
    + intros d r v Hr Hid Hv. simpl. unfold board_lapic, board_hpet, sample_off, HPET_REG_COUNTER.
      destruct (Z.eqb_spec (0xFFFF800000000000 + 0xFEE00000 + r) (0xFFFF800000000000 + 0xFED00000 + 0xF0)); [lia|].
      destruct (Z.leb_spec (0xFFFF800000000000 + 0xFEE00000) (0xFFFF800000000000 + 0xFEE00000 + r)); [|lia].
      destruct (Z.ltb_spec (0xFFFF800000000000 + 0xFEE00000 + r) (0xFFFF800000000000 + 0xFEE00000 + 0x400)); [|lia].
      split; [done|]. split; [|simpl; lia]. intros r'. simpl. do 2 f_equal. lia.
    + intros d r v d' Hr Hin. rewrite board_lapic_read in Hin by done. injection Hin as <- <-.
      split_and!; [done..|lia|lia|]. by intros ->.
    + intros d v d'. simpl. intros [= <- <-]. simpl. split_and!; [done..|lia|lia|done].
  - split; [done|done|]. intros d v. simpl. lia.
  - split; vm_compute; discriminate.
  - lia.
  - lia.
  - split; [done|]. intros d. simpl. split; [|done]. apply Z.mod_small. unfold board_cfg. repeat case_match; lia.
  - intros d x _. split; [done|]. intros d'. simpl. rewrite andb_false_r. by left.
  - lia.
Qed.

Lemma sample_firmware fuel : (2 < fuel)%nat →
  firmware sample_rom sample_off sample_loader fuel board_lapic board_hpet (sample_off + 0xE2000) (sample_off + 0xE3000)
    [sample_off + 0xE202C; sample_off + 0xE2038].
Proof.
  intros Hf. split.
  - vm_compute. discriminate.
  - vm_compute. discriminate.
  - vm_compute. reflexivity.
  - vm_compute. reflexivity.
  - split; vm_compute; discriminate.
  - constructor; [vm_compute; reflexivity|vm_compute; discriminate|].
    constructor; [vm_compute; reflexivity|vm_compute; discriminate|]. apply entries_nil.
  - simpl. lia.
  - vm_compute. reflexivity.
  - vm_compute. reflexivity.
  - vm_compute. reflexivity.
Qed.

Lemma sample_memory : usable_memory sample_loader (Entry 0x8000 0x200000 0) 0x8000 [Entry 0 0x8000 1; Entry 0x9000 0x1FF000 0] 9.
Proof.
  split.
  - vm_compute. reflexivity.
  - vm_compute. reflexivity.
  - vm_compute. reflexivity.
  - vm_compute. discriminate.
  - intros e [->|[->|[]%elem_of_nil]%elem_of_cons]%elem_of_cons; vm_compute; discriminate.
  - apply Forall_cons. split; [intros Hm; vm_compute in Hm; discriminate|]. apply Forall_cons. split; [intros _|by apply Forall_nil].
    split_and!; vm_compute; try reflexivity; discriminate.
  - lia.
  - intros i Hi. exists (Entry 0x9000 0x1FF000 0). unfold HEAP_SIZE_PAGES in Hi. simpl. split; [right; left|]. split; [reflexivity|lia].
Qed.

(** A string of the sample image, decided. *)
Lemma sample_cstr ptr w : bytes_at sample_rom ptr (zlen w) = w → bool_decide (0 ∉ w) = true → ld8 sample_rom (ptr + zlen w) = 0 →
  is_cstr sample_rom ptr w.
Proof. intros Hb Hw Hz. split; [exact Hb|]. split; [|exact Hz]. by apply bool_decide_eq_true in Hw. Qed.

Lemma sample_strings fuel : 100001 < Z.of_nat fuel →
  strings_ok sample_rom sample_loader sample_image fuel 0 (info "INIT: Booting..") (info "INIT: SSE enabled.") (chars "idle").
Proof.
  intros Hf. split.
  - do 4 eexists. split; [split; [apply sample_cstr; vm_compute; reflexivity|]; split; [simpl; lia|vm_compute; reflexivity]|].
    split; [split; [apply sample_cstr; vm_compute; reflexivity|]; split; [simpl; lia|vm_compute; reflexivity]|].
    split; vm_compute; reflexivity.
  - split_and!; vm_compute; try discriminate; reflexivity.
  - apply sample_cstr; vm_compute; reflexivity.
  - apply sample_cstr; vm_compute; reflexivity.
  - split; [apply sample_cstr; vm_compute; reflexivity|]. split; [vm_compute; discriminate|simpl; lia].
Qed.

Lemma sample_powered : powered_on sample_off sample_image power_on.
Proof.
  split; [split; reflexivity|done|vm_compute; discriminate|intros x; vm_compute; discriminate|done|exact initial_slot|reflexivity].
Qed.

